(** * poll2 run controller (poll2_core.cpp): a shallow embedding

    The definitions below follow [Poll::SplitParameterArgs],
    [Poll::OpenOutputFile], [Poll::CloseOutputFile], [Poll::write_data],
    [Poll::broadcast_data] and [Poll::ReadFIFO] of poll2_core.cpp.

    Conventions.
    - [Pixie16::word_t] and [unsigned int] are 32-bit unsigned integers,
      [size_t] is a 64-bit unsigned integer; both are carried in [Z] and the
      wrap-around is written out with [to_word] and [to_size].
    - [std::string] is [string]; [std::string::npos] is [None].
    - Terminal output, socket traffic and file operations are recorded as
      [event]s in a log kept next to the program state.
    - An access outside the [fifoData] array, and a use of [mca_] while it
      points to no object, are undefined behaviour in the source; the
      embedding stops there with [Undefined]. *)

From Stdlib Require Import ZArith List Lia Bool String Ascii QArith.
Import ListNotations.
Local Open Scope Z_scope.

(* ===================================================================== *)
(** ** Machine integers *)

Definition to_word (z : Z) : Z := z mod 2 ^ 32.
Definition to_size (z : Z) : Z := z mod 2 ^ 64.

Definition INT_MIN : Z := - 2 ^ 31.
Definition INT_MAX : Z := 2 ^ 31 - 1.

(* ===================================================================== *)
(** ** Command arguments: [Poll::SplitParameterArgs] *)

Module Args.

Local Open Scope string_scope.

(** [std::string::find_first_not_of(chars)]: position of the first character
    that is not in [chars]. *)
Fixpoint mem_char (c : ascii) (chars : string) : bool :=
  match chars with
  | EmptyString => false
  | String d rest => if Ascii.eqb c d then true else mem_char c rest
  end.

Fixpoint find_first_not_of (s chars : string) : option nat :=
  match s with
  | EmptyString => None
  | String c rest =>
      if mem_char c chars then option_map S (find_first_not_of rest chars)
      else Some O
  end.

(** [std::string::find(ch)]. *)
Fixpoint find (s : string) (ch : ascii) : option nat :=
  match s with
  | EmptyString => None
  | String c rest =>
      if Ascii.eqb c ch then Some O else option_map S (find rest ch)
  end.

(** [std::string::substr(pos, count)]; [count = None] is [npos], that is,
    up to the end of the string.  Every call in [SplitParameterArgs] has
    [pos <= size()], so the out-of-range exception of [substr] cannot occur. *)
Fixpoint take (n : nat) (s : string) : string :=
  match n, s with
  | O, _ => EmptyString
  | S _, EmptyString => EmptyString
  | S k, String c rest => String c (take k rest)
  end.

Fixpoint drop (n : nat) (s : string) : string :=
  match n, s with
  | O, _ => s
  | S _, EmptyString => EmptyString
  | S k, String _ rest => drop k rest
  end.

Definition substr (s : string) (pos : nat) (count : option nat) : string :=
  match count with
  | None => drop pos s
  | Some n => take n (drop pos s)
  end.

(** [std::stoi(str)] is [strtol] in base 10 followed by a range check:
    leading white space is skipped, one optional sign is read, then the
    longest run of decimal digits.  No digit: [std::invalid_argument].
    Value outside [int]: [std::out_of_range]. *)
Inductive stoi_result : Type :=
| StoiOk (v : Z)
| StoiInvalidArgument
| StoiOutOfRange.

Definition is_space (c : ascii) : bool :=
  let n := nat_of_ascii c in
  (Nat.eqb n 32 || (Nat.leb 9 n && Nat.leb n 13))%bool.

Definition is_digit (c : ascii) : bool :=
  let n := nat_of_ascii c in (Nat.leb 48 n && Nat.leb n 57)%bool.

Definition digit_val (c : ascii) : Z := Z.of_nat (nat_of_ascii c) - 48.

Fixpoint skip_space (s : string) : string :=
  match s with
  | String c rest => if is_space c then skip_space rest else s
  | EmptyString => s
  end.

(** Reads the digits at the front of [s]; [seen] tells whether a digit has
    been read, [acc] is the value so far. *)
Fixpoint read_digits (s : string) (seen : bool) (acc : Z) : bool * Z :=
  match s with
  | String c rest =>
      if is_digit c then read_digits rest true (10 * acc + digit_val c)
      else (seen, acc)
  | EmptyString => (seen, acc)
  end.

Definition stoi (str : string) : stoi_result :=
  let s := skip_space str in
  let '(neg, s) :=
    match s with
    | String "-" rest => (true, rest)
    | String "+" rest => (false, rest)
    | _ => (false, s)
    end in
  let '(seen, mag) := read_digits s false 0 in
  if negb seen then StoiInvalidArgument
  else
    let v := if neg then - mag else mag in
    if ((v <? INT_MIN) || (INT_MAX <? v))%bool%Z then StoiOutOfRange
    else StoiOk v.

(** Result of a call: the returned [bool] with the two reference arguments
    as the call leaves them, or the [std::out_of_range] of [std::stoi], which
    the function does not catch. *)
Inductive split_result : Type :=
| SplitReturn (ret : bool) (start stop : Z)
| SplitThrowsOutOfRange.

Definition SplitParameterArgs (arg : string) (start stop : Z) : split_result :=
  match find_first_not_of arg "-0123456789:" with
  | Some _ => SplitReturn false start stop
  | None =>
      let delimeterPos := find arg ":" in
      match stoi (substr arg 0 delimeterPos) with
      | StoiInvalidArgument => SplitReturn false start stop
      | StoiOutOfRange => SplitThrowsOutOfRange
      | StoiOk a =>
          let start := a in
          match delimeterPos with
          | Some p =>
              match stoi (substr arg (p + 1) None) with
              | StoiInvalidArgument => SplitReturn false start stop
              | StoiOutOfRange => SplitThrowsOutOfRange
              | StoiOk b =>
                  let stop := b in
                  if ((start <? 0) || (stop <? 0) || (stop <? start))%bool%Z
                  then SplitReturn false start stop
                  else SplitReturn true start stop
              end
          | None => SplitReturn true start start
          end
      end
  end.

(** How a decimal integer is written: an optional minus sign and a
    non-empty run of digits. *)
Definition all_digits (ds : string) : bool :=
  match ds with
  | EmptyString => false
  | _ => (fix go (s : string) : bool :=
            match s with
            | EmptyString => true
            | String c rest => (is_digit c && go rest)%bool
            end) ds
  end.

Fixpoint digits_val (ds : string) (acc : Z) : Z :=
  match ds with
  | EmptyString => acc
  | String c rest => digits_val rest (10 * acc + digit_val c)
  end.

Definition sign_str (neg : bool) : string := if neg then "-" else "".

Definition numeral (neg : bool) (ds : string) : string := sign_str neg ++ ds.

Definition numeral_val (neg : bool) (ds : string) : Z :=
  if neg then - digits_val ds 0 else digits_val ds 0.

Definition in_int (v : Z) : Prop := INT_MIN <= v <= INT_MAX.

(** What follows a numeral does not continue it. *)
Definition stops_digits (rest : string) : Prop :=
  match rest with
  | EmptyString => True
  | String c _ => is_digit c = false
  end.

End Args.

(* ===================================================================== *)
(** ** Results of a modelled call *)

(** [Done a]: the call completes with [a].
    [Undefined]: the source reads or writes outside the [fifoData] array
    or, in the run control, uses [mca_] while it points to no [McaRoot]
    object.
    [OutOfFuel]: the bound given to the model of a loop was too small; the
    lemmas [parse_loop_spec], [copy_partial_spec] and
    [broadcast_loop_correct] show that the bounds used below suffice, and
    [ReadFIFO_fuel] that [ReadFIFO] never ends this way. *)
Inductive result (A : Type) : Type :=
| Done (a : A)
| Undefined
| OutOfFuel.
Arguments Done {A} a.
Arguments Undefined {A}.
Arguments OutOfFuel {A}.

Definition bind {A B : Type} (r : result A) (k : A -> result B) : result B :=
  match r with
  | Done a => k a
  | Undefined => Undefined
  | OutOfFuel => OutOfFuel
  end.

Notation "x <- r ;; k" := (bind r (fun x => k))
  (at level 61, r at next level, right associativity).

(* ===================================================================== *)
(** ** Arrays of words *)

(** The words [buf[pos], ..., buf[pos + len - 1]]. *)
Definition block (buf : Z -> Z) (pos len : Z) : list Z :=
  map (fun i => buf (pos + Z.of_nat i)) (seq 0 (Z.to_nat len)).

(** [buf[pos] = v]. *)
Definition upd (buf : Z -> Z) (pos v : Z) : Z -> Z :=
  fun j => if j =? pos then v else buf j.

(** [buf[pos + i] = l[i]] for every [i < l.size()]. *)
Definition blit (buf : Z -> Z) (pos : Z) (l : list Z) : Z -> Z :=
  fun j =>
    if (pos <=? j) && (j <? pos + Z.of_nat (List.length l))
    then nth (Z.to_nat (j - pos)) l 0
    else buf j.

(** [std::max_element] followed by the dereference [*maxWords]; on an empty
    vector the iterator is [end()] and the dereference is undefined. *)
Definition max_element (l : list Z) : result Z :=
  match l with
  | [] => Undefined
  | x :: rest => Done (fold_left Z.max rest x)
  end.

(* ===================================================================== *)
(** ** What the program prints, sends and writes *)

Inductive message : Type :=
| MsgNoFileOpen                       (* CloseOutputFile: "No file is open." *)
| MsgClosed                           (* CloseOutputFile: OkayStr *)
| MsgFileAlreadyOpen                  (* OpenOutputFile: "A file is already open!" *)
| MsgOpenFailed                       (* OpenOutputFile: "Failed to open output file!" *)
| MsgOpened                           (* OpenOutputFile: OkayStr and the file name *)
| MsgRecordingNoFile                  (* write_data: "Recording data, but no file is open!" *)
| MsgMaxFileSize (bytes : Z)          (* write_data: "Maximum ifile size reached." *)
| MsgWriting (nWords : Z)             (* write_data: "Writing n words." *)
| MsgSplitting (nWords chunks fragment : Z)  (* broadcast_data, debug *)
| MsgNegativeFifo (mod_ : Z)          (* "Number of FIFO words less than 0" *)
| MsgFullFifo (mod_ nWords : Z)       (* "Full FIFO in module ... ABORTING!" *)
| MsgReadFailed (mod_ nWords : Z)     (* "Unable to read ... from module ..." *)
| MsgRead (mod_ nWords partialWords pos : Z)  (* "Read ... words from module ..." *)
| MsgSlotMismatch (slotRead slotExpected : Z)
| MsgChannelInvalid (chanRead : Z)    (* "Channel read (...) not valid!" *)
| MsgZeroEventSize (mod_ : Z)         (* "ZERO EVENT SIZE in mod ..." *)
| MsgPartialEvent (partialSize eventSize : Z)   (* debug *)
| MsgCorrupted (mod_ parsed nWords : Z)  (* "Parsing indicated corrupted data" *)
| MsgPriorEvent (prevEventSize : Z) (words : list Z)
| MsgErrorEvent (eventSize : Z) (truncated : bool) (words : list Z)
| MsgNextEvent (nextEventSize : Z) (truncated : bool) (words : list Z)
| MsgWritingBroadcasting (dataWords : Z).

Inductive event : Type :=
| Stdout (m : message)
| ClientMessage (msg : string) (len : Z)   (* client->SendMessage(text, len) *)
| ClientData (words : list Z)              (* client->SendMessage(shm_data, 4 * |words|) *)
| FilePacket                               (* output_file.SendPacket(client) *)
| FileClose                                (* output_file.CloseFile() *)
| FileOpenNew (runNum : Z) (continueRun ok : bool)  (* output_file.OpenNewFile(...) *)
| FileWrite (nWords : Z)                   (* output_file.Write(data, nWords) *)
| StatsClear
| StatsDump
| StatsAddEvent (mod_ chan bytes : Z).     (* statsHandler->AddEvent(mod, chan, bytes) *)

(* ===================================================================== *)
(** ** Constants, configuration and collaborators that poll2_core.cpp uses
       but does not define *)

(** Modelled from the spec: [MIN_FIFO_READ] and [EXTERNAL_FIFO_LENGTH] are
    the spec's [FIFO_MIN] and [FIFO_MAX] (their [#define]s are in the
    headers of the interface); [n_cards] and [GetSlotNumber] come from the
    interface configuration; the last three fields are what [PollOutputFile]
    sees of the file system: whether the output path is writable, the size
    of a file right after [OpenNewFile], and the next run number without a
    name collision. *)
Record Config : Type := {
  MIN_FIFO_READ : Z;
  EXTERNAL_FIFO_LENGTH : Z;
  n_cards : nat;
  GetSlotNumber : nat -> Z;
  path_writable : bool;
  fresh_filesize : Z;
  next_free_run : Z -> Z
}.

(** Modelled from the spec: the hardware interface ([pif_]).
    [CheckFIFOWords t mod] is what [pif_->CheckFIFOWords(mod)] returns in
    polling round [t]; [ReadFIFOWords_ok mod] tells whether
    [pif_->ReadFIFOWords] succeeds for [mod] in this cycle, and
    [ReadFIFOWords_word mod i] is the [i]-th word it then delivers. *)
Record Hardware : Type := {
  CheckFIFOWords : nat -> nat -> Z;
  ReadFIFOWords_ok : nat -> bool;
  ReadFIFOWords_word : nat -> nat -> Z
}.

(** Modelled from the spec: the state of [PollOutputFile] (section 4.4). *)
Record PollOutputFile : Type := {
  is_open : bool;
  filesize : Z;
  sub_file : Z
}.

(** The members of [Poll] that the modelled functions read or write; [out]
    is the log of events, oldest first. *)
Record Poll : Type := {
  acq_running : bool;
  shm_mode : bool;
  is_quiet : bool;
  debug_mode : bool;
  threshWords : Z;
  force_spill : bool;
  had_error : bool;
  do_stop_acq : bool;
  record_data : bool;
  file_open : bool;
  next_run_num : Z;
  partialEvents : nat -> list Z;
  fifoData : Z -> Z;
  output_file : PollOutputFile;
  out : list event
}.

(** Assignments to one member. *)
Definition set_force_spill (v : bool) (s : Poll) : Poll :=
  {| acq_running := acq_running s; shm_mode := shm_mode s;
     is_quiet := is_quiet s; debug_mode := debug_mode s;
     threshWords := threshWords s; force_spill := v;
     had_error := had_error s; do_stop_acq := do_stop_acq s;
     record_data := record_data s; file_open := file_open s;
     next_run_num := next_run_num s; partialEvents := partialEvents s;
     fifoData := fifoData s; output_file := output_file s; out := out s |}.

Definition set_had_error (v : bool) (s : Poll) : Poll :=
  {| acq_running := acq_running s; shm_mode := shm_mode s;
     is_quiet := is_quiet s; debug_mode := debug_mode s;
     threshWords := threshWords s; force_spill := force_spill s;
     had_error := v; do_stop_acq := do_stop_acq s;
     record_data := record_data s; file_open := file_open s;
     next_run_num := next_run_num s; partialEvents := partialEvents s;
     fifoData := fifoData s; output_file := output_file s; out := out s |}.

Definition set_do_stop_acq (v : bool) (s : Poll) : Poll :=
  {| acq_running := acq_running s; shm_mode := shm_mode s;
     is_quiet := is_quiet s; debug_mode := debug_mode s;
     threshWords := threshWords s; force_spill := force_spill s;
     had_error := had_error s; do_stop_acq := v;
     record_data := record_data s; file_open := file_open s;
     next_run_num := next_run_num s; partialEvents := partialEvents s;
     fifoData := fifoData s; output_file := output_file s; out := out s |}.

Definition set_record_data (v : bool) (s : Poll) : Poll :=
  {| acq_running := acq_running s; shm_mode := shm_mode s;
     is_quiet := is_quiet s; debug_mode := debug_mode s;
     threshWords := threshWords s; force_spill := force_spill s;
     had_error := had_error s; do_stop_acq := do_stop_acq s;
     record_data := v; file_open := file_open s;
     next_run_num := next_run_num s; partialEvents := partialEvents s;
     fifoData := fifoData s; output_file := output_file s; out := out s |}.

Definition set_file_open (v : bool) (s : Poll) : Poll :=
  {| acq_running := acq_running s; shm_mode := shm_mode s;
     is_quiet := is_quiet s; debug_mode := debug_mode s;
     threshWords := threshWords s; force_spill := force_spill s;
     had_error := had_error s; do_stop_acq := do_stop_acq s;
     record_data := record_data s; file_open := v;
     next_run_num := next_run_num s; partialEvents := partialEvents s;
     fifoData := fifoData s; output_file := output_file s; out := out s |}.

Definition set_next_run_num (v : Z) (s : Poll) : Poll :=
  {| acq_running := acq_running s; shm_mode := shm_mode s;
     is_quiet := is_quiet s; debug_mode := debug_mode s;
     threshWords := threshWords s; force_spill := force_spill s;
     had_error := had_error s; do_stop_acq := do_stop_acq s;
     record_data := record_data s; file_open := file_open s;
     next_run_num := v; partialEvents := partialEvents s;
     fifoData := fifoData s; output_file := output_file s; out := out s |}.

Definition set_partialEvents (v : nat -> list Z) (s : Poll) : Poll :=
  {| acq_running := acq_running s; shm_mode := shm_mode s;
     is_quiet := is_quiet s; debug_mode := debug_mode s;
     threshWords := threshWords s; force_spill := force_spill s;
     had_error := had_error s; do_stop_acq := do_stop_acq s;
     record_data := record_data s; file_open := file_open s;
     next_run_num := next_run_num s; partialEvents := v;
     fifoData := fifoData s; output_file := output_file s; out := out s |}.

Definition set_fifoData (v : Z -> Z) (s : Poll) : Poll :=
  {| acq_running := acq_running s; shm_mode := shm_mode s;
     is_quiet := is_quiet s; debug_mode := debug_mode s;
     threshWords := threshWords s; force_spill := force_spill s;
     had_error := had_error s; do_stop_acq := do_stop_acq s;
     record_data := record_data s; file_open := file_open s;
     next_run_num := next_run_num s; partialEvents := partialEvents s;
     fifoData := v; output_file := output_file s; out := out s |}.

Definition set_output_file (v : PollOutputFile) (s : Poll) : Poll :=
  {| acq_running := acq_running s; shm_mode := shm_mode s;
     is_quiet := is_quiet s; debug_mode := debug_mode s;
     threshWords := threshWords s; force_spill := force_spill s;
     had_error := had_error s; do_stop_acq := do_stop_acq s;
     record_data := record_data s; file_open := file_open s;
     next_run_num := next_run_num s; partialEvents := partialEvents s;
     fifoData := fifoData s; output_file := v; out := out s |}.

Definition set_out (v : list event) (s : Poll) : Poll :=
  {| acq_running := acq_running s; shm_mode := shm_mode s;
     is_quiet := is_quiet s; debug_mode := debug_mode s;
     threshWords := threshWords s; force_spill := force_spill s;
     had_error := had_error s; do_stop_acq := do_stop_acq s;
     record_data := record_data s; file_open := file_open s;
     next_run_num := next_run_num s; partialEvents := partialEvents s;
     fifoData := fifoData s; output_file := output_file s; out := v |}.

Definition emit (e : event) (s : Poll) : Poll := set_out (out s ++ [e]) s.
Definition cout (m : message) (s : Poll) : Poll := emit (Stdout m) s.

(** Assignment to [partialEvents[mod]]. *)
Definition set_partial (mod_ : nat) (l : list Z) (s : Poll) : Poll :=
  set_partialEvents
    (fun m => if Nat.eqb m mod_ then l else partialEvents s m) s.

(* ===================================================================== *)
(** ** [PollOutputFile] *)

Module OutputFile.

(** Modelled from the spec: [CloseFile]; closing always clears the open
    flag. *)
Definition CloseFile (f : PollOutputFile) : PollOutputFile :=
  {| is_open := false; filesize := filesize f; sub_file := sub_file f |}.

(** Modelled from the spec: [OpenNewFile(title, runNum, prefix, dir,
    continueRun)] fails if the path is not writable; the sub-file counter is
    reset on a new run and incremented on a rollover. *)
Definition OpenNewFile (cfg : Config) (continueRun : bool)
    (f : PollOutputFile) : bool * PollOutputFile :=
  if path_writable cfg then
    (true, {| is_open := true; filesize := fresh_filesize cfg;
              sub_file := if continueRun then sub_file f + 1 else 0 |})
  else (false, CloseFile f).

(** Modelled from the spec: [Write(bytes, wordCount)] appends the words,
    four bytes each, and returns the number of bytes written; nothing is
    written to a file that is not open. *)
Definition Write (nWords : Z) (f : PollOutputFile) : Z * PollOutputFile :=
  if is_open f then
    (4 * nWords,
     {| is_open := true; filesize := filesize f + 4 * nWords;
        sub_file := sub_file f |})
  else (0, f).

End OutputFile.

(* ===================================================================== *)
(** ** [Poll::CloseOutputFile], [Poll::OpenOutputFile], [Poll::write_data] *)

Definition MAX_FILE_SIZE : Z := 2147483648.

Section Controller.

Variable cfg : Config.

(** [Poll::CloseOutputFile(continueRun)]: the statistics are dumped and
    the run number advances only when the run does not continue.
    [GetNextFileName] advances [next_run_num], an [unsigned int], by
    reference. *)
Definition CloseOutputFile (continueRun : bool) (s : Poll) : bool * Poll :=
  if negb (is_open (output_file s)) then
    (false, set_file_open false (cout MsgNoFileOpen s))
  else
    let s := if negb continueRun then emit StatsDump (emit StatsClear s)
             else s in
    let s := emit FileClose
               (set_output_file (OutputFile.CloseFile (output_file s)) s) in
    let s := emit (ClientMessage "$CLOSE_FILE" 12) s in
    let s := cout MsgClosed (set_file_open false s) in
    let s := if negb continueRun
             then set_next_run_num
                    (to_word (next_free_run cfg (next_run_num s))) s
             else s in
    (true, s).

(** [Poll::OpenOutputFile(continueRun)]. *)
Definition OpenOutputFile (continueRun : bool) (s : Poll) : bool * Poll :=
  if is_open (output_file s) then
    let s := cout MsgFileAlreadyOpen s in
    let s := snd (CloseOutputFile false s) in
    (false, set_record_data false (set_had_error true s))
  else
    let '(ok, f) := OutputFile.OpenNewFile cfg continueRun (output_file s) in
    let s := emit (FileOpenNew (next_run_num s) continueRun ok)
               (set_output_file f s) in
    if negb ok then
      (false, set_record_data false (set_had_error true (cout MsgOpenFailed s)))
    else
      let s := cout MsgOpened s in
      let s := emit StatsDump (emit StatsClear s) in
      let s := emit (ClientMessage "$OPEN_FILE" 12) s in
      (true, set_file_open true s).

(** [nWords] is an [unsigned int]; [4*nWords + 65552] is computed in
    [unsigned int] and only then converted to [std::streampos].  The words
    themselves ([data]) do not reach the model of the file, only their
    number does. *)
Definition write_data (nWords : Z) (s : Poll) : Z * Poll :=
  if negb (is_open (output_file s)) then
    (0, set_had_error true (set_do_stop_acq true (cout MsgRecordingNoFile s)))
  else
    let current_filesize := filesize (output_file s) in
    let s :=
      if MAX_FILE_SIZE <? current_filesize + to_word (4 * nWords + 65552) then
        let s := cout (MsgMaxFileSize (current_filesize + 65552)) s in
        let s := snd (CloseOutputFile true s) in
        snd (OpenOutputFile true s)
      else s in
    let s := if negb (is_quiet s) then cout (MsgWriting nWords) s else s in
    let '(bytes, f) := OutputFile.Write nWords (output_file s) in
    (bytes, emit (FileWrite nWords) (set_output_file f s)).

(* ===================================================================== *)
(** ** [Poll::broadcast_data] *)

Definition maxShmSizeL : Z := 4050.

(** The [while (words_bcast < nWords)] loop; the events are the datagrams
    in the order they are sent.  [usleep(1)] between them is not modelled. *)
Fixpoint broadcast_loop (fuel : nat) (data : Z -> Z)
    (nWords num_net_chunks net_chunk words_bcast : Z) : result (list event) :=
  match fuel with
  | O => OutOfFuel
  | S fuel' =>
      if words_bcast <? nWords then
        if maxShmSizeL <? to_word (nWords - words_bcast) then
          rest <- broadcast_loop fuel' data nWords num_net_chunks
                    (to_word (net_chunk + 1))
                    (to_word (words_bcast + maxShmSizeL)) ;;
          Done (ClientData ([net_chunk; num_net_chunks]
                            ++ block data words_bcast maxShmSizeL) :: rest)
        else
          rest <- broadcast_loop fuel' data nWords num_net_chunks
                    (to_word (net_chunk + 1))
                    (to_word (words_bcast + to_word (nWords - words_bcast))) ;;
          Done (ClientData ([net_chunk; num_net_chunks]
                            ++ block data words_bcast
                                 (to_word (nWords - words_bcast))) :: rest)
      else Done []
  end.

(** [num_net_chunks]: [nWords / maxShmSizeL], plus one when
    [num_net_remain = nWords % maxShmSizeL] is not zero. *)
Definition num_net_chunks_of (nWords : Z) : Z :=
  if negb (nWords mod maxShmSizeL =? 0)
  then to_word (nWords / maxShmSizeL + 1)
  else nWords / maxShmSizeL.

(** In [shm_mode] the spill goes out in chunks, otherwise one notification
    packet is sent. *)
Definition broadcast_data (data : Z -> Z) (nWords : Z) (s : Poll)
    : result Poll :=
  if shm_mode s then
    let num_net_chunks := num_net_chunks_of nWords in
    let num_net_remain := nWords mod maxShmSizeL in
    let s := if debug_mode s
             then cout (MsgSplitting nWords num_net_chunks num_net_remain) s
             else s in
    sent <- broadcast_loop (S (Z.to_nat nWords)) data nWords
              num_net_chunks 1 0 ;;
    Done (set_out (out s ++ sent) s)
  else Done (emit FilePacket s).

(* ===================================================================== *)
(** ** [Poll::ReadFIFO] *)

(** [fifoData] is allocated once with [(EXTERNAL_FIFO_LENGTH + 2) * n_cards]
    words. *)
Definition capacity : Z :=
  (EXTERNAL_FIFO_LENGTH cfg + 2) * Z.of_nat (n_cards cfg).

Definition in_bounds (pos len : Z) : bool :=
  (0 <=? pos) && (pos + len <=? capacity).

(** [fifoData[pos] = v]. *)
Definition store (pos v : Z) (s : Poll) : result Poll :=
  if in_bounds pos 1 then Done (set_fifoData (upd (fifoData s) pos v) s)
  else Undefined.

(** [fifoData[pos + i] = l[i]] for all [i]; no access when [l] is empty. *)
Definition store_block (pos : Z) (l : list Z) (s : Poll) : result Poll :=
  match l with
  | [] => Done s
  | _ => if in_bounds pos (Z.of_nat (List.length l))
         then Done (set_fifoData (blit (fifoData s) pos l) s)
         else Undefined
  end.

(** The words read by [for (i = 0; i < len; i++) ... fifoData[pos + i]]. *)
Definition load_block (pos len : Z) (s : Poll) : result (list Z) :=
  if len <=? 0 then Done []
  else if in_bounds pos len then Done (block (fifoData s) pos len)
  else Undefined.

(** The fields of the first word of an event, as [ReadFIFO] extracts them. *)
Definition slotRead (w : Z) : Z := Z.shiftr (Z.land w 0xF0) 4.
Definition chanRead (w : Z) : Z := Z.land w 0xF.
Definition eventSizeRead (w : Z) : Z := Z.shiftr (Z.land w 0x7FFE2000) 17.
Definition virtualChannel (w : Z) : bool := negb (Z.land w 0x20000000 =? 0).

Definition POLL_TRIES : nat := 100.

(** One round of [nWords[mod] = (unsigned int)pif_->CheckFIFOWords(mod)]. *)
Definition poll_once (hw : Hardware) (t : nat) : list Z :=
  map (fun m => to_word (CheckFIFOWords hw t m)) (seq 0 (n_cards cfg)).

(** The polling loop; returns [nWords] and [*maxWords] as the loop leaves
    them.  [tries] counts the rounds left, [t] the rounds done. *)
Fixpoint poll_loop (hw : Hardware) (thresh : Z) (tries t : nat)
    : result (list Z * Z) :=
  match tries with
  | O => Undefined
  | S k =>
      let nWords := poll_once hw t in
      maxWords <- max_element nWords ;;
      if thresh <? maxWords then Done (nWords, maxWords)
      else match k with
           | O => Done (nWords, maxWords)
           | S _ => poll_loop hw thresh k (S t)
           end
  end.

(** The local variables of the parsing loop. *)
Record parse_state : Type := {
  parseWords : Z;
  eventSize : Z;
  prevEventSize : Z
}.

(** [while (parseWords < dataWords + nWords[mod]) { ... }].  The words read
    lie in the part of [fifoData] that was just written.  [statsHandler] is
    taken to be allocated, as it is after [Initialize]. *)
Fixpoint parse_loop (fuel : nat) (mod_ : nat) (slotExpected : Z)
    (dataWords nWords : Z) (ps : parse_state) (s : Poll)
    : result (parse_state * Poll) :=
  match fuel with
  | O => OutOfFuel
  | S fuel' =>
      if parseWords ps <? dataWords + nWords then
        let w := fifoData s (parseWords ps) in
        let s := if negb (slotRead w =? slotExpected)
                 then set_had_error true
                        (cout (MsgSlotMismatch (slotRead w) slotExpected) s)
                 else s in
        let s := if (chanRead w <? 0) || (15 <? chanRead w)
                 then set_had_error true
                        (cout (MsgChannelInvalid (chanRead w)) s)
                 else s in
        let s := if eventSizeRead w =? 0
                 then set_had_error true
                        (cout (MsgZeroEventSize (Z.of_nat mod_)) s)
                 else s in
        if had_error s then
          Done ({| parseWords := parseWords ps;
                   eventSize := eventSizeRead w;
                   prevEventSize := prevEventSize ps |}, s)
        else
          let s := if negb (virtualChannel w)
                   then emit (StatsAddEvent (Z.of_nat mod_) (chanRead w)
                                (4 * eventSizeRead w)) s
                   else s in
          parse_loop fuel' mod_ slotExpected dataWords nWords
            {| parseWords := parseWords ps + eventSizeRead w;
               eventSize := eventSizeRead w;
               prevEventSize := eventSizeRead w |} s
      else Done (ps, s)
  end.

(** [for (unsigned short i = 0; i < partialSize; i++)
       partialEvents[mod].push_back(fifoData[base + i]);]
    the counter wraps at 65536. *)
Fixpoint copy_partial (fuel : nat) (buf : Z -> Z) (base partialSize i : Z)
    : result (list Z) :=
  match fuel with
  | O => OutOfFuel
  | S fuel' =>
      if i <? partialSize then
        rest <- copy_partial fuel' buf base partialSize ((i + 1) mod 65536) ;;
        Done (buf (base + i) :: rest)
      else Done []
  end.

(** The diagnostic printed when the parser stopped short of the end; [last]
    is [dataWords + nWords[mod]]. *)
Definition dump_corrupted (mod_ : nat) (dataWords nWords : Z)
    (ps : parse_state) (s : Poll) : result Poll :=
  let last := dataWords + nWords in
  let s := cout (MsgCorrupted (Z.of_nat mod_) (parseWords ps - dataWords)
                    nWords) s in
  prior <- load_block (parseWords ps - prevEventSize ps) (prevEventSize ps) s ;;
  let s := cout (MsgPriorEvent (prevEventSize ps) prior) s in
  let outputSize := if 50 <? eventSize ps then 50 else eventSize ps in
  here <- load_block (parseWords ps) outputSize s ;;
  let s := cout (MsgErrorEvent (eventSize ps) (50 <? eventSize ps) here) s in
  let nextEventSize :=
    if parseWords ps + eventSize ps <? last
    then eventSizeRead (fifoData s (parseWords ps + eventSize ps))
    else 0 in
  let outputSize := nextEventSize in
  let outputSize := if 50 <? eventSize ps then 50 else outputSize in
  let outputSize :=
    if last <=? parseWords ps + eventSize ps + outputSize
    then to_size (last - (parseWords ps + eventSize ps))
    else outputSize in
  after <- load_block (parseWords ps + eventSize ps) outputSize s ;;
  let s := cout (MsgNextEvent nextEventSize
                    (negb (outputSize =? nextEventSize)) after) s in
  Done (set_had_error true (set_do_stop_acq true s)).

(** How one pass of the loop over the modules ends: [Next] goes on with the
    next module, [Stop] is [return false]. *)
Inductive step : Type :=
| Next (s : Poll) (dataWords : Z)
| Stop (s : Poll).

(** The two-word record of a module without data. *)
Definition empty_record (mod_ : nat) (s : Poll) (dataWords : Z) : result step :=
  s <- store dataWords 2 s ;;
  s <- store (dataWords + 1) (Z.of_nat mod_) s ;;
  Done (Next s (dataWords + 2)).

(** The body of [for (unsigned short mod = 0; mod < n_cards; mod++)];
    [nw] is [nWords[mod]]. *)
Definition drain_module (hw : Hardware) (nWords : list Z) (mod_ : nat)
    (s : Poll) (dataWords : Z) : result step :=
  let nw := nth mod_ nWords 0 in
  if nw <? MIN_FIFO_READ cfg then empty_record mod_ s dataWords
  else if nw <? 0 then
    empty_record mod_ (cout (MsgNegativeFifo (Z.of_nat mod_)) s) dataWords
  else if EXTERNAL_FIFO_LENGTH cfg <=? nw then
    Done (Stop (set_do_stop_acq true (set_had_error true
                  (cout (MsgFullFifo (Z.of_nat mod_) nw) s))))
  else
    let dataWords := dataWords + 1 in
    s <- store dataWords (Z.of_nat mod_) s ;;
    let dataWords := dataWords + 1 in
    let partial := partialEvents s mod_ in
    let npartial := Z.of_nat (List.length partial) in
    s <- store_block dataWords partial s ;;
    if negb (ReadFIFOWords_ok hw mod_) then
      Done (Stop (set_do_stop_acq true (set_had_error true
                    (cout (MsgReadFailed (Z.of_nat mod_) nw) s))))
    else
      s <- store_block (dataWords + npartial)
             (map (ReadFIFOWords_word hw mod_) (seq 0 (Z.to_nat nw))) s ;;
      let s := if negb (is_quiet s) || debug_mode s
               then cout (MsgRead (Z.of_nat mod_) nw npartial dataWords) s
               else s in
      let nw := to_word (nw + npartial) in
      let s := set_partial mod_ [] s in
      let slotExpected := to_word (GetSlotNumber cfg mod_) in
      r <- parse_loop (S (Z.to_nat nw)) mod_ slotExpected dataWords nw
             {| parseWords := dataWords; eventSize := 0; prevEventSize := 0 |}
             s ;;
      let '(ps, s) := r in
      if dataWords + nw <? parseWords ps then
        let missingWords := to_word (parseWords ps - dataWords - nw) in
        let partialSize := to_word (eventSize ps - missingWords) in
        let s := if debug_mode s
                 then cout (MsgPartialEvent partialSize (eventSize ps)) s
                 else s in
        frag <- copy_partial (Z.to_nat 65537) (fifoData s)
                  (parseWords ps - eventSize ps) partialSize 0 ;;
        let s := set_partial mod_ (partialEvents s mod_ ++ frag) s in
        let nw := to_word (nw - partialSize) in
        s <- store (dataWords - 2) (to_word (nw + 2)) s ;;
        Done (Next s (dataWords + nw))
      else if parseWords ps <? dataWords + nw then
        s <- dump_corrupted mod_ dataWords nw ps s ;;
        Done (Stop s)
      else
        s <- store (dataWords - 2) (to_word (nw + 2)) s ;;
        Done (Next s (dataWords + nw)).

(** The loop over the modules; [n_cards] is taken to fit the [unsigned
    short] loop counter. *)
Fixpoint drain_modules (hw : Hardware) (nWords : list Z) (mods : list nat)
    (s : Poll) (dataWords : Z) : result step :=
  match mods with
  | [] => Done (Next s dataWords)
  | mod_ :: rest =>
      r <- drain_module hw nWords mod_ s dataWords ;;
      match r with
      | Next s dataWords => drain_modules hw nWords rest s dataWords
      | Stop s => Done (Stop s)
      end
  end.

(** How the part of [ReadFIFO] up to the end of the loop over the modules
    ends.  [Spill s dataWords]: the loop completed and
    [fifoData[0 .. dataWords)] is what [write_data] and [broadcast_data]
    are given. *)
Inductive cycle : Type :=
| NotRunning
| BelowThreshold (s : Poll)
| Aborted (s : Poll)
| Spill (s : Poll) (dataWords : Z).

Definition drain_cycle (hw : Hardware) (s : Poll) : result cycle :=
  if negb (acq_running s) then Done NotRunning
  else
    p <- poll_loop hw (threshWords s) POLL_TRIES 0 ;;
    let '(nWords, maxWords) := p in
    if (threshWords s <? maxWords) || force_spill s then
      let s := set_force_spill false s in
      r <- drain_modules hw nWords (seq 0 (n_cards cfg)) s 0 ;;
      match r with
      | Next s dataWords => Done (Spill s dataWords)
      | Stop s => Done (Aborted s)
      end
    else Done (BelowThreshold s).

(** The timing and statistics step between the loop and the two calls only
    talks to the clock and to [StatsHandler]; it is not modelled. *)
Definition ReadFIFO (hw : Hardware) (s : Poll) : result (bool * Poll) :=
  c <- drain_cycle hw s ;;
  match c with
  | NotRunning => Done (false, s)
  | BelowThreshold s => Done (true, s)
  | Aborted s => Done (false, s)
  | Spill s dataWords =>
      let s := if negb (is_quiet s) || debug_mode s
               then cout (MsgWritingBroadcasting dataWords) s
               else s in
      let s := if record_data s
               then snd (write_data (to_word dataWords) s)
               else s in
      s <- broadcast_data (fifoData s) (to_word dataWords) s ;;
      Done (true, s)
  end.

End Controller.

(* ===================================================================== *)
(** ** Concrete configurations and states used in the examples *)

(** The state set up by the constructor [Poll::Poll()]; [threshWords] is
    set by [SetThreshWords], and the contents of [fifoData] are arbitrary. *)
Definition Poll_init (thresh : Z) : Poll :=
  {| acq_running := false; shm_mode := false; is_quiet := false;
     debug_mode := false; threshWords := thresh; force_spill := false;
     had_error := false; do_stop_acq := false; record_data := false;
     file_open := false; next_run_num := 1;
     partialEvents := fun _ => [];
     fifoData := fun _ => 0;
     output_file := {| is_open := false; filesize := 0; sub_file := 0 |};
     out := [] |}.

(** A crate of two modules in slots 2 and 3 with [MIN_FIFO_READ = 9] and
    [EXTERNAL_FIFO_LENGTH = 131072]; new files start with two 8194-word
    buffers. *)
Definition crate : Config :=
  {| MIN_FIFO_READ := 9; EXTERNAL_FIFO_LENGTH := 131072; n_cards := 2;
     GetSlotNumber := fun m => Z.of_nat m + 2;
     path_writable := true; fresh_filesize := 65552;
     next_free_run := fun r => r + 1 |}.

(** A state with an open output file of [size] bytes. *)
Definition recording (size : Z) : Poll :=
  set_record_data true
    (set_file_open true
       (set_output_file {| is_open := true; filesize := size; sub_file := 0 |}
          (Poll_init 0))).

(* ===================================================================== *)
(** ** Notions used in the statements *)

(** The payload of a chunked datagram: what follows the two header words. *)
Definition datagram_payload (e : event) : list Z :=
  match e with
  | ClientData (_ :: _ :: ws) => ws
  | _ => []
  end.

(** Length of the last chunk when [r > 0] words are left. *)
Definition last_chunk (r : Z) : Z := r - maxShmSizeL * ((r - 1) / maxShmSizeL).

(** [extends P o o']: the log [o'] is [o] followed by events that all
    satisfy [P]. *)
Definition extends (P : event -> Prop) (o o' : list event) : Prop :=
  exists l, o' = o ++ l /\ Forall P l.

(** The events of the parsing loop. *)
Definition parse_event (e : event) : Prop :=
  match e with
  | Stdout (MsgSlotMismatch _ _) | Stdout (MsgZeroEventSize _)
  | StatsAddEvent _ _ _ => True
  | _ => False
  end.

(** What the parsing loop guarantees about its variables once
    [parseWords] has reached [last = dataWords + nWords[mod]]: either it
    stands exactly at [last], or the event read last starts before [last]
    and has between 1 and 16383 words. *)
Definition parsed_to (dataWords last : Z) (ps : parse_state) : Prop :=
  last <= parseWords ps ->
  parseWords ps = last \/
  (0 < eventSize ps <= 16383 /\
   dataWords <= parseWords ps - eventSize ps < last).

Section CycleSpec.
Variables (cfg : Config) (hw : Hardware) (nWords : list Z).

(** The words that [pif_->ReadFIFOWords] delivers for module [mod_] in this
    cycle: none if the module is skipped, else [nWords[mod]] words. *)
Definition fifo_read (mod_ : nat) : list Z :=
  let nw := nth mod_ nWords 0 in
  if nw <? MIN_FIFO_READ cfg then []
  else map (ReadFIFOWords_word hw mod_) (seq 0 (Z.to_nat nw)).

(** The events of the loop over the modules.  A full-FIFO message is only
    printed for a module whose count is at least [EXTERNAL_FIFO_LENGTH]. *)
Definition drain_event (e : event) : Prop :=
  match e with
  | Stdout (MsgFullFifo m n) =>
      EXTERNAL_FIFO_LENGTH cfg <= n /\ n = nth (Z.to_nat m) nWords 0
  | Stdout (MsgReadFailed _ _) | Stdout (MsgRead _ _ _ _)
  | Stdout (MsgSlotMismatch _ _) | Stdout (MsgZeroEventSize _)
  | Stdout (MsgPartialEvent _ _) | Stdout (MsgCorrupted _ _ _)
  | Stdout (MsgPriorEvent _ _) | Stdout (MsgErrorEvent _ _ _)
  | Stdout (MsgNextEvent _ _ _) | StatsAddEvent _ _ _ => True
  | _ => False
  end.

(** A carried fragment is shorter than the longest event. *)
Definition partial_ok (s : Poll) (mod_ : nat) : Prop :=
  Z.of_nat (List.length (partialEvents s mod_)) <= 16382.

(** A fragment that is the beginning of one event from [slot]: nothing, or
    words that start with the first word of an event from [slot] whose
    size field announces more words than the fragment has. *)
Definition truncated_event (slot : Z) (frag : list Z) : Prop :=
  match frag with
  | [] => True
  | w :: _ =>
      slotRead w = slot /\ Z.of_nat (List.length frag) < eventSizeRead w
  end.

(** What one pass of the loop over the modules guarantees when it goes on
    to the next module. *)
Definition module_drained (mod_ : nat) (s : Poll) (d : Z) (s' : Poll) (d' : Z)
    : Prop :=
  d + 2 <= d' <= capacity cfg /\
  (forall j, j < d -> fifoData s' j = fifoData s j) /\
  fifoData s' d = d' - d /\
  fifoData s' (d + 1) = Z.of_nat mod_ /\
  block (fifoData s') (d + 2) (d' - d - 2) ++ partialEvents s' mod_ =
    partialEvents s mod_ ++ fifo_read mod_ /\
  (forall m, m <> mod_ -> partialEvents s' m = partialEvents s m) /\
  partial_ok s' mod_ /\
  (nth mod_ nWords 0 < MIN_FIFO_READ cfg ->
     d' = d + 2 /\ partialEvents s' mod_ = partialEvents s mod_).

End CycleSpec.

(** The section of one module in a spill: [nWords[mod] + 2], the module
    number, and the payload. *)
Definition section_words (mod_ : nat) (payload : list Z) : list Z :=
  Z.of_nat (List.length payload) + 2 :: Z.of_nat mod_ :: payload.

(** One module's section as a reader of the spill sees it. *)
Record module_section : Type := {
  sec_size : Z;
  sec_mod : Z;
  sec_payload : list Z
}.

(** Reading a spill back: [count] sections, each found through its two
    header words. *)
Fixpoint spill_sections (count : nat) (spill : list Z)
    : option (list module_section) :=
  match count with
  | O => match spill with [] => Some [] | _ => None end
  | S k =>
      match spill with
      | size :: m :: rest =>
          if (2 <=? size) && (size - 2 <=? Z.of_nat (List.length rest)) then
            option_map
              (cons {| sec_size := size; sec_mod := m;
                       sec_payload := firstn (Z.to_nat (size - 2)) rest |})
              (spill_sections k (skipn (Z.to_nat (size - 2)) rest))
          else None
      | _ => None
      end
  end.

Definition zsum (l : list Z) : Z := fold_right Z.add 0 l.

(** The counts [nWords] the polling loop of a cycle ends with. *)
Definition cycle_counts (cfg : Config) (hw : Hardware) (s : Poll) : list Z :=
  match poll_loop cfg hw (threshWords s) POLL_TRIES 0 with
  | Done (nWords, _) => nWords
  | _ => []
  end.

(** The words the hardware delivers for a module in a cycle. *)
Definition hardware_words (cfg : Config) (hw : Hardware) (s : Poll)
    (mod_ : nat) : list Z :=
  fifo_read cfg hw (cycle_counts cfg hw s) mod_.

(** The spill that a cycle hands to [write_data] and [broadcast_data]. *)
Definition spill_of (cfg : Config) (hw : Hardware) (s : Poll)
    : option (list Z) :=
  match drain_cycle cfg hw s with
  | Done (Spill s' dataWords) => Some (block (fifoData s') 0 dataWords)
  | _ => None
  end.

(** The payload of a module in a spill. *)
Definition module_payload (cfg : Config) (spill : list Z) (mod_ : nat)
    : list Z :=
  match spill_sections (n_cards cfg) spill with
  | Some secs =>
      sec_payload
        (nth mod_ secs {| sec_size := 0; sec_mod := 0; sec_payload := [] |})
  | None => []
  end.

Definition the_section (mod_ : nat) (payload : list Z) : module_section :=
  {| sec_size := Z.of_nat (List.length payload) + 2;
     sec_mod := Z.of_nat mod_;
     sec_payload := payload |}.

(** The gate of a cycle: the loop over the modules runs when the largest
    count exceeds [threshWords] or a spill is forced. *)
Definition gate_open (cfg : Config) (hw : Hardware) (s : Poll) : bool :=
  match poll_loop cfg hw (threshWords s) POLL_TRIES 0 with
  | Done (_, maxWords) => (threshWords s <? maxWords) || force_spill s
  | _ => false
  end.

(** Messages of branches that can never be taken. *)
Definition live_event (e : event) : Prop :=
  match e with
  | Stdout (MsgNegativeFifo _) | Stdout (MsgChannelInvalid _) => False
  | _ => True
  end.

(** The events of [write_data], [broadcast_data] and the functions they
    call. *)
Definition io_event (e : event) : Prop :=
  match e with
  | Stdout MsgNoFileOpen | Stdout MsgClosed | Stdout MsgFileAlreadyOpen
  | Stdout MsgOpenFailed | Stdout MsgOpened | Stdout MsgRecordingNoFile
  | Stdout (MsgMaxFileSize _) | Stdout (MsgWriting _)
  | Stdout (MsgSplitting _ _ _) | Stdout (MsgWritingBroadcasting _)
  | ClientMessage _ _ | ClientData _ | FilePacket | FileClose
  | FileOpenNew _ _ _ | FileWrite _ | StatsClear | StatsDump => True
  | _ => False
  end.

(** Events of the loop over the modules never touch the file or the
    socket. *)
Definition silent_event (e : event) : Prop :=
  match e with
  | Stdout _ | StatsAddEvent _ _ _ => True
  | _ => False
  end.

(** What the output functions leave alone. *)
Definition io_frame (s s' : Poll) : Prop :=
  partialEvents s' = partialEvents s /\ fifoData s' = fifoData s /\
  shm_mode s' = shm_mode s /\ debug_mode s' = debug_mode s /\
  is_quiet s' = is_quiet s /\
  extends io_event (out s) (out s').

(** A running acquisition on the state of the constructor. *)
Definition acquiring (thresh : Z) : Poll :=
  {| acq_running := true; shm_mode := false; is_quiet := false;
     debug_mode := false; threshWords := thresh; force_spill := false;
     had_error := false; do_stop_acq := false; record_data := false;
     file_open := false; next_run_num := 1;
     partialEvents := fun _ => [];
     fifoData := fun _ => 0;
     output_file := {| is_open := false; filesize := 0; sub_file := 0 |};
     out := [] |}.

(** Hardware that reports [counts] in every polling round and delivers
    [words mod] for module [mod]. *)
Definition fifo_with (counts : list Z) (words : nat -> list Z) : Hardware :=
  {| CheckFIFOWords := fun _ m => nth m counts 0;
     ReadFIFOWords_ok := fun _ => true;
     ReadFIFOWords_word := fun m i => nth i (words m) 0 |}.

(** The first word of an event of [size] words from [slot] and [chan]. *)
Definition event_word (size slot chan : Z) : Z :=
  Z.lor (Z.shiftl size 17) (Z.lor (Z.shiftl slot 4) chan).

(** Module 0 holds two events of four words and the first two words of an
    event of five words; module 1 holds nothing. *)
Definition first_fifo : Hardware :=
  fifo_with [10; 0]
    (fun m => match m with
              | O => [event_word 4 2 0; 1; 2; 3; event_word 4 2 1; 5; 6; 7;
                      event_word 5 2 0; 9]
              | _ => []
              end).

(** Module 0 then holds the three missing words and two more events. *)
Definition second_fifo : Hardware :=
  fifo_with [11; 0]
    (fun m => match m with
              | O => [10; 11; 12; event_word 4 2 3; 14; 15; 16;
                      event_word 4 2 0; 18; 19; 20]
              | _ => []
              end).

(** Module 0 reports a full FIFO. *)
Definition full_fifo : Hardware := fifo_with [131072; 0] (fun _ => []).


(** Module 0 then holds the three missing words of the event of five
    words, the first of which reads as the first word of an event of three
    words, and two more events. *)
Definition rest_fifo : Hardware :=
  fifo_with [11; 0]
    (fun m => match m with
              | O => [event_word 3 2 0; 11; 12; event_word 4 2 3; 14; 15; 16;
                      event_word 4 2 0; 18; 19; 20]
              | _ => []
              end).

(** Module 0 (slot 2) delivers the first ten words of an event of 100
    words from slot 2. *)
Definition long_start_fifo : Hardware :=
  fifo_with [10; 0]
    (fun m => match m with
              | O => [event_word 100 2 0; 1; 2; 3; 4; 5; 6; 7; 8; 9]
              | _ => []
              end).

(** Module 0 (slot 2) delivers ten words that start with an event word
    from slot 3 announcing 100 words. *)
Definition corrupt_fifo : Hardware :=
  fifo_with [10; 0]
    (fun m => match m with
              | O => [event_word 100 3 0; 0; 0; 0; 0; 0; 0; 0; 0; 0]
              | _ => []
              end).

(** The state a call of [ReadFIFO] leaves, for calls that return. *)
Definition state_after (r : result (bool * Poll)) (s : Poll) : Poll :=
  match r with
  | Done (_, s') => s'
  | _ => s
  end.

(** Module 0 (slot 2) delivers an event of four words from slot 3 and then
    an event of 100 words. *)
Definition misdirected_fifo : Hardware :=
  fifo_with [120; 0]
    (fun m => match m with
              | O => event_word 4 3 0 :: 0 :: 0 :: 0
                     :: event_word 100 2 0 :: repeat 0 115
              | _ => []
              end).

(** The number of words of the following event that the corruption
    diagnostic printed, if it was printed. *)
Fixpoint next_event_dump (l : list event) : option (Z * nat) :=
  match l with
  | [] => None
  | Stdout (MsgNextEvent nextEventSize _ words) :: _ =>
      Some (nextEventSize, List.length words)
  | _ :: rest => next_event_dump rest
  end.

(** Module 0 delivers exactly 16382 words: one event of that size (bit 29
    of its first word is part of the size, so it counts as a virtual
    channel). *)
Definition long_event_fifo : Hardware :=
  {| CheckFIFOWords := fun _ m => nth m [16382; 0] 0;
     ReadFIFOWords_ok := fun _ => true;
     ReadFIFOWords_word :=
       fun m i => match m, i with
                  | O, O => event_word 16382 2 0
                  | _, _ => 0
                  end |}.

(** A run of cycles, one [Hardware] per call of [ReadFIFO]; [None] when a
    call does not return [true]. *)
Fixpoint run_cycles (cfg : Config) (hws : list Hardware) (s : Poll)
    : option Poll :=
  match hws with
  | [] => Some s
  | hw :: rest =>
      match ReadFIFO cfg hw s with
      | Done (true, s') => run_cycles cfg rest s'
      | _ => None
      end
  end.

(** The payloads of a module in the spills of a run, end to end. *)
Fixpoint run_payload (cfg : Config) (hws : list Hardware) (s : Poll)
    (mod_ : nat) : list Z :=
  match hws with
  | [] => []
  | hw :: rest =>
      match spill_of cfg hw s with
      | Some spill => module_payload cfg spill mod_
      | None => []
      end ++ run_payload cfg rest (state_after (ReadFIFO cfg hw s) s) mod_
  end.

(** The words the hardware delivers for a module during a run. *)
Fixpoint run_words (cfg : Config) (hws : list Hardware) (s : Poll)
    (mod_ : nat) : list Z :=
  match hws with
  | [] => []
  | hw :: rest =>
      match spill_of cfg hw s with
      | Some _ => hardware_words cfg hw s mod_
      | None => []
      end ++ run_words cfg rest (state_after (ReadFIFO cfg hw s) s) mod_
  end.

(* ===================================================================== *)
(** * Run control and commands *)

(* ===================================================================== *)
(** ** Run control: [start_run], [stop_run], [Close], [synch_mods],
       [UpdateStatus], [RunControl] and [CommandControl]

    The members of [Poll] that these functions use besides the ones above
    are gathered in [Control].  [double] values (run times in seconds) are
    carried as rationals; a comparison of two finite [double]s is the
    comparison of the rationals they stand for.  The [McaRoot] object, the
    terminal and the statistics handler are not modelled: their answers are
    given from outside, and the calls made to them are recorded.  Of the
    pointer [mca_] the embedding keeps whether it points to an object. *)

Definition set_acq_running (v : bool) (s : Poll) : Poll :=
  {| acq_running := v; shm_mode := shm_mode s; is_quiet := is_quiet s;
     debug_mode := debug_mode s; threshWords := threshWords s;
     force_spill := force_spill s; had_error := had_error s;
     do_stop_acq := do_stop_acq s; record_data := record_data s;
     file_open := file_open s; next_run_num := next_run_num s;
     partialEvents := partialEvents s; fifoData := fifoData s;
     output_file := output_file s; out := out s |}.

Definition set_shm_mode (v : bool) (s : Poll) : Poll :=
  {| acq_running := acq_running s; shm_mode := v; is_quiet := is_quiet s;
     debug_mode := debug_mode s; threshWords := threshWords s;
     force_spill := force_spill s; had_error := had_error s;
     do_stop_acq := do_stop_acq s; record_data := record_data s;
     file_open := file_open s; next_run_num := next_run_num s;
     partialEvents := partialEvents s; fifoData := fifoData s;
     output_file := output_file s; out := out s |}.

Definition set_is_quiet (v : bool) (s : Poll) : Poll :=
  {| acq_running := acq_running s; shm_mode := shm_mode s; is_quiet := v;
     debug_mode := debug_mode s; threshWords := threshWords s;
     force_spill := force_spill s; had_error := had_error s;
     do_stop_acq := do_stop_acq s; record_data := record_data s;
     file_open := file_open s; next_run_num := next_run_num s;
     partialEvents := partialEvents s; fifoData := fifoData s;
     output_file := output_file s; out := out s |}.

Definition set_debug_mode (v : bool) (s : Poll) : Poll :=
  {| acq_running := acq_running s; shm_mode := shm_mode s;
     is_quiet := is_quiet s; debug_mode := v; threshWords := threshWords s;
     force_spill := force_spill s; had_error := had_error s;
     do_stop_acq := do_stop_acq s; record_data := record_data s;
     file_open := file_open s; next_run_num := next_run_num s;
     partialEvents := partialEvents s; fifoData := fifoData s;
     output_file := output_file s; out := out s |}.

(** What the run-control functions print. *)
Inductive ctl_message : Type :=
| MsgMcaBlocksRun            (* start_run: "Cannot run acquisition while MCA program is running" *)
| MsgAcqAlreadyRunning       (* start_run: "Acquisition is already running" *)
| MsgRunningFor (seconds : Q)   (* start_run: "Running for approximately ... seconds." *)
| MsgAcqNotRunning           (* stop_run, hup: "Acquisition is not running" *)
| MsgRunTime                 (* stop_run: "Run ... time" and the total time *)
| MsgSynchronizing (ok : bool)  (* synch_mods: "Synchronizing" and OkayStr or ErrorStr *)
| MsgRebooting               (* "Attempting PIXIE crate reboot" *)
| MsgPressEnter              (* "Press Enter key to continue..." *)
| MsgMcaTimedRun (seconds : Q)  (* "Performing MCA data run for ... s" *)
| MsgMcaInfiniteRun          (* "Performing infinite MCA data run." *)
| MsgMcaInitFailed           (* "Caught invalid argument while initializing the MCA" *)
| MsgMcaEnding               (* "Ending MCA run." and "Ran for ... s." *)
| MsgRunTerminated           (* ErrorStr("Run TERMINATED") *)
| MsgUnexpectedFileOpen      (* "Unexpected output file open! I'm closing it!" *)
| MsgStarted (recording : bool)  (* "Run ..." or "Acq", " started on ..." *)
| MsgStartFailed             (* "Failed to start list mode run. Try rebooting PIXIE" *)
| MsgAlreadyRunning          (* "Already running!" *)
| MsgStillHasWords (mod_ words : Z)  (* "Module ... still has ... words in the FIFO." *)
| MsgRunEndStatus (mod_ : Z) (partial_evt ok : bool)
                             (* "Run end status in module ...", " (partial evt)", OkayStr or ErrorStr *)
| MsgStopped (recording : bool)  (* "Run ..." or "Acq", " stopped on ..." *)
| MsgRunControlExited        (* "Run Control exited" *)
| MsgSegfault                (* ErrorStr("SEGMENTATION FAULT") *)
| MsgCtrlD                   (* "Received EOF (ctrl-d) signal. Exiting..." *)
| MsgCtrlC (stopping_mca : bool)  (* "Received SIGINT (ctrl-c) signal." *)
| MsgCtrlZ                   (* "Warning! Received SIGTSTP (ctrl-z) signal." *)
| MsgCannotQuit (mca : bool) (* "Cannot quit while MCA program is running" / "... acquisition running" *)
| MsgSendingKill             (* "Sending KILL signal" *)
| MsgHelp                    (* help() *)
| MsgStatus                  (* show_status() *)
| MsgQuiet (on : bool)       (* "Toggling quiet mode ON" / "OFF" *)
| MsgDebug (on : bool)       (* "Toggling debug mode ON" / "OFF" *)
| MsgShm (on : bool)         (* "Toggling shared-memory mode ON" / "OFF" *)
| MsgCannotReboot (mca : bool)  (* "Cannot reboot while MCA is running" / "... acquisition running" *)
| MsgNoSpillForMca           (* "Command not available for MCA run" *)
| MsgUsingDirectory (dir : string)   (* "Using output directory '...'" *)
| MsgUsingPrefix (prefix : string)   (* "Using output filename prefix '...'" *)
| MsgUsingTitle (title : string)     (* "Using output file title '...'" *)
| MsgRunNumbers              (* runnum without argument: the current and the next run number *)
| MsgFileIsOpen              (* "... cannot be changed while a file is open!" *)
| MsgDirectorySet (dir : string)     (* "Set output directory to '...'" *)
| MsgRunFileExisted          (* "Run file existed ..." / "Some run files existed!" *)
| MsgNextFile                (* "Next file will be '...'" *)
| MsgPrefixSet (prefix : string)     (* "Set output filename prefix to '...'" *)
| MsgTitleTooLong (excess : Z)       (* "Title length ... characters too long for ldf format!" *)
| MsgTitleSet (title : string)       (* "Set run title to '...'" *)
| MsgRunNumberSet (runNum : Z)       (* "Set run number to '...'" *)
| MsgUnknownCommand (cmd : string).  (* "Unknown command '...'" *)

(** The tag at the front of the status bar. *)
Inductive status_tag : Type :=
| StatusError | StatusRecording | StatusAcq | StatusMca | StatusIdle.

(** What the run-control functions do, in the order they do it.  The
    events of the functions modelled above appear as [Inner e]. *)
Inductive ctl_event : Type :=
| Inner (e : event)
| Say (m : ctl_message)
| ClientClose                   (* client->Close() *)
| StatsDelete                   (* delete statsHandler *)
| StatsClearRates               (* statsHandler->ClearRates() *)
| StatsClearTotals              (* statsHandler->ClearTotals() *)
| PifWriteSglModPar (name : string) (value : Z) (mod_ : nat) (ok : bool)
| PifBoot                       (* pif_->Boot(BootAll, false) *)
| PifEndRun                     (* pif_->EndRun() *)
| PifStartListModeRun (ok : bool)  (* pif_->StartListModeRun(LIST_MODE_RUN, NEW_RUN) *)
| McaStart                      (* new McaRoot, RemovePresetRunLength(0), StartHistogramRun() *)
| McaStep (ok : bool)           (* mca_->Step() *)
| McaDelete                     (* delete mca_ *)
| WaitForEnter                  (* std::cin.get() *)
| Sleep                         (* sleep(1) *)
| SetStatus (tag : status_tag) (file : bool)  (* poll_term_->SetStatus(...) *)
| TabComplete                   (* poll_term_->TabComplete(...) *)
| TerminalPause                 (* poll_term_->pause(do_reboot) *)
| FileSetDebugMode (on : bool). (* output_file.SetDebugMode(on) *)

(** [poll] holds the members modelled above.  [firstTime] is the static
    local of [synch_mods], [acqStartTime] the local of [RunControl] that
    outlives a pass of its loop, and [trace] the log.  [mca_live] tells
    whether [mca_] points to a [McaRoot] object: the constructor of [Poll]
    does not assign the pointer, [new McaRoot] makes it point to an object,
    and [delete mca_] ends the object and leaves the pointer as it is. *)
Record Control : Type := {
  poll : Poll;
  kill_all : bool;
  do_start_acq : bool;
  do_reboot : bool;
  run_ctrl_exit : bool;
  doMcaRun_ : bool;
  isMcaRunning_ : bool;
  mca_live : bool;
  mcaRunLengthInSeconds_ : Q;
  init_ : bool;
  runTime : Q;
  output_directory : string;
  filename_prefix : string;
  output_title : string;
  output_format : Z;
  current_file_num : Z;
  firstTime : bool;
  acqStartTime : Z;
  trace : list ctl_event
}.

(** Assignments to one member. *)
Definition set_poll (v : Poll) (c : Control) : Control :=
  {| poll := v; kill_all := kill_all c; do_start_acq := do_start_acq c;
     do_reboot := do_reboot c; run_ctrl_exit := run_ctrl_exit c;
     doMcaRun_ := doMcaRun_ c; isMcaRunning_ := isMcaRunning_ c;
     mca_live := mca_live c;
     mcaRunLengthInSeconds_ := mcaRunLengthInSeconds_ c; init_ := init_ c;
     runTime := runTime c; output_directory := output_directory c;
     filename_prefix := filename_prefix c; output_title := output_title c;
     output_format := output_format c;
     current_file_num := current_file_num c; firstTime := firstTime c;
     acqStartTime := acqStartTime c; trace := trace c |}.

Definition set_kill_all (v : bool) (c : Control) : Control :=
  {| poll := poll c; kill_all := v; do_start_acq := do_start_acq c;
     do_reboot := do_reboot c; run_ctrl_exit := run_ctrl_exit c;
     doMcaRun_ := doMcaRun_ c; isMcaRunning_ := isMcaRunning_ c;
     mca_live := mca_live c;
     mcaRunLengthInSeconds_ := mcaRunLengthInSeconds_ c; init_ := init_ c;
     runTime := runTime c; output_directory := output_directory c;
     filename_prefix := filename_prefix c; output_title := output_title c;
     output_format := output_format c;
     current_file_num := current_file_num c; firstTime := firstTime c;
     acqStartTime := acqStartTime c; trace := trace c |}.

Definition set_do_start_acq (v : bool) (c : Control) : Control :=
  {| poll := poll c; kill_all := kill_all c; do_start_acq := v;
     do_reboot := do_reboot c; run_ctrl_exit := run_ctrl_exit c;
     doMcaRun_ := doMcaRun_ c; isMcaRunning_ := isMcaRunning_ c;
     mca_live := mca_live c;
     mcaRunLengthInSeconds_ := mcaRunLengthInSeconds_ c; init_ := init_ c;
     runTime := runTime c; output_directory := output_directory c;
     filename_prefix := filename_prefix c; output_title := output_title c;
     output_format := output_format c;
     current_file_num := current_file_num c; firstTime := firstTime c;
     acqStartTime := acqStartTime c; trace := trace c |}.

Definition set_do_reboot (v : bool) (c : Control) : Control :=
  {| poll := poll c; kill_all := kill_all c; do_start_acq := do_start_acq c;
     do_reboot := v; run_ctrl_exit := run_ctrl_exit c;
     doMcaRun_ := doMcaRun_ c; isMcaRunning_ := isMcaRunning_ c;
     mca_live := mca_live c;
     mcaRunLengthInSeconds_ := mcaRunLengthInSeconds_ c; init_ := init_ c;
     runTime := runTime c; output_directory := output_directory c;
     filename_prefix := filename_prefix c; output_title := output_title c;
     output_format := output_format c;
     current_file_num := current_file_num c; firstTime := firstTime c;
     acqStartTime := acqStartTime c; trace := trace c |}.

Definition set_run_ctrl_exit (v : bool) (c : Control) : Control :=
  {| poll := poll c; kill_all := kill_all c; do_start_acq := do_start_acq c;
     do_reboot := do_reboot c; run_ctrl_exit := v; doMcaRun_ := doMcaRun_ c;
     isMcaRunning_ := isMcaRunning_ c;
     mca_live := mca_live c;
     mcaRunLengthInSeconds_ := mcaRunLengthInSeconds_ c; init_ := init_ c;
     runTime := runTime c; output_directory := output_directory c;
     filename_prefix := filename_prefix c; output_title := output_title c;
     output_format := output_format c;
     current_file_num := current_file_num c; firstTime := firstTime c;
     acqStartTime := acqStartTime c; trace := trace c |}.

Definition set_doMcaRun_ (v : bool) (c : Control) : Control :=
  {| poll := poll c; kill_all := kill_all c; do_start_acq := do_start_acq c;
     do_reboot := do_reboot c; run_ctrl_exit := run_ctrl_exit c;
     doMcaRun_ := v; isMcaRunning_ := isMcaRunning_ c;
     mca_live := mca_live c;
     mcaRunLengthInSeconds_ := mcaRunLengthInSeconds_ c; init_ := init_ c;
     runTime := runTime c; output_directory := output_directory c;
     filename_prefix := filename_prefix c; output_title := output_title c;
     output_format := output_format c;
     current_file_num := current_file_num c; firstTime := firstTime c;
     acqStartTime := acqStartTime c; trace := trace c |}.

Definition set_isMcaRunning_ (v : bool) (c : Control) : Control :=
  {| poll := poll c; kill_all := kill_all c; do_start_acq := do_start_acq c;
     do_reboot := do_reboot c; run_ctrl_exit := run_ctrl_exit c;
     doMcaRun_ := doMcaRun_ c; isMcaRunning_ := v;
     mca_live := mca_live c;
     mcaRunLengthInSeconds_ := mcaRunLengthInSeconds_ c; init_ := init_ c;
     runTime := runTime c; output_directory := output_directory c;
     filename_prefix := filename_prefix c; output_title := output_title c;
     output_format := output_format c;
     current_file_num := current_file_num c; firstTime := firstTime c;
     acqStartTime := acqStartTime c; trace := trace c |}.

Definition set_mca_live (v : bool) (c : Control) : Control :=
  {| poll := poll c; kill_all := kill_all c; do_start_acq := do_start_acq c;
     do_reboot := do_reboot c; run_ctrl_exit := run_ctrl_exit c;
     doMcaRun_ := doMcaRun_ c; isMcaRunning_ := isMcaRunning_ c;
     mca_live := v;
     mcaRunLengthInSeconds_ := mcaRunLengthInSeconds_ c; init_ := init_ c;
     runTime := runTime c; output_directory := output_directory c;
     filename_prefix := filename_prefix c; output_title := output_title c;
     output_format := output_format c;
     current_file_num := current_file_num c; firstTime := firstTime c;
     acqStartTime := acqStartTime c; trace := trace c |}.

Definition set_init_ (v : bool) (c : Control) : Control :=
  {| poll := poll c; kill_all := kill_all c; do_start_acq := do_start_acq c;
     do_reboot := do_reboot c; run_ctrl_exit := run_ctrl_exit c;
     doMcaRun_ := doMcaRun_ c; isMcaRunning_ := isMcaRunning_ c;
     mca_live := mca_live c;
     mcaRunLengthInSeconds_ := mcaRunLengthInSeconds_ c; init_ := v;
     runTime := runTime c; output_directory := output_directory c;
     filename_prefix := filename_prefix c; output_title := output_title c;
     output_format := output_format c;
     current_file_num := current_file_num c; firstTime := firstTime c;
     acqStartTime := acqStartTime c; trace := trace c |}.

Definition set_runTime (v : Q) (c : Control) : Control :=
  {| poll := poll c; kill_all := kill_all c; do_start_acq := do_start_acq c;
     do_reboot := do_reboot c; run_ctrl_exit := run_ctrl_exit c;
     doMcaRun_ := doMcaRun_ c; isMcaRunning_ := isMcaRunning_ c;
     mca_live := mca_live c;
     mcaRunLengthInSeconds_ := mcaRunLengthInSeconds_ c; init_ := init_ c;
     runTime := v; output_directory := output_directory c;
     filename_prefix := filename_prefix c; output_title := output_title c;
     output_format := output_format c;
     current_file_num := current_file_num c; firstTime := firstTime c;
     acqStartTime := acqStartTime c; trace := trace c |}.

Definition set_output_directory (v : string) (c : Control) : Control :=
  {| poll := poll c; kill_all := kill_all c; do_start_acq := do_start_acq c;
     do_reboot := do_reboot c; run_ctrl_exit := run_ctrl_exit c;
     doMcaRun_ := doMcaRun_ c; isMcaRunning_ := isMcaRunning_ c;
     mca_live := mca_live c;
     mcaRunLengthInSeconds_ := mcaRunLengthInSeconds_ c; init_ := init_ c;
     runTime := runTime c; output_directory := v;
     filename_prefix := filename_prefix c; output_title := output_title c;
     output_format := output_format c;
     current_file_num := current_file_num c; firstTime := firstTime c;
     acqStartTime := acqStartTime c; trace := trace c |}.

Definition set_filename_prefix (v : string) (c : Control) : Control :=
  {| poll := poll c; kill_all := kill_all c; do_start_acq := do_start_acq c;
     do_reboot := do_reboot c; run_ctrl_exit := run_ctrl_exit c;
     doMcaRun_ := doMcaRun_ c; isMcaRunning_ := isMcaRunning_ c;
     mca_live := mca_live c;
     mcaRunLengthInSeconds_ := mcaRunLengthInSeconds_ c; init_ := init_ c;
     runTime := runTime c; output_directory := output_directory c;
     filename_prefix := v; output_title := output_title c;
     output_format := output_format c;
     current_file_num := current_file_num c; firstTime := firstTime c;
     acqStartTime := acqStartTime c; trace := trace c |}.

Definition set_output_title (v : string) (c : Control) : Control :=
  {| poll := poll c; kill_all := kill_all c; do_start_acq := do_start_acq c;
     do_reboot := do_reboot c; run_ctrl_exit := run_ctrl_exit c;
     doMcaRun_ := doMcaRun_ c; isMcaRunning_ := isMcaRunning_ c;
     mca_live := mca_live c;
     mcaRunLengthInSeconds_ := mcaRunLengthInSeconds_ c; init_ := init_ c;
     runTime := runTime c; output_directory := output_directory c;
     filename_prefix := filename_prefix c; output_title := v;
     output_format := output_format c;
     current_file_num := current_file_num c; firstTime := firstTime c;
     acqStartTime := acqStartTime c; trace := trace c |}.

Definition set_current_file_num (v : Z) (c : Control) : Control :=
  {| poll := poll c; kill_all := kill_all c; do_start_acq := do_start_acq c;
     do_reboot := do_reboot c; run_ctrl_exit := run_ctrl_exit c;
     doMcaRun_ := doMcaRun_ c; isMcaRunning_ := isMcaRunning_ c;
     mca_live := mca_live c;
     mcaRunLengthInSeconds_ := mcaRunLengthInSeconds_ c; init_ := init_ c;
     runTime := runTime c; output_directory := output_directory c;
     filename_prefix := filename_prefix c; output_title := output_title c;
     output_format := output_format c; current_file_num := v;
     firstTime := firstTime c; acqStartTime := acqStartTime c;
     trace := trace c |}.

Definition set_firstTime (v : bool) (c : Control) : Control :=
  {| poll := poll c; kill_all := kill_all c; do_start_acq := do_start_acq c;
     do_reboot := do_reboot c; run_ctrl_exit := run_ctrl_exit c;
     doMcaRun_ := doMcaRun_ c; isMcaRunning_ := isMcaRunning_ c;
     mca_live := mca_live c;
     mcaRunLengthInSeconds_ := mcaRunLengthInSeconds_ c; init_ := init_ c;
     runTime := runTime c; output_directory := output_directory c;
     filename_prefix := filename_prefix c; output_title := output_title c;
     output_format := output_format c;
     current_file_num := current_file_num c; firstTime := v;
     acqStartTime := acqStartTime c; trace := trace c |}.

Definition set_acqStartTime (v : Z) (c : Control) : Control :=
  {| poll := poll c; kill_all := kill_all c; do_start_acq := do_start_acq c;
     do_reboot := do_reboot c; run_ctrl_exit := run_ctrl_exit c;
     doMcaRun_ := doMcaRun_ c; isMcaRunning_ := isMcaRunning_ c;
     mca_live := mca_live c;
     mcaRunLengthInSeconds_ := mcaRunLengthInSeconds_ c; init_ := init_ c;
     runTime := runTime c; output_directory := output_directory c;
     filename_prefix := filename_prefix c; output_title := output_title c;
     output_format := output_format c;
     current_file_num := current_file_num c; firstTime := firstTime c;
     acqStartTime := v; trace := trace c |}.

Definition set_trace (v : list ctl_event) (c : Control) : Control :=
  {| poll := poll c; kill_all := kill_all c; do_start_acq := do_start_acq c;
     do_reboot := do_reboot c; run_ctrl_exit := run_ctrl_exit c;
     doMcaRun_ := doMcaRun_ c; isMcaRunning_ := isMcaRunning_ c;
     mca_live := mca_live c;
     mcaRunLengthInSeconds_ := mcaRunLengthInSeconds_ c; init_ := init_ c;
     runTime := runTime c; output_directory := output_directory c;
     filename_prefix := filename_prefix c; output_title := output_title c;
     output_format := output_format c;
     current_file_num := current_file_num c; firstTime := firstTime c;
     acqStartTime := acqStartTime c; trace := v |}.

Definition log (e : ctl_event) (c : Control) : Control :=
  set_trace (trace c ++ [e]) c.
Definition say (m : ctl_message) (c : Control) : Control := log (Say m) c.

(** What a function modelled above has added to [out]. *)
Definition new_events (s s' : Poll) : list event :=
  skipn (List.length (out s)) (out s').

(** The members in [poll] become [s']; what was added to [out] on the way
    is added to [trace] as well. *)
Definition with_poll (s' : Poll) (c : Control) : Control :=
  set_trace (trace c ++ map Inner (new_events (poll c) s')) (set_poll s' c).

(** [std::string] operations of [CommandControl]; positions are [size_t]
    values, [npos] is the largest of them. *)
Definition npos : Z := 2 ^ 64 - 1.

Definition pos_of (p : option nat) : Z :=
  match p with
  | Some n => Z.of_nat n
  | None => npos
  end.

Definition size (s : string) : Z := Z.of_nat (String.length s).

(** [s.find_last_of(ch)]. *)
Fixpoint find_last_of (s : string) (ch : ascii) : option nat :=
  match s with
  | EmptyString => None
  | String c rest =>
      match find_last_of rest ch with
      | Some p => Some (S p)
      | None => if Ascii.eqb c ch then Some O else None
      end
  end.

(** [s.substr(pos, count)] for [pos <= s.size()], which holds at every
    call below; [count] is cut to what is left of the string. *)
Definition substr_sz (s : string) (pos count : Z) : string :=
  Args.take (Z.to_nat (Z.min count (size s - pos))) (Args.drop (Z.to_nat pos) s).

(** [*(s.end() - 1)]. *)
Fixpoint last_char (s : string) : option ascii :=
  match s with
  | EmptyString => None
  | String c EmptyString => Some c
  | String _ rest => last_char rest
  end.

Definition quote : ascii := Ascii.ascii_of_nat 34.
Definition tab : ascii := Ascii.ascii_of_nat 9.

Definition is_cmd (cmd name : string) : bool := String.eqb cmd name.

(** What the outside world answers during one pass of the loop of
    [RunControl]: whether the MCA run can be set up (no
    [std::invalid_argument]; if not, whether [new McaRoot] had returned
    before the exception), [mca_->GetRunTimeInSeconds()], [mca_->Step()],
    [pif_->StartListModeRun(...)], the two readings of the clock,
    [pif_->CheckRunStatus(mod)] at its first and second call for [mod],
    [pif_->CheckFIFOWords(mod)] in the message about a module that has not
    finished, and the FIFOs as the calls of [ReadFIFO] find them: call [0]
    is the one at the start of the stop sequence, call [mod + 1] the one for
    module [mod], call [n_cards + 1] the one at the end of the pass. *)
Record Pass : Type := {
  mca_starts : bool;
  mca_made : bool;
  mca_run_time : Q;
  mca_step : bool;
  list_mode_starts : bool;
  start_clock : Z;
  clock : Z;
  run_status : nat -> nat -> Z;
  words_left : nat -> Z;
  fifo : nat -> Hardware
}.

(** How a pass of the loop of [RunControl] ends: with the next pass, or
    with the [break]. *)
Inductive pass_end : Type :=
| Again (c : Control)
| Exited (c : Control).

(** How a pass of the loop of [CommandControl] ends: with the next
    command, with the [break] (once [run_ctrl_exit] is set), with
    [exit(EXIT_FAILURE)], or with an exception of [std::stoi] that nothing
    catches.  [NotModelled]: the command is one of those that talk to the
    modules or parse numbers with functions that poll2_core.cpp does not
    define. *)
Inductive command_end : Type :=
| Prompt (c : Control)
| Quit (c : Control)
| ProcessExit (c : Control)
| Uncaught (e : Args.stoi_result) (c : Control)
| NotModelled.

Section RunControl.

Variable cfg : Config.

Local Open Scope string_scope.
Local Open Scope Z_scope.

(** [Poll::start_run(record_, time_)]. *)
Definition start_run (record_ : bool) (time_ : Q) (c : Control)
    : bool * Control :=
  if doMcaRun_ c then (false, say MsgMcaBlocksRun c)
  else if acq_running (poll c) then (false, say MsgAcqAlreadyRunning c)
  else
    let c := set_runTime time_ c in
    let c := if negb (Qle_bool (runTime c) 0)
             then say (MsgRunningFor (runTime c)) c
             else c in
    let c := with_poll (set_record_data record_ (poll c)) c in
    (true, set_do_start_acq true c).

(** [Poll::stop_run()]. *)
Definition stop_run (c : Control) : bool * Control :=
  if negb (acq_running (poll c)) && negb (doMcaRun_ c) then
    (false, say MsgAcqNotRunning c)
  else
    let c := with_poll (set_do_stop_acq true (poll c)) c in
    let c := if record_data (poll c) then say MsgRunTime c else c in
    (true, with_poll (set_record_data false (poll c)) c).

(** [Poll::Close()]; afterwards [partialEvents] is a null pointer, here
    the empty table. *)
Definition Close (c : Control) : bool * Control :=
  if negb (init_ c) then (false, c)
  else
    let c := with_poll (emit (ClientMessage "$KILL_SOCKET" 13) (poll c)) c in
    let c := log ClientClose c in
    let c := if is_open (output_file (poll c))
             then with_poll (snd (CloseOutputFile cfg false (poll c))) c
             else c in
    let c := with_poll (set_partialEvents (fun _ => []) (poll c)) c in
    let c := log StatsDelete c in
    (true, set_init_ false c).

(** The loop of [synch_mods] over the modules; [write_ok name value mod]
    is what [pif_->WriteSglModPar(name, value, mod)] returns. *)
Fixpoint synch_loop (write_ok : string -> Z -> nat -> bool) (mods : list nat)
    (hadError : bool) (c : Control) : bool * Control :=
  match mods with
  | [] => (hadError, c)
  | m :: rest =>
      let ok := write_ok "IN_SYNCH" 0 m in
      synch_loop write_ok rest (if negb ok then true else hadError)
        (log (PifWriteSglModPar "IN_SYNCH" 0 m ok) c)
  end.

(** [Poll::synch_mods()]. *)
Definition synch_mods (write_ok : string -> Z -> nat -> bool) (c : Control)
    : bool * Control :=
  let '(hadError, c) :=
    if firstTime c then
      let ok := write_ok "SYNCH_WAIT" 1 O in
      (negb ok,
       set_firstTime false (log (PifWriteSglModPar "SYNCH_WAIT" 1 O ok) c))
    else (false, c) in
  let '(hadError, c) := synch_loop write_ok (seq 0 (n_cards cfg)) hadError c in
  (negb hadError, say (MsgSynchronizing (negb hadError)) c).

(** [Poll::UpdateStatus()]: the tag, and whether the file is shown.  While
    [doMcaRun_] is set the status line asks [mca_->GetRunTimeInSeconds()],
    whether or not the MCA has been set up. *)
Definition UpdateStatus (c : Control) : result Control :=
  let s := poll c in
  let tag :=
    if had_error s then StatusError
    else if acq_running s && record_data s then StatusRecording
    else if acq_running s && negb (record_data s) then StatusAcq
    else if doMcaRun_ c then StatusMca
    else StatusIdle in
  if doMcaRun_ c && negb (mca_live c) then Undefined
  else Done (log (SetStatus tag (file_open s)) c).

(** [if (doMcaRun_) { ... }] in [RunControl]; the [bool] tells whether the
    pass ends there with [continue].  Once [isMcaRunning_] is set, each way
    through the branch uses [mca_]: in the test of the run time or in the
    message that ends the run, or in [mca_->Step()]. *)
Definition RunControl_mca (w : Pass) (c : Control)
    : result (bool * Control) :=
  if negb (doMcaRun_ c) then Done (false, c)
  else if acq_running (poll c) then
    Done (false, with_poll (set_do_stop_acq true (poll c)) c)
  else
    let banner (c : Control) :=
      say (if negb (Qle_bool (mcaRunLengthInSeconds_ c) 0)
           then MsgMcaTimedRun (mcaRunLengthInSeconds_ c)
           else MsgMcaInfiniteRun) c in
    if negb (isMcaRunning_ c) && negb (mca_starts w) then
      let c := if mca_made w then set_mca_live true c else c in
      Done (true, with_poll (set_had_error true (poll c))
                    (set_doMcaRun_ false (say MsgMcaInitFailed (banner c))))
    else
      let c := if negb (isMcaRunning_ c)
               then set_isMcaRunning_ true
                      (set_mca_live true (log McaStart (banner c)))
               else c in
      if negb (mca_live c) then Undefined
      else if (negb (Qeq_bool (mcaRunLengthInSeconds_ c) 0)
               && Qle_bool (mcaRunLengthInSeconds_ c) (mca_run_time w))
              || do_stop_acq (poll c)
      then
        let c := say MsgMcaEnding (log PifEndRun c) in
        let c := set_mca_live false (log McaDelete c) in
        let c := with_poll (set_do_stop_acq false (poll c)) c in
        Done (false, set_isMcaRunning_ false (set_doMcaRun_ false c))
      else
        let c := log Sleep c in
        if negb (mca_step w) then
          let c := say MsgRunTerminated (log (McaStep false) c) in
          let c := set_mca_live false (log McaDelete c) in
          let c := set_isMcaRunning_ false (set_doMcaRun_ false c) in
          Done (false, with_poll (set_had_error true (poll c)) c)
        else Done (false, log (McaStep true) c).

(** [if (do_start_acq) { ... }] in [RunControl]; the [bool] tells whether
    the pass ends there with [continue].  [OpenOutputFile()] is called
    without argument; the default of the header is taken to be [false]. *)
Definition RunControl_start (w : Pass) (c : Control) : bool * Control :=
  if negb (do_start_acq c) then (false, c)
  else if acq_running (poll c) then
    (false, set_do_start_acq false (say MsgAlreadyRunning c))
  else
    let '(ok, c) :=
      if record_data (poll c) then
        let c := if is_open (output_file (poll c))
                 then with_poll (snd (CloseOutputFile cfg false (poll c)))
                        (say MsgUnexpectedFileOpen c)
                 else c in
        (fst (OpenOutputFile cfg false (poll c)),
         with_poll (snd (OpenOutputFile cfg false (poll c))) c)
      else (true, c) in
    if negb ok then
      let c := set_do_start_acq false c in
      (true, with_poll (set_had_error true (set_record_data false
                          (set_acq_running false (poll c)))) c)
    else
      let c :=
        if list_mode_starts w then
          let c := log (PifStartListModeRun true) c in
          let c := set_acqStartTime (start_clock w) c in
          let c := say (MsgStarted (record_data (poll c))) c in
          with_poll (set_acq_running true (poll c)) c
        else
          let c := log (PifStartListModeRun false) c in
          let c := say MsgStartFailed c in
          with_poll (set_had_error true (set_acq_running false (poll c))) c in
      (false, set_do_start_acq false c).

(** A call of [ReadFIFO] whose return value is not looked at. *)
Definition call_ReadFIFO (hw : Hardware) (c : Control) : result Control :=
  r <- ReadFIFO cfg hw (poll c) ;;
  Done (with_poll (snd r) c).

(** [for (size_t mod = 0; mod < n_cards; mod++) { ... }] of the stop
    sequence. *)
Fixpoint end_modules (w : Pass) (mods : list nat) (c : Control)
    : result Control :=
  match mods with
  | [] => Done c
  | m :: rest =>
      c <- (if run_status w m 0 =? 1 then
              let c := if negb (is_quiet (poll c))
                       then say (MsgStillHasWords (Z.of_nat m) (words_left w m)) c
                       else c in
              let c := with_poll (set_force_spill true (poll c)) c in
              let c := log Sleep c in
              if negb (had_error (poll c)) then call_ReadFIFO (fifo w (S m)) c
              else Done c
            else Done c) ;;
      let partial_evt :=
        match partialEvents (poll c) m with [] => false | _ => true end in
      let c := if partial_evt then with_poll (set_partial m [] (poll c)) c
               else c in
      let ok := run_status w m 1 =? 0 in
      let c := say (MsgRunEndStatus (Z.of_nat m) partial_evt ok) c in
      let c := if ok then c else with_poll (set_had_error true (poll c)) c in
      end_modules w rest c
  end.

(** [if (do_stop_acq) { ... }] in [RunControl]: the stop sequence. *)
Definition RunControl_stop (w : Pass) (c : Control) : result Control :=
  c <- (if negb (had_error (poll c)) then call_ReadFIFO (fifo w 0) c
        else Done c) ;;
  let c := log PifEndRun c in
  c <- end_modules w (seq 0 (n_cards cfg)) c ;;
  let c := say (MsgStopped (record_data (poll c))) c in
  let c := log StatsClearRates c in
  let c := with_poll (emit StatsDump (poll c)) c in
  let c := log StatsClearTotals c in
  let c := if is_open (output_file (poll c))
           then with_poll (snd (CloseOutputFile cfg false (poll c))) c
           else c in
  Done (with_poll (set_acq_running false (set_do_stop_acq false (poll c))) c).

(** [runTime > 0.0 && difftime(currentTime, acqStartTime) >= runTime]. *)
Definition time_is_up (w : Pass) (c : Control) : bool :=
  negb (Qle_bool (runTime c) 0)
  && Qle_bool (runTime c) (inject_Z (clock w - acqStartTime c)).

(** [if (acq_running) { ... }] in [RunControl]. *)
Definition RunControl_acq (w : Pass) (c : Control) : result Control :=
  if negb (acq_running (poll c)) then Done c
  else
    let c := if time_is_up w c then snd (stop_run c) else c in
    c <- (if do_stop_acq (poll c) then RunControl_stop w c else Done c) ;;
    call_ReadFIFO (fifo w (S (n_cards cfg))) c.

(** The end of a pass: [UpdateStatus()], and [sleep(1)] when nothing
    runs. *)
Definition pass_tail (c : Control) : result Control :=
  c <- UpdateStatus c ;;
  Done (if negb (acq_running (poll c)) && negb (doMcaRun_ c)
        then log Sleep c else c).

(** One pass of the [while (true)] of [Poll::RunControl]. *)
Definition RunControl_pass (w : Pass) (c : Control) : result pass_end :=
  if kill_all c && negb (acq_running (poll c) || isMcaRunning_ c) then
    Done (Exited (say MsgRunControlExited (set_run_ctrl_exit true c)))
  else
    let c := if kill_all c then with_poll (set_do_stop_acq true (poll c)) c
             else c in
    let c :=
      if do_reboot c then
        if acq_running (poll c)
        then with_poll (set_do_stop_acq true (poll c)) c
        else set_do_reboot false
               (log WaitForEnter (say MsgPressEnter
                  (log PifBoot (say MsgRebooting c))))
      else c in
    r <- RunControl_mca w c ;;
    let '(skip, c) := r in
    if skip then Done (Again c)
    else
      let '(skip, c) := RunControl_start w c in
      if skip then Done (Again c)
      else
        c <- RunControl_acq w c ;;
        c <- pass_tail c ;;
        Done (Again c).

(** [Poll::RunControl()]: pass [n] of the loop meets the world [ws n]. *)
Fixpoint RunControl (fuel : nat) (ws : nat -> Pass) (n : nat) (c : Control)
    : result Control :=
  match fuel with
  | O => OutOfFuel
  | S fuel' =>
      r <- RunControl_pass (ws n) c ;;
      match r with
      | Again c => RunControl fuel' ws (S n) c
      | Exited c => Done c
      end
  end.

(** The [fdir] command. *)
Definition cmd_fdir (arg : string) (c : Control) : Control :=
  if String.eqb arg "" then say (MsgUsingDirectory (output_directory c)) c
  else if file_open (poll c) then say MsgFileIsOpen c
  else
    let c := set_current_file_num 0 (set_output_directory arg c) in
    let c := match last_char (output_directory c) with
             | Some "/"%char => c
             | _ => set_output_directory (output_directory c ++ "/") c
             end in
    let c := say (MsgDirectorySet (output_directory c)) c in
    let temp_run_num := next_run_num (poll c) in
    let c := with_poll (set_next_run_num
                          (to_word (next_free_run cfg (next_run_num (poll c))))
                          (poll c)) c in
    let c := if negb (temp_run_num =? next_run_num (poll c))
             then say MsgRunFileExisted c
             else c in
    say MsgNextFile c.

(** The [prefix] command; the last message asks [GetNextFileName] once
    more. *)
Definition cmd_prefix (arg : string) (c : Control) : Control :=
  if String.eqb arg "" then say (MsgUsingPrefix (filename_prefix c)) c
  else if file_open (poll c) then say MsgFileIsOpen c
  else
    let c := set_filename_prefix arg c in
    let c := with_poll (set_next_run_num (to_word (next_free_run cfg 1))
                          (poll c)) c in
    let c := if negb (next_run_num (poll c) =? 1)
             then say MsgRunFileExisted c
             else c in
    let c := say (MsgPrefixSet (filename_prefix c)) c in
    let c := with_poll (set_next_run_num
                          (to_word (next_free_run cfg (next_run_num (poll c))))
                          (poll c)) c in
    say MsgNextFile c.

(** The [title] command. *)
Definition cmd_title (arg : string) (c : Control) : Control :=
  if String.eqb arg "" then say (MsgUsingTitle (output_title c)) c
  else if file_open (poll c) then say MsgFileIsOpen c
  else
    let c :=
      if (pos_of (Args.find arg quote) =? 0)
         && (pos_of (find_last_of arg quote) =? to_size (size arg - 1))
      then set_output_title (substr_sz arg 1 (to_size (size arg - 2))) c
      else set_output_title arg c in
    let c :=
      if (output_format c =? 0) && (80 <? size (output_title c)) then
        set_output_title (substr_sz (output_title c) 0 80)
          (say (MsgTitleTooLong (size (output_title c) - 80)) c)
      else c in
    say (MsgTitleSet (output_title c)) c.

(** The [runnum] command; [next_run_num] is an [unsigned int]. *)
Definition cmd_runnum (arg : string) (c : Control) : command_end :=
  if String.eqb arg "" then Prompt (say MsgRunNumbers c)
  else if file_open (poll c) then Prompt (say MsgFileIsOpen c)
  else
    match Args.stoi arg with
    | Args.StoiOk v =>
        let c := with_poll (set_next_run_num (to_word v) (poll c)) c in
        let c := with_poll (set_next_run_num
                              (to_word (next_free_run cfg (next_run_num (poll c))))
                              (poll c)) c in
        let c := if negb (next_run_num (poll c) =? to_word v)
                 then say MsgRunFileExisted c
                 else c in
        let c := say (MsgRunNumberSet (next_run_num (poll c))) c in
        Prompt (say MsgNextFile c)
    | e => Uncaught e c
    end.

(** The commands after [had_error] has been cleared. *)
Definition command (cmd arg : string) (c : Control) : command_end :=
  if is_cmd cmd "quit" || is_cmd cmd "exit" then
    if doMcaRun_ c then Prompt (say (MsgCannotQuit true) c)
    else if acq_running (poll c) then Prompt (say (MsgCannotQuit false) c)
    else Quit (set_kill_all true c)
  else if is_cmd cmd "kill" then
    let c := if acq_running (poll c) || doMcaRun_ c
             then with_poll (set_do_stop_acq true (poll c)) (say MsgSendingKill c)
             else c in
    Quit (set_kill_all true c)
  else if is_cmd cmd "help" || is_cmd cmd "h" then Prompt (say MsgHelp c)
  else if is_cmd cmd "status" then Prompt (say MsgStatus c)
  else if is_cmd cmd "thresh" || is_cmd cmd "dump"
          || is_cmd cmd "pwrite" || is_cmd cmd "pmwrite" || is_cmd cmd "save"
          || is_cmd cmd "pread" || is_cmd cmd "pmread"
          || is_cmd cmd "adjust_offsets" || is_cmd cmd "find_tau"
          || is_cmd cmd "toggle" || is_cmd cmd "toggle_bit"
          || is_cmd cmd "csr_test" || is_cmd cmd "bit_test"
          || is_cmd cmd "get_traces" then NotModelled
  else if is_cmd cmd "quiet" then
    if is_quiet (poll c)
    then Prompt (with_poll (set_is_quiet false (poll c)) (say (MsgQuiet false) c))
    else Prompt (with_poll (set_is_quiet true (poll c)) (say (MsgQuiet true) c))
  else if is_cmd cmd "debug" then
    if debug_mode (poll c)
    then Prompt (with_poll (set_debug_mode false (poll c))
                   (log (FileSetDebugMode false) (say (MsgDebug false) c)))
    else Prompt (with_poll (set_debug_mode true (poll c))
                   (log (FileSetDebugMode true) (say (MsgDebug true) c)))
  else if is_cmd cmd "mca" || is_cmd cmd "MCA" then NotModelled
  else if is_cmd cmd "run" then Prompt (snd (start_run true (-1) c))
  else if is_cmd cmd "timedrun" then NotModelled
  else if is_cmd cmd "startacq" || is_cmd cmd "startvme" then
    Prompt (snd (start_run false (-1) c))
  else if is_cmd cmd "stop" || is_cmd cmd "stopacq" || is_cmd cmd "stopvme" then
    Prompt (snd (stop_run c))
  else if is_cmd cmd "shm" then
    if shm_mode (poll c)
    then Prompt (with_poll (set_shm_mode false (poll c)) (say (MsgShm false) c))
    else Prompt (with_poll (set_shm_mode true (poll c)) (say (MsgShm true) c))
  else if is_cmd cmd "reboot" then
    if doMcaRun_ c then Prompt (say (MsgCannotReboot true) c)
    else if acq_running (poll c) || doMcaRun_ c
    then Prompt (say (MsgCannotReboot false) c)
    else Prompt (log TerminalPause (set_do_reboot true c))
  else if is_cmd cmd "hup" || is_cmd cmd "spill" then
    if doMcaRun_ c then Prompt (say MsgNoSpillForMca c)
    else if negb (acq_running (poll c)) then Prompt (say MsgAcqNotRunning c)
    else Prompt (with_poll (set_force_spill true (poll c)) c)
  else if is_cmd cmd "fdir" then Prompt (cmd_fdir arg c)
  else if is_cmd cmd "prefix" then Prompt (cmd_prefix arg c)
  else if is_cmd cmd "title" then Prompt (cmd_title arg c)
  else if is_cmd cmd "runnum" then cmd_runnum arg c
  else Prompt (say (MsgUnknownCommand cmd) c).

(** One pass of the [while (true)] of [Poll::CommandControl]; [cmd] and
    [arg] are what [poll_term_->GetCommand(arg)] delivers.  The waits for
    [run_ctrl_exit] before a [break] are not modelled. *)
Definition CommandControl_pass (cmd arg : string) (c : Control) : command_end :=
  if kill_all c then Quit c
  else if is_cmd cmd "_SIGSEGV_" then ProcessExit (snd (Close (say MsgSegfault c)))
  else if is_cmd cmd "CTRL_C" && negb (doMcaRun_ c) then
    Prompt (say (MsgCtrlC false) c)
  else if is_cmd cmd "CTRL_Z" then Prompt (say MsgCtrlZ c)
  else
    let '(cmd, c) :=
      if is_cmd cmd "CTRL_D" then ("quit", say MsgCtrlD c)
      else if is_cmd cmd "CTRL_C" then ("stop", say (MsgCtrlC true) c)
      else (cmd, c) in
    if negb (pos_of (Args.find cmd tab) =? npos) then Prompt (log TabComplete c)
    else if negb (pos_of (Args.find arg tab) =? npos) then
      if is_cmd cmd "pread" || is_cmd cmd "pwrite" || is_cmd cmd "pmread"
         || is_cmd cmd "pmwrite" || is_cmd cmd "toggle"
      then Prompt (log TabComplete c)
      else Prompt c
    else if String.eqb cmd "" then Prompt c
    else command cmd arg (with_poll (set_had_error false (poll c)) c).

End RunControl.

(** The state that the constructor [Poll::Poll()] sets up. *)
Definition Control_init (thresh : Z) : Control :=
  {| poll := Poll_init thresh;
     kill_all := false; do_start_acq := false; do_reboot := false;
     run_ctrl_exit := false; doMcaRun_ := false; isMcaRunning_ := false;
     mca_live := false; mcaRunLengthInSeconds_ := 10; init_ := false; runTime := -1;
     output_directory := "./"; filename_prefix := "run";
     output_title := "PIXIE data file"; output_format := 0;
     current_file_num := 0; firstTime := true; acqStartTime := 0;
     trace := [] |}.

(* ===================================================================== *)
(** ** Notions used in the further properties *)

(** The members that the loop over the modules never assigns. *)
Definition setup (s : Poll)
    : bool * bool * bool * bool * Z * bool * bool * Z * PollOutputFile :=
  (acq_running s, shm_mode s, is_quiet s, debug_mode s, threshWords s,
   record_data s, file_open s, next_run_num s, output_file s).

(** Events that touch the output file. *)
Definition file_event (e : event) : bool :=
  match e with
  | FileClose | FileOpenNew _ _ _ | FileWrite _ => true
  | _ => false
  end.

(** Whether [ws] is a run of whole events from [slot]: every event starts
    with a word whose slot field is [slot] and whose size field is the
    number of words of the event, which is not zero.  [fuel] bounds the
    number of events. *)
Fixpoint whole_events (fuel : nat) (slot : Z) (ws : list Z) : bool :=
  match ws with
  | [] => true
  | w :: _ =>
      match fuel with
      | O => false
      | S fuel' =>
          (slotRead w =? slot) && negb (eventSizeRead w =? 0)
          && (eventSizeRead w <=? Z.of_nat (List.length ws))
          && whole_events fuel' slot (skipn (Z.to_nat (eventSizeRead w)) ws)
      end
  end.

(** The members of [Control] that only [CommandControl] and [RunControl]
    themselves assign. *)
Definition requests (c : Control) : bool * bool * bool * bool * bool * bool :=
  (kill_all c, do_start_acq c, do_reboot c, run_ctrl_exit c, doMcaRun_ c,
   isMcaRunning_ c).

(** [grows P t t']: the trace [t'] is [t] followed by events that all
    satisfy [P]. *)
Definition grows (P : ctl_event -> Prop) (t t' : list ctl_event) : Prop :=
  exists l, t' = t ++ l /\ Forall P l.

(** The calls that start or end a run in the modules. *)
Definition run_call (e : ctl_event) : bool :=
  match e with
  | PifEndRun | PifStartListModeRun _ | PifBoot | McaStart => true
  | _ => false
  end.

(** [c'] differs from [c] in [poll] and [trace] at most. *)
Definition same_but_poll (c c' : Control) : Prop :=
  c' = set_trace (trace c') (set_poll (poll c') c).

(** What a call of [ReadFIFO] from [RunControl] keeps. *)
Definition kept (s s' : Poll) : Prop :=
  acq_running s' = acq_running s /\
  (record_data s = false ->
   record_data s' = false /\ output_file s' = output_file s /\
   extends (fun e => file_event e = false) (out s) (out s')).

(** Events other than a [Write] to the output file. *)
Definition no_write (e : event) : Prop := forall n, e <> FileWrite n.

(** A controller, as the constructor leaves it, whose acquisition members
    are [s]. *)
Definition controlling (s : Poll) : Control := set_poll s (Control_init 0).

(** A pass at time [now] in which every module has ended its run, every
    call to the interface succeeds and the FIFOs are as [hw] says. *)
Definition calm_pass (hw : Hardware) (now : Z) : Pass :=
  {| mca_starts := true; mca_made := true; mca_run_time := 0;
     mca_step := true;
     list_mode_starts := true; start_clock := now; clock := now;
     run_status := fun _ _ => 0; words_left := fun _ => 0;
     fifo := fun _ => hw |}.

(** A pass in which every call to the interface succeeds and module 1 has
    not ended its run when the stop sequence asks it for the first time;
    the FIFOs are as [first_fifo] says at the start of the stop sequence and
    as [rest_fifo] says afterwards. *)
Definition last_pass : Pass :=
  {| mca_starts := true; mca_made := true; mca_run_time := 0;
     mca_step := true; list_mode_starts := true; start_clock := 0; clock := 0;
     run_status := fun m k => match m, k with 1%nat, O => 1 | _, _ => 0 end;
     words_left := fun _ => 0;
     fifo := fun n => match n with O => first_fifo | _ => rest_fifo end |}.

(** The spills that the client is sent in shared-memory mode: the
    datagrams without their two header words. *)
Definition sent_spills (t : list ctl_event) : list (list Z) :=
  flat_map (fun e => match e with
                     | Inner (ClientData (_ :: _ :: ws)) => [ws]
                     | _ => []
                     end) t.

(** The controller that a call leaves, for calls that return. *)
Definition ctl_after (r : result Control) (c : Control) : Control :=
  match r with
  | Done c' => c'
  | _ => c
  end.

(** The controller that a pass leaves, for passes that return. *)
Definition pass_after (r : result pass_end) (c : Control) : Control :=
  match r with
  | Done (Again c') | Done (Exited c') => c'
  | _ => c
  end.

(** What [RunControl] still has to wind down before a kill can take
    effect: a running acquisition, a running MCA, and a start that a
    running MCA has kept waiting. *)
Definition winding (c : Control) : nat :=
  (if acq_running (poll c) then 1 else 0)
  + (if isMcaRunning_ c then 1 else 0)
  + (if negb (acq_running (poll c)) && isMcaRunning_ c && do_start_acq c
     then 1 else 0).

(** The bookkeeping of the acquisition is consistent: no carried fragment
    is longer than an event can be, and [file_open] tells whether the
    output file is open. *)
Definition consistent (s : Poll) : Prop :=
  (forall m, partial_ok s m) /\ file_open s = is_open (output_file s).

(** The controller is consistent, and the MCA only runs while an MCA run
    is requested. *)
Definition well_formed (c : Control) : Prop :=
  consistent (poll c) /\ (isMcaRunning_ c = true -> doMcaRun_ c = true).

(** The controller that a pass leaves. *)
Definition pass_ctl (r : pass_end) : Control :=
  match r with
  | Again c | Exited c => c
  end.

(** What names the next output file. *)
Definition naming (c : Control) : string * string * string * Z * Z :=
  (output_directory c, filename_prefix c, output_title c,
   next_run_num (poll c), current_file_num c).

(** The controller that a command leaves; for a command that is not
    modelled, the controller as it was. *)
Definition command_ctl (r : command_end) (c : Control) : Control :=
  match r with
  | Prompt c' | Quit c' | ProcessExit c' | Uncaught _ c' => c'
  | NotModelled => c
  end.

(** The command that starts a run: [run] records the data, [startacq]
    does not. *)
Definition start_command (record_ : bool) : string :=
  if record_ then "run"%string else "startacq"%string.

(* ===================================================================== *)
(** * Properties *)

(* ===================================================================== *)
(** ** [SplitParameterArgs] *)

Section ArgsFacts.
Import Args.
Local Open Scope string_scope.
Local Open Scope Z_scope.

Lemma digit_classes (c : ascii) :
  is_digit c = true ->
  mem_char c "-0123456789:" = true /\ Ascii.eqb c ":" = false /\
  is_space c = false /\ Ascii.eqb c "-" = false /\ Ascii.eqb c "+" = false.
Proof.
  destruct c as [[] [] [] [] [] [] [] []]; vm_compute; intros H;
    try discriminate H; repeat split.
Qed.

Lemma all_digits_cons (c : ascii) (rest : string) :
  all_digits (String c rest) = true ->
  is_digit c = true /\ (rest = "" \/ all_digits rest = true).
Proof.
  simpl. intros H. apply andb_true_iff in H as [Hc Hr]. split; [exact Hc|].
  destruct rest as [|d rest']; [now left|right]. exact Hr.
Qed.

Lemma read_digits_run (ds rest : string) (seen : bool) (acc : Z) :
  all_digits ds = true -> stops_digits rest ->
  read_digits (ds ++ rest) seen acc = (true, digits_val ds acc).
Proof.
  revert seen acc. induction ds as [|c ds IH]; intros seen acc Hd Hr.
  - discriminate Hd.
  - apply all_digits_cons in Hd as [Hc [-> | Hds]].
    + simpl. rewrite Hc. destruct rest as [|d rest']; simpl.
      * reflexivity.
      * simpl in Hr. rewrite Hr. reflexivity.
    + simpl. rewrite Hc. change (read_digits (ds ++ rest) true (10 * acc + digit_val c) =
                                 (true, digits_val ds (10 * acc + digit_val c))).
      apply IH; assumption.
Qed.

Lemma stoi_numeral (neg : bool) (ds rest : string) :
  all_digits ds = true -> stops_digits rest ->
  in_int (numeral_val neg ds) ->
  stoi (numeral neg ds ++ rest) = StoiOk (numeral_val neg ds).
Proof.
  intros Hd Hr [Hlo Hhi].
  assert (Hrange : forall v, INT_MIN <= v <= INT_MAX ->
            ((v <? INT_MIN) || (INT_MAX <? v))%bool = false).
  { intros v [H1 H2]. apply orb_false_iff. split; apply Z.ltb_ge; assumption. }
  unfold stoi, numeral, numeral_val in *. destruct neg; simpl sign_str.
  - simpl append. simpl skip_space. cbv iota beta.
    rewrite (read_digits_run ds rest false 0 Hd Hr). simpl negb. cbv iota.
    rewrite Hrange by (split; assumption). reflexivity.
  - simpl append. destruct ds as [|c ds']; [discriminate Hd|].
    pose proof (all_digits_cons c ds' Hd) as [Hc _].
    destruct (digit_classes c Hc) as (_ & _ & Hsp & Hm & Hp).
    simpl append. simpl skip_space. rewrite Hsp.
    assert (Hsign :
      match String c (ds' ++ rest) with
      | String "-" r => (true, r)
      | String "+" r => (false, r)
      | _ => (false, String c (ds' ++ rest))
      end = (false, String c (ds' ++ rest))).
    { clear - Hm Hp.
      destruct c as [[] [] [] [] [] [] [] []]; try reflexivity;
        vm_compute in Hm, Hp; discriminate. }
    rewrite Hsign.
    change (String c (ds' ++ rest)) with (String c ds' ++ rest).
    rewrite (read_digits_run (String c ds') rest false 0 Hd Hr).
    simpl negb. cbv iota.
    rewrite Hrange by (split; assumption). reflexivity.
Qed.

Lemma append_nil_r (s : string) : s ++ "" = s.
Proof. induction s; simpl; congruence. Qed.

Lemma take_append (a b : string) : take (String.length a) (a ++ b) = a.
Proof. induction a; simpl; [destruct b; reflexivity | congruence]. Qed.

Lemma drop_append_sep (a b : string) (c : ascii) :
  drop (String.length a + 1) (a ++ String c b) = b.
Proof. induction a; simpl; auto. Qed.

Lemma digits_chars (ds rest : string) :
  (ds = "" \/ all_digits ds = true) ->
  find_first_not_of (ds ++ rest) "-0123456789:" =
    option_map (Nat.add (String.length ds)) (find_first_not_of rest "-0123456789:")
  /\ find (ds ++ rest) ":" = option_map (Nat.add (String.length ds)) (find rest ":").
Proof.
  induction ds as [|c ds IH]; intros Hd.
  - simpl. split; [destruct (find_first_not_of _ _) | destruct (find _ _)]; reflexivity.
  - destruct Hd as [Hd | Hd]; [discriminate Hd|].
    apply all_digits_cons in Hd as [Hc Hds].
    destruct (digit_classes c Hc) as (Hmem & Hcolon & _).
    destruct (IH Hds) as [IH1 IH2].
    simpl append. split.
    + cbn [find_first_not_of]. rewrite Hmem, IH1.
      destruct (find_first_not_of rest _); reflexivity.
    + cbn [find]. rewrite Hcolon, IH2. destruct (find rest _); reflexivity.
Qed.

Lemma numeral_chars (neg : bool) (ds rest : string) :
  all_digits ds = true ->
  find_first_not_of (numeral neg ds ++ rest) "-0123456789:" =
    option_map (Nat.add (String.length (numeral neg ds)))
               (find_first_not_of rest "-0123456789:")
  /\ find (numeral neg ds ++ rest) ":" =
       option_map (Nat.add (String.length (numeral neg ds))) (find rest ":").
Proof.
  intros Hd. destruct (digits_chars ds rest (or_intror Hd)) as [H1 H2].
  unfold numeral. destruct neg; simpl sign_str; simpl append.
  - split.
    + cbn [find_first_not_of]. change (mem_char "-" "-0123456789:") with true.
      cbv iota. rewrite H1. destruct (find_first_not_of rest _); reflexivity.
    + cbn [find]. change (Ascii.eqb "-" ":") with false. cbv iota.
      rewrite H2. destruct (find rest _); reflexivity.
  - split; assumption.
Qed.

Lemma SplitParameterArgs_single (neg : bool) (ds : string) (start stop : Z) :
  all_digits ds = true -> in_int (numeral_val neg ds) ->
  SplitParameterArgs (numeral neg ds) start stop =
    SplitReturn true (numeral_val neg ds) (numeral_val neg ds).
Proof.
  intros Hd Hin. unfold SplitParameterArgs.
  destruct (numeral_chars neg ds "" Hd) as [H1 H2].
  rewrite append_nil_r in H1, H2. rewrite H1, H2. simpl option_map.
  unfold substr. simpl drop.
  pose proof (stoi_numeral neg ds "" Hd I Hin) as Hs.
  rewrite append_nil_r in Hs. rewrite Hs. reflexivity.
Qed.

Lemma SplitParameterArgs_range (na nb : bool) (da db : string) (start stop : Z) :
  all_digits da = true -> all_digits db = true ->
  in_int (numeral_val na da) -> in_int (numeral_val nb db) ->
  SplitParameterArgs (numeral na da ++ ":" ++ numeral nb db) start stop =
    SplitReturn (negb ((numeral_val na da <? 0) || (numeral_val nb db <? 0) ||
                       (numeral_val nb db <? numeral_val na da))%Z)
                (numeral_val na da) (numeral_val nb db).
Proof.
  intros Ha Hb Hia Hib.
  assert (Hchars : find_first_not_of (numeral na da ++ ":" ++ numeral nb db)
                     "-0123456789:" = None).
  { destruct (numeral_chars na da (":" ++ numeral nb db) Ha) as [H1 _].
    destruct (numeral_chars nb db "" Hb) as [H3 _].
    rewrite append_nil_r in H3. rewrite H1.
    change (":" ++ numeral nb db) with (String ":" (numeral nb db)).
    cbn [find_first_not_of]. change (mem_char ":" "-0123456789:") with true.
    cbv iota. rewrite H3. reflexivity. }
  assert (Hfind : find (numeral na da ++ ":" ++ numeral nb db) ":" =
                  Some (String.length (numeral na da))).
  { destruct (numeral_chars na da (":" ++ numeral nb db) Ha) as [_ H2].
    rewrite H2. change (":" ++ numeral nb db) with (String ":" (numeral nb db)).
    cbn [find]. change (Ascii.eqb ":" ":") with true. cbv iota.
    simpl option_map. rewrite Nat.add_0_r. reflexivity. }
  unfold SplitParameterArgs. rewrite Hchars, Hfind.
  unfold substr. simpl drop at 1.
  rewrite take_append.
  pose proof (stoi_numeral na da "" Ha I Hia) as Hsa.
  rewrite append_nil_r in Hsa. rewrite Hsa.
  change (numeral na da ++ ":" ++ numeral nb db)
    with (numeral na da ++ String ":" (numeral nb db)).
  rewrite drop_append_sep.
  pose proof (stoi_numeral nb db "" Hb I Hib) as Hsb.
  rewrite append_nil_r in Hsb. rewrite Hsb.
  destruct ((numeral_val na da <? 0) || (numeral_val nb db <? 0) ||
            (numeral_val nb db <? numeral_val na da))%bool; reflexivity.
Qed.

End ArgsFacts.

Section ArgsClaims.
Import Args.
Local Open Scope string_scope.
Local Open Scope Z_scope.

(** C7, as amended.  An argument written [a:b], with [a] and [b] decimal
    integers that fit an [int], leaves [start = a] and [stop = b] and is
    rejected exactly when a bound is negative or [start > stop]; a single
    integer, negative or not, is accepted with [start = stop]. *)
Theorem SplitParameterArgs_bounds (na nb : bool) (da db : string)
    (start stop : Z) :
  all_digits da = true -> all_digits db = true ->
  in_int (numeral_val na da) -> in_int (numeral_val nb db) ->
  SplitParameterArgs (numeral na da ++ ":" ++ numeral nb db) start stop =
    SplitReturn (negb ((numeral_val na da <? 0) || (numeral_val nb db <? 0) ||
                       (numeral_val nb db <? numeral_val na da)))
                (numeral_val na da) (numeral_val nb db) /\
  SplitParameterArgs (numeral na da) start stop =
    SplitReturn true (numeral_val na da) (numeral_val na da).
Proof.
  intros Ha Hb Hia Hib. split.
  - now apply SplitParameterArgs_range.
  - now apply SplitParameterArgs_single.
Qed.

Lemma SplitParameterArgs_bounds_witness :
  SplitParameterArgs "0:3" 7 7 = SplitReturn true 0 3 /\
  SplitParameterArgs "0" 7 7 = SplitReturn true 0 0.
Proof.
  apply (SplitParameterArgs_bounds false false "0" "3" 7 7).
  - reflexivity.
  - reflexivity.
  - vm_compute. split; discriminate.
  - vm_compute. split; discriminate.
Defined.

(** C7 as stated fails: a single negative number is accepted. *)
Lemma SplitParameterArgs_accepts_negative :
  exists start stop,
    SplitParameterArgs "-5" 0 0 = SplitReturn true start stop /\ start < 0.
Proof. exists (-5), (-5). split; reflexivity. Qed.

End ArgsClaims.

(* ===================================================================== *)
(** ** Event words *)

Lemma chanRead_range (w : Z) : 0 <= chanRead w <= 15.
Proof.
  unfold chanRead. change 0xF with (Z.ones 4).
  rewrite Z.land_ones by lia.
  pose proof (Z.mod_pos_bound w (2 ^ 4) eq_refl). change (2 ^ 4) with 16 in *. change (Z.ones 4) with 15. lia.
Qed.

Lemma eventSizeRead_range (w : Z) : 0 <= eventSizeRead w <= 16383.
Proof.
  unfold eventSizeRead. rewrite Z.shiftr_land.
  change (Z.shiftr 0x7FFE2000 17) with (Z.ones 14).
  rewrite Z.land_ones by lia.
  pose proof (Z.mod_pos_bound (Z.shiftr w 17) (2 ^ 14) eq_refl).
  change (2 ^ 14) with 16384 in *. change (Z.ones 14) with 16383. lia.
Qed.

Lemma channel_check_dead (w : Z) :
  ((chanRead w <? 0) || (15 <? chanRead w))%bool = false.
Proof.
  pose proof (chanRead_range w). apply orb_false_iff.
  split; apply Z.ltb_ge; lia.
Qed.

Lemma to_word_range (z : Z) : 0 <= to_word z < 2 ^ 32.
Proof. unfold to_word. apply Z.mod_pos_bound. reflexivity. Qed.

Lemma to_word_small (z : Z) : 0 <= z < 2 ^ 32 -> to_word z = z.
Proof. intros H. unfold to_word. apply Z.mod_small. exact H. Qed.

(* ===================================================================== *)
(** ** Output file *)

Section FileFacts.
Variable cfg : Config.

Lemma CloseOutputFile_open (continueRun : bool) (s : Poll) :
  is_open (output_file s) = true ->
  let s' := snd (CloseOutputFile cfg continueRun s) in
  fst (CloseOutputFile cfg continueRun s) = true /\
  is_open (output_file s') = false /\
  file_open s' = false /\
  filesize (output_file s') = filesize (output_file s) /\
  sub_file (output_file s') = sub_file (output_file s) /\
  had_error s' = had_error s /\ record_data s' = record_data s /\
  do_stop_acq s' = do_stop_acq s /\ is_quiet s' = is_quiet s /\
  out s' = out s
           ++ (if continueRun then [] else [StatsClear; StatsDump])
           ++ [FileClose; ClientMessage "$CLOSE_FILE" 12; Stdout MsgClosed] /\
  next_run_num s' = (if continueRun then next_run_num s
                     else to_word (next_free_run cfg (next_run_num s))).
Proof.
  intros Hopen. unfold CloseOutputFile. rewrite Hopen.
  destruct continueRun; cbn; repeat split;
    rewrite <- ?app_assoc; reflexivity.
Qed.

End FileFacts.

Section WriteFacts.
Variable cfg : Config.

Lemma OpenOutputFile_closed (continueRun : bool) (s : Poll) :
  is_open (output_file s) = false ->
  let s' := snd (OpenOutputFile cfg continueRun s) in
  is_open (output_file s') = path_writable cfg /\
  (path_writable cfg = true ->
     filesize (output_file s') = fresh_filesize cfg /\
     sub_file (output_file s') =
       (if continueRun then sub_file (output_file s) + 1 else 0)) /\
  is_quiet s' = is_quiet s /\ next_run_num s' = next_run_num s /\
  out s' = out s
           ++ FileOpenNew (next_run_num s) continueRun (path_writable cfg)
           :: (if path_writable cfg
               then [Stdout MsgOpened; StatsClear; StatsDump;
                     ClientMessage "$OPEN_FILE" 12]
               else [Stdout MsgOpenFailed]).
Proof.
  intros Hclosed. unfold OpenOutputFile, OutputFile.OpenNewFile.
  rewrite Hclosed. destruct (path_writable cfg); cbn;
    repeat split; rewrite <- ?app_assoc; try reflexivity;
    intros; discriminate.
Qed.

End WriteFacts.

(** C10. [OpenOutputFile] called while a file is open opens nothing: it
    closes the open file (as [CloseOutputFile()] does, without asking
    [PollOutputFile] for a new one), sets [had_error], clears [record_data]
    and returns [false]; afterwards no file is open. *)
Theorem OpenOutputFile_while_open (cfg : Config) (continueRun : bool) (s : Poll) :
  is_open (output_file s) = true ->
  let r := OpenOutputFile cfg continueRun s in
  fst r = false /\
  is_open (output_file (snd r)) = false /\
  file_open (snd r) = false /\
  had_error (snd r) = true /\
  record_data (snd r) = false /\
  out (snd r) = out s ++ [Stdout MsgFileAlreadyOpen; StatsClear; StatsDump;
                          FileClose; ClientMessage "$CLOSE_FILE" 12;
                          Stdout MsgClosed].
Proof.
  intros Hopen. unfold OpenOutputFile. rewrite Hopen.
  assert (Hopen' : is_open (output_file (cout MsgFileAlreadyOpen s)) = true)
    by exact Hopen.
  destruct (CloseOutputFile_open cfg false _ Hopen')
    as (_ & Hc & Hf & _ & _ & _ & _ & _ & _ & Hout & _).
  cbn zeta. cbn [fst snd].
  repeat split; try reflexivity; try assumption.
  cbn [out set_record_data set_had_error]. rewrite Hout. cbn [cout emit out set_out].
  rewrite <- app_assoc. reflexivity.
Qed.

Lemma OpenOutputFile_while_open_witness :
  let r := OpenOutputFile crate false (recording 1000) in
  fst r = false /\
  is_open (output_file (snd r)) = false /\
  file_open (snd r) = false /\
  had_error (snd r) = true /\
  record_data (snd r) = false /\
  out (snd r) = out (recording 1000)
                ++ [Stdout MsgFileAlreadyOpen; StatsClear; StatsDump;
                    FileClose; ClientMessage "$CLOSE_FILE" 12;
                    Stdout MsgClosed].
Proof.
  apply (OpenOutputFile_while_open crate false (recording 1000)).
  reflexivity.
Defined.

(** C3, as amended.  For a call of [write_data] with an open file and a
    spill that fits into a freshly opened file together with the 65552-byte
    reservation: if the current size plus [4 * nWords] plus 65552 exceeds
    [MAX_FILE_SIZE], the file is closed with [continueRun = true] (the run
    number stays) and [OpenNewFile] is asked for the next sub-file with
    [continueRun = true], all before the words are written; and whenever the
    words were written to an open file, its size is at most
    [MAX_FILE_SIZE - 65552] afterwards. *)
Theorem write_data_rollover (cfg : Config) (nWords : Z) (s : Poll) :
  is_open (output_file s) = true ->
  0 <= nWords ->
  0 <= fresh_filesize cfg ->
  fresh_filesize cfg + 4 * nWords + 65552 <= MAX_FILE_SIZE ->
  let s' := snd (write_data cfg nWords s) in
  (MAX_FILE_SIZE < filesize (output_file s) + 4 * nWords + 65552 ->
     (exists l,
        out s' = out s
          ++ [Stdout (MsgMaxFileSize (filesize (output_file s) + 65552));
              FileClose; ClientMessage "$CLOSE_FILE" 12; Stdout MsgClosed;
              FileOpenNew (next_run_num s) true (path_writable cfg)]
          ++ l ++ [FileWrite nWords]) /\
     next_run_num s' = next_run_num s /\
     is_open (output_file s') = path_writable cfg /\
     (path_writable cfg = true ->
        sub_file (output_file s') = sub_file (output_file s) + 1)) /\
  (is_open (output_file s') = true ->
     filesize (output_file s') <= MAX_FILE_SIZE - 65552).
Proof.
  intros Hopen Hn Hfresh Hfit. unfold write_data. rewrite Hopen. cbn [negb].
  unfold MAX_FILE_SIZE in *.
  rewrite (to_word_small (4 * nWords + 65552)) by (change (2 ^ 32) with 4294967296; lia).
  destruct (2147483648 <? filesize (output_file s) + (4 * nWords + 65552)) eqn:Hroll.
  - apply Z.ltb_lt in Hroll.
    set (s1 := cout (MsgMaxFileSize (filesize (output_file s) + 65552)) s).
    assert (Hopen1 : is_open (output_file s1) = true) by exact Hopen.
    destruct (CloseOutputFile_open cfg true s1 Hopen1)
      as (_ & Hc & _ & _ & Hsub & _ & _ & _ & Hq & Hout & Hrun).
    set (s2 := snd (CloseOutputFile cfg true s1)) in *.
    destruct (OpenOutputFile_closed cfg true s2 Hc)
      as (Ho & Hw & Hq3 & Hrun3 & Hout3).
    set (s3 := snd (OpenOutputFile cfg true s2)) in *.
    set (s4 := if negb (is_quiet s3) then cout (MsgWriting nWords) s3 else s3).
    assert (H4 : output_file s4 = output_file s3 /\
                 next_run_num s4 = next_run_num s3 /\
                 exists l, out s4 = out s3 ++ l).
    { subst s4. destruct (negb (is_quiet s3)); cbn.
      - repeat split. now exists [Stdout (MsgWriting nWords)].
      - repeat split. exists []. now rewrite app_nil_r. }
    destruct H4 as (Hf4 & Hrun4 & l4 & Hout4).
    unfold OutputFile.Write. rewrite Hf4, Ho.
    destruct (path_writable cfg) eqn:Hwr.
    + destruct (Hw eq_refl) as [Hsize Hsub3].
      cbn [snd fst]. cbn [output_file set_output_file emit set_out out
                           next_run_num is_open filesize sub_file].
      split; [intros _; repeat split|].
      * exists ([Stdout MsgOpened; StatsClear; StatsDump;
                 ClientMessage "$OPEN_FILE" 12] ++ l4).
        rewrite Hout4, Hout3, Hout, Hrun. subst s1.
        cbn [cout emit out set_out next_run_num].
        repeat rewrite <- app_assoc. reflexivity.
      * rewrite Hrun4, Hrun3, Hrun. reflexivity.
      * intros _. rewrite Hsub3, Hsub. reflexivity.
      * intros _. rewrite Hsize. lia.
    + cbn [snd fst]. cbn [output_file set_output_file emit set_out out
                           next_run_num is_open filesize sub_file].
      split; [intros _; repeat split|].
      * exists ([Stdout MsgOpenFailed] ++ l4).
        rewrite Hout4, Hout3, Hout, Hrun. subst s1.
        cbn [cout emit out set_out next_run_num].
        repeat rewrite <- app_assoc. reflexivity.
      * rewrite Hrun4, Hrun3, Hrun. reflexivity.
      * exact Ho.
      * intros; discriminate.
      * rewrite Ho. intros; discriminate.
  - apply Z.ltb_ge in Hroll. split; [intros; lia|].
    set (s4 := if negb (is_quiet s) then cout (MsgWriting nWords) s else s).
    assert (Hf4 : output_file s4 = output_file s).
    { subst s4. destruct (negb (is_quiet s)); reflexivity. }
    unfold OutputFile.Write. rewrite Hf4, Hopen.
    cbn [snd fst output_file set_output_file emit set_out is_open filesize].
    intros _. lia.
Qed.

Lemma write_data_rollover_witness :
  let s := recording 2147418000 in
  let s' := snd (write_data crate 1000 s) in
  (MAX_FILE_SIZE < filesize (output_file s) + 4 * 1000 + 65552 ->
     (exists l,
        out s' = out s
          ++ [Stdout (MsgMaxFileSize (filesize (output_file s) + 65552));
              FileClose; ClientMessage "$CLOSE_FILE" 12; Stdout MsgClosed;
              FileOpenNew (next_run_num s) true (path_writable crate)]
          ++ l ++ [FileWrite 1000]) /\
     next_run_num s' = next_run_num s /\
     is_open (output_file s') = path_writable crate /\
     (path_writable crate = true ->
        sub_file (output_file s') = sub_file (output_file s) + 1)) /\
  (is_open (output_file s') = true ->
     filesize (output_file s') <= MAX_FILE_SIZE - 65552).
Proof.
  apply (write_data_rollover crate 1000 (recording 2147418000)).
  - reflexivity.
  - lia.
  - vm_compute; discriminate.
  - vm_compute; discriminate.
Defined.

(** C3 as stated fails for a spill that does not fit into a fresh file: the
    file is rolled over, the 2 GiB of words are written to the new sub-file,
    and its size ends above [MAX_FILE_SIZE - 65552]. *)
Lemma write_data_oversized_spill :
  let r := write_data crate 536870912 (recording 0) in
  is_open (output_file (recording 0)) = true /\
  fst r = 4 * 536870912 /\
  is_open (output_file (snd r)) = true /\
  MAX_FILE_SIZE - 65552 < filesize (output_file (snd r)).
Proof. vm_compute. repeat split. Qed.

(* ===================================================================== *)
(** ** Arrays of words *)

Lemma block_length (buf : Z -> Z) (pos len : Z) :
  List.length (block buf pos len) = Z.to_nat len.
Proof. unfold block. now rewrite length_map, length_seq. Qed.

Lemma block_nil (buf : Z -> Z) (pos len : Z) : len <= 0 -> block buf pos len = [].
Proof.
  intros H. unfold block. replace (Z.to_nat len) with O by lia. reflexivity.
Qed.

Lemma map_seq_shift {A : Type} (f : nat -> A) (n m : nat) :
  map f (seq n m) = map (fun i => f (n + i)%nat) (seq 0 m).
Proof.
  revert f n. induction m as [|m IH]; intros f n; [reflexivity|].
  cbn [seq map]. f_equal.
  - f_equal. lia.
  - rewrite (IH f (S n)), (IH (fun i => f (n + i)%nat) 1%nat).
    apply map_ext. intros i. f_equal. lia.
Qed.

Lemma block_app (buf : Z -> Z) (pos a b : Z) :
  0 <= a -> 0 <= b ->
  block buf pos (a + b) = block buf pos a ++ block buf (pos + a) b.
Proof.
  intros Ha Hb. unfold block.
  rewrite Z2Nat.inj_add by assumption. rewrite seq_app, map_app. f_equal.
  cbn [Nat.add]. rewrite map_seq_shift.
  apply map_ext. intros i. f_equal. lia.
Qed.

Lemma block_ext (f g : Z -> Z) (pos len : Z) :
  (forall j, pos <= j < pos + len -> f j = g j) ->
  block f pos len = block g pos len.
Proof.
  intros H. unfold block. apply map_ext_in. intros i Hi.
  apply in_seq in Hi. apply H. lia.
Qed.

Lemma block_blit (buf : Z -> Z) (pos : Z) (l : list Z) :
  block (blit buf pos l) pos (Z.of_nat (List.length l)) = l.
Proof.
  unfold block. rewrite Nat2Z.id.
  apply nth_ext with (d := blit buf pos l (pos + Z.of_nat 0)) (d' := 0).
  - now rewrite length_map, length_seq.
  - intros n Hn. rewrite length_map, length_seq in Hn.
    rewrite (map_nth (fun i => blit buf pos l (pos + Z.of_nat i)) _ O).
    rewrite seq_nth by assumption. cbn [Nat.add]. unfold blit.
    replace ((pos <=? pos + Z.of_nat n) &&
             (pos + Z.of_nat n <? pos + Z.of_nat (List.length l)))%bool
      with true.
    + f_equal. lia.
    + symmetry. apply andb_true_iff. split; [apply Z.leb_le | apply Z.ltb_lt]; lia.
Qed.

Lemma blit_outside (buf : Z -> Z) (pos : Z) (l : list Z) (j : Z) :
  j < pos \/ pos + Z.of_nat (List.length l) <= j ->
  blit buf pos l j = buf j.
Proof.
  intros H. unfold blit.
  destruct (pos <=? j) eqn:H1; [|reflexivity].
  destruct (j <? pos + Z.of_nat (List.length l)) eqn:H2; [|reflexivity].
  apply Z.leb_le in H1. apply Z.ltb_lt in H2. lia.
Qed.

Lemma upd_same (buf : Z -> Z) (pos v : Z) : upd buf pos v pos = v.
Proof. unfold upd. now rewrite Z.eqb_refl. Qed.

Lemma upd_other (buf : Z -> Z) (pos v j : Z) : j <> pos -> upd buf pos v j = buf j.
Proof. intros H. unfold upd. apply Z.eqb_neq in H. now rewrite H. Qed.

Lemma block_cons (buf : Z -> Z) (pos len : Z) :
  0 < len -> block buf pos len = buf pos :: block buf (pos + 1) (len - 1).
Proof.
  intros H. replace len with (1 + (len - 1)) at 1 by lia.
  rewrite block_app by lia. unfold block at 1.
  change (Z.to_nat 1) with 1%nat. cbn [seq map app Z.of_nat].
  now rewrite Z.add_0_r.
Qed.

(* ===================================================================== *)
(** ** Chunked broadcast *)

Lemma div_sub_chunk (a : Z) : (a - 4050) / 4050 = a / 4050 - 1.
Proof.
  replace (a - 4050) with (a + (-1) * 4050) by lia.
  rewrite Z.div_add by lia. lia.
Qed.

Lemma broadcast_loop_correct (fuel : nat) (data : Z -> Z)
    (nWords total c w : Z) :
  0 <= w <= nWords -> nWords < 2 ^ 32 ->
  0 <= c -> c + (nWords - w) / maxShmSizeL + 1 < 2 ^ 32 ->
  nWords - w < Z.of_nat fuel ->
  exists sent,
    broadcast_loop fuel data nWords total c w = Done sent /\
    Z.of_nat (List.length sent) = (nWords - w + (maxShmSizeL - 1)) / maxShmSizeL /\
    (forall i, (i < List.length sent)%nat ->
       exists ws,
         nth i sent FilePacket = ClientData (c + Z.of_nat i :: total :: ws) /\
         Z.of_nat (List.length ws) =
           if (S i <? List.length sent)%nat then maxShmSizeL
           else last_chunk (nWords - w)) /\
    List.concat (map datagram_payload sent) = block data w (nWords - w).
Proof.
  unfold maxShmSizeL, last_chunk. change (2 ^ 32) with 4294967296.
  revert c w. induction fuel as [|fuel IH]; intros c w Hw Hn Hc Hcn Hfuel; [lia|].
  cbn [broadcast_loop].
  destruct (w <? nWords) eqn:Hlt.
  2:{ apply Z.ltb_ge in Hlt. assert (w = nWords) by lia. subst w.
      exists []. repeat split.
      - rewrite Z.sub_diag. reflexivity.
      - intros i Hi. cbn in Hi. lia.
      - rewrite Z.sub_diag. reflexivity. }
  apply Z.ltb_lt in Hlt.
  rewrite (to_word_small (nWords - w)) by (change (2 ^ 32) with 4294967296; lia).
  rewrite (to_word_small (c + 1)).
  2:{ change (2 ^ 32) with 4294967296.
      assert (0 <= (nWords - w) / 4050) by (apply Z.div_pos; lia). lia. }
  unfold maxShmSizeL.
  destruct (4050 <? nWords - w) eqn:Hbig.
  - apply Z.ltb_lt in Hbig.
    rewrite (to_word_small (w + 4050)) by (change (2 ^ 32) with 4294967296; lia).
    destruct (IH (c + 1) (w + 4050)) as (rest & Hrest & Hlen & Hnth & Hcat);
      try lia.
    { replace (nWords - (w + 4050)) with (nWords - w - 4050) by lia.
      rewrite div_sub_chunk. lia. }
    unfold maxShmSizeL in *. rewrite Hrest. cbn [bind].
    assert (Hlen' : Z.of_nat (List.length rest) =
                    (nWords - w + (4050 - 1)) / 4050 - 1).
    { rewrite Hlen.
      replace (nWords - (w + 4050) + (4050 - 1))
        with (nWords - w + (4050 - 1) - 4050) by lia.
      apply div_sub_chunk. }
    assert (Hpos : 2 <= (nWords - w + (4050 - 1)) / 4050).
    { apply Z.div_le_lower_bound; lia. }
    eexists. split; [reflexivity|]. repeat split.
    + cbn [List.length]. lia.
    + intros [|i] Hi; cbn [List.length] in *.
      * exists (block data w 4050). split.
        -- cbn [nth app]. now rewrite Z.add_0_r.
        -- rewrite block_length.
           replace (1 <? S (List.length rest))%nat with true
             by (symmetry; apply Nat.ltb_lt; lia).
           reflexivity.
      * destruct (Hnth i ltac:(lia)) as (ws & Hws & Hwl).
        exists ws. split.
        -- cbn [nth]. rewrite Hws. f_equal. f_equal. lia.
        -- rewrite Hwl.
           change (S (S i) <? S (List.length rest))%nat
             with (S i <? List.length rest)%nat.
           destruct (S i <? List.length rest)%nat; [reflexivity|].
           replace (nWords - (w + 4050) - 1) with (nWords - w - 1 - 4050) by lia.
           rewrite div_sub_chunk. lia.
    + cbn [map List.concat datagram_payload app]. rewrite Hcat.
      rewrite <- block_app by lia. f_equal. lia.
  - apply Z.ltb_ge in Hbig.
    replace (w + (nWords - w)) with nWords by lia.
    rewrite (to_word_small nWords) by (change (2 ^ 32) with 4294967296; lia).
    destruct fuel as [|fuel]; [lia|]. cbn [broadcast_loop].
    rewrite Z.ltb_irrefl. cbn [bind].
    eexists. split; [reflexivity|]. repeat split.
    + cbn [List.length]. change (Z.of_nat 1) with 1.
      apply Z.div_unique with (r := nWords - w - 1); lia.
    + intros [|i] Hi; cbn [List.length] in *; [|lia].
      exists (block data w (nWords - w)). split.
      * cbn [nth app]. now rewrite Z.add_0_r.
      * rewrite block_length. cbn [Nat.ltb Nat.leb].
        rewrite Z.div_small by lia. lia.
    + cbn [map List.concat datagram_payload app]. now rewrite app_nil_r.
Qed.

Lemma num_net_chunks_ceil (nWords : Z) :
  0 <= nWords < 2 ^ 32 ->
  num_net_chunks_of nWords = (nWords + (maxShmSizeL - 1)) / maxShmSizeL.
Proof.
  change (2 ^ 32) with 4294967296. unfold num_net_chunks_of, maxShmSizeL.
  intros H.
  pose proof (Z.div_mod nWords 4050 ltac:(lia)) as Hdm.
  pose proof (Z.mod_pos_bound nWords 4050 ltac:(lia)) as Hm.
  assert (Hq : 0 <= nWords / 4050) by (apply Z.div_pos; lia).
  destruct (nWords mod 4050 =? 0) eqn:Hr; cbn [negb].
  - apply Z.eqb_eq in Hr.
    apply Z.div_unique with (r := 4049); lia.
  - apply Z.eqb_neq in Hr.
    rewrite to_word_small by (change (2 ^ 32) with 4294967296; lia).
    apply Z.div_unique with (r := nWords mod 4050 - 1); lia.
Qed.

Lemma last_chunk_mod (nWords : Z) :
  0 < nWords ->
  last_chunk nWords =
    if nWords mod maxShmSizeL =? 0 then maxShmSizeL else nWords mod maxShmSizeL.
Proof.
  unfold last_chunk, maxShmSizeL. intros H.
  pose proof (Z.div_mod nWords 4050 ltac:(lia)) as Hdm.
  pose proof (Z.mod_pos_bound nWords 4050 ltac:(lia)) as Hm.
  destruct (nWords mod 4050 =? 0) eqn:Hr.
  - apply Z.eqb_eq in Hr.
    assert ((nWords - 1) / 4050 = nWords / 4050 - 1).
    { symmetry. apply Z.div_unique with (r := 4049); lia. }
    lia.
  - apply Z.eqb_neq in Hr.
    assert ((nWords - 1) / 4050 = nWords / 4050).
    { symmetry. apply Z.div_unique with (r := nWords mod 4050 - 1); lia. }
    lia.
Qed.

(** C4. In chunked mode a spill of [nWords > 0] words is sent as
    [ceil(nWords / 4050)] datagrams; the [i]-th one (counted from 1) starts
    with the two header words [i] and the number of chunks, every datagram
    but the last carries 4050 payload words, the last one carries
    [nWords mod 4050] words (4050 when that is zero), and the payloads
    put end to end are the spill buffer. *)
Theorem broadcast_data_chunks (data : Z -> Z) (nWords : Z) (s : Poll) :
  shm_mode s = true ->
  0 < nWords < 2 ^ 32 ->
  exists sent s',
    broadcast_data data nWords s = Done s' /\
    out s' = out s
             ++ (if debug_mode s
                 then [Stdout (MsgSplitting nWords (num_net_chunks_of nWords)
                                (nWords mod maxShmSizeL))]
                 else [])
             ++ sent /\
    Z.of_nat (List.length sent) = (nWords + (maxShmSizeL - 1)) / maxShmSizeL /\
    (forall i, (i < List.length sent)%nat ->
       exists ws,
         nth i sent FilePacket =
           ClientData (Z.of_nat i + 1 :: Z.of_nat (List.length sent) :: ws) /\
         Z.of_nat (List.length ws) =
           if (S i <? List.length sent)%nat then maxShmSizeL
           else if nWords mod maxShmSizeL =? 0 then maxShmSizeL
                else nWords mod maxShmSizeL) /\
    List.concat (map datagram_payload sent) = block data 0 nWords.
Proof.
  intros Hshm Hn. unfold broadcast_data. rewrite Hshm.
  destruct (broadcast_loop_correct (S (Z.to_nat nWords)) data nWords
              (num_net_chunks_of nWords) 1 0)
    as (sent & Hsent & Hlen & Hnth & Hcat); try lia.
  { unfold maxShmSizeL. change (2 ^ 32) with 4294967296 in *.
    rewrite Z.sub_0_r.
    assert (nWords / 4050 <= nWords) by (apply Z.div_le_upper_bound; lia).
    assert (nWords / 4050 < 4294967290); [|lia].
    apply Z.div_lt_upper_bound; lia. }
  rewrite Z.sub_0_r in *.
  rewrite Hsent. cbn [bind].
  eexists sent, _. split; [reflexivity|].
  rewrite <- (num_net_chunks_ceil nWords) in Hlen by lia.
  repeat split.
  - destruct (debug_mode s); cbn [out set_out cout emit];
      rewrite <- ?app_assoc; reflexivity.
  - rewrite Hlen. apply num_net_chunks_ceil. lia.
  - intros i Hi. destruct (Hnth i Hi) as (ws & Hws & Hwl).
    exists ws. split.
    + rewrite Hws, Hlen. now rewrite (Z.add_comm 1).
    + rewrite Hwl, last_chunk_mod by lia. reflexivity.
  - exact Hcat.
Qed.

Lemma broadcast_data_chunks_witness :
  let data := fun i : Z => i in
  let s := set_record_data true
             {| acq_running := true; shm_mode := true; is_quiet := true;
                debug_mode := false; threshWords := 0; force_spill := false;
                had_error := false; do_stop_acq := false; record_data := false;
                file_open := false; next_run_num := 1;
                partialEvents := fun _ => []; fifoData := data;
                output_file := {| is_open := false; filesize := 0; sub_file := 0 |};
                out := [] |} in
  exists sent s',
    broadcast_data data 9000 s = Done s' /\
    out s' = out s
             ++ (if debug_mode s
                 then [Stdout (MsgSplitting 9000 (num_net_chunks_of 9000)
                                (9000 mod maxShmSizeL))]
                 else [])
             ++ sent /\
    Z.of_nat (List.length sent) = (9000 + (maxShmSizeL - 1)) / maxShmSizeL /\
    (forall i, (i < List.length sent)%nat ->
       exists ws,
         nth i sent FilePacket =
           ClientData (Z.of_nat i + 1 :: Z.of_nat (List.length sent) :: ws) /\
         Z.of_nat (List.length ws) =
           if (S i <? List.length sent)%nat then maxShmSizeL
           else if 9000 mod maxShmSizeL =? 0 then maxShmSizeL
                else 9000 mod maxShmSizeL) /\
    List.concat (map datagram_payload sent) = block data 0 9000.
Proof.
  intros data s. apply (broadcast_data_chunks data 9000 s).
  - reflexivity.
  - split; reflexivity.
Defined.

(* ===================================================================== *)
(** ** Logs *)

Lemma extends_refl (P : event -> Prop) (o : list event) : extends P o o.
Proof. exists []. split; [now rewrite app_nil_r | constructor]. Qed.

Lemma extends_trans (P : event -> Prop) (o1 o2 o3 : list event) :
  extends P o1 o2 -> extends P o2 o3 -> extends P o1 o3.
Proof.
  intros (l1 & -> & H1) (l2 & -> & H2). exists (l1 ++ l2).
  split; [now rewrite app_assoc | now apply Forall_app].
Qed.

Lemma extends_snoc (P : event -> Prop) (o : list event) (e : event) :
  P e -> extends P o (o ++ [e]).
Proof. intros H. exists [e]. split; [reflexivity | now constructor]. Qed.

Lemma extends_step (P : event -> Prop) (o1 o2 : list event) (e : event) :
  extends P o1 o2 -> P e -> extends P o1 (o2 ++ [e]).
Proof. intros H He. eapply extends_trans; [exact H | now apply extends_snoc]. Qed.

Lemma extends_weaken (P Q : event -> Prop) (o o' : list event) :
  (forall e, P e -> Q e) -> extends P o o' -> extends Q o o'.
Proof.
  intros HPQ (l & -> & Hl). exists l. split; [reflexivity|].
  eapply Forall_impl; eauto.
Qed.

Ltac log_steps :=
  cbn [out set_out set_had_error set_do_stop_acq set_record_data set_file_open
       set_next_run_num set_partial set_partialEvents set_fifoData
       set_output_file set_force_spill cout emit];
  repeat first [ apply extends_refl
               | apply extends_step; [| exact I] ].

(* ===================================================================== *)
(** ** The parsing loop *)

Section ParseFacts.
Variables (mod_ : nat) (slotExpected dataWords nWords : Z).

Lemma parse_loop_spec (fuel : nat) (ps : parse_state) (s : Poll) :
  dataWords <= parseWords ps ->
  Z.max 0 (dataWords + nWords - parseWords ps) < Z.of_nat fuel ->
  parsed_to dataWords (dataWords + nWords) ps ->
  exists ps' s',
    parse_loop fuel mod_ slotExpected dataWords nWords ps s = Done (ps', s') /\
    fifoData s' = fifoData s /\
    partialEvents s' = partialEvents s /\
    debug_mode s' = debug_mode s /\
    extends parse_event (out s) (out s') /\
    dataWords <= parseWords ps' /\
    parsed_to dataWords (dataWords + nWords) ps'.
Proof.
  revert ps s. induction fuel as [|fuel IH]; intros ps s Hd Hfuel Hq.
  - lia.
  - cbn [parse_loop].
    destruct (parseWords ps <? dataWords + nWords) eqn:Hlt.
    2:{ exists ps, s. repeat split; try assumption. apply extends_refl. }
    apply Z.ltb_lt in Hlt.
    set (w := fifoData s (parseWords ps)).
    rewrite channel_check_dead. cbv zeta.
    pose proof (eventSizeRead_range w) as Hes.
    set (s1 := if negb (slotRead w =? slotExpected)
               then set_had_error true
                      (cout (MsgSlotMismatch (slotRead w) slotExpected) s)
               else s).
    assert (H1 : fifoData s1 = fifoData s /\ partialEvents s1 = partialEvents s /\
                 debug_mode s1 = debug_mode s /\
                 extends parse_event (out s) (out s1)).
    { subst s1. destruct (negb (slotRead w =? slotExpected));
        repeat split; log_steps. }
    destruct H1 as (Hf1 & Hp1 & Hdbg1 & He1).
    set (s3 := if eventSizeRead w =? 0
               then set_had_error true (cout (MsgZeroEventSize (Z.of_nat mod_)) s1)
               else s1).
    assert (H3 : fifoData s3 = fifoData s /\ partialEvents s3 = partialEvents s /\
                 debug_mode s3 = debug_mode s /\
                 extends parse_event (out s) (out s3) /\
                 (had_error s3 = false -> eventSizeRead w <> 0)).
    { subst s3. destruct (eventSizeRead w =? 0) eqn:Hz.
      - repeat split; try assumption.
        + eapply extends_trans; [exact He1|]. log_steps.
        + cbn. discriminate.
      - repeat split; try assumption. intros _. now apply Z.eqb_neq. }
    destruct H3 as (Hf3 & Hp3 & Hdbg3 & He3 & Hnz).
    clearbody s3. clear s1 Hf1 Hp1 Hdbg1 He1.
    destruct (had_error s3) eqn:Herr.
    + eexists _, s3. split; [reflexivity|]. repeat split; try assumption.
      unfold parsed_to. cbn [parseWords]. lia.
    + specialize (Hnz eq_refl).
      set (s4 := if negb (virtualChannel w)
                 then emit (StatsAddEvent (Z.of_nat mod_) (chanRead w)
                              (4 * eventSizeRead w)) s3
                 else s3).
      assert (H4 : fifoData s4 = fifoData s /\ partialEvents s4 = partialEvents s /\
                   debug_mode s4 = debug_mode s /\
                   extends parse_event (out s) (out s4)).
      { subst s4. destruct (negb (virtualChannel w)); repeat split; try assumption.
        eapply extends_trans; [exact He3|]. log_steps. }
      destruct H4 as (Hf4 & Hp4 & Hdbg4 & He4). clearbody s4.
      destruct (IH {| parseWords := parseWords ps + eventSizeRead w;
                      eventSize := eventSizeRead w;
                      prevEventSize := eventSizeRead w |} s4)
        as (ps' & s' & Hrun & Hf & Hp & Hdbg & He & Hd' & Hq').
      * cbn [parseWords]. lia.
      * cbn [parseWords]. lia.
      * unfold parsed_to. cbn [parseWords eventSize]. intros Hge. right. lia.
      * exists ps', s'. split; [exact Hrun|].
        repeat (split; [first [congruence | assumption
                              | eapply extends_trans; eassumption]|]).
        exact Hq'.
Qed.

End ParseFacts.

(* ===================================================================== *)
(** ** Copies and buffer accesses *)

Lemma copy_partial_spec (fuel : nat) (buf : Z -> Z) (base partialSize i : Z) :
  0 <= i <= partialSize -> partialSize <= 65535 ->
  partialSize - i < Z.of_nat fuel ->
  copy_partial fuel buf base partialSize i =
    Done (block buf (base + i) (partialSize - i)).
Proof.
  revert i. induction fuel as [|fuel IH]; intros i Hi Hs Hfuel; [lia|].
  cbn [copy_partial]. destruct (i <? partialSize) eqn:Hlt.
  - apply Z.ltb_lt in Hlt. rewrite (Z.mod_small (i + 1)) by lia.
    rewrite IH by lia. cbn [bind].
    rewrite (block_cons buf (base + i) (partialSize - i)) by lia.
    replace (base + (i + 1)) with (base + i + 1) by lia.
    replace (partialSize - (i + 1)) with (partialSize - i - 1) by lia.
    reflexivity.
  - apply Z.ltb_ge in Hlt. now rewrite block_nil by lia.
Qed.

Section StoreFacts.
Variable cfg : Config.

Lemma in_bounds_spec (pos len : Z) :
  in_bounds cfg pos len = true <-> 0 <= pos /\ pos + len <= capacity cfg.
Proof.
  unfold in_bounds. rewrite andb_true_iff, Z.leb_le, Z.leb_le. reflexivity.
Qed.

Lemma store_spec (pos v : Z) (s : Poll) :
  match store cfg pos v s with
  | Done s' => s' = set_fifoData (upd (fifoData s) pos v) s /\
               0 <= pos < capacity cfg
  | Undefined => True
  | OutOfFuel => False
  end.
Proof.
  unfold store. destruct (in_bounds cfg pos 1) eqn:Hb; [|exact I].
  apply in_bounds_spec in Hb. split; [reflexivity | lia].
Qed.

Lemma store_block_spec (pos : Z) (l : list Z) (s : Poll) :
  match store_block cfg pos l s with
  | Done s' =>
      (forall j, fifoData s' j = blit (fifoData s) pos l j) /\
      partialEvents s' = partialEvents s /\ out s' = out s /\
      is_quiet s' = is_quiet s /\ debug_mode s' = debug_mode s /\
      (l <> [] -> 0 <= pos /\ pos + Z.of_nat (List.length l) <= capacity cfg)
  | Undefined => True
  | OutOfFuel => False
  end.
Proof.
  unfold store_block. destruct l as [|x l].
  - repeat split; try reflexivity; try congruence.
    intros j. rewrite blit_outside; [reflexivity|]. cbn. lia.
  - destruct (in_bounds cfg pos _) eqn:Hb; [|exact I].
    apply in_bounds_spec in Hb. repeat split; try reflexivity; lia.
Qed.

Lemma load_block_total (pos len : Z) (s : Poll) :
  load_block cfg pos len s <> OutOfFuel.
Proof.
  unfold load_block. destruct (len <=? 0); [discriminate|].
  destruct (in_bounds cfg pos len); discriminate.
Qed.

End StoreFacts.

(* ===================================================================== *)
(** ** One module *)

Section DrainFacts.
Variables (cfg : Config) (hw : Hardware) (nWords : list Z).
Hypothesis fifo_fits_word : EXTERNAL_FIFO_LENGTH cfg + 16384 <= 2 ^ 32.

Lemma parse_event_drain (e : event) : parse_event e -> drain_event cfg nWords e.
Proof. destruct e as [m| | | | | | | | |]; try destruct m; cbn; tauto. Qed.

Lemma dump_corrupted_spec (mod_ : nat) (d nw : Z) (ps : parse_state) (s : Poll) :
  match dump_corrupted cfg mod_ d nw ps s with
  | Done s' => had_error s' = true /\ do_stop_acq s' = true /\
               extends (drain_event cfg nWords) (out s) (out s')
  | Undefined => True
  | OutOfFuel => False
  end.
Proof.
  unfold dump_corrupted.
  repeat match goal with
  | |- context [bind (load_block ?c ?p ?l ?st) _] =>
      let E := fresh "E" in
      destruct (load_block c p l st) eqn:E; cbn [bind];
      [clear E | exact I | now apply load_block_total in E]
  end.
  lazy beta iota zeta. repeat split. log_steps.
Qed.

Lemma empty_record_spec (mod_ : nat) (s : Poll) (d : Z) :
  0 <= d ->
  nth mod_ nWords 0 < MIN_FIFO_READ cfg ->
  partial_ok s mod_ ->
  match empty_record cfg mod_ s d with
  | Done (Next s' d') =>
      module_drained cfg hw nWords mod_ s d s' d' /\ out s' = out s
  | Done (Stop _) => False
  | Undefined => True
  | OutOfFuel => False
  end.
Proof.
  intros Hd Hnw Hp. unfold empty_record.
  pose proof (store_spec cfg d 2 s) as H1.
  destruct (store cfg d 2 s) as [s1| |]; cbn [bind]; [|exact I|exact H1].
  destruct H1 as [-> H1].
  pose proof (store_spec cfg (d + 1) (Z.of_nat mod_)
                (set_fifoData (upd (fifoData s) d 2) s)) as H2.
  destruct (store cfg (d + 1) _ _) as [s2| |]; cbn [bind]; [|exact I|exact H2].
  destruct H2 as [-> H2]. cbn [fifoData set_fifoData] in *.
  split; [|reflexivity]. unfold module_drained.
  cbn [fifoData set_fifoData partialEvents].
  repeat split; try lia.
  - intros j Hj. rewrite !upd_other by lia. reflexivity.
  - rewrite upd_other by lia. rewrite upd_same. lia.
  - apply upd_same.
  - rewrite block_nil by lia. unfold fifo_read.
    replace (nth mod_ nWords 0 <? MIN_FIFO_READ cfg) with true
      by (symmetry; apply Z.ltb_lt; exact Hnw).
    now rewrite app_nil_r.
  - exact Hp.
Qed.

Lemma drain_module_spec (mod_ : nat) (s : Poll) (d : Z) :
  0 <= d ->
  0 <= nth mod_ nWords 0 < 2 ^ 32 ->
  partial_ok s mod_ ->
  match drain_module cfg hw nWords mod_ s d with
  | Done (Next s' d') =>
      module_drained cfg hw nWords mod_ s d s' d' /\
      extends (drain_event cfg nWords) (out s) (out s')
  | Done (Stop s') =>
      had_error s' = true /\ do_stop_acq s' = true /\
      extends (drain_event cfg nWords) (out s) (out s')
  | Undefined => True
  | OutOfFuel => False
  end.
Proof.
  intros Hd Hnw Hp. unfold drain_module.
  set (nw := nth mod_ nWords 0) in *.
  destruct (nw <? MIN_FIFO_READ cfg) eqn:Hmin.
  { apply Z.ltb_lt in Hmin.
    pose proof (empty_record_spec mod_ s d Hd Hmin Hp) as H.
    destruct (empty_record cfg mod_ s d) as [[s1 d1|s1]| |]; try exact H; try contradiction.
    destruct H as [H Ho]. split; [exact H|]. rewrite Ho. apply extends_refl. }
  apply Z.ltb_ge in Hmin.
  replace (nw <? 0) with false by (symmetry; apply Z.ltb_ge; lia).
  destruct (EXTERNAL_FIFO_LENGTH cfg <=? nw) eqn:Hfull.
  { apply Z.leb_le in Hfull. repeat split.
    cbn [out set_out set_had_error set_do_stop_acq cout emit].
    apply extends_snoc. cbn. rewrite Nat2Z.id. split; [exact Hfull|reflexivity]. }
  apply Z.leb_gt in Hfull.
  cbv zeta.
  pose proof (store_spec cfg (d + 1) (Z.of_nat mod_) s) as H1.
  destruct (store cfg (d + 1) _ s) as [s1| |]; cbn [bind]; [|exact I|exact H1].
  destruct H1 as [-> H1].
  cbn [partialEvents set_fifoData].
  set (partial := partialEvents s mod_) in *.
  set (np := Z.of_nat (List.length partial)) in *.
  replace (d + 1 + 1) with (d + 2) by lia.
  assert (Hnp : 0 <= np <= 16382)
    by (unfold partial_ok in Hp; subst np partial; lia).
  pose proof (store_block_spec cfg (d + 2) partial
                (set_fifoData (upd (fifoData s) (d + 1) (Z.of_nat mod_)) s)) as H2.
  destruct (store_block cfg (d + 2) partial _) as [s0| |]; cbn [bind];
    [|exact I|exact H2].
  cbn [fifoData partialEvents out is_quiet debug_mode set_fifoData] in H2.
  destruct H2 as (Hb0 & Hp0 & Ho0 & _ & _ & Hin0).
  destruct (negb (ReadFIFOWords_ok hw mod_)).
  { repeat split. cbn [out set_out set_had_error set_do_stop_acq cout emit].
    rewrite Ho0. now apply extends_snoc. }
  set (hwl := map (ReadFIFOWords_word hw mod_) (seq 0 (Z.to_nat nw))).
  assert (Hhwl : Z.of_nat (List.length hwl) = nw).
  { subst hwl. rewrite length_map, length_seq. lia. }
  pose proof (store_block_spec cfg (d + 2 + np) hwl s0) as H3.
  destruct (store_block cfg (d + 2 + np) hwl s0) as [s1| |]; cbn [bind];
    [|exact I|exact H3].
  destruct H3 as (Hb1 & Hp1 & Ho1 & _ & _ & Hin1).
  (* the region just written *)
  assert (Hlast : d + 2 + np + nw <= capacity cfg).
  { destruct hwl as [|x hwl'] eqn:Ehw.
    - cbn in Hhwl. destruct partial as [|y partial'] eqn:Epart.
      + cbn in np. lia.
      + destruct Hin0 as [_ Hin0]; [discriminate|]. fold np in Hin0. lia.
    - destruct Hin1 as [_ Hin1]; [discriminate|]. lia. }
  assert (Hhead : forall j, j < d + 2 ->
            fifoData s1 j = upd (fifoData s) (d + 1) (Z.of_nat mod_) j).
  { intros j Hj. rewrite Hb1, blit_outside by lia.
    rewrite Hb0, blit_outside by lia. reflexivity. }
  assert (Hbody : block (fifoData s1) (d + 2) (np + nw) = partial ++ hwl).
  { rewrite block_app by lia. f_equal.
    - transitivity (block (blit (upd (fifoData s) (d + 1) (Z.of_nat mod_))
                                (d + 2) partial) (d + 2) np);
        [|apply block_blit].
      apply block_ext. intros j Hj.
      rewrite Hb1, blit_outside by lia. apply Hb0.
    - transitivity (block (blit (fifoData s0) (d + 2 + np) hwl) (d + 2 + np) nw);
        [|rewrite <- Hhwl; apply block_blit].
      apply block_ext. intros j Hj. apply Hb1. }
  clear Hb0 Hb1 Hin0 Hin1.
  set (s1' := set_partial mod_ []
                (if negb (is_quiet s1) || debug_mode s1
                 then cout (MsgRead (Z.of_nat mod_) nw np (d + 2)) s1
                 else s1)).
  assert (H1' : fifoData s1' = fifoData s1 /\
                partialEvents s1' mod_ = [] /\
                (forall m, m <> mod_ -> partialEvents s1' m = partialEvents s m) /\
                extends (drain_event cfg nWords) (out s) (out s1')).
  { subst s1'. destruct (negb (is_quiet s1) || debug_mode s1);
      cbn [fifoData partialEvents set_partial set_partialEvents cout emit
           set_out out]; rewrite Nat.eqb_refl; repeat split;
      try (intros m Hm; apply Nat.eqb_neq in Hm; rewrite Hm; congruence);
      rewrite Ho1, Ho0; [now apply extends_snoc | apply extends_refl]. }
  destruct H1' as (Hf1' & Hpm1' & Hpo1' & He1'). clearbody s1'.
  rewrite (to_word_small (nw + np)) by lia.
  set (tot := nw + np) in *.
  destruct (parse_loop_spec mod_ (to_word (GetSlotNumber cfg mod_)) (d + 2) tot
              (S (Z.to_nat tot))
              {| parseWords := d + 2; eventSize := 0; prevEventSize := 0 |} s1')
    as (ps & s2 & Hrun & Hf2 & Hp2 & _ & He2 & Hps & Hq).
  { cbn [parseWords]. lia. }
  { cbn [parseWords]. lia. }
  { unfold parsed_to. cbn [parseWords]. intros. left. lia. }
  rewrite Hrun. cbn [bind]. clear Hrun.
  assert (He2' : extends (drain_event cfg nWords) (out s) (out s2)).
  { eapply extends_trans; [exact He1'|].
    eapply extends_weaken; [apply parse_event_drain | exact He2]. }
  clear He2 He1'.
  replace (d + 2 - 2) with d by lia.
  destruct (d + 2 + tot <? parseWords ps) eqn:Hover.
  - (* the last event is cut short *)
    apply Z.ltb_lt in Hover.
    destruct (Hq ltac:(lia)) as [Heq | [Hes Hstart]]; [lia|].
    set (s2' := if debug_mode s2 then _ else s2).
    assert (H2' : fifoData s2' = fifoData s2 /\
                  partialEvents s2' = partialEvents s2 /\
                  extends (drain_event cfg nWords) (out s) (out s2')).
    { subst s2'. destruct (debug_mode s2); repeat split; try assumption.
      cbn [out cout emit set_out]. now apply extends_step. }
    destruct H2' as (Hf2' & Hp2' & He2''). clearbody s2'.
    rewrite (to_word_small (parseWords ps - (d + 2) - tot)) by lia.
    rewrite (to_word_small (eventSize ps - _)) by lia.
    set (psize := eventSize ps - (parseWords ps - (d + 2) - tot)) in *.
    rewrite (to_word_small (tot - psize)) by lia.
    rewrite (to_word_small (tot - psize + 2)) by lia.
    rewrite copy_partial_spec by lia. cbn [bind].
    rewrite Z.add_0_r, Z.sub_0_r.
    set (frag := block (fifoData s2') (parseWords ps - eventSize ps) psize).
    pose proof (store_spec cfg d (tot - psize + 2)
                  (set_partial mod_ (partialEvents s2' mod_ ++ frag) s2')) as H4.
    destruct (store cfg d _ _) as [s3| |]; cbn [bind]; [|exact I|exact H4].
    destruct H4 as [-> H4].
    split; [|exact He2'']. unfold module_drained, partial_ok.
    cbn [fifoData partialEvents out set_fifoData set_partial set_partialEvents].
    rewrite Nat.eqb_refl, Hp2', Hp2, Hpm1'. cbn [app].
    repeat split; try lia.
    + intros j Hj. rewrite upd_other by lia.
      rewrite Hf2', Hf2, Hf1', Hhead by lia. apply upd_other. lia.
    + rewrite upd_same. lia.
    + rewrite upd_other by lia.
      rewrite Hf2', Hf2, Hf1', Hhead by lia. apply upd_same.
    + replace (d + 2 + (tot - psize) - d - 2) with (tot - psize) by lia.
      transitivity (block (fifoData s1) (d + 2) (tot - psize)
                    ++ block (fifoData s1) (d + 2 + (tot - psize)) psize).
      * f_equal.
        -- apply block_ext. intros j Hj. rewrite upd_other by lia.
           now rewrite Hf2', Hf2, Hf1'.
        -- subst frag. rewrite Hf2', Hf2, Hf1'. f_equal. lia.
      * rewrite <- block_app by lia.
        replace (tot - psize + psize) with (np + nw) by lia.
        rewrite Hbody. unfold fifo_read. fold nw.
        replace (nw <? MIN_FIFO_READ cfg) with false
          by (symmetry; apply Z.ltb_ge; exact Hmin).
        reflexivity.
    + intros m Hm. pose proof Hm as Hm'. apply Nat.eqb_neq in Hm'. rewrite Hm'.
      now apply Hpo1'.
    + subst frag. rewrite block_length. lia.
  - apply Z.ltb_ge in Hover.
    destruct (parseWords ps <? d + 2 + tot) eqn:Hshort.
    + (* the parser stopped early *)
      pose proof (dump_corrupted_spec mod_ (d + 2) tot ps s2) as H4.
      destruct (dump_corrupted cfg mod_ (d + 2) tot ps s2) as [s3| |];
        cbn [bind]; [|exact I|exact H4].
      destruct H4 as (H41 & H42 & H43). repeat split; try assumption.
      eapply extends_trans; eassumption.
    + (* the parser stands at the end *)
      apply Z.ltb_ge in Hshort.
      rewrite (to_word_small (tot + 2)) by lia.
      pose proof (store_spec cfg d (tot + 2) s2) as H4.
      destruct (store cfg d _ s2) as [s3| |]; cbn [bind]; [|exact I|exact H4].
      destruct H4 as [-> H4].
      split; [|exact He2']. unfold module_drained, partial_ok.
      cbn [fifoData partialEvents out set_fifoData].
      rewrite Hp2, Hpm1'.
      repeat split; try lia.
      * intros j Hj. rewrite upd_other by lia.
        rewrite Hf2, Hf1', Hhead by lia. apply upd_other. lia.
      * rewrite upd_same. lia.
      * rewrite upd_other by lia.
        rewrite Hf2, Hf1', Hhead by lia. apply upd_same.
      * replace (d + 2 + tot - d - 2) with (np + nw) by lia.
        rewrite app_nil_r.
        unfold fifo_read. fold nw.
        replace (nw <? MIN_FIFO_READ cfg) with false
          by (symmetry; apply Z.ltb_ge; exact Hmin).
        transitivity (block (fifoData s1) (d + 2) (np + nw)); [|exact Hbody].
        apply block_ext. intros j Hj. rewrite upd_other by lia.
        now rewrite Hf2, Hf1'.
      * intros m Hm. now apply Hpo1'.
      * cbn. lia.
Qed.

End DrainFacts.

(* ===================================================================== *)
(** ** Polling *)

Section PollFacts.
Variables (cfg : Config) (hw : Hardware).

Lemma poll_once_range (t m : nat) : 0 <= nth m (poll_once cfg hw t) 0 < 2 ^ 32.
Proof.
  unfold poll_once.
  destruct (Nat.lt_ge_cases m (n_cards cfg)) as [Hm | Hm].
  - rewrite (nth_indep _ 0 (to_word (CheckFIFOWords hw t 0)))
      by (now rewrite length_map, length_seq).
    rewrite (map_nth (fun m => to_word (CheckFIFOWords hw t m))).
    apply to_word_range.
  - rewrite nth_overflow by (now rewrite length_map, length_seq).
    change (2 ^ 32) with 4294967296. lia.
Qed.

Lemma poll_loop_spec (thresh : Z) (tries t : nat) :
  match poll_loop cfg hw thresh tries t with
  | Done (nWords, maxWords) =>
      (exists t', nWords = poll_once cfg hw t') /\
      max_element nWords = Done maxWords
  | Undefined => True
  | OutOfFuel => False
  end.
Proof.
  revert t. induction tries as [|k IH]; intros t; [exact I|].
  cbn [poll_loop].
  destruct (max_element (poll_once cfg hw t)) as [mx| |] eqn:Hmax;
    cbn [bind]; [|exact I|].
  2:{ unfold max_element in Hmax. destruct (poll_once cfg hw t); discriminate. }
  destruct (thresh <? mx).
  - split; [now exists t | exact Hmax].
  - destruct k as [|k'].
    + split; [now exists t | exact Hmax].
    + apply IH.
Qed.

End PollFacts.

(* ===================================================================== *)
(** ** The loop over the modules *)

Section ModulesFacts.
Variables (cfg : Config) (hw : Hardware) (nWords : list Z).
Hypothesis fifo_fits_word : EXTERNAL_FIFO_LENGTH cfg + 16384 <= 2 ^ 32.
Hypothesis counts_are_words : forall m, 0 <= nth m nWords 0 < 2 ^ 32.

Lemma drain_modules_spec (mods : list nat) (s : Poll) (d : Z) :
  NoDup mods ->
  0 <= d ->
  (forall m, partial_ok s m) ->
  match drain_modules cfg hw nWords mods s d with
  | Done (Next s' d') =>
      d <= d' /\ (mods <> [] -> d' <= capacity cfg) /\
      (forall j, j < d -> fifoData s' j = fifoData s j) /\
      (exists pay : nat -> list Z,
         block (fifoData s') d (d' - d) =
           List.concat (map (fun m => section_words m (pay m)) mods) /\
         forall m, In m mods ->
           pay m ++ partialEvents s' m =
             partialEvents s m ++ fifo_read cfg hw nWords m /\
           (nth m nWords 0 < MIN_FIFO_READ cfg ->
              pay m = [] /\ partialEvents s' m = partialEvents s m)) /\
      (forall m, ~ In m mods -> partialEvents s' m = partialEvents s m) /\
      (forall m, partial_ok s' m) /\
      extends (drain_event cfg nWords) (out s) (out s')
  | Done (Stop s') =>
      had_error s' = true /\ do_stop_acq s' = true /\
      extends (drain_event cfg nWords) (out s) (out s')
  | Undefined => True
  | OutOfFuel => False
  end.
Proof.
  revert s d. induction mods as [|m rest IH]; intros s d Hnd Hd Hp.
  - cbn [drain_modules].
    repeat split; try lia; try congruence; try apply Hp; try apply extends_refl.
    exists (fun _ => []). split; [|intros m []].
    rewrite Z.sub_diag. reflexivity.
  - cbn [drain_modules].
    inversion Hnd as [|? ? Hnotin Hnd']; subst.
    pose proof (drain_module_spec cfg hw nWords fifo_fits_word m s d Hd
                  (counts_are_words m) (Hp m)) as Hm.
    destruct (drain_module cfg hw nWords m s d) as [[s1 d1|s1]| |];
      cbn [bind]; [|exact Hm|exact I|exact Hm].
    destruct Hm as ((Hd1 & Hfr1 & Hh0 & Hh1 & Hpay1 & Hoth1 & Hok1 & Hskip1) & He1).
    assert (Hp1 : forall m', partial_ok s1 m').
    { intros m'. destruct (Nat.eq_dec m' m) as [->|Hne]; [exact Hok1|].
      unfold partial_ok. rewrite Hoth1 by exact Hne. apply Hp. }
    specialize (IH s1 d1 Hnd' ltac:(lia) Hp1).
    destruct (drain_modules cfg hw nWords rest s1 d1) as [[s' d'|s']| |];
      [| |exact I|exact IH].
    2:{ destruct IH as (H1 & H2 & H3). repeat split; try assumption.
        eapply extends_trans; eassumption. }
    destruct IH as (Hd' & Hcap & Hfr & (pay & Hblk & Hpay) & Hoth & Hok & He).
    repeat split.
    + lia.
    + intros _. destruct rest; [|apply Hcap; discriminate].
      cbn in Hblk. assert (d' = d1); [|lia].
      apply (f_equal (@List.length Z)) in Hblk. rewrite block_length in Hblk.
      cbn in Hblk. lia.
    + intros j Hj. rewrite Hfr by lia. now apply Hfr1.
    + set (p := block (fifoData s1) (d + 2) (d1 - d - 2)) in *.
      exists (fun x => if Nat.eqb x m then p else pay x). split.
      * cbn [map List.concat]. rewrite Nat.eqb_refl.
        replace (d' - d) with ((d1 - d) + (d' - d1)) by lia.
        rewrite block_app by lia. f_equal.
        -- transitivity (block (fifoData s1) d (d1 - d)).
           { apply block_ext. intros j Hj. apply Hfr. lia. }
           rewrite (block_cons _ d) by lia.
           rewrite (block_cons _ (d + 1)) by lia.
           unfold section_words. subst p. rewrite block_length.
           rewrite Hh0, Hh1. f_equal; [lia|]. f_equal.
           f_equal; lia.
        -- replace (d + (d1 - d)) with d1 by lia. rewrite Hblk.
           f_equal. apply map_ext_in. intros x Hx.
           replace (Nat.eqb x m) with false; [reflexivity|].
           symmetry. apply Nat.eqb_neq. intros ->. contradiction.
      * intros x [<-|Hx].
        -- rewrite Nat.eqb_refl. rewrite (Hoth m Hnotin). split; [exact Hpay1|].
           intros Hlt. destruct (Hskip1 Hlt) as [Hdd Hpp]. split; [|exact Hpp].
           subst p. apply block_nil. lia.
        -- replace (Nat.eqb x m) with false
             by (symmetry; apply Nat.eqb_neq; intros ->; contradiction).
           destruct (Hpay x Hx) as [H1 H2].
           rewrite <- (Hoth1 x) by (intros ->; contradiction).
           split; assumption.
    + intros x Hx. cbn in Hx. rewrite Hoth by tauto. apply Hoth1. intros ->. tauto.
    + exact Hok.
    + eapply extends_trans; eassumption.
Qed.

End ModulesFacts.

(* ===================================================================== *)
(** ** Reading a spill back *)

Lemma spill_sections_concat (pay : nat -> list Z) (mods : list nat) :
  spill_sections (List.length mods)
    (List.concat (map (fun m => section_words m (pay m)) mods)) =
  Some (map (fun m => the_section m (pay m)) mods).
Proof.
  induction mods as [|m rest IH]; [reflexivity|].
  cbn [List.length map List.concat spill_sections section_words app].
  replace (Z.of_nat (List.length (pay m)) + 2 - 2)
    with (Z.of_nat (List.length (pay m))) by lia.
  rewrite Nat2Z.id.
  replace ((2 <=? Z.of_nat (List.length (pay m)) + 2) &&
           (Z.of_nat (List.length (pay m)) <=?
            Z.of_nat (List.length (pay m ++
              List.concat (map (fun m0 => section_words m0 (pay m0)) rest)))))%bool
    with true.
  2:{ symmetry. apply andb_true_iff. split; apply Z.leb_le; [lia|].
      rewrite length_app. lia. }
  rewrite skipn_app, skipn_all, Nat.sub_diag. cbn [app skipn].
  rewrite IH. cbn [option_map]. unfold the_section. do 3 f_equal.
  rewrite firstn_app, firstn_all, Nat.sub_diag. cbn [firstn].
  now rewrite app_nil_r.
Qed.

Lemma length_sections (pay : nat -> list Z) (mods : list nat) :
  Z.of_nat (List.length
              (List.concat (map (fun m => section_words m (pay m)) mods))) =
  zsum (map sec_size (map (fun m => the_section m (pay m)) mods)).
Proof.
  induction mods as [|m rest IH]; [reflexivity|].
  cbn [map List.concat zsum fold_right sec_size the_section].
  rewrite length_app. unfold zsum in IH. rewrite <- IH.
  unfold section_words. cbn [List.length]. lia.
Qed.

(* ===================================================================== *)
(** ** One cycle *)

Section CycleFacts.
Variables (cfg : Config) (hw : Hardware).
Hypothesis fifo_fits_word : EXTERNAL_FIFO_LENGTH cfg + 16384 <= 2 ^ 32.

Lemma cycle_counts_range (s : Poll) (m : nat) :
  0 <= nth m (cycle_counts cfg hw s) 0 < 2 ^ 32.
Proof.
  unfold cycle_counts.
  pose proof (poll_loop_spec cfg hw (threshWords s) POLL_TRIES 0) as H.
  destruct (poll_loop cfg hw (threshWords s) POLL_TRIES 0) as [[nWords mx]| |].
  - destruct H as [[t ->] _]. apply poll_once_range.
  - destruct m; cbn; change (2 ^ 32) with 4294967296; lia.
  - destruct m; cbn; change (2 ^ 32) with 4294967296; lia.
Qed.

Lemma drain_cycle_spec (s : Poll) :
  (forall m, partial_ok s m) ->
  match drain_cycle cfg hw s with
  | Done NotRunning => acq_running s = false
  | Done (BelowThreshold s') => s' = s /\ gate_open cfg hw s = false
  | Done (Aborted s') =>
      gate_open cfg hw s = true /\
      had_error s' = true /\ do_stop_acq s' = true /\
      extends (drain_event cfg (cycle_counts cfg hw s)) (out s) (out s')
  | Done (Spill s' d) =>
      gate_open cfg hw s = true /\
      0 <= d <= capacity cfg /\
      (exists pay : nat -> list Z,
         block (fifoData s') 0 d =
           List.concat (map (fun m => section_words m (pay m))
                            (seq 0 (n_cards cfg))) /\
         forall m, (m < n_cards cfg)%nat ->
           pay m ++ partialEvents s' m =
             partialEvents s m ++ hardware_words cfg hw s m /\
           (nth m (cycle_counts cfg hw s) 0 < MIN_FIFO_READ cfg ->
              pay m = [] /\ partialEvents s' m = partialEvents s m)) /\
      (forall m, partial_ok s' m) /\
      extends (drain_event cfg (cycle_counts cfg hw s)) (out s) (out s')
  | Undefined => True
  | OutOfFuel => False
  end.
Proof.
  intros Hp. unfold drain_cycle.
  destruct (acq_running s); cbn [negb]; [|reflexivity].
  pose proof (cycle_counts_range s) as Hrange.
  unfold gate_open, hardware_words, cycle_counts in *.
  pose proof (poll_loop_spec cfg hw (threshWords s) POLL_TRIES 0) as Hpoll.
  destruct (poll_loop cfg hw (threshWords s) POLL_TRIES 0) as [[nWords mx]| |];
    cbn [bind]; [|exact I|exact Hpoll].
  destruct ((threshWords s <? mx) || force_spill s) eqn:Hgate;
    [|split; reflexivity].
  pose proof (drain_modules_spec cfg hw nWords fifo_fits_word Hrange
                (seq 0 (n_cards cfg)) (set_force_spill false s) 0
                (seq_NoDup _ _) ltac:(lia) Hp) as H.
  destruct (drain_modules cfg hw nWords _ _ 0) as [[s' d|s']| |];
    cbn [bind]; [| |exact I|exact H].
  - destruct H as (Hd & Hcap & _ & (pay & Hblk & Hpay) & _ & Hok & He).
    split; [reflexivity|]. split.
    { split; [exact Hd|]. destruct (n_cards cfg) eqn:Hn.
      - cbn in Hblk. rewrite Z.sub_0_r in Hblk.
        apply (f_equal (@List.length Z)) in Hblk.
        rewrite block_length in Hblk. cbn in Hblk.
        unfold capacity. rewrite Hn. lia.
      - apply Hcap. discriminate. }
    split; [|split; assumption].
    exists pay. rewrite Z.sub_0_r in Hblk. split; [exact Hblk|].
    intros m Hm. apply Hpay. apply in_seq. lia.
  - destruct H as (H1 & H2 & H3). repeat split; assumption.
Qed.

End CycleFacts.

(* ===================================================================== *)
(** ** The two calls at the end of [ReadFIFO] *)

Lemma io_frame_trans (s1 s2 s3 : Poll) :
  io_frame s1 s2 -> io_frame s2 s3 -> io_frame s1 s3.
Proof.
  intros (A1 & A2 & A3 & A4 & A5 & A6) (B1 & B2 & B3 & B4 & B5 & B6).
  repeat split; try congruence. eapply extends_trans; eassumption.
Qed.

Ltac io_steps :=
  repeat match goal with
         | |- context [if ?b then _ else _] => destruct b
         end;
  cbn; repeat split;
  repeat first [ apply extends_refl | apply extends_step; [| exact I] ].

Lemma CloseOutputFile_frame (cfg : Config) (continueRun : bool) (s : Poll) :
  io_frame s (snd (CloseOutputFile cfg continueRun s)).
Proof. unfold CloseOutputFile, OutputFile.CloseFile. io_steps. Qed.

Lemma OpenOutputFile_frame (cfg : Config) (continueRun : bool) (s : Poll) :
  io_frame s (snd (OpenOutputFile cfg continueRun s)).
Proof.
  unfold OpenOutputFile. destruct (is_open (output_file s)).
  - cbv zeta. cbn [snd].
    pose proof (CloseOutputFile_frame cfg false (cout MsgFileAlreadyOpen s)) as H.
    set (s1 := snd (CloseOutputFile cfg false (cout MsgFileAlreadyOpen s))) in *.
    clearbody s1.
    eapply io_frame_trans; [|eapply io_frame_trans; [exact H|]];
      unfold io_frame; io_steps.
  - unfold OutputFile.OpenNewFile, OutputFile.CloseFile, io_frame. io_steps.
Qed.

Lemma write_data_frame (cfg : Config) (nWords : Z) (s : Poll) :
  io_frame s (snd (write_data cfg nWords s)).
Proof.
  unfold write_data. destruct (negb (is_open (output_file s))).
  { unfold io_frame. io_steps. }
  cbv zeta.
  set (s1 := if MAX_FILE_SIZE <? _ then _ else s).
  assert (H1 : io_frame s s1).
  { subst s1. destruct (MAX_FILE_SIZE <? _).
    - eapply io_frame_trans; [|apply OpenOutputFile_frame].
      eapply io_frame_trans; [|apply CloseOutputFile_frame].
      unfold io_frame. io_steps.
    - unfold io_frame. io_steps. }
  clearbody s1. eapply io_frame_trans; [exact H1|].
  unfold OutputFile.Write, io_frame. io_steps.
Qed.

Lemma broadcast_loop_sent (fuel : nat) (data : Z -> Z) (nWords total c w : Z)
    (sent : list event) :
  broadcast_loop fuel data nWords total c w = Done sent ->
  Forall io_event sent.
Proof.
  revert c w sent. induction fuel as [|fuel IH]; intros c w sent; [discriminate|].
  cbn [broadcast_loop].
  destruct (w <? nWords); [|intros [= <-]; constructor].
  destruct (maxShmSizeL <? to_word (nWords - w));
    destruct (broadcast_loop fuel data nWords total _ _) as [rest| |] eqn:E;
    cbn [bind]; try discriminate;
    intros [= <-]; constructor; try exact I; eapply IH; exact E.
Qed.

Lemma broadcast_data_frame (data : Z -> Z) (nWords : Z) (s : Poll) :
  0 <= nWords < 2 ^ 32 ->
  exists s',
    broadcast_data data nWords s = Done s' /\
    partialEvents s' = partialEvents s /\ fifoData s' = fifoData s /\
    had_error s' = had_error s /\ do_stop_acq s' = do_stop_acq s /\
    extends io_event (out s) (out s').
Proof.
  intros Hn. unfold broadcast_data. destruct (shm_mode s).
  - destruct (broadcast_loop_correct (S (Z.to_nat nWords)) data nWords
                (num_net_chunks_of nWords) 1 0)
      as (sent & Hsent & _); try lia.
    { unfold maxShmSizeL. change (2 ^ 32) with 4294967296 in *.
      rewrite Z.sub_0_r.
      assert (nWords / 4050 < 4294967290); [|lia].
      apply Z.div_lt_upper_bound; lia. }
    rewrite Hsent. cbn [bind]. eexists. split; [reflexivity|].
    pose proof (broadcast_loop_sent _ _ _ _ _ _ _ Hsent) as Hall.
    destruct (debug_mode s); cbn; repeat split.
    + exists (Stdout (MsgSplitting nWords (num_net_chunks_of nWords)
                       (nWords mod maxShmSizeL)) :: sent).
      split; [now rewrite <- app_assoc | constructor; [exact I | exact Hall]].
    + exists sent. split; [reflexivity | exact Hall].
  - eexists. split; [reflexivity|]. cbn. repeat split.
    apply extends_snoc. exact I.
Qed.

(* ===================================================================== *)
(** ** The log of a cycle, without assumptions on the state *)

Section LogFacts.
Variables (cfg : Config) (hw : Hardware) (nWords : list Z).
Hypothesis counts_nonneg : forall m, 0 <= nth m nWords 0.

Lemma parse_loop_log (fuel : nat) (mod_ : nat) (slotExpected d n : Z)
    (ps : parse_state) (s : Poll) :
  match parse_loop fuel mod_ slotExpected d n ps s with
  | Done (_, s') => extends (drain_event cfg nWords) (out s) (out s')
  | _ => True
  end.
Proof.
  revert ps s. induction fuel as [|fuel IH]; intros ps s; [exact I|].
  cbn [parse_loop]. destruct (parseWords ps <? d + n); [|apply extends_refl].
  rewrite channel_check_dead. cbv zeta.
  set (w := fifoData s (parseWords ps)).
  set (s3 := if eventSizeRead w =? 0 then _ else _).
  assert (H3 : extends (drain_event cfg nWords) (out s) (out s3)).
  { subst s3.
    destruct (eventSizeRead w =? 0); destruct (negb (slotRead w =? slotExpected));
      log_steps. }
  clearbody s3. destruct (had_error s3); [exact H3|].
  set (s4 := if negb (virtualChannel w) then _ else s3).
  assert (H4 : extends (drain_event cfg nWords) (out s) (out s4)).
  { subst s4. destruct (negb (virtualChannel w)); [|exact H3].
    cbn [out emit set_out]. now apply extends_step. }
  clearbody s4.
  specialize (IH {| parseWords := parseWords ps + eventSizeRead w;
                    eventSize := eventSizeRead w;
                    prevEventSize := eventSizeRead w |} s4).
  destruct (parse_loop fuel mod_ slotExpected d n _ s4) as [[ps' s']| |];
    try exact I.
  eapply extends_trans; eassumption.
Qed.

Lemma store_out (pos v : Z) (s s' : Poll) :
  store cfg pos v s = Done s' -> out s' = out s.
Proof.
  intros H. pose proof (store_spec cfg pos v s) as Hs. rewrite H in Hs.
  destruct Hs as [-> _]. reflexivity.
Qed.

Lemma store_block_out (pos : Z) (l : list Z) (s s' : Poll) :
  store_block cfg pos l s = Done s' -> out s' = out s.
Proof.
  intros H. pose proof (store_block_spec cfg pos l s) as Hs. rewrite H in Hs.
  tauto.
Qed.

Ltac bind_step :=
  match goal with
  | |- context [bind (store cfg ?p ?v ?st) _] =>
      let E := fresh "E" in let s' := fresh "s" in
      destruct (store cfg p v st) as [s'| |] eqn:E; cbn [bind]; try exact I;
      apply store_out in E
  | |- context [bind (store_block cfg ?p ?l ?st) _] =>
      let E := fresh "E" in let s' := fresh "s" in
      destruct (store_block cfg p l st) as [s'| |] eqn:E; cbn [bind];
      try exact I; apply store_block_out in E
  end.

Lemma drain_module_log (mod_ : nat) (s : Poll) (d : Z) :
  match drain_module cfg hw nWords mod_ s d with
  | Done (Next s' _) | Done (Stop s') =>
      extends (drain_event cfg nWords) (out s) (out s')
  | _ => True
  end.
Proof.
  unfold drain_module. set (nw := nth mod_ nWords 0).
  destruct (nw <? MIN_FIFO_READ cfg).
  { unfold empty_record. repeat bind_step. rewrite E0, E. apply extends_refl. }
  replace (nw <? 0) with false
    by (symmetry; apply Z.ltb_ge; apply counts_nonneg).
  destruct (EXTERNAL_FIFO_LENGTH cfg <=? nw) eqn:Hfull.
  { apply Z.leb_le in Hfull.
    cbn [out set_out set_had_error set_do_stop_acq cout emit].
    apply extends_snoc. cbn. rewrite Nat2Z.id. split; [exact Hfull|reflexivity]. }
  cbv zeta. repeat bind_step.
  assert (Hs1 : out s1 = out s) by congruence. clear E E0.
  destruct (negb (ReadFIFOWords_ok hw mod_)).
  { cbn [out set_out set_had_error set_do_stop_acq cout emit].
    rewrite Hs1. now apply extends_snoc. }
  bind_step.
  set (s1' := set_partial mod_ [] _).
  assert (H1 : extends (drain_event cfg nWords) (out s) (out s1')).
  { subst s1'. destruct (negb (is_quiet s2) || debug_mode s2);
      cbn [out set_partial set_partialEvents cout emit set_out];
      rewrite E, Hs1; [now apply extends_snoc | apply extends_refl]. }
  clearbody s1'. clear E Hs1.
  match goal with
  | |- context [bind (parse_loop ?f ?m ?sl ?dd ?n ?ps ?st) _] =>
      pose proof (parse_loop_log f m sl dd n ps st) as Hp;
      destruct (parse_loop f m sl dd n ps st) as [[ps' s3]| |];
      cbn [bind]; try exact I
  end.
  assert (H3 : extends (drain_event cfg nWords) (out s) (out s3))
    by (eapply extends_trans; eassumption).
  clear H1 Hp.
  destruct (_ <? parseWords ps').
  - set (s3' := if debug_mode s3 then _ else s3).
    assert (H3' : extends (drain_event cfg nWords) (out s) (out s3')).
    { subst s3'. destruct (debug_mode s3); [|exact H3].
      cbn [out cout emit set_out]. now apply extends_step. }
    clearbody s3'.
    destruct (copy_partial _ _ _ _ _) as [frag| |]; cbn [bind]; try exact I.
    bind_step. rewrite E. exact H3'.
  - destruct (parseWords ps' <? _).
    + match goal with
      | |- context [bind (dump_corrupted cfg ?m ?dd ?n ?ps ?st) _] =>
          pose proof (dump_corrupted_spec cfg nWords m dd n ps st) as Hd;
          destruct (dump_corrupted cfg m dd n ps st) as [s4| |];
          cbn [bind]; try exact I
      end.
      destruct Hd as (_ & _ & Hd). eapply extends_trans; eassumption.
    + bind_step. rewrite E. exact H3.
Qed.

Lemma drain_modules_log (mods : list nat) (s : Poll) (d : Z) :
  match drain_modules cfg hw nWords mods s d with
  | Done (Next s' _) | Done (Stop s') =>
      extends (drain_event cfg nWords) (out s) (out s')
  | _ => True
  end.
Proof.
  revert s d. induction mods as [|m rest IH]; intros s d.
  - apply extends_refl.
  - cbn [drain_modules]. pose proof (drain_module_log m s d) as H.
    destruct (drain_module cfg hw nWords m s d) as [[s1 d1|s1]| |];
      cbn [bind]; try exact I; [|exact H].
    specialize (IH s1 d1).
    destruct (drain_modules cfg hw nWords rest s1 d1) as [[s' d'|s']| |];
      try exact I; eapply extends_trans; eassumption.
Qed.

End LogFacts.

(* ===================================================================== *)
(** ** [ReadFIFO] *)

Lemma drain_event_live (cfg : Config) (nWords : list Z) (e : event) :
  drain_event cfg nWords e -> live_event e.
Proof. destruct e as [m| | | | | | | | |]; try destruct m; cbn; tauto. Qed.

Lemma drain_event_silent (cfg : Config) (nWords : list Z) (e : event) :
  drain_event cfg nWords e -> silent_event e.
Proof. destruct e as [m| | | | | | | | |]; try destruct m; cbn; tauto. Qed.

Lemma io_event_live (e : event) : io_event e -> live_event e.
Proof. destruct e as [m| | | | | | | | |]; try destruct m; cbn; tauto. Qed.

Section ReadFacts.
Variables (cfg : Config) (hw : Hardware).

Lemma drain_cycle_log (s : Poll) :
  match drain_cycle cfg hw s with
  | Done (Aborted s') | Done (Spill s' _) =>
      extends (drain_event cfg (cycle_counts cfg hw s)) (out s) (out s')
  | _ => True
  end.
Proof.
  unfold drain_cycle. destruct (negb (acq_running s)); [exact I|].
  pose proof (fun m => proj1 (cycle_counts_range cfg hw s m)) as Hrange.
  unfold cycle_counts in *.
  destruct (poll_loop cfg hw (threshWords s) POLL_TRIES 0) as [[nWords mx]| |];
    cbn [bind]; try exact I.
  destruct ((threshWords s <? mx) || force_spill s); [|exact I].
  pose proof (drain_modules_log cfg hw nWords Hrange (seq 0 (n_cards cfg))
                (set_force_spill false s) 0) as H.
  destruct (drain_modules cfg hw nWords _ _ 0) as [[s' d|s']| |];
    cbn [bind]; try exact I; exact H.
Qed.

Lemma ReadFIFO_emits (s s' : Poll) (d : Z) :
  drain_cycle cfg hw s = Done (Spill s' d) ->
  exists s'',
    ReadFIFO cfg hw s = Done (true, s'') /\
    partialEvents s'' = partialEvents s' /\
    fifoData s'' = fifoData s' /\
    extends io_event (out s') (out s'').
Proof.
  intros H. unfold ReadFIFO. rewrite H. cbn [bind].
  set (s1 := if negb (is_quiet s') || debug_mode s' then _ else s').
  assert (H1 : io_frame s' s1).
  { subst s1. unfold io_frame.
    destruct (negb (is_quiet s') || debug_mode s'); cbn; repeat split;
      repeat first [ apply extends_refl | apply extends_step; [| exact I] ]. }
  clearbody s1.
  set (s2 := if record_data s1 then _ else s1).
  assert (H2 : io_frame s' s2).
  { subst s2. destruct (record_data s1); [|exact H1].
    eapply io_frame_trans; [exact H1 | apply write_data_frame]. }
  clearbody s2. clear H1.
  destruct (broadcast_data_frame (fifoData s2) (to_word d) s2
              (to_word_range d)) as (s3 & Hb & Hp & Hf & _ & _ & He).
  rewrite Hb. cbn [bind]. exists s3. split; [reflexivity|].
  destruct H2 as (Hp2 & Hf2 & _ & _ & _ & He2).
  repeat split; try congruence. eapply extends_trans; eassumption.
Qed.

Lemma ReadFIFO_log (s : Poll) (r : bool * Poll) :
  ReadFIFO cfg hw s = Done r ->
  exists o,
    extends (drain_event cfg (cycle_counts cfg hw s)) (out s) o /\
    extends io_event o (out (snd r)).
Proof.
  intros H. pose proof (drain_cycle_log s) as Hc.
  destruct (drain_cycle cfg hw s) as [[|s'|s'|s' d]| |] eqn:E.
  - unfold ReadFIFO in H. rewrite E in H. injection H as <-.
    exists (out s). split; apply extends_refl.
  - unfold ReadFIFO in H. rewrite E in H. injection H as <-.
    exists (out s'). split; [|apply extends_refl].
    unfold drain_cycle in E. destruct (negb (acq_running s)); [discriminate|].
    destruct (poll_loop cfg hw (threshWords s) POLL_TRIES 0) as [[nWords mx]| |];
      cbn [bind] in E; try discriminate.
    destruct ((threshWords s <? mx) || force_spill s).
    + destruct (drain_modules cfg hw nWords _ _ 0) as [[? ?|?]| |];
        cbn [bind] in E; discriminate.
    + injection E as <-. apply extends_refl.
  - unfold ReadFIFO in H. rewrite E in H. injection H as <-.
    exists (out s'). split; [exact Hc | apply extends_refl].
  - destruct (ReadFIFO_emits s s' d E) as (s'' & Hr & _ & _ & He).
    rewrite Hr in H. injection H as <-.
    exists (out s'). split; assumption.
  - unfold ReadFIFO in H. rewrite E in H. discriminate.
  - unfold ReadFIFO in H. rewrite E in H. discriminate.
Qed.

Lemma full_fifo_stops (nWords : list Z) (mod_ : nat) (s : Poll) (d : Z) :
  MIN_FIFO_READ cfg <= EXTERNAL_FIFO_LENGTH cfg ->
  0 <= nth mod_ nWords 0 ->
  EXTERNAL_FIFO_LENGTH cfg <= nth mod_ nWords 0 ->
  drain_module cfg hw nWords mod_ s d =
    Done (Stop (set_do_stop_acq true (set_had_error true
                  (cout (MsgFullFifo (Z.of_nat mod_) (nth mod_ nWords 0)) s)))).
Proof.
  intros Hcfg H0 Hfull. unfold drain_module.
  replace (nth mod_ nWords 0 <? MIN_FIFO_READ cfg) with false
    by (symmetry; apply Z.ltb_ge; lia).
  replace (nth mod_ nWords 0 <? 0) with false
    by (symmetry; apply Z.ltb_ge; lia).
  replace (EXTERNAL_FIFO_LENGTH cfg <=? nth mod_ nWords 0) with true
    by (symmetry; apply Z.leb_le; lia).
  reflexivity.
Qed.

Lemma full_fifo_never_next (nWords : list Z) (mods : list nat) (mod_ : nat)
    (s : Poll) (d : Z) :
  MIN_FIFO_READ cfg <= EXTERNAL_FIFO_LENGTH cfg ->
  0 <= nth mod_ nWords 0 ->
  EXTERNAL_FIFO_LENGTH cfg <= nth mod_ nWords 0 ->
  In mod_ mods ->
  match drain_modules cfg hw nWords mods s d with
  | Done (Next _ _) => False
  | _ => True
  end.
Proof.
  intros Hcfg H0 Hfull. revert s d.
  induction mods as [|m rest IH]; intros s d Hin; [destruct Hin|].
  cbn [drain_modules]. destruct (Nat.eq_dec m mod_) as [->|Hne].
  - rewrite full_fifo_stops by assumption. exact I.
  - destruct Hin as [Heq|Hin]; [contradiction|].
    destruct (drain_module cfg hw nWords m s d) as [[s1 d1|s1]| |];
      cbn [bind]; try exact I.
    now apply IH.
Qed.

End ReadFacts.

Lemma extends_join (P Q R : event -> Prop) (o1 o2 o3 : list event) :
  (forall e, P e -> R e) -> (forall e, Q e -> R e) ->
  extends P o1 o2 -> extends Q o2 o3 -> extends R o1 o3.
Proof.
  intros HP HQ H1 H2.
  eapply extends_trans;
    [exact (extends_weaken P R _ _ HP H1) | exact (extends_weaken Q R _ _ HQ H2)].
Qed.

(** C9. The channel number read from an event word is always between 0
    and 15, so the guard of the "Channel read not valid" branch is false for
    every word, and no call of [ReadFIFO] ever prints that message: a
    channel out of range is never what sets [had_error]. *)
Theorem channel_check_unreachable (cfg : Config) (hw : Hardware) (s : Poll)
    (r : bool * Poll) :
  ReadFIFO cfg hw s = Done r ->
  (forall w, 0 <= chanRead w <= 15) /\
  (forall w, ((chanRead w <? 0) || (15 <? chanRead w))%bool = false) /\
  extends (fun e => forall c, e <> Stdout (MsgChannelInvalid c))
          (out s) (out (snd r)).
Proof.
  intros H.
  split; [exact chanRead_range|]. split; [exact channel_check_dead|].
  destruct (ReadFIFO_log cfg hw s r H) as (o & H1 & H2).
  eapply extends_join; [| |exact H1|exact H2].
  - intros e He c ->. exact (drain_event_live _ _ _ He).
  - intros e He c ->. exact (io_event_live _ He).
Qed.

Lemma channel_check_unreachable_witness :
  let s := acquiring 0 in
  let r := (true, state_after (ReadFIFO crate first_fifo s) s) in
  ReadFIFO crate first_fifo s = Done r /\
  (forall w, 0 <= chanRead w <= 15) /\
  (forall w, ((chanRead w <? 0) || (15 <? chanRead w))%bool = false) /\
  extends (fun e => forall c, e <> Stdout (MsgChannelInvalid c))
          (out s) (out (snd r)).
Proof.
  intros s r.
  assert (H : ReadFIFO crate first_fifo s = Done r) by (vm_compute; reflexivity).
  split; [exact H|].
  exact (channel_check_unreachable crate first_fifo s r H).
Defined.

Lemma ReadFIFO_fuel (cfg : Config) (hw : Hardware) (s : Poll) :
  EXTERNAL_FIFO_LENGTH cfg + 16384 <= 2 ^ 32 ->
  (forall m, partial_ok s m) ->
  ReadFIFO cfg hw s <> OutOfFuel.
Proof.
  intros Hfit Hp. pose proof (drain_cycle_spec cfg hw Hfit s Hp) as H.
  unfold ReadFIFO.
  destruct (drain_cycle cfg hw s) as [[|s'|s'|s' d]| |] eqn:E; cbn [bind];
    try discriminate; [|contradiction].
  destruct (ReadFIFO_emits cfg hw s s' d E) as (s'' & Hr & _).
  unfold ReadFIFO in Hr. rewrite E in Hr. cbn [bind] in Hr. rewrite Hr.
  discriminate.
Qed.

(* ===================================================================== *)
(** ** Emitted spills *)

Section SpillFacts.
Variables (cfg : Config) (hw : Hardware).
Hypothesis fifo_fits_word : EXTERNAL_FIFO_LENGTH cfg + 16384 <= 2 ^ 32.

Lemma nth_sections (pay : nat -> list Z) (n m : nat) (d : module_section) :
  (m < n)%nat ->
  nth m (map (fun m => the_section m (pay m)) (seq 0 n)) d =
    the_section m (pay m).
Proof.
  intros Hm.
  rewrite (nth_indep _ d (the_section 0 (pay 0%nat)))
    by (now rewrite length_map, length_seq).
  rewrite (map_nth (fun m => the_section m (pay m))).
  now rewrite seq_nth.
Qed.

(** What an emitted spill looks like, and what it leaves behind. *)
Lemma spill_spec (s s' : Poll) (d : Z) :
  (forall m, partial_ok s m) ->
  drain_cycle cfg hw s = Done (Spill s' d) ->
  0 <= d <= capacity cfg /\
  (forall m, partial_ok s' m) /\
  exists pay : nat -> list Z,
    spill_sections (n_cards cfg) (block (fifoData s') 0 d) =
      Some (map (fun m => the_section m (pay m)) (seq 0 (n_cards cfg))) /\
    d = zsum (map sec_size
                (map (fun m => the_section m (pay m)) (seq 0 (n_cards cfg)))) /\
    forall m, (m < n_cards cfg)%nat ->
      module_payload cfg (block (fifoData s') 0 d) m = pay m /\
      pay m ++ partialEvents s' m =
        partialEvents s m ++ hardware_words cfg hw s m /\
      (nth m (cycle_counts cfg hw s) 0 < MIN_FIFO_READ cfg ->
         pay m = [] /\ partialEvents s' m = partialEvents s m).
Proof.
  intros Hp H. pose proof (drain_cycle_spec cfg hw fifo_fits_word s Hp) as Hs.
  rewrite H in Hs. destruct Hs as (_ & Hd & (pay & Hblk & Hpay) & Hok & _).
  split; [exact Hd|]. split; [exact Hok|]. exists pay.
  assert (Hsec : spill_sections (n_cards cfg) (block (fifoData s') 0 d) =
                 Some (map (fun m => the_section m (pay m))
                           (seq 0 (n_cards cfg)))).
  { rewrite Hblk.
    pose proof (spill_sections_concat pay (seq 0 (n_cards cfg))) as Hc.
    now rewrite length_seq in Hc. }
  split; [exact Hsec|]. split.
  - rewrite <- length_sections, <- Hblk, block_length. lia.
  - intros m Hm. split; [|now apply Hpay].
    unfold module_payload. rewrite Hsec. now rewrite nth_sections.
Qed.


End SpillFacts.



Lemma spill_of_inv (cfg : Config) (hw : Hardware) (s : Poll) (sp : list Z) :
  spill_of cfg hw s = Some sp ->
  exists s' d, drain_cycle cfg hw s = Done (Spill s' d) /\
               sp = block (fifoData s') 0 d.
Proof.
  unfold spill_of. destruct (drain_cycle cfg hw s) as [[|?|?|s' d]| |];
    try discriminate.
  intros [= <-]. now exists s', d.
Qed.

(** One emitted spill, seen from the caller of [ReadFIFO]. *)
Lemma ReadFIFO_spill (cfg : Config) (hw : Hardware) (s s1 : Poll)
    (sp : list Z) (b : bool) :
  EXTERNAL_FIFO_LENGTH cfg + 16384 <= 2 ^ 32 ->
  (forall m, partial_ok s m) ->
  spill_of cfg hw s = Some sp ->
  ReadFIFO cfg hw s = Done (b, s1) ->
  b = true /\
  (forall m, partial_ok s1 m) /\
  forall m, (m < n_cards cfg)%nat ->
    module_payload cfg sp m ++ partialEvents s1 m =
      partialEvents s m ++ hardware_words cfg hw s m /\
    (nth m (cycle_counts cfg hw s) 0 < MIN_FIFO_READ cfg ->
       module_payload cfg sp m = [] /\ partialEvents s1 m = partialEvents s m).
Proof.
  intros Hfit Hp Hsp Hr.
  destruct (spill_of_inv cfg hw s sp Hsp) as (s' & d & Hc & ->).
  destruct (ReadFIFO_emits cfg hw s s' d Hc) as (s'' & Hr' & Hpe & _ & _).
  rewrite Hr' in Hr. injection Hr as <- <-.
  destruct (spill_spec cfg hw Hfit s s' d Hp Hc) as (_ & Hok & pay & _ & _ & Hm).
  split; [reflexivity|]. split.
  - intros m. unfold partial_ok. rewrite Hpe. apply Hok.
  - intros m Hlt. destruct (Hm m Hlt) as (-> & H1 & H2). rewrite Hpe.
    split; [exact H1 | exact H2].
Qed.

Lemma ReadFIFO_idle (cfg : Config) (hw : Hardware) (s s1 : Poll) :
  spill_of cfg hw s = None ->
  ReadFIFO cfg hw s = Done (true, s1) ->
  s1 = s.
Proof.
  unfold spill_of, ReadFIFO, drain_cycle.
  destruct (negb (acq_running s)); cbn [bind]; [discriminate|].
  destruct (poll_loop cfg hw (threshWords s) POLL_TRIES 0) as [[nWords mx]| |];
    cbn [bind]; try discriminate.
  destruct ((threshWords s <? mx) || force_spill s).
  - destruct (drain_modules cfg hw nWords _ _ 0) as [[s' d|s']| |];
      cbn [bind]; discriminate.
  - cbn [bind]. intros _ [= <-]. reflexivity.
Qed.

(** Over any number of cycles of a run, the payloads of a module put end to
    end, followed by the fragment still carried, are the fragment carried at
    the start followed by the words the hardware delivered. *)
Lemma run_stream (cfg : Config) (hws : list Hardware) (s s' : Poll) (m : nat) :
  EXTERNAL_FIFO_LENGTH cfg + 16384 <= 2 ^ 32 ->
  (forall m, partial_ok s m) ->
  run_cycles cfg hws s = Some s' ->
  (m < n_cards cfg)%nat ->
  run_payload cfg hws s m ++ partialEvents s' m =
    partialEvents s m ++ run_words cfg hws s m.
Proof.
  intros Hfit. revert s. induction hws as [|hw rest IH]; intros s Hp Hrun Hm.
  - cbn in *. injection Hrun as <-. now rewrite app_nil_r.
  - cbn [run_cycles run_payload run_words] in *.
    destruct (ReadFIFO cfg hw s) as [[[|] s1]| |] eqn:Hr; try discriminate.
    cbn [state_after].
    destruct (spill_of cfg hw s) as [sp|] eqn:Hsp.
    + destruct (ReadFIFO_spill cfg hw s s1 sp true Hfit Hp Hsp Hr)
        as (_ & Hp1 & H1).
      destruct (H1 m Hm) as [E1 _].
      rewrite <- app_assoc, (IH s1 Hp1 Hrun Hm), app_assoc, E1, <- app_assoc.
      reflexivity.
    + pose proof (ReadFIFO_idle cfg hw s s1 Hsp Hr) as ->.
      cbn [app]. now apply IH.
Qed.

(* ===================================================================== *)
(** ** Fatal paths *)

Lemma drain_cycle_full (cfg : Config) (hw : Hardware) (s : Poll) (m : nat) :
  MIN_FIFO_READ cfg <= EXTERNAL_FIFO_LENGTH cfg ->
  (m < n_cards cfg)%nat ->
  EXTERNAL_FIFO_LENGTH cfg <= nth m (cycle_counts cfg hw s) 0 ->
  match drain_cycle cfg hw s with
  | Done (Spill _ _) => False
  | _ => True
  end.
Proof.
  intros Hcfg Hm Hfull. unfold drain_cycle.
  destruct (negb (acq_running s)); [exact I|].
  pose proof (cycle_counts_range cfg hw s m) as Hrange.
  unfold cycle_counts in *.
  destruct (poll_loop cfg hw (threshWords s) POLL_TRIES 0) as [[nWords mx]| |];
    cbn [bind]; try exact I.
  destruct ((threshWords s <? mx) || force_spill s); [|exact I].
  pose proof (full_fifo_never_next cfg hw nWords (seq 0 (n_cards cfg)) m
                (set_force_spill false s) 0 Hcfg (proj1 Hrange) Hfull) as H.
  destruct (drain_modules cfg hw nWords _ _ 0) as [[s' d|s']| |];
    cbn [bind]; try exact I.
  apply H. apply in_seq. lia.
Qed.

(** C5. In a cycle whose gate is open: a module whose count is at least
    [EXTERNAL_FIFO_LENGTH] makes the loop over the modules cout the
    full-FIFO error, set [had_error] and [do_stop_acq] and return [false];
    with such a module among the cards, [ReadFIFO] (as long as no earlier
    module made it leave the [fifoData] array) returns [false] with both
    flags set after events that touch neither the file nor the socket; and
    when every count is below [EXTERNAL_FIFO_LENGTH] the full-FIFO error is
    never printed. *)
Theorem full_fifo_is_fatal (cfg : Config) (hw : Hardware) (s : Poll) :
  EXTERNAL_FIFO_LENGTH cfg + 16384 <= 2 ^ 32 ->
  MIN_FIFO_READ cfg <= EXTERNAL_FIFO_LENGTH cfg ->
  (forall m, partial_ok s m) ->
  acq_running s = true ->
  gate_open cfg hw s = true ->
  ReadFIFO cfg hw s <> Undefined ->
  let counts := cycle_counts cfg hw s in
  (forall m st d,
     EXTERNAL_FIFO_LENGTH cfg <= nth m counts 0 ->
     drain_module cfg hw counts m st d =
       Done (Stop (set_do_stop_acq true (set_had_error true
                     (cout (MsgFullFifo (Z.of_nat m) (nth m counts 0)) st))))) /\
  ((exists m, (m < n_cards cfg)%nat /\
              EXTERNAL_FIFO_LENGTH cfg <= nth m counts 0) ->
   exists s',
     ReadFIFO cfg hw s = Done (false, s') /\
     had_error s' = true /\ do_stop_acq s' = true /\
     extends silent_event (out s) (out s')) /\
  ((forall m, nth m counts 0 < EXTERNAL_FIFO_LENGTH cfg) ->
   exists r,
     ReadFIFO cfg hw s = Done r /\
     extends (fun e => forall m n, e <> Stdout (MsgFullFifo m n))
             (out s) (out (snd r))).
Proof.
  intros Hfit Hcfg Hp Hrun Hgate Hdef counts.
  pose proof (drain_cycle_spec cfg hw Hfit s Hp) as Hspec.
  split; [|split].
  - intros m st d Hfull. apply full_fifo_stops; try assumption.
    apply cycle_counts_range.
  - intros (m & Hm & Hfull).
    pose proof (drain_cycle_full cfg hw s m Hcfg Hm Hfull) as Hnospill.
    unfold ReadFIFO in *.
    destruct (drain_cycle cfg hw s) as [[|s'|s'|s' d]| |]; cbn [bind] in *.
    + rewrite Hrun in Hspec. discriminate.
    + destruct Hspec as [_ Hg]. rewrite Hgate in Hg. discriminate.
    + destruct Hspec as (_ & He & Hs & Hl). exists s'.
      repeat split; try assumption.
      eapply extends_weaken; [apply drain_event_silent | exact Hl].
    + contradiction.
    + contradiction.
    + contradiction.
  - intros Hbelow.
    assert (Hr : exists r, ReadFIFO cfg hw s = Done r).
    { unfold ReadFIFO in *.
      destruct (drain_cycle cfg hw s) as [[|s'|s'|s' d]| |] eqn:E;
        cbn [bind] in *; try contradiction; try (eexists; reflexivity).
      destruct (ReadFIFO_emits cfg hw s s' d E) as (s'' & Hr' & _).
      unfold ReadFIFO in Hr'. rewrite E in Hr'. cbn [bind] in Hr'.
      eexists. exact Hr'. }
    destruct Hr as (r & Hr). exists r. split; [exact Hr|].
    destruct (ReadFIFO_log cfg hw s r Hr) as (o & H1 & H2).
    eapply extends_join; [| |exact H1|exact H2].
    + intros e He m n ->. cbn in He. destruct He as [He ->].
      specialize (Hbelow (Z.to_nat m)). fold counts in He. lia.
    + intros e He m n ->. exact He.
Qed.

Lemma full_fifo_is_fatal_witness :
  let s := acquiring 0 in
  exists s',
    ReadFIFO crate full_fifo s = Done (false, s') /\
    had_error s' = true /\ do_stop_acq s' = true /\
    extends silent_event (out s) (out s').
Proof.
  intros s.
  apply (full_fifo_is_fatal crate full_fifo s).
  - vm_compute. discriminate.
  - vm_compute. discriminate.
  - intros m. vm_compute. discriminate.
  - reflexivity.
  - vm_compute. reflexivity.
  - vm_compute. discriminate.
  - exists 0%nat. split; [vm_compute; lia | vm_compute; discriminate].
Defined.

(** A read of exactly 16382 words parses cleanly with
    [EXTERNAL_FIFO_LENGTH = 131072]. *)
Lemma read_16382_words :
  match ReadFIFO crate long_event_fifo (acquiring 0) with
  | Done (b, s') =>
      b = true /\ had_error s' = false /\ do_stop_acq s' = false /\
      partialEvents s' 0%nat = [] /\
      out s' = [Stdout (MsgRead 0 16382 0 2);
                Stdout (MsgWritingBroadcasting 16386); FilePacket]
  | _ => False
  end.
Proof. vm_compute. repeat split. Qed.

(** C6, at the failing input.  Module 0 delivers ten words whose first
    word announces an event of 100 words from the wrong slot.  The parser
    stops at that word; while printing the following event the diagnostic
    computes [outputSize = dataWords + nWords[mod] - (parseWords +
    eventSize)] in [size_t], which wraps to [2^64 - 90], and reads
    [fifoData] far outside the array: [ReadFIFO] does not get to set
    [do_stop_acq] and return. *)
Theorem corrupt_dump_leaves_buffer :
  ReadFIFO crate corrupt_fifo (acquiring 0) = Undefined.
Proof. vm_compute. reflexivity. Qed.

(** The diagnostic limits the following event by the size of the offending
    one: after an offending event of four words, all 100 words of the
    following event are printed. *)
Lemma corrupt_dump_next_event_in_full :
  next_event_dump
    (out (state_after (ReadFIFO crate misdirected_fifo (acquiring 0))
            (acquiring 0))) = Some (100, 100%nat).
Proof. vm_compute. reflexivity. Qed.

(** Where the dump stays inside the array, a parser that stopped early
    does end the cycle as intended. *)
Lemma corrupt_dump_in_bounds :
  match ReadFIFO crate misdirected_fifo (acquiring 0) with
  | Done (b, s') =>
      b = false /\ had_error s' = true /\ do_stop_acq s' = true /\
      extends silent_event [] (out s')
  | _ => False
  end.
Proof.
  vm_compute. repeat split. eexists. split; [reflexivity|].
  repeat constructor.
Qed.





(* ===================================================================== *)
(** ** Further properties of [SplitParameterArgs] *)

Section ArgsExtra.
Import Args.
Local Open Scope string_scope.
Local Open Scope Z_scope.

Lemma find_first_not_of_hit (pre post : string) (c : ascii) (chars : string) :
  mem_char c chars = false ->
  exists p, find_first_not_of (pre ++ String c post) chars = Some p.
Proof.
  intros Hc. induction pre as [|d pre IH]; simpl.
  - rewrite Hc. eauto.
  - destruct (mem_char d chars); [|eauto].
    destruct IH as [p ->]. simpl. eauto.
Qed.

Lemma stoi_ok_range (s : string) (v : Z) : stoi s = StoiOk v -> in_int v.
Proof.
  unfold stoi.
  destruct (match skip_space s with
            | String "-" rest => (true, rest)
            | String "+" rest => (false, rest)
            | _ => (false, skip_space s)
            end) as [neg t].
  destruct (read_digits t false 0) as [seen mag].
  destruct (negb seen); [discriminate|].
  destruct ((_ <? INT_MIN) || (INT_MAX <? _))%bool eqn:E; [discriminate|].
  intros H. injection H as <-. apply orb_false_iff in E as [E1 E2].
  apply Z.ltb_ge in E1, E2. split; assumption.
Qed.

(** X1. Whatever the argument: when the call returns [true], both bounds are
    [int]s; with a [':'] in the argument they satisfy [0 <= start <= stop],
    without one they are equal. *)
Theorem SplitParameterArgs_sound (arg : string) (start0 stop0 start stop : Z) :
  SplitParameterArgs arg start0 stop0 = SplitReturn true start stop ->
  in_int start /\ in_int stop /\
  match find arg ":" with
  | Some _ => 0 <= start <= stop
  | None => stop = start
  end.
Proof.
  unfold SplitParameterArgs.
  destruct (find_first_not_of arg _); [discriminate|].
  destruct (stoi (substr arg 0 (find arg ":"))) as [a| |] eqn:Ea; try discriminate.
  apply stoi_ok_range in Ea.
  destruct (find arg ":") as [p|].
  - destruct (stoi (substr arg (p + 1) None)) as [b| |] eqn:Eb; try discriminate.
    apply stoi_ok_range in Eb.
    destruct ((a <? 0) || (b <? 0) || (b <? a))%bool eqn:E; [discriminate|].
    intros H. injection H as <- <-.
    apply orb_false_iff in E as [E E3]. apply orb_false_iff in E as [E1 E2].
    apply Z.ltb_ge in E1, E2, E3. repeat split; try apply Ea; try apply Eb; lia.
  - intros H. injection H as <- <-. repeat split; apply Ea.
Qed.

Lemma SplitParameterArgs_sound_witness :
  in_int 2 /\ in_int 5 /\ 0 <= 2 <= 5.
Proof.
  apply (SplitParameterArgs_sound "2:5" 0 0 2 5). reflexivity.
Defined.


Lemma stoi_numeral_any (neg : bool) (ds rest : string) :
  all_digits ds = true -> stops_digits rest ->
  stoi (numeral neg ds ++ rest) =
    if ((numeral_val neg ds <? INT_MIN) || (INT_MAX <? numeral_val neg ds))%bool
    then StoiOutOfRange else StoiOk (numeral_val neg ds).
Proof.
  intros Hd Hr.
  unfold stoi, numeral, numeral_val in *. destruct neg; simpl sign_str.
  - simpl append. simpl skip_space. cbv iota beta.
    rewrite (read_digits_run ds rest false 0 Hd Hr). reflexivity.
  - simpl append. destruct ds as [|c ds']; [discriminate Hd|].
    pose proof (all_digits_cons c ds' Hd) as [Hc _].
    destruct (digit_classes c Hc) as (_ & _ & Hsp & Hm & Hp).
    simpl append. simpl skip_space. rewrite Hsp.
    assert (Hsign :
      match String c (ds' ++ rest) with
      | String "-" r => (true, r)
      | String "+" r => (false, r)
      | _ => (false, String c (ds' ++ rest))
      end = (false, String c (ds' ++ rest))).
    { clear - Hm Hp.
      destruct c as [[] [] [] [] [] [] [] []]; try reflexivity;
        vm_compute in Hm, Hp; discriminate. }
    rewrite Hsign.
    change (String c (ds' ++ rest)) with (String c ds' ++ rest).
    rewrite (read_digits_run (String c ds') rest false 0 Hd Hr). reflexivity.
Qed.

Lemma out_of_int (v : Z) :
  ~ in_int v -> ((v <? INT_MIN) || (INT_MAX <? v))%bool = true.
Proof.
  intros H. unfold in_int in H. apply orb_true_iff.
  destruct (Z.ltb_spec v INT_MIN); [now left|].
  destruct (Z.ltb_spec INT_MAX v); [now right|]. exfalso. apply H. lia.
Qed.

Lemma in_int_test (v : Z) :
  in_int v -> ((v <? INT_MIN) || (INT_MAX <? v))%bool = false.
Proof.
  intros [H1 H2]. apply orb_false_iff. split; apply Z.ltb_ge; assumption.
Qed.

(** Where the first number of an argument ends: at the end, or at a
    character that is not a digit. *)
Lemma split_first (na : bool) (da rest : string) :
  all_digits da = true ->
  find_first_not_of rest "-0123456789:" = None ->
  find_first_not_of (numeral na da ++ rest) "-0123456789:" = None /\
  find (numeral na da ++ rest) ":" =
    option_map (Nat.add (String.length (numeral na da))) (find rest ":").
Proof.
  intros Ha Hrest. destruct (numeral_chars na da rest Ha) as [H1 H2].
  rewrite H1, Hrest. split; [reflexivity | exact H2].
Qed.

(** X2. A number that does not fit an [int] makes [std::stoi] throw
    [std::out_of_range], which [SplitParameterArgs] does not catch: the
    exception leaves the function, whether the number stands alone or is one
    of the two bounds. *)
Theorem SplitParameterArgs_out_of_range (nx ny : bool) (dx dy : string)
    (start stop : Z) :
  all_digits dx = true -> ~ in_int (numeral_val nx dx) ->
  all_digits dy = true -> in_int (numeral_val ny dy) ->
  SplitParameterArgs (numeral nx dx) start stop = SplitThrowsOutOfRange /\
  SplitParameterArgs (numeral nx dx ++ ":" ++ numeral ny dy) start stop =
    SplitThrowsOutOfRange /\
  SplitParameterArgs (numeral ny dy ++ ":" ++ numeral nx dx) start stop =
    SplitThrowsOutOfRange.
Proof.
  intros Hx Hox Hy Hiy.
  assert (Hnone : forall n d, all_digits d = true ->
            find_first_not_of (numeral n d) "-0123456789:" = None /\
            find (numeral n d) ":" = None).
  { intros n d Hd. destruct (numeral_chars n d "" Hd) as [H1 H2].
    rewrite append_nil_r in H1, H2. split; assumption. }
  assert (Htail : forall n d, all_digits d = true ->
            find_first_not_of (":" ++ numeral n d) "-0123456789:" = None /\
            find (":" ++ numeral n d) ":" = Some O).
  { intros n d Hd. destruct (Hnone n d Hd) as [H1 _].
    change (":" ++ numeral n d) with (String ":" (numeral n d)).
    cbn [find_first_not_of find]. change (mem_char ":" "-0123456789:") with true.
    change (Ascii.eqb ":" ":") with true. cbv iota. rewrite H1. split; reflexivity. }
  assert (Hsx : forall rest, stops_digits rest ->
            stoi (numeral nx dx ++ rest) = StoiOutOfRange).
  { intros rest Hr. rewrite (stoi_numeral_any nx dx rest Hx Hr).
    rewrite (out_of_int _ Hox). reflexivity. }
  assert (Hsy : stoi (numeral ny dy) = StoiOk (numeral_val ny dy)).
  { pose proof (stoi_numeral ny dy "" Hy I Hiy) as H.
    rewrite append_nil_r in H. exact H. }
  split; [|split].
  - unfold SplitParameterArgs. destruct (Hnone nx dx Hx) as [-> ->].
    unfold substr. simpl drop.
    pose proof (Hsx "" I) as H. rewrite append_nil_r in H. rewrite H. reflexivity.
  - unfold SplitParameterArgs.
    destruct (Htail ny dy Hy) as [T1 T2].
    destruct (split_first nx dx (":" ++ numeral ny dy) Hx T1) as [-> ->].
    rewrite T2. simpl option_map. rewrite Nat.add_0_r.
    unfold substr. simpl drop at 1. rewrite take_append.
    pose proof (Hsx "" I) as H. rewrite append_nil_r in H. rewrite H. reflexivity.
  - unfold SplitParameterArgs.
    destruct (Htail nx dx Hx) as [T1 T2].
    destruct (split_first ny dy (":" ++ numeral nx dx) Hy T1) as [-> ->].
    rewrite T2. simpl option_map. rewrite Nat.add_0_r.
    unfold substr. simpl drop at 1. rewrite take_append. rewrite Hsy.
    change (numeral ny dy ++ ":" ++ numeral nx dx)
      with (numeral ny dy ++ String ":" (numeral nx dx)).
    rewrite drop_append_sep.
    pose proof (Hsx "" I) as H. rewrite append_nil_r in H. rewrite H. reflexivity.
Qed.

Lemma SplitParameterArgs_out_of_range_witness :
  SplitParameterArgs "2147483648" 0 0 = SplitThrowsOutOfRange /\
  SplitParameterArgs "2147483648:7" 0 0 = SplitThrowsOutOfRange /\
  SplitParameterArgs "7:2147483648" 0 0 = SplitThrowsOutOfRange.
Proof.
  apply (SplitParameterArgs_out_of_range false false "2147483648" "7" 0 0).
  - reflexivity.
  - vm_compute. intros [_ H]. apply H. reflexivity.
  - reflexivity.
  - vm_compute. split; discriminate.
Defined.

(** X3. What follows the number that [std::stoi] reads is ignored: after
    the second bound any run of allowed characters that does not continue
    the number is dropped, and an argument with no [':'] is a single index
    even if more follows its first number. *)
Theorem SplitParameterArgs_ignores_tail (na nb : bool)
    (da db tail tail1 : string) (start stop : Z) :
  all_digits da = true -> all_digits db = true ->
  in_int (numeral_val na da) -> in_int (numeral_val nb db) ->
  find_first_not_of tail "-0123456789:" = None -> stops_digits tail ->
  find_first_not_of tail1 "-0123456789:" = None -> stops_digits tail1 ->
  find tail1 ":" = None ->
  SplitParameterArgs (numeral na da ++ ":" ++ numeral nb db ++ tail) start stop =
    SplitParameterArgs (numeral na da ++ ":" ++ numeral nb db) start stop /\
  SplitParameterArgs (numeral na da ++ tail1) start stop =
    SplitReturn true (numeral_val na da) (numeral_val na da).
Proof.
  intros Ha Hb Hia Hib Htail Hstop Htail1 Hstop1 Hcolon. split.
  - rewrite (SplitParameterArgs_range na nb da db start stop Ha Hb Hia Hib).
    assert (T1 : find_first_not_of (":" ++ numeral nb db ++ tail)
                   "-0123456789:" = None).
    { destruct (split_first nb db tail Hb Htail) as [H1 _].
      change (":" ++ numeral nb db ++ tail)
        with (String ":" (numeral nb db ++ tail)).
      cbn [find_first_not_of]. change (mem_char ":" "-0123456789:") with true.
      cbv iota. rewrite H1. reflexivity. }
    assert (T2 : find (":" ++ numeral nb db ++ tail) ":" = Some O) by reflexivity.
    unfold SplitParameterArgs.
    destruct (split_first na da (":" ++ numeral nb db ++ tail) Ha T1) as [-> ->].
    rewrite T2. simpl option_map. rewrite Nat.add_0_r.
    unfold substr. simpl drop at 1. rewrite take_append.
    pose proof (stoi_numeral na da "" Ha I Hia) as Hsa.
    rewrite append_nil_r in Hsa. rewrite Hsa.
    change (numeral na da ++ ":" ++ numeral nb db ++ tail)
      with (numeral na da ++ String ":" (numeral nb db ++ tail)).
    rewrite drop_append_sep.
    rewrite (stoi_numeral nb db tail Hb Hstop Hib).
    destruct ((numeral_val na da <? 0) || (numeral_val nb db <? 0) ||
              (numeral_val nb db <? numeral_val na da))%bool; reflexivity.
  - unfold SplitParameterArgs.
    destruct (split_first na da tail1 Ha Htail1) as [-> ->].
    rewrite Hcolon. simpl option_map. unfold substr. simpl drop.
    rewrite (stoi_numeral na da tail1 Ha Hstop1 Hia). reflexivity.
Qed.

Lemma SplitParameterArgs_ignores_tail_witness :
  SplitParameterArgs "0:3:9" 7 7 = SplitParameterArgs "0:3" 7 7 /\
  SplitParameterArgs "0-3" 7 7 = SplitReturn true 0 0.
Proof.
  apply (SplitParameterArgs_ignores_tail false false "0" "3" ":9" "-3" 7 7).
  - reflexivity.
  - reflexivity.
  - vm_compute. split; discriminate.
  - vm_compute. split; discriminate.
  - reflexivity.
  - reflexivity.
  - reflexivity.
  - reflexivity.
  - reflexivity.
Defined.

(** X4. What [SplitParameterArgs] rejects by returning [false]: an
    argument with a character other than a digit, ['-'] or [':'], before
    anything is parsed; the empty argument and one that starts with [':'],
    with [start] and [stop] untouched; and an argument that ends with the
    [':'], and then [start] has already been overwritten with the first
    number. *)
Theorem SplitParameterArgs_rejects (pre post rest : string) (c : ascii)
    (na : bool) (da : string) (start stop : Z) :
  mem_char c "-0123456789:" = false ->
  find_first_not_of rest "-0123456789:" = None ->
  all_digits da = true -> in_int (numeral_val na da) ->
  SplitParameterArgs (pre ++ String c post) start stop =
    SplitReturn false start stop /\
  SplitParameterArgs "" start stop = SplitReturn false start stop /\
  SplitParameterArgs (":" ++ rest) start stop = SplitReturn false start stop /\
  SplitParameterArgs (numeral na da ++ ":") start stop =
    SplitReturn false (numeral_val na da) stop.
Proof.
  intros Hc Hrest Ha Hia. split; [|split; [|split]].
  - unfold SplitParameterArgs.
    destruct (find_first_not_of_hit pre post c _ Hc) as [p ->]. reflexivity.
  - reflexivity.
  - unfold SplitParameterArgs.
    change (":" ++ rest) with (String ":" rest).
    cbn [find_first_not_of find]. change (mem_char ":" "-0123456789:") with true.
    change (Ascii.eqb ":" ":") with true. cbv iota. rewrite Hrest.
    reflexivity.
  - unfold SplitParameterArgs.
    destruct (split_first na da ":" Ha eq_refl) as [-> ->].
    simpl option_map. rewrite Nat.add_0_r.
    unfold substr. simpl drop at 1. rewrite take_append.
    pose proof (stoi_numeral na da "" Ha I Hia) as Hsa.
    rewrite append_nil_r in Hsa. rewrite Hsa.
    rewrite drop_append_sep. reflexivity.
Qed.

Lemma SplitParameterArgs_rejects_witness :
  SplitParameterArgs "1,3" 7 9 = SplitReturn false 7 9 /\
  SplitParameterArgs "" 7 9 = SplitReturn false 7 9 /\
  SplitParameterArgs ":5" 7 9 = SplitReturn false 7 9 /\
  SplitParameterArgs "4:" 7 9 = SplitReturn false 4 9.
Proof.
  apply (SplitParameterArgs_rejects "1" "3" "5" "," false "4" 7 9).
  - reflexivity.
  - reflexivity.
  - reflexivity.
  - vm_compute. split; discriminate.
Defined.

End ArgsExtra.

(* ===================================================================== *)
(** ** The fields of an event word *)

Lemma land_pow2 (w n : Z) :
  0 <= n -> Z.land w (2 ^ n) = if Z.testbit w n then 2 ^ n else 0.
Proof.
  intros Hn. apply Z.bits_inj'. intros k Hk.
  rewrite Z.land_spec, Z.pow2_bits_eqb by exact Hn.
  destruct (Z.eqb_spec n k) as [<- | Hne].
  - destruct (Z.testbit w n); cbn [andb].
    + rewrite Z.pow2_bits_eqb, Z.eqb_refl by exact Hn. reflexivity.
    + rewrite Z.bits_0. reflexivity.
  - rewrite andb_false_r. destruct (Z.testbit w n).
    + rewrite Z.pow2_bits_eqb by exact Hn.
      symmetry. apply Z.eqb_neq. exact Hne.
    + rewrite Z.bits_0. reflexivity.
Qed.

(** X5. The size field of an event word is bits 17 to 30 (bit 13 of the
    mask is shifted out), and the virtual-channel flag is bit 29, which is
    bit 12 of that field: an event counts as coming from a virtual channel
    exactly when its length modulo 8192 is at least 4096. *)
Theorem virtual_channel_is_size_bit (w : Z) :
  eventSizeRead w = (w / 2 ^ 17) mod 2 ^ 14 /\
  virtualChannel w = Z.testbit (eventSizeRead w) 12 /\
  (virtualChannel w = true <-> 4096 <= eventSizeRead w mod 8192).
Proof.
  assert (Hsize : eventSizeRead w = Z.land (Z.shiftr w 17) (Z.ones 14)).
  { unfold eventSizeRead. rewrite Z.shiftr_land. reflexivity. }
  assert (Hbit : virtualChannel w = Z.testbit (eventSizeRead w) 12).
  { rewrite Hsize, Z.land_spec, Z.shiftr_spec, Z.ones_spec_low by lia.
    rewrite andb_true_r. change (12 + 17) with 29.
    unfold virtualChannel. change 0x20000000 with (2 ^ 29).
    rewrite land_pow2 by lia. destruct (Z.testbit w 29); reflexivity. }
  split; [|split].
  - rewrite Hsize, Z.land_ones, Z.shiftr_div_pow2 by lia. reflexivity.
  - exact Hbit.
  - rewrite Hbit, Z.testbit_true by lia.
    set (x := eventSizeRead w).
    change (2 ^ 12) with 4096.
    pose proof (Z.rem_mul_r x 4096 2 ltac:(lia) ltac:(lia)) as Hr.
    change (4096 * 2) with 8192 in Hr.
    pose proof (Z.mod_pos_bound x 4096 ltac:(lia)).
    pose proof (Z.mod_pos_bound (x / 4096) 2 ltac:(lia)).
    lia.
Qed.

(* ===================================================================== *)
(** ** Further properties of [ReadFIFO] *)

Section FlagFacts.
Variables (cfg : Config) (hw : Hardware).

Lemma store_eq (pos v : Z) (s s' : Poll) :
  store cfg pos v s = Done s' ->
  s' = set_fifoData (upd (fifoData s) pos v) s.
Proof.
  intros H. pose proof (store_spec cfg pos v s) as Hs. rewrite H in Hs.
  apply Hs.
Qed.

Lemma store_block_flags (pos : Z) (l : list Z) (s s' : Poll) :
  store_block cfg pos l s = Done s' ->
  setup s' = setup s /\ had_error s' = had_error s /\
  do_stop_acq s' = do_stop_acq s /\ force_spill s' = force_spill s /\
  partialEvents s' = partialEvents s.
Proof.
  unfold store_block. destruct l as [|x l].
  - intros [= <-]. repeat split.
  - destruct (in_bounds cfg pos _); [|discriminate].
    intros [= <-]. repeat split.
Qed.

Lemma parse_loop_flags (fuel : nat) (mod_ : nat) (slotExpected d n : Z)
    (ps ps' : parse_state) (s s' : Poll) :
  parse_loop fuel mod_ slotExpected d n ps s = Done (ps', s') ->
  setup s' = setup s /\ do_stop_acq s' = do_stop_acq s /\
  force_spill s' = force_spill s /\
  ((d + n <= parseWords ps' /\ had_error s' = had_error s) \/
   (parseWords ps' < d + n /\ had_error s' = true)) /\
  (had_error s = true -> parseWords ps < d + n -> parseWords ps' = parseWords ps).
Proof.
  revert ps s. induction fuel as [|fuel IH]; intros ps s; [discriminate|].
  cbn [parse_loop]. destruct (parseWords ps <? d + n) eqn:Hlt.
  2:{ apply Z.ltb_ge in Hlt. intros [= <- <-].
      split; [reflexivity|]. split; [reflexivity|]. split; [reflexivity|].
      split; [left; split; [exact Hlt | reflexivity] | intros _ H; lia]. }
  apply Z.ltb_lt in Hlt.
  rewrite channel_check_dead. cbv zeta.
  set (w := fifoData s (parseWords ps)).
  set (s3 := if eventSizeRead w =? 0 then _ else _).
  assert (H3 : setup s3 = setup s /\ do_stop_acq s3 = do_stop_acq s /\
               force_spill s3 = force_spill s /\
               (had_error s3 = had_error s \/ had_error s3 = true) /\
               (had_error s = true -> had_error s3 = true)).
  { subst s3.
    destruct (eventSizeRead w =? 0); destruct (negb (slotRead w =? slotExpected));
      cbn; repeat split; auto. }
  destruct H3 as (Hs3 & Hd3 & Hf3 & He3 & Hm3). clearbody s3.
  destruct (had_error s3) eqn:Herr.
  - intros [= <- <-]. cbn [parseWords]. repeat split; try assumption.
    right. split; [exact Hlt | exact Herr].
  - set (s4 := if negb (virtualChannel w) then _ else s3).
    assert (H4 : setup s4 = setup s3 /\ do_stop_acq s4 = do_stop_acq s3 /\
                 force_spill s4 = force_spill s3 /\ had_error s4 = had_error s3).
    { subst s4. destruct (negb (virtualChannel w)); cbn; repeat split. }
    destruct H4 as (Hs4 & Hd4 & Hf4 & He4). clearbody s4.
    intros Hrun. apply IH in Hrun.
    destruct Hrun as (Hs & Hd & Hf & He & _).
    repeat split; try congruence.
    + destruct He3 as [He3 | He3]; [|congruence].
      destruct He as [[He1 He2] | He]; [left | right; exact He].
      split; [exact He1 | congruence].
    + intros Ht. apply Hm3 in Ht. congruence.
Qed.

Lemma dump_corrupted_flags (mod_ : nat) (d nw : Z) (ps : parse_state)
    (s s' : Poll) :
  dump_corrupted cfg mod_ d nw ps s = Done s' ->
  setup s' = setup s /\ force_spill s' = force_spill s /\
  partialEvents s' = partialEvents s /\
  had_error s' = true /\ do_stop_acq s' = true.
Proof.
  unfold dump_corrupted.
  repeat match goal with
  | |- context [bind (load_block ?c ?p ?l ?st) _] =>
      destruct (load_block c p l st); cbn [bind]; try discriminate
  end.
  lazy beta iota zeta. intros [= <-]. repeat split.
Qed.

Ltac flag_step :=
  match goal with
  | |- context [bind (store cfg ?p ?v ?st) _] =>
      let E := fresh "E" in let s' := fresh "s" in
      destruct (store cfg p v st) as [s'| |] eqn:E; cbn [bind];
      try discriminate; apply store_eq in E; subst s'
  | |- context [bind (store_block cfg ?p ?l ?st) _] =>
      let E := fresh "E" in let s' := fresh "s" in
      destruct (store_block cfg p l st) as [s'| |] eqn:E; cbn [bind];
      try discriminate; apply store_block_flags in E;
      destruct E as (? & ? & ? & ? & ?)
  end.

Ltac flags_done :=
  unfold setup in *; cbn in *; repeat split; congruence.

(** What one pass of the loop over the modules does to the flags. *)
Lemma drain_module_flags (nWords : list Z) (mod_ : nat) (s : Poll) (d : Z)
    (r : step) :
  drain_module cfg hw nWords mod_ s d = Done r ->
  match r with
  | Next s' _ =>
      setup s' = setup s /\ force_spill s' = force_spill s /\
      had_error s' = had_error s /\ do_stop_acq s' = do_stop_acq s
  | Stop s' =>
      setup s' = setup s /\ force_spill s' = force_spill s /\
      had_error s' = true /\ do_stop_acq s' = true
  end.
Proof.
  unfold drain_module. set (nw := nth mod_ nWords 0).
  destruct (nw <? MIN_FIFO_READ cfg).
  { unfold empty_record. repeat flag_step. intros [= <-]. repeat split. }
  destruct (nw <? 0).
  { unfold empty_record. repeat flag_step. intros [= <-]. repeat split. }
  destruct (EXTERNAL_FIFO_LENGTH cfg <=? nw).
  { intros [= <-]. repeat split. }
  cbv zeta. flag_step. flag_step.
  destruct (negb (ReadFIFOWords_ok hw mod_)).
  { intros [= <-]. flags_done. }
  flag_step.
  match goal with
  | |- context [set_partial mod_ [] ?st] => set (sp := set_partial mod_ [] st)
  end.
  assert (Hsp : setup sp = setup s /\ force_spill sp = force_spill s /\
               had_error sp = had_error s /\ do_stop_acq sp = do_stop_acq s).
  { subst sp.
    match goal with
    | |- context [if ?b then _ else _] => destruct b
    end; flags_done. }
  clearbody sp. destruct Hsp as (A1 & A2 & A3 & A4).
  match goal with
  | |- context [bind (parse_loop ?f ?m ?sl ?dd ?n ?ps ?st) _] =>
      destruct (parse_loop f m sl dd n ps st) as [[ps' s3]| |] eqn:Ep;
      cbn [bind]; try discriminate
  end.
  apply parse_loop_flags in Ep. destruct Ep as (B1 & B2 & B3 & B4 & _).
  destruct (_ <? parseWords ps') eqn:Hover.
  - apply Z.ltb_lt in Hover.
    destruct B4 as [[_ B4] | [B4 _]]; [|lia].
    destruct (copy_partial _ _ _ _ _) as [frag| |]; cbn [bind]; try discriminate.
    flag_step. intros [= <-].
    destruct (debug_mode s3); flags_done.
  - apply Z.ltb_ge in Hover. destruct (parseWords ps' <? _) eqn:Hshort.
    + match goal with
      | |- context [bind (dump_corrupted cfg ?m ?dd ?n ?ps ?st) _] =>
          destruct (dump_corrupted cfg m dd n ps st) as [s4| |] eqn:Ed;
          cbn [bind]; try discriminate
      end.
      apply dump_corrupted_flags in Ed. destruct Ed as (C1 & C2 & _ & C3 & C4).
      intros [= <-]. flags_done.
    + apply Z.ltb_ge in Hshort.
      destruct B4 as [[_ B4] | [B4 _]]; [|lia].
      flag_step. intros [= <-]. flags_done.
Qed.


Lemma drain_modules_flags (nWords : list Z) (mods : list nat) (s : Poll)
    (d : Z) (r : step) :
  drain_modules cfg hw nWords mods s d = Done r ->
  match r with
  | Next s' _ =>
      setup s' = setup s /\ force_spill s' = force_spill s /\
      had_error s' = had_error s /\ do_stop_acq s' = do_stop_acq s
  | Stop s' =>
      setup s' = setup s /\ force_spill s' = force_spill s /\
      had_error s' = true /\ do_stop_acq s' = true
  end.
Proof.
  revert s d. induction mods as [|m rest IH]; intros s d.
  - intros [= <-]. repeat split.
  - cbn [drain_modules].
    destruct (drain_module cfg hw nWords m s d) as [[s1 d1|s1]| |] eqn:E;
      cbn [bind]; try discriminate; apply drain_module_flags in E.
    + intros H. apply IH in H. destruct r as [s' d'|s'];
        destruct E as (E1 & E2 & E3 & E4); destruct H as (H1 & H2 & H3 & H4);
        repeat split; congruence.
    + intros [= <-]. exact E.
Qed.

(** What the part of [ReadFIFO] before the two calls does to the flags. *)
Lemma drain_cycle_flags (s : Poll) (c : cycle) :
  drain_cycle cfg hw s = Done c ->
  match c with
  | NotRunning => acq_running s = false
  | BelowThreshold s' => s' = s /\ acq_running s = true
  | Aborted s' =>
      setup s' = setup s /\ force_spill s' = false /\
      had_error s' = true /\ do_stop_acq s' = true /\ acq_running s = true
  | Spill s' _ =>
      setup s' = setup s /\ force_spill s' = false /\
      had_error s' = had_error s /\ do_stop_acq s' = do_stop_acq s /\
      acq_running s = true
  end.
Proof.
  unfold drain_cycle. destruct (acq_running s) eqn:Hrun; cbn [negb].
  2:{ intros [= <-]. reflexivity. }
  destruct (poll_loop cfg hw (threshWords s) POLL_TRIES 0) as [[nWords mx]| |];
    cbn [bind]; try discriminate.
  destruct ((threshWords s <? mx) || force_spill s).
  - destruct (drain_modules cfg hw nWords _ _ 0) as [[s' d|s']| |] eqn:E;
      cbn [bind]; try discriminate; apply drain_modules_flags in E;
      intros [= <-]; destruct E as (E1 & E2 & E3 & E4);
      repeat split; try assumption.
  - intros [= <-]. split; reflexivity.
Qed.

End FlagFacts.

(** What [write_data] leaves alone. *)
Lemma write_data_keeps (cfg : Config) (nWords : Z) (s : Poll) :
  let s' := snd (write_data cfg nWords s) in
  acq_running s' = acq_running s /\ shm_mode s' = shm_mode s /\
  is_quiet s' = is_quiet s /\ debug_mode s' = debug_mode s /\
  threshWords s' = threshWords s /\ force_spill s' = force_spill s /\
  partialEvents s' = partialEvents s /\ fifoData s' = fifoData s.
Proof.
  unfold write_data, OpenOutputFile, CloseOutputFile, OutputFile.OpenNewFile,
    OutputFile.Write, OutputFile.CloseFile.
  repeat match goal with
         | |- context [if ?b then _ else _] => destruct b eqn:?; cbn in *
         end; repeat split; try congruence.
Qed.

Lemma broadcast_loop_no_file (fuel : nat) (data : Z -> Z) (nWords total c w : Z)
    (sent : list event) :
  broadcast_loop fuel data nWords total c w = Done sent ->
  Forall (fun e => file_event e = false) sent.
Proof.
  revert c w sent. induction fuel as [|fuel IH]; intros c w sent; [discriminate|].
  cbn [broadcast_loop].
  destruct (w <? nWords); [|intros [= <-]; constructor].
  destruct (maxShmSizeL <? to_word (nWords - w));
    destruct (broadcast_loop fuel data nWords total _ _) as [rest| |] eqn:E;
    cbn [bind]; try discriminate;
    intros [= <-]; constructor; try reflexivity; eapply IH; exact E.
Qed.

(** [broadcast_data] only adds to the log, and nothing that touches the
    file. *)
Lemma broadcast_data_only_sends (data : Z -> Z) (nWords : Z) (s s' : Poll) :
  broadcast_data data nWords s = Done s' ->
  exists l, s' = set_out (out s ++ l) s /\
            Forall (fun e => file_event e = false) l.
Proof.
  unfold broadcast_data. destruct (shm_mode s).
  - destruct (broadcast_loop _ data nWords _ 1 0) as [sent| |] eqn:E;
      cbn [bind]; try discriminate.
    apply broadcast_loop_no_file in E. intros [= <-].
    destruct (debug_mode s).
    + exists (Stdout (MsgSplitting nWords (num_net_chunks_of nWords)
                       (nWords mod maxShmSizeL)) :: sent).
      split; [|constructor; [reflexivity | exact E]].
      cbn. rewrite <- app_assoc. reflexivity.
    + exists sent. split; [reflexivity | exact E].
  - intros [= <-]. exists [FilePacket]. split; [reflexivity|].
    constructor; [reflexivity | constructor].
Qed.

(** The ways a call of [ReadFIFO] returns. *)
Lemma ReadFIFO_cases (cfg : Config) (hw : Hardware) (s s' : Poll) (b : bool) :
  ReadFIFO cfg hw s = Done (b, s') ->
  (drain_cycle cfg hw s = Done NotRunning /\ b = false /\ s' = s) \/
  (drain_cycle cfg hw s = Done (BelowThreshold s') /\ b = true) \/
  (drain_cycle cfg hw s = Done (Aborted s') /\ b = false) \/
  (exists s1 d,
     drain_cycle cfg hw s = Done (Spill s1 d) /\ b = true /\
     let s2 := if negb (is_quiet s1) || debug_mode s1
               then cout (MsgWritingBroadcasting d) s1 else s1 in
     let s3 := if record_data s2
               then snd (write_data cfg (to_word d) s2) else s2 in
     broadcast_data (fifoData s3) (to_word d) s3 = Done s').
Proof.
  unfold ReadFIFO.
  destruct (drain_cycle cfg hw s) as [[|s1|s1|s1 d]| |]; cbn [bind];
    try discriminate.
  - intros [= <- <-]. left. repeat split.
  - intros [= <- <-]. right. left. split; reflexivity.
  - intros [= <- <-]. right. right. left. split; reflexivity.
  - intros H. right. right. right. exists s1, d. split; [reflexivity|].
    cbv zeta.
    destruct (broadcast_data _ _ _) as [s4| |]; cbn [bind] in H;
      try discriminate.
    injection H as <- <-. split; reflexivity.
Qed.

Lemma extends_app (P : event -> Prop) (o l : list event) :
  Forall P l -> extends P o (o ++ l).
Proof. intros H. exists l. split; [reflexivity | exact H]. Qed.

Lemma silent_no_file (e : event) : silent_event e -> file_event e = false.
Proof. destruct e; cbn; intros H; try reflexivity; contradiction. Qed.

(** What a call of [ReadFIFO] leaves alone while data are not recorded. *)
Lemma ReadFIFO_unrecorded (cfg : Config) (hw : Hardware)
    (s s' : Poll) (b : bool) :
  record_data s = false ->
  ReadFIFO cfg hw s = Done (b, s') ->
  record_data s' = false /\ output_file s' = output_file s /\
  file_open s' = file_open s /\ next_run_num s' = next_run_num s /\
  extends (fun e => file_event e = false) (out s) (out s').
Proof.
  intros Hrec H. pose proof (drain_cycle_log cfg hw s) as Hlog.
  apply ReadFIFO_cases in H.
  destruct H as [(_ & _ & ->) | [(H & _) | [(H & _) | (s1 & d & H & _ & Hb)]]].
  - repeat split; try assumption. apply extends_refl.
  - apply drain_cycle_flags in H. destruct H as [-> _].
    repeat split; try assumption. apply extends_refl.
  - rewrite H in Hlog. apply drain_cycle_flags in H.
    destruct H as (Hs & _). unfold setup in Hs.
    injection Hs as _ _ _ _ _ H1 H2 H3 H4.
    repeat split; try congruence.
    eapply extends_weaken; [|exact Hlog].
    intros e He. apply silent_no_file. eapply drain_event_silent. exact He.
  - rewrite H in Hlog. apply drain_cycle_flags in H.
    destruct H as (Hs & _). unfold setup in Hs.
    injection Hs as _ _ _ _ _ H1 H2 H3 H4.
    cbv zeta in Hb.
    set (s2 := if negb (is_quiet s1) || debug_mode s1 then _ else s1) in Hb.
    assert (H2' : record_data s2 = false /\ output_file s2 = output_file s /\
                  file_open s2 = file_open s /\
                  next_run_num s2 = next_run_num s /\
                  extends (fun e => file_event e = false) (out s) (out s2)).
    { assert (Hl : extends (fun e => file_event e = false) (out s) (out s1)).
      { eapply extends_weaken; [|exact Hlog].
        intros e He. apply silent_no_file. eapply drain_event_silent. exact He. }
      subst s2. destruct (negb (is_quiet s1) || debug_mode s1); cbn;
        repeat split; try congruence.
      apply extends_step; [exact Hl | reflexivity]. }
    clearbody s2. destruct H2' as (R1 & R2 & R3 & R4 & R5).
    rewrite R1 in Hb.
    apply broadcast_data_only_sends in Hb. destruct Hb as (l & -> & Hl).
    cbn. repeat split; try assumption.
    eapply extends_trans; [exact R5 | apply extends_app; exact Hl].
Qed.

(** X6. While data are not recorded, a call of [ReadFIFO] never touches
    the output file: no [Write], no [CloseFile], no [OpenNewFile], and the
    members that describe the file are as before. *)
Theorem ReadFIFO_without_recording (cfg : Config) (hw : Hardware)
    (s s' : Poll) (b : bool) :
  record_data s = false ->
  ReadFIFO cfg hw s = Done (b, s') ->
  record_data s' = false /\ output_file s' = output_file s /\
  file_open s' = file_open s /\ next_run_num s' = next_run_num s /\
  extends (fun e => file_event e = false) (out s) (out s').
Proof.
  intros Hrec H. exact (ReadFIFO_unrecorded cfg hw s s' b Hrec H).
Qed.

Lemma ReadFIFO_without_recording_witness :
  let s := acquiring 0 in
  let s' := state_after (ReadFIFO crate first_fifo s) s in
  record_data s' = false /\ output_file s' = output_file s /\
  file_open s' = file_open s /\ next_run_num s' = next_run_num s /\
  extends (fun e => file_event e = false) (out s) (out s').
Proof.
  apply (ReadFIFO_without_recording crate first_fifo (acquiring 0) _ true).
  - reflexivity.
  - vm_compute. reflexivity.
Defined.

(** X7. Whenever [ReadFIFO] returns [false] while the acquisition runs
    (full FIFO, failed read, data that do not parse), [had_error] and
    [do_stop_acq] are set, a forced spill is no longer pending, and nothing
    was written to the file or sent to the socket; it returns [false]
    without any effect when the acquisition does not run. *)
Theorem ReadFIFO_false_is_fatal (cfg : Config) (hw : Hardware) (s s' : Poll) :
  ReadFIFO cfg hw s = Done (false, s') ->
  (acq_running s = false /\ s' = s) \/
  (acq_running s = true /\ had_error s' = true /\ do_stop_acq s' = true /\
   force_spill s' = false /\ record_data s' = record_data s /\
   output_file s' = output_file s /\
   extends silent_event (out s) (out s')).
Proof.
  intros H. pose proof (drain_cycle_log cfg hw s) as Hlog.
  apply ReadFIFO_cases in H.
  destruct H as [(H & _ & ->) | [(_ & H) | [(H & _) | (s1 & d & _ & H & _)]]];
    try discriminate.
  - left. apply drain_cycle_flags in H. split; [exact H | reflexivity].
  - right. rewrite H in Hlog. apply drain_cycle_flags in H.
    destruct H as (Hs & Hf & He & Hd & Hr). unfold setup in Hs.
    injection Hs as _ _ _ _ _ H1 _ _ H4.
    repeat split; try assumption.
    eapply extends_weaken; [|exact Hlog].
    intros e. apply drain_event_silent.
Qed.

Lemma ReadFIFO_false_is_fatal_witness :
  let s := acquiring 0 in
  let s' := state_after (ReadFIFO crate misdirected_fifo s) s in
  (acq_running s = false /\ s' = s) \/
  (acq_running s = true /\ had_error s' = true /\ do_stop_acq s' = true /\
   force_spill s' = false /\ record_data s' = record_data s /\
   output_file s' = output_file s /\
   extends silent_event (out s) (out s')).
Proof.
  apply (ReadFIFO_false_is_fatal crate misdirected_fifo (acquiring 0)).
  vm_compute. reflexivity.
Defined.

Section StaleError.
Variables (cfg : Config) (hw : Hardware) (nWords : list Z).
Hypothesis fifo_fits_word : EXTERNAL_FIFO_LENGTH cfg + 16384 <= 2 ^ 32.
Hypothesis counts_are_words : forall m, 0 <= nth m nWords 0 < 2 ^ 32.

(** With [had_error] set on entry, a module that has data never gets to
    the end of its pass: the parser stops at its first word. *)
Lemma stale_error_module (mod_ : nat) (s : Poll) (d : Z) :
  partial_ok s mod_ ->
  had_error s = true ->
  MIN_FIFO_READ cfg <= nth mod_ nWords 0 -> 0 < nth mod_ nWords 0 ->
  match drain_module cfg hw nWords mod_ s d with
  | Done (Next _ _) => False
  | _ => True
  end.
Proof.
  intros Hp Herr Hmin Hpos. unfold drain_module.
  set (nw := nth mod_ nWords 0) in *.
  replace (nw <? MIN_FIFO_READ cfg) with false
    by (symmetry; apply Z.ltb_ge; exact Hmin).
  replace (nw <? 0) with false by (symmetry; apply Z.ltb_ge; lia).
  destruct (EXTERNAL_FIFO_LENGTH cfg <=? nw) eqn:Hfull; [exact I|].
  apply Z.leb_gt in Hfull. cbv zeta.
  destruct (store cfg (d + 1) _ s) as [s1| |] eqn:E1; cbn [bind]; try exact I.
  apply store_eq in E1. subst s1. cbn [partialEvents set_fifoData].
  set (partial := partialEvents s mod_) in *.
  set (np := Z.of_nat (List.length partial)) in *.
  assert (Hnp : 0 <= np <= 16382)
    by (unfold partial_ok in Hp; subst np partial; lia).
  destruct (store_block cfg _ partial _) as [s0| |] eqn:E2; cbn [bind];
    try exact I.
  apply store_block_flags in E2. destruct E2 as (_ & E2 & _).
  cbn [had_error set_fifoData] in E2.
  destruct (negb (ReadFIFOWords_ok hw mod_)); [exact I|].
  destruct (store_block cfg _ _ s0) as [s1| |] eqn:E3; cbn [bind];
    try exact I.
  apply store_block_flags in E3. destruct E3 as (_ & E3 & _).
  rewrite (to_word_small (nw + np)) by lia.
  match goal with
  | |- context [set_partial mod_ [] ?st] => set (sp := set_partial mod_ [] st)
  end.
  assert (Hsp : had_error sp = true).
  { subst sp. destruct (negb (is_quiet s1) || debug_mode s1); cbn; congruence. }
  clearbody sp.
  destruct (parse_loop _ mod_ _ (d + 1 + 1) (nw + np) _ sp)
    as [[ps' s3]| |] eqn:Ep; cbn [bind]; try exact I.
  apply parse_loop_flags in Ep. destruct Ep as (_ & _ & _ & _ & Ep).
  cbn [parseWords] in Ep. specialize (Ep Hsp ltac:(lia)).
  rewrite Ep.
  replace (d + 1 + 1 + (nw + np) <? d + 1 + 1) with false
    by (symmetry; apply Z.ltb_ge; lia).
  replace (d + 1 + 1 <? d + 1 + 1 + (nw + np)) with true
    by (symmetry; apply Z.ltb_lt; lia).
  destruct (dump_corrupted cfg mod_ _ _ ps' s3); cbn [bind]; exact I.
Qed.

Lemma stale_error_modules (mods : list nat) (mod_ : nat) (s : Poll) (d : Z) :
  0 <= d ->
  (forall m, partial_ok s m) ->
  had_error s = true ->
  In mod_ mods ->
  MIN_FIFO_READ cfg <= nth mod_ nWords 0 -> 0 < nth mod_ nWords 0 ->
  match drain_modules cfg hw nWords mods s d with
  | Done (Next _ _) => False
  | _ => True
  end.
Proof.
  intros Hd Hp Herr Hin Hmin Hpos. revert s d Hd Hp Herr.
  induction mods as [|m rest IH]; intros s d Hd Hp Herr; [destruct Hin|].
  cbn [drain_modules].
  pose proof (drain_module_spec cfg hw nWords fifo_fits_word m s d Hd
                (counts_are_words m) (Hp m)) as Hspec.
  pose proof (stale_error_module m s d (Hp m) Herr) as Hstale.
  destruct (drain_module cfg hw nWords m s d) as [[s1 d1|s1]| |] eqn:E;
    cbn [bind]; try exact I.
  destruct (Nat.eq_dec m mod_) as [-> | Hne].
  { exfalso. apply Hstale; assumption. }
  destruct Hin as [Hin | Hin]; [contradiction|].
  apply drain_module_flags in E. destruct E as (_ & _ & E & _).
  destruct Hspec as [(Hb & _ & _ & _ & _ & Ho & Hok & _) _].
  apply IH; try assumption; try lia; try congruence.
  intros k. destruct (Nat.eq_dec k m) as [-> | Hk]; [exact Hok|].
  unfold partial_ok. rewrite (Ho k Hk). apply Hp.
Qed.

End StaleError.

(** X8. An error flag left over from before is fatal to the next spill:
    when [ReadFIFO] is entered with [had_error] set and a module has data to
    read, the parser stops at the first event whatever the data are, and the
    module is handed to the diagnostic for corrupted data.  So the call
    never returns [true]: either it returns [false] with [had_error] and
    [do_stop_acq] set, or the diagnostic leaves the [fifoData] array
    ([Undefined]). *)
Theorem ReadFIFO_stale_error (cfg : Config) (hw : Hardware) (s : Poll)
    (m : nat) :
  EXTERNAL_FIFO_LENGTH cfg + 16384 <= 2 ^ 32 ->
  (forall k, partial_ok s k) ->
  acq_running s = true -> had_error s = true ->
  gate_open cfg hw s = true ->
  (m < n_cards cfg)%nat ->
  MIN_FIFO_READ cfg <= nth m (cycle_counts cfg hw s) 0 ->
  0 < nth m (cycle_counts cfg hw s) 0 ->
  match ReadFIFO cfg hw s with
  | Done (b, s') => b = false /\ had_error s' = true /\ do_stop_acq s' = true
  | Undefined => True
  | OutOfFuel => False
  end.
Proof.
  intros Hfit Hp Hrun Herr Hgate Hm Hmin Hpos.
  pose proof (fun k => cycle_counts_range cfg hw s k) as Hrange.
  pose proof (ReadFIFO_fuel cfg hw s Hfit Hp) as Hfuel.
  assert (Hcyc : match drain_cycle cfg hw s with
                 | Done (Spill _ _) | Done (BelowThreshold _)
                 | Done NotRunning => False
                 | _ => True
                 end).
  { unfold drain_cycle, gate_open, cycle_counts in *. rewrite Hrun. cbn [negb].
    destruct (poll_loop cfg hw (threshWords s) POLL_TRIES 0) as [[nWords mx]| |];
      cbn [bind]; try exact I.
    rewrite Hgate.
    pose proof (stale_error_modules cfg hw nWords Hfit Hrange
                  (seq 0 (n_cards cfg)) m (set_force_spill false s) 0
                  ltac:(lia) Hp Herr) as Hst.
    destruct (drain_modules cfg hw nWords _ _ 0) as [[s1 d1|s1]| |];
      cbn [bind]; try exact I.
    apply Hst; try assumption. apply in_seq. lia. }
  destruct (ReadFIFO cfg hw s) as [[b s']| |] eqn:H;
    [|exact I|now apply Hfuel].
  apply ReadFIFO_cases in H.
  destruct H as [(H & _) | [(H & _) | [(H & Hb) | (s1 & d & H & _)]]];
    rewrite H in Hcyc; try contradiction.
  apply drain_cycle_flags in H. destruct H as (_ & _ & He & Hd & _).
  repeat split; assumption.
Qed.

Lemma ReadFIFO_stale_error_witness :
  let s := set_had_error true (acquiring 0) in
  match ReadFIFO crate first_fifo s with
  | Done (b, s') => b = false /\ had_error s' = true /\ do_stop_acq s' = true
  | Undefined => True
  | OutOfFuel => False
  end.
Proof.
  apply (ReadFIFO_stale_error crate first_fifo
           (set_had_error true (acquiring 0)) 0%nat).
  - vm_compute. discriminate.
  - intros k. vm_compute. discriminate.
  - reflexivity.
  - reflexivity.
  - reflexivity.
  - vm_compute. lia.
  - vm_compute. discriminate.
  - reflexivity.
Defined.

(** Both outcomes occur.  With [first_fifo] the diagnostic stays inside the
    array and the call returns [false]; with the first ten words of a valid
    event of 100 words it computes, in [size_t], the negative number of
    words between the end of that event and the end of the data, and leaves
    the array. *)
Example stale_error_outcomes :
  (exists s',
     ReadFIFO crate first_fifo (set_had_error true (acquiring 0)) =
       Done (false, s') /\ do_stop_acq s' = true) /\
  ReadFIFO crate long_start_fifo (set_had_error true (acquiring 0)) =
    Undefined.
Proof.
  split; [|vm_compute; reflexivity].
  eexists. split; [vm_compute; reflexivity | reflexivity].
Qed.

Section Threshold.
Variables (cfg : Config) (hw : Hardware).

Lemma fold_max_bound (l : list Z) (x b : Z) :
  x <= b -> Forall (fun y => y <= b) l -> fold_left Z.max l x <= b.
Proof.
  revert x. induction l as [|y l IH]; intros x Hx Hl; [exact Hx|].
  inversion Hl; subst. cbn [fold_left]. apply IH; [lia | assumption].
Qed.

Lemma poll_loop_quiet (thresh : Z) (tries t : nat) :
  (0 < n_cards cfg)%nat -> (0 < tries)%nat ->
  (forall t' m, (t <= t' < t + tries)%nat -> (m < n_cards cfg)%nat ->
     to_word (CheckFIFOWords hw t' m) <= thresh) ->
  exists nWords mx,
    poll_loop cfg hw thresh tries t = Done (nWords, mx) /\ mx <= thresh.
Proof.
  intros Hn. revert t. induction tries as [|k IH]; intros t Ht Hq; [lia|].
  cbn [poll_loop].
  assert (Hmax : exists mx, max_element (poll_once cfg hw t) = Done mx /\
                            mx <= thresh).
  { unfold poll_once. destruct (n_cards cfg) as [|n] eqn:En; [lia|].
    cbn [seq map max_element]. eexists. split; [reflexivity|].
    apply fold_max_bound.
    - apply Hq; lia.
    - apply Forall_forall. intros y Hy. apply in_map_iff in Hy.
      destruct Hy as (m & <- & Hm). apply in_seq in Hm. apply Hq; lia. }
  destruct Hmax as (mx & -> & Hmx). cbn [bind].
  replace (thresh <? mx) with false by (symmetry; apply Z.ltb_ge; exact Hmx).
  destruct k as [|k'].
  - eexists _, mx. split; [reflexivity | exact Hmx].
  - apply IH; [lia|]. intros t' m Ht' Hm. apply Hq; lia.
Qed.

End Threshold.

(** X9. While no module reports more than [threshWords] words in any of
    the [POLL_TRIES] polling rounds and no spill is forced, [ReadFIFO] reads
    nothing: it returns [true] and leaves every member as it was. *)
Theorem ReadFIFO_below_threshold (cfg : Config) (hw : Hardware) (s : Poll) :
  acq_running s = true -> force_spill s = false ->
  (0 < n_cards cfg)%nat ->
  (forall t m, (t < POLL_TRIES)%nat -> (m < n_cards cfg)%nat ->
     to_word (CheckFIFOWords hw t m) <= threshWords s) ->
  ReadFIFO cfg hw s = Done (true, s).
Proof.
  intros Hrun Hforce Hn Hq.
  destruct (poll_loop_quiet cfg hw (threshWords s) POLL_TRIES 0 Hn)
    as (nWords & mx & Hp & Hmx).
  { unfold POLL_TRIES. lia. }
  { intros t m Ht Hm. apply Hq; [lia | exact Hm]. }
  unfold ReadFIFO, drain_cycle. rewrite Hrun, Hp. cbn [negb bind].
  rewrite Hforce.
  replace (threshWords s <? mx) with false
    by (symmetry; apply Z.ltb_ge; exact Hmx).
  reflexivity.
Qed.

Lemma ReadFIFO_below_threshold_witness :
  ReadFIFO crate first_fifo (acquiring 50) = Done (true, acquiring 50).
Proof.
  apply (ReadFIFO_below_threshold crate first_fifo (acquiring 50)).
  - reflexivity.
  - reflexivity.
  - cbn. lia.
  - intros t m _ Hm. cbn in Hm.
    destruct m as [|[|m]]; [vm_compute; discriminate .. | lia].
Defined.

(** X10. A forced spill is always taken: when [ReadFIFO] is entered with
    [force_spill] set during acquisition, the modules are read whatever
    their counts are, the flag is cleared, and a call that returns [true]
    has emitted a spill. *)
Theorem ReadFIFO_forced_spill (cfg : Config) (hw : Hardware) (s s' : Poll)
    (b : bool) :
  acq_running s = true -> force_spill s = true ->
  ReadFIFO cfg hw s = Done (b, s') ->
  gate_open cfg hw s = true /\ force_spill s' = false /\
  (b = true -> exists spill, spill_of cfg hw s = Some spill).
Proof.
  intros Hrun Hforce H.
  assert (Hgate : gate_open cfg hw s = true).
  { unfold gate_open. unfold ReadFIFO, drain_cycle in H.
    rewrite Hrun in H. cbn [negb] in H.
    destruct (poll_loop cfg hw (threshWords s) POLL_TRIES 0) as [[nWords mx]| |];
      cbn [bind] in H; try discriminate.
    rewrite Hforce. apply orb_true_r. }
  split; [exact Hgate|].
  assert (Hnot : forall s1, drain_cycle cfg hw s <> Done (BelowThreshold s1)).
  { intros s1 E. unfold gate_open in Hgate. unfold drain_cycle in E.
    rewrite Hrun in E. cbn [negb] in E.
    destruct (poll_loop cfg hw (threshWords s) POLL_TRIES 0) as [[nWords mx]| |];
      cbn [bind] in E; try discriminate.
    rewrite Hgate in E.
    destruct (drain_modules cfg hw nWords _ _ 0) as [[? ?|?]| |];
      cbn [bind] in E; discriminate. }
  apply ReadFIFO_cases in H.
  destruct H as [(H & _) | [(H & _) | [(H & Hb) | (s1 & d & H & Hb & Hs)]]].
  - apply drain_cycle_flags in H. congruence.
  - exfalso. exact (Hnot _ H).
  - apply drain_cycle_flags in H. destruct H as (_ & Hf & _).
    split; [exact Hf | intros; congruence].
  - split.
    + apply drain_cycle_flags in H. destruct H as (_ & Hf & _).
      cbv zeta in Hs.
      set (s2 := if negb (is_quiet s1) || debug_mode s1 then _ else s1) in Hs.
      assert (H2 : force_spill s2 = false)
        by (subst s2; destruct (negb (is_quiet s1) || debug_mode s1); exact Hf).
      clearbody s2.
      set (s3 := if record_data s2 then _ else s2) in Hs.
      assert (H3 : force_spill s3 = false).
      { subst s3. destruct (record_data s2); [|exact H2].
        destruct (write_data_keeps cfg (to_word d) s2)
          as (_ & _ & _ & _ & _ & Hk & _). congruence. }
      clearbody s3.
      apply broadcast_data_only_sends in Hs. destruct Hs as (l & -> & _).
      exact H3.
    + intros _. unfold spill_of. rewrite H. eauto.
Qed.

Lemma ReadFIFO_forced_spill_witness :
  let s := set_force_spill true (acquiring 50) in
  let s' := state_after (ReadFIFO crate first_fifo s) s in
  gate_open crate first_fifo s = true /\ force_spill s' = false /\
  (true = true -> exists spill, spill_of crate first_fifo s = Some spill).
Proof.
  apply (ReadFIFO_forced_spill crate first_fifo
           (set_force_spill true (acquiring 50))).
  - reflexivity.
  - reflexivity.
  - vm_compute. reflexivity.
Defined.

(* ===================================================================== *)
(** ** Whole events *)

Lemma skipn_block (buf : Z -> Z) (pos len k : Z) :
  0 <= k <= len ->
  skipn (Z.to_nat k) (block buf pos len) = block buf (pos + k) (len - k).
Proof.
  intros Hk. replace len with (k + (len - k)) at 1 by lia.
  rewrite block_app by lia.
  rewrite skipn_app, skipn_all2 by (rewrite block_length; lia).
  rewrite block_length, Nat.sub_diag. reflexivity.
Qed.

Lemma whole_events_step (F : nat) (slot : Z) (buf : Z -> Z) (pos len : Z) :
  0 < len ->
  whole_events (S F) slot (block buf pos len) =
    (slotRead (buf pos) =? slot) && negb (eventSizeRead (buf pos) =? 0)
    && (eventSizeRead (buf pos) <=? len)
    && whole_events F slot
         (block buf (pos + eventSizeRead (buf pos))
                    (len - eventSizeRead (buf pos))).
Proof.
  intros Hlen. pose proof (eventSizeRead_range (buf pos)) as Hsz.
  destruct (eventSizeRead (buf pos) <=? len) eqn:Hle.
  - apply Z.leb_le in Hle.
    rewrite <- (skipn_block buf pos len (eventSizeRead (buf pos))) by lia.
    pose proof (block_length buf pos len) as Hl.
    rewrite (block_cons buf pos len Hlen) in *.
    cbn [whole_events]. rewrite Hl.
    replace (eventSizeRead (buf pos) <=? Z.of_nat (Z.to_nat len)) with true
      by (symmetry; apply Z.leb_le; lia).
    reflexivity.
  - apply Z.leb_gt in Hle.
    pose proof (block_length buf pos len) as Hl.
    rewrite (block_cons buf pos len Hlen) in *.
    cbn [whole_events]. rewrite Hl.
    replace (eventSizeRead (buf pos) <=? Z.of_nat (Z.to_nat len)) with false
      by (symmetry; apply Z.leb_gt; lia).
    rewrite !andb_false_r. reflexivity.
Qed.

Section EventFacts.
Variables (mod_ : nat) (slot d n : Z).

(** The words that the parsing loop has passed are whole events. *)
Lemma parse_loop_events (fuel : nat) (ps ps' : parse_state) (s s' : Poll) :
  parse_loop fuel mod_ slot d n ps s = Done (ps', s') ->
  parseWords ps <= d + n -> d + n <= parseWords ps' ->
  let e := if d + n <? parseWords ps'
           then parseWords ps' - eventSize ps' else parseWords ps' in
  parseWords ps <= e <= d + n /\
  forall F, e - parseWords ps <= Z.of_nat F ->
    whole_events F slot (block (fifoData s) (parseWords ps) (e - parseWords ps))
    = true.
Proof.
  revert ps s. induction fuel as [|fuel IH]; intros ps s; [discriminate|].
  cbn [parse_loop]. destruct (parseWords ps <? d + n) eqn:Hlt.
  2:{ apply Z.ltb_ge in Hlt. intros [= <- <-] Hle _. cbv zeta.
      replace (d + n <? parseWords ps) with false
        by (symmetry; apply Z.ltb_ge; lia).
      split; [lia|]. intros F _. rewrite block_nil by lia. destruct F; reflexivity. }
  apply Z.ltb_lt in Hlt.
  rewrite channel_check_dead. cbv zeta.
  set (w := fifoData s (parseWords ps)).
  pose proof (eventSizeRead_range w) as Hsz.
  set (s3 := if eventSizeRead w =? 0 then _ else _).
  assert (H3 : fifoData s3 = fifoData s /\
               (had_error s3 = false ->
                slotRead w = slot /\ eventSizeRead w <> 0)).
  { subst s3. destruct (eventSizeRead w =? 0) eqn:Hz;
      destruct (negb (slotRead w =? slot)) eqn:Hs; cbn;
      (split; [reflexivity|]); try discriminate.
    intros _. apply negb_false_iff, Z.eqb_eq in Hs. apply Z.eqb_neq in Hz.
    split; assumption. }
  destruct H3 as (Hf3 & Hok). clearbody s3.
  destruct (had_error s3) eqn:Herr.
  { intros [= <- <-] _ Hge. cbn [parseWords] in Hge. lia. }
  destruct (Hok eq_refl) as [Hslot Hnz]. clear Hok.
  set (s4 := if negb (virtualChannel w) then _ else s3).
  assert (Hf4 : fifoData s4 = fifoData s).
  { subst s4. destruct (negb (virtualChannel w)); cbn; exact Hf3. }
  clearbody s4.
  set (sz := eventSizeRead w) in *.
  intros Hrun _ Hge.
  destruct (Z.le_gt_cases (parseWords ps + sz) (d + n)) as [Hin | Hout].
  - destruct (IH _ s4 Hrun Hin Hge) as [Hrange Hrest].
    cbn [parseWords] in Hrange, Hrest. cbv zeta. split; [lia|].
    set (e := if d + n <? parseWords ps' then _ else _) in *.
    intros F HF. destruct F as [|F]; [lia|].
    rewrite whole_events_step by lia. fold w. fold sz.
    rewrite Hf4 in Hrest.
    replace (e - parseWords ps - sz) with (e - (parseWords ps + sz)) by lia.
    rewrite Hrest by lia.
    replace (slotRead w =? slot) with true by (symmetry; apply Z.eqb_eq; exact Hslot).
    replace (sz =? 0) with false by (symmetry; apply Z.eqb_neq; exact Hnz).
    replace (sz <=? e - parseWords ps) with true
      by (symmetry; apply Z.leb_le; lia).
    reflexivity.
  - destruct fuel as [|fuel']; [discriminate|]. cbn [parse_loop] in Hrun.
    cbn [parseWords] in Hrun.
    replace (parseWords ps + sz <? d + n) with false in Hrun
      by (symmetry; apply Z.ltb_ge; lia).
    injection Hrun as <- <-. cbn [parseWords eventSize]. cbv zeta.
    replace (d + n <? parseWords ps + sz) with true
      by (symmetry; apply Z.ltb_lt; lia).
    split; [lia|]. intros F _. rewrite block_nil by lia. destruct F; reflexivity.
Qed.

End EventFacts.

Section PayloadFacts.
Variables (cfg : Config) (hw : Hardware) (nWords : list Z).
Hypothesis fifo_fits_word : EXTERNAL_FIFO_LENGTH cfg + 16384 <= 2 ^ 32.
Hypothesis counts_are_words : forall m, 0 <= nth m nWords 0 < 2 ^ 32.

(** The payload that a pass of the loop over the modules leaves in the
    buffer is a run of whole events from the slot of the module. *)
Lemma drain_module_events (mod_ : nat) (s : Poll) (d : Z) :
  0 <= d ->
  partial_ok s mod_ ->
  match drain_module cfg hw nWords mod_ s d with
  | Done (Next s' d') =>
      forall F, d' - d - 2 <= Z.of_nat F ->
        whole_events F (to_word (GetSlotNumber cfg mod_))
          (block (fifoData s') (d + 2) (d' - d - 2)) = true
  | _ => True
  end.
Proof.
  intros Hd Hp. pose proof (counts_are_words mod_) as Hnw.
  unfold drain_module. set (nw := nth mod_ nWords 0) in *.
  destruct (nw <? MIN_FIFO_READ cfg) eqn:Hmin.
  { unfold empty_record.
    destruct (store cfg d 2 s) as [s1| |]; cbn [bind]; try exact I.
    destruct (store cfg (d + 1) _ s1) as [s2| |]; cbn [bind]; try exact I.
    intros F _. rewrite block_nil by lia. destruct F; reflexivity. }
  apply Z.ltb_ge in Hmin.
  replace (nw <? 0) with false by (symmetry; apply Z.ltb_ge; lia).
  destruct (EXTERNAL_FIFO_LENGTH cfg <=? nw) eqn:Hfull; [exact I|].
  apply Z.leb_gt in Hfull. cbv zeta.
  destruct (store cfg (d + 1) _ s) as [s1| |] eqn:E1; cbn [bind]; try exact I.
  pose proof (store_spec cfg (d + 1) (Z.of_nat mod_) s) as H1.
  rewrite E1 in H1. destruct H1 as [-> H1]. clear E1.
  cbn [partialEvents set_fifoData].
  set (partial := partialEvents s mod_) in *.
  set (np := Z.of_nat (List.length partial)) in *.
  replace (d + 1 + 1) with (d + 2) by lia.
  assert (Hnp : 0 <= np <= 16382)
    by (unfold partial_ok in Hp; subst np partial; lia).
  destruct (store_block cfg (d + 2) partial _) as [s0| |]; cbn [bind];
    try exact I.
  destruct (negb (ReadFIFOWords_ok hw mod_)); [exact I|].
  destruct (store_block cfg (d + 2 + np) _ s0) as [s1| |]; cbn [bind];
    try exact I.
  match goal with
  | |- context [set_partial mod_ [] ?st] => set (sp := set_partial mod_ [] st)
  end.
  clearbody sp.
  rewrite (to_word_small (nw + np)) by lia.
  set (tot := nw + np) in *.
  destruct (parse_loop_spec mod_ (to_word (GetSlotNumber cfg mod_)) (d + 2) tot
              (S (Z.to_nat tot))
              {| parseWords := d + 2; eventSize := 0; prevEventSize := 0 |} sp)
    as (ps & s2 & Hrun & Hf2 & _ & _ & _ & Hps & Hq).
  { cbn [parseWords]. lia. }
  { cbn [parseWords]. lia. }
  { unfold parsed_to. cbn [parseWords]. intros. left. lia. }
  rewrite Hrun. cbn [bind].
  replace (d + 2 - 2) with d by lia.
  destruct (d + 2 + tot <? parseWords ps) eqn:Hover.
  - apply Z.ltb_lt in Hover.
    destruct (Hq ltac:(lia)) as [Heq | [Hes Hstart]]; [lia|].
    destruct (parse_loop_events mod_ _ (d + 2) tot _ _ _ _ _ Hrun)
      as [_ Hev]; [cbn [parseWords]; lia | lia |].
    cbn [parseWords] in Hev.
    replace (d + 2 + tot <? parseWords ps) with true in Hev
      by (symmetry; apply Z.ltb_lt; lia).
    set (s2' := if debug_mode s2 then _ else s2).
    assert (Hf2' : fifoData s2' = fifoData s2)
      by (subst s2'; destruct (debug_mode s2); reflexivity).
    clearbody s2'.
    rewrite (to_word_small (parseWords ps - (d + 2) - tot)) by lia.
    rewrite (to_word_small (eventSize ps - _)) by lia.
    set (psize := eventSize ps - (parseWords ps - (d + 2) - tot)) in *.
    rewrite (to_word_small (tot - psize)) by lia.
    rewrite (to_word_small (tot - psize + 2)) by lia.
    rewrite copy_partial_spec by lia. cbn [bind].
    destruct (store cfg d _ _) as [s3| |] eqn:E4; cbn [bind]; try exact I.
    pose proof (store_spec cfg d (tot - psize + 2)
                  (set_partial mod_
                     (partialEvents s2' mod_
                      ++ block (fifoData s2') (parseWords ps - eventSize ps + 0)
                           (psize - 0)) s2')) as H4.
    rewrite E4 in H4. destruct H4 as [-> _].
    cbn [fifoData set_fifoData set_partial set_partialEvents].
    intros F HF.
    replace (d + 2 + (tot - psize) - d - 2)
      with (parseWords ps - eventSize ps - (d + 2)) in * by lia.
    rewrite <- (Hev F HF). apply f_equal. apply block_ext.
    intros j Hj. rewrite upd_other by lia. congruence.
  - apply Z.ltb_ge in Hover.
    destruct (parseWords ps <? d + 2 + tot) eqn:Hshort.
    + destruct (dump_corrupted cfg mod_ _ _ ps s2); cbn [bind]; exact I.
    + apply Z.ltb_ge in Hshort.
      destruct (parse_loop_events mod_ _ (d + 2) tot _ _ _ _ _ Hrun)
        as [_ Hev]; [cbn [parseWords]; lia | lia |].
      cbn [parseWords] in Hev.
      replace (d + 2 + tot <? parseWords ps) with false in Hev
        by (symmetry; apply Z.ltb_ge; lia).
      rewrite (to_word_small (tot + 2)) by lia.
      destruct (store cfg d _ s2) as [s3| |] eqn:E4; cbn [bind]; try exact I.
      pose proof (store_spec cfg d (tot + 2) s2) as H4.
      rewrite E4 in H4. destruct H4 as [-> _].
      cbn [fifoData set_fifoData].
      intros F HF.
      replace (d + 2 + tot - d - 2) with (parseWords ps - (d + 2)) in * by lia.
      rewrite <- (Hev F HF). apply f_equal. apply block_ext.
      intros j Hj. rewrite upd_other by lia. congruence.
Qed.


(** The same for the loop over the modules: the buffer is a sequence of
    sections whose payloads are runs of whole events. *)
Lemma drain_modules_events (mods : list nat) (s : Poll) (d : Z) :
  NoDup mods ->
  0 <= d ->
  (forall m, partial_ok s m) ->
  match drain_modules cfg hw nWords mods s d with
  | Done (Next s' d') =>
      d <= d' /\
      (forall j, j < d -> fifoData s' j = fifoData s j) /\
      exists pay : nat -> list Z,
        block (fifoData s') d (d' - d) =
          List.concat (map (fun m => section_words m (pay m)) mods) /\
        forall m, In m mods ->
          whole_events (List.length (pay m))
            (to_word (GetSlotNumber cfg m)) (pay m) = true
  | _ => True
  end.
Proof.
  revert s d. induction mods as [|m rest IH]; intros s d Hnd Hd Hp.
  - cbn [drain_modules]. split; [lia|]. split; [reflexivity|].
    exists (fun _ => []). split; [|intros m []].
    rewrite Z.sub_diag. reflexivity.
  - cbn [drain_modules].
    inversion Hnd as [|? ? Hnotin Hnd']; subst.
    pose proof (drain_module_spec cfg hw nWords fifo_fits_word m s d Hd
                  (counts_are_words m) (Hp m)) as Hm.
    pose proof (drain_module_events m s d Hd (Hp m)) as Hev.
    destruct (drain_module cfg hw nWords m s d) as [[s1 d1|s1]| |];
      cbn [bind]; try exact I.
    destruct Hm as ((Hd1 & Hfr1 & Hh0 & Hh1 & _ & Hoth1 & Hok1 & _) & _).
    assert (Hp1 : forall m', partial_ok s1 m').
    { intros m'. destruct (Nat.eq_dec m' m) as [->|Hne]; [exact Hok1|].
      unfold partial_ok. rewrite Hoth1 by exact Hne. apply Hp. }
    specialize (IH s1 d1 Hnd' ltac:(lia) Hp1).
    destruct (drain_modules cfg hw nWords rest s1 d1) as [[s' d'|s']| |];
      try exact I.
    destruct IH as (Hd' & Hfr & (pay & Hblk & Hpay)).
    split; [lia|]. split.
    { intros j Hj. rewrite Hfr by lia. now apply Hfr1. }
    set (p := block (fifoData s1) (d + 2) (d1 - d - 2)) in *.
    exists (fun x => if Nat.eqb x m then p else pay x). split.
    + cbn [map List.concat]. rewrite Nat.eqb_refl.
      replace (d' - d) with ((d1 - d) + (d' - d1)) by lia.
      rewrite block_app by lia. f_equal.
      * transitivity (block (fifoData s1) d (d1 - d)).
        { apply block_ext. intros j Hj. apply Hfr. lia. }
        rewrite (block_cons _ d) by lia.
        rewrite (block_cons _ (d + 1)) by lia.
        unfold section_words. subst p. rewrite block_length.
        rewrite Hh0, Hh1. f_equal; [lia|]. f_equal.
        f_equal; lia.
      * replace (d + (d1 - d)) with d1 by lia. rewrite Hblk.
        f_equal. apply map_ext_in. intros x Hx.
        replace (Nat.eqb x m) with false; [reflexivity|].
        symmetry. apply Nat.eqb_neq. intros ->. contradiction.
    + intros x [<-|Hx].
      * rewrite Nat.eqb_refl. subst p. apply Hev.
        rewrite block_length. lia.
      * replace (Nat.eqb x m) with false
          by (symmetry; apply Nat.eqb_neq; intros ->; contradiction).
        now apply Hpay.
Qed.

End PayloadFacts.

(** The payloads of an emitted spill are runs of whole events. *)
Lemma spill_events (cfg : Config) (hw : Hardware) (s : Poll)
    (spill : list Z) (m : nat) :
  EXTERNAL_FIFO_LENGTH cfg + 16384 <= 2 ^ 32 ->
  (forall k, partial_ok s k) ->
  spill_of cfg hw s = Some spill ->
  (m < n_cards cfg)%nat ->
  whole_events (List.length (module_payload cfg spill m))
    (to_word (GetSlotNumber cfg m)) (module_payload cfg spill m) = true.
Proof.
  intros Hfit Hp Hsp Hm.
  apply spill_of_inv in Hsp. destruct Hsp as (s' & d & Hc & ->).
  pose proof (fun k => cycle_counts_range cfg hw s k) as Hrange.
  unfold drain_cycle, cycle_counts in *.
  destruct (negb (acq_running s)); [discriminate|].
  destruct (poll_loop cfg hw (threshWords s) POLL_TRIES 0) as [[nWords mx]| |];
    cbn [bind] in Hc; try discriminate.
  destruct ((threshWords s <? mx) || force_spill s); [|discriminate].
  pose proof (drain_modules_events cfg hw nWords Hfit Hrange
                (seq 0 (n_cards cfg)) (set_force_spill false s) 0
                (seq_NoDup _ _) ltac:(lia) Hp) as H.
  destruct (drain_modules cfg hw nWords _ _ 0) as [[s1 d1|s1]| |];
    cbn [bind] in Hc; try discriminate.
  injection Hc as <- <-.
  destruct H as (_ & _ & (pay & Hblk & Hpay)).
  rewrite Z.sub_0_r in Hblk.
  assert (Hsec : spill_sections (n_cards cfg) (block (fifoData s1) 0 d1) =
                 Some (map (fun m => the_section m (pay m))
                           (seq 0 (n_cards cfg)))).
  { rewrite Hblk.
    pose proof (spill_sections_concat pay (seq 0 (n_cards cfg))) as Hcat.
    now rewrite length_seq in Hcat. }
  unfold module_payload. rewrite Hsec, nth_sections by exact Hm.
  cbn [sec_payload the_section]. apply Hpay. apply in_seq. lia.
Qed.

(** X11. In every spill that a cycle emits, the payload of each module is
    a run of whole events: each event starts with a word that carries the
    slot of the module and the length of the event, which is not zero, and
    the last event ends with the payload.  A reader of the spill can walk
    it event by event. *)
Theorem spill_whole_events (cfg : Config) (hw : Hardware) (s : Poll)
    (spill : list Z) (m : nat) :
  EXTERNAL_FIFO_LENGTH cfg + 16384 <= 2 ^ 32 ->
  (forall k, partial_ok s k) ->
  spill_of cfg hw s = Some spill ->
  (m < n_cards cfg)%nat ->
  whole_events (List.length (module_payload cfg spill m))
    (to_word (GetSlotNumber cfg m)) (module_payload cfg spill m) = true.
Proof.
  intros Hfit Hp Hsp Hm. exact (spill_events cfg hw s spill m Hfit Hp Hsp Hm).
Qed.

Lemma spill_whole_events_witness :
  whole_events 8 2 [524320; 1; 2; 3; 524321; 5; 6; 7] = true.
Proof.
  apply (spill_whole_events crate first_fifo (acquiring 0)
           [10; 0; 524320; 1; 2; 3; 524321; 5; 6; 7; 2; 1] 0%nat).
  - vm_compute. discriminate.
  - intros k. vm_compute. discriminate.
  - vm_compute. reflexivity.
  - cbn. lia.
Defined.

(* ===================================================================== *)
(** ** The carried fragment *)

Section LastEvent.
Variables (mod_ : nat) (slot d n : Z).

(** When the parsing loop ends beyond the words read, the event it read
    last starts with a word that carries the slot of the module and the
    length of the event. *)
Lemma parse_loop_last (fuel : nat) (ps ps' : parse_state) (s s' : Poll) :
  parse_loop fuel mod_ slot d n ps s = Done (ps', s') ->
  parseWords ps <= d + n -> d + n < parseWords ps' ->
  slotRead (fifoData s (parseWords ps' - eventSize ps')) = slot /\
  eventSizeRead (fifoData s (parseWords ps' - eventSize ps')) = eventSize ps'.
Proof.
  revert ps s. induction fuel as [|fuel IH]; intros ps s; [discriminate|].
  cbn [parse_loop]. destruct (parseWords ps <? d + n) eqn:Hlt.
  2:{ apply Z.ltb_ge in Hlt. intros [= <- <-] Hle Hgt. lia. }
  apply Z.ltb_lt in Hlt.
  rewrite channel_check_dead. cbv zeta.
  set (w := fifoData s (parseWords ps)).
  set (s3 := if eventSizeRead w =? 0 then _ else _).
  assert (H3 : fifoData s3 = fifoData s /\
               (had_error s3 = false -> slotRead w = slot)).
  { subst s3. destruct (eventSizeRead w =? 0) eqn:Hz;
      destruct (negb (slotRead w =? slot)) eqn:Hs; cbn;
      (split; [reflexivity|]); try discriminate.
    intros _. now apply negb_false_iff, Z.eqb_eq in Hs. }
  destruct H3 as (Hf3 & Hok). clearbody s3.
  destruct (had_error s3) eqn:Herr.
  { intros [= <- <-] _ Hgt. cbn [parseWords] in Hgt. lia. }
  specialize (Hok eq_refl).
  set (s4 := if negb (virtualChannel w) then _ else s3).
  assert (Hf4 : fifoData s4 = fifoData s).
  { subst s4. destruct (negb (virtualChannel w)); cbn; exact Hf3. }
  clearbody s4.
  set (sz := eventSizeRead w) in *.
  intros Hrun _ Hgt.
  destruct (Z.le_gt_cases (parseWords ps + sz) (d + n)) as [Hin | Hout].
  - rewrite <- Hf4. apply (IH _ s4 Hrun); [exact Hin | exact Hgt].
  - destruct fuel as [|fuel']; [discriminate|]. cbn [parse_loop] in Hrun.
    cbn [parseWords] in Hrun.
    replace (parseWords ps + sz <? d + n) with false in Hrun
      by (symmetry; apply Z.ltb_ge; lia).
    injection Hrun as <- <-. cbn [parseWords eventSize].
    replace (parseWords ps + sz - sz) with (parseWords ps) by lia.
    fold w. split; [exact Hok | reflexivity].
Qed.

End LastEvent.

Section FragmentFacts.
Variables (cfg : Config) (hw : Hardware) (nWords : list Z).
Hypothesis fifo_fits_word : EXTERNAL_FIFO_LENGTH cfg + 16384 <= 2 ^ 32.
Hypothesis counts_are_words : forall m, 0 <= nth m nWords 0 < 2 ^ 32.

(** What a pass of the loop over the modules leaves in [partialEvents] for
    a module that it has read: nothing, or the words read of the event that
    the FIFO delivered in part. *)
Lemma drain_module_fragment (mod_ : nat) (s : Poll) (d : Z) :
  0 <= d ->
  partial_ok s mod_ ->
  MIN_FIFO_READ cfg <= nth mod_ nWords 0 ->
  match drain_module cfg hw nWords mod_ s d with
  | Done (Next s' _) =>
      truncated_event (to_word (GetSlotNumber cfg mod_))
        (partialEvents s' mod_)
  | _ => True
  end.
Proof.
  intros Hd Hp Hmin. pose proof (counts_are_words mod_) as Hnw.
  unfold drain_module. set (nw := nth mod_ nWords 0) in *.
  replace (nw <? MIN_FIFO_READ cfg) with false
    by (symmetry; apply Z.ltb_ge; exact Hmin).
  replace (nw <? 0) with false by (symmetry; apply Z.ltb_ge; lia).
  destruct (EXTERNAL_FIFO_LENGTH cfg <=? nw) eqn:Hfull; [exact I|].
  apply Z.leb_gt in Hfull. cbv zeta.
  destruct (store cfg (d + 1) _ s) as [s1| |] eqn:E1; cbn [bind]; try exact I.
  pose proof (store_spec cfg (d + 1) (Z.of_nat mod_) s) as H1.
  rewrite E1 in H1. destruct H1 as [-> H1]. clear E1.
  cbn [partialEvents set_fifoData].
  set (partial := partialEvents s mod_) in *.
  set (np := Z.of_nat (List.length partial)) in *.
  replace (d + 1 + 1) with (d + 2) by lia.
  assert (Hnp : 0 <= np <= 16382)
    by (unfold partial_ok in Hp; subst np partial; lia).
  destruct (store_block cfg (d + 2) partial _) as [s0| |]; cbn [bind];
    try exact I.
  destruct (negb (ReadFIFOWords_ok hw mod_)); [exact I|].
  destruct (store_block cfg (d + 2 + np) _ s0) as [s1| |]; cbn [bind];
    try exact I.
  match goal with
  | |- context [set_partial mod_ [] ?st] => set (sp := set_partial mod_ [] st)
  end.
  assert (Hsp : partialEvents sp mod_ = []).
  { subst sp. cbn. now rewrite Nat.eqb_refl. }
  clearbody sp.
  rewrite (to_word_small (nw + np)) by lia.
  set (tot := nw + np) in *.
  destruct (parse_loop_spec mod_ (to_word (GetSlotNumber cfg mod_)) (d + 2) tot
              (S (Z.to_nat tot))
              {| parseWords := d + 2; eventSize := 0; prevEventSize := 0 |} sp)
    as (ps & s2 & Hrun & Hf2 & Hpe2 & _ & _ & Hps & Hq).
  { cbn [parseWords]. lia. }
  { cbn [parseWords]. lia. }
  { unfold parsed_to. cbn [parseWords]. intros. left. lia. }
  rewrite Hrun. cbn [bind].
  replace (d + 2 - 2) with d by lia.
  destruct (d + 2 + tot <? parseWords ps) eqn:Hover.
  - apply Z.ltb_lt in Hover.
    destruct (Hq ltac:(lia)) as [Heq | [Hes Hstart]]; [lia|].
    destruct (parse_loop_last mod_ _ (d + 2) tot _ _ _ _ _ Hrun)
      as [Hslot Hsize]; [cbn [parseWords]; lia | lia |].
    set (s2' := if debug_mode s2 then _ else s2).
    assert (Hf2' : fifoData s2' = fifoData s2 /\
                   partialEvents s2' = partialEvents s2)
      by (subst s2'; destruct (debug_mode s2); split; reflexivity).
    destruct Hf2' as [Hf2' Hpe2']. clearbody s2'.
    rewrite (to_word_small (parseWords ps - (d + 2) - tot)) by lia.
    rewrite (to_word_small (eventSize ps - _)) by lia.
    set (psize := eventSize ps - (parseWords ps - (d + 2) - tot)) in *.
    rewrite (to_word_small (tot - psize)) by lia.
    rewrite (to_word_small (tot - psize + 2)) by lia.
    rewrite copy_partial_spec by lia. cbn [bind].
    destruct (store cfg d _ _) as [s3| |] eqn:E4; cbn [bind]; try exact I.
    apply store_eq in E4. subst s3.
    cbn [partialEvents set_fifoData set_partial set_partialEvents].
    rewrite Nat.eqb_refl, Hpe2', Hpe2, Hsp. cbn [app].
    rewrite Z.add_0_r, Z.sub_0_r.
    rewrite block_cons by lia. cbn [truncated_event].
    rewrite Hf2', Hf2. split; [exact Hslot|].
    rewrite Hsize. cbn [List.length]. rewrite block_length. lia.
  - apply Z.ltb_ge in Hover.
    destruct (parseWords ps <? d + 2 + tot) eqn:Hshort.
    + destruct (dump_corrupted cfg mod_ _ _ ps s2); cbn [bind]; exact I.
    + rewrite (to_word_small (tot + 2)) by lia.
      destruct (store cfg d _ s2) as [s3| |] eqn:E4; cbn [bind]; try exact I.
      apply store_eq in E4. subst s3. cbn [partialEvents set_fifoData].
      rewrite Hpe2, Hsp. exact I.
Qed.

(** The same for the loop over the modules. *)
Lemma drain_modules_fragment (mods : list nat) (s : Poll) (d : Z) :
  NoDup mods ->
  0 <= d ->
  (forall m, partial_ok s m) ->
  match drain_modules cfg hw nWords mods s d with
  | Done (Next s' _) =>
      forall m, In m mods -> MIN_FIFO_READ cfg <= nth m nWords 0 ->
        truncated_event (to_word (GetSlotNumber cfg m)) (partialEvents s' m)
  | _ => True
  end.
Proof.
  revert s d. induction mods as [|m rest IH]; intros s d Hnd Hd Hp.
  - cbn [drain_modules]. intros m [].
  - cbn [drain_modules].
    inversion Hnd as [|? ? Hnotin Hnd']; subst.
    pose proof (drain_module_spec cfg hw nWords fifo_fits_word m s d Hd
                  (counts_are_words m) (Hp m)) as Hm.
    pose proof (drain_module_fragment m s d Hd (Hp m)) as Hfr.
    destruct (drain_module cfg hw nWords m s d) as [[s1 d1|s1]| |];
      cbn [bind]; try exact I.
    destruct Hm as ((Hd1 & _ & _ & _ & _ & Hoth1 & Hok1 & _) & _).
    assert (Hp1 : forall m', partial_ok s1 m').
    { intros m'. destruct (Nat.eq_dec m' m) as [->|Hne]; [exact Hok1|].
      unfold partial_ok. rewrite Hoth1 by exact Hne. apply Hp. }
    specialize (IH s1 d1 Hnd' ltac:(lia) Hp1).
    pose proof (drain_modules_spec cfg hw nWords fifo_fits_word
                  counts_are_words rest s1 d1 Hnd' ltac:(lia) Hp1) as Hrest.
    destruct (drain_modules cfg hw nWords rest s1 d1) as [[s' d'|s']| |];
      try exact I.
    destruct Hrest as (_ & _ & _ & _ & Hkeep & _).
    intros x [<-|Hx] Hmin.
    + rewrite (Hkeep m Hnotin). exact (Hfr Hmin).
    + now apply IH.
Qed.

End FragmentFacts.

(** The fragments that a call of [ReadFIFO] that emits a spill leaves for
    the modules it has read. *)
Lemma spill_fragment (cfg : Config) (hw : Hardware) (s s1 : Poll)
    (sp : list Z) (b : bool) (m : nat) :
  EXTERNAL_FIFO_LENGTH cfg + 16384 <= 2 ^ 32 ->
  (forall k, partial_ok s k) ->
  spill_of cfg hw s = Some sp ->
  ReadFIFO cfg hw s = Done (b, s1) ->
  (m < n_cards cfg)%nat ->
  MIN_FIFO_READ cfg <= nth m (cycle_counts cfg hw s) 0 ->
  truncated_event (to_word (GetSlotNumber cfg m)) (partialEvents s1 m).
Proof.
  intros Hfit Hp Hsp Hr Hm Hmin.
  destruct (spill_of_inv cfg hw s sp Hsp) as (s' & d & Hc & ->).
  destruct (ReadFIFO_emits cfg hw s s' d Hc) as (s'' & Hr' & Hpe & _ & _).
  rewrite Hr' in Hr. injection Hr as <- <-. rewrite Hpe.
  pose proof (fun k => cycle_counts_range cfg hw s k) as Hrange.
  unfold drain_cycle, cycle_counts in *.
  destruct (negb (acq_running s)); [discriminate|].
  destruct (poll_loop cfg hw (threshWords s) POLL_TRIES 0) as [[nWords mx]| |];
    cbn [bind] in Hc; try discriminate.
  destruct ((threshWords s <? mx) || force_spill s); [|discriminate].
  pose proof (drain_modules_fragment cfg hw nWords Hfit Hrange
                (seq 0 (n_cards cfg)) (set_force_spill false s) 0
                (seq_NoDup _ _) ltac:(lia) Hp) as H.
  destruct (drain_modules cfg hw nWords _ _ 0) as [[s2 d2|s2]| |];
    cbn [bind] in Hc; try discriminate.
  injection Hc as <- <-. apply H; [apply in_seq; lia | exact Hmin].
Qed.

(** C1, as stated, in the stop sequence of [RunControl].  The first call
    of [ReadFIFO] emits a spill and leaves [655392; 9], the first two words
    of an event of five words, in [partialEvents[0]].  Module 0 has ended
    its run, so the stop sequence clears [partialEvents[0]]; module 1 has
    not, so [ReadFIFO] is called once more.  Its spill holds the words that
    module 0 delivered then, without the two carried words in front: the
    two spills of the run, put end to end, are not the words that the
    module delivered. *)
Lemma stop_sequence_drops_fragment :
  let c := controlling (set_shm_mode true (set_do_stop_acq true (acquiring 0))) in
  let s1 := state_after (ReadFIFO crate first_fifo (poll c)) (poll c) in
  let c' := pass_after (RunControl_pass crate last_pass c) c in
  let sp1 := [10; 0; 524320; 1; 2; 3; 524321; 5; 6; 7; 2; 1] in
  let sp2 := [13; 0; 393248; 11; 12; 524323; 14; 15; 16; 524320; 18; 19; 20;
              2; 1] in
  RunControl_pass crate last_pass c = Done (Again c') /\
  sent_spills (trace c') = [sp1; sp2] /\
  partialEvents s1 0%nat = [655392; 9] /\
  hardware_words crate first_fifo (poll c) 0 =
    module_payload crate sp1 0 ++ [655392; 9] /\
  hardware_words crate rest_fifo s1 0 = module_payload crate sp2 0 /\
  partialEvents (poll c') 0%nat = [] /\
  module_payload crate sp1 0 ++ module_payload crate sp2 0
    ++ partialEvents (poll c') 0%nat <>
  hardware_words crate first_fifo (poll c) 0
    ++ hardware_words crate rest_fifo s1 0.
Proof. vm_compute. repeat split. discriminate. Qed.

(** C1, as amended.  Two consecutive calls of [ReadFIFO] that emit a
    spill, the second entered with [partialEvents] as the first left it.
    For every module, the payload of the first spill is a run of whole
    events, and what the first call leaves in [partialEvents[mod]] for a
    module that it has read is nothing or the words read of the event that
    the FIFO delivered in part: they start with the first word of that
    event and are fewer than its size.  The payload of the second spill
    followed by what the second call leaves in [partialEvents[mod]] is that
    carried fragment followed by the words read from the hardware in the
    second call.  So the two payloads put end to end, followed by the last
    fragment, are the words the hardware delivered, none lost and none
    twice.  A module that the second call skips keeps its fragment. *)
Theorem partial_event_carry (cfg : Config) (hw1 hw2 : Hardware)
    (s0 s1 s1' s2 : Poll) (sp1 sp2 : list Z) :
  EXTERNAL_FIFO_LENGTH cfg + 16384 <= 2 ^ 32 ->
  (forall m, partial_ok s0 m) ->
  spill_of cfg hw1 s0 = Some sp1 ->
  ReadFIFO cfg hw1 s0 = Done (true, s1) ->
  (forall m, partialEvents s1' m = partialEvents s1 m) ->
  spill_of cfg hw2 s1' = Some sp2 ->
  ReadFIFO cfg hw2 s1' = Done (true, s2) ->
  forall m, (m < n_cards cfg)%nat ->
    module_payload cfg sp1 m ++ partialEvents s1 m =
      partialEvents s0 m ++ hardware_words cfg hw1 s0 m /\
    whole_events (List.length (module_payload cfg sp1 m))
      (to_word (GetSlotNumber cfg m)) (module_payload cfg sp1 m) = true /\
    (MIN_FIFO_READ cfg <= nth m (cycle_counts cfg hw1 s0) 0 ->
     truncated_event (to_word (GetSlotNumber cfg m)) (partialEvents s1 m)) /\
    module_payload cfg sp2 m ++ partialEvents s2 m =
      partialEvents s1 m ++ hardware_words cfg hw2 s1' m /\
    module_payload cfg sp1 m ++ module_payload cfg sp2 m ++ partialEvents s2 m =
      partialEvents s0 m ++ hardware_words cfg hw1 s0 m
                         ++ hardware_words cfg hw2 s1' m /\
    (nth m (cycle_counts cfg hw2 s1') 0 < MIN_FIFO_READ cfg ->
       module_payload cfg sp2 m = [] /\ partialEvents s2 m = partialEvents s1 m) /\
    partial_ok s2 m.
Proof.
  intros Hfit Hp0 Hsp1 Hr1 Hsame Hsp2 Hr2 m Hm.
  destruct (ReadFIFO_spill cfg hw1 s0 s1 sp1 true Hfit Hp0 Hsp1 Hr1)
    as (_ & Hp1 & H1).
  assert (Hp1' : forall k, partial_ok s1' k).
  { intros k. unfold partial_ok. rewrite Hsame. apply Hp1. }
  destruct (ReadFIFO_spill cfg hw2 s1' s2 sp2 true Hfit Hp1' Hsp2 Hr2)
    as (_ & Hp2 & H2).
  destruct (H1 m Hm) as [E1 _]. destruct (H2 m Hm) as [E2 S2].
  rewrite Hsame in E2, S2.
  split; [exact E1|].
  split; [exact (spill_events cfg hw1 s0 sp1 m Hfit Hp0 Hsp1 Hm)|].
  split; [exact (spill_fragment cfg hw1 s0 s1 sp1 true m Hfit Hp0 Hsp1 Hr1 Hm)|].
  split; [exact E2|]. split; [|split; [exact S2 | apply Hp2]].
  rewrite E2, app_assoc, E1, <- app_assoc. reflexivity.
Qed.

Lemma partial_event_carry_witness :
  let s0 := acquiring 0 in
  let s1 := state_after (ReadFIFO crate first_fifo s0) s0 in
  let s2 := state_after (ReadFIFO crate second_fifo s1) s1 in
  let sp1 := [10; 0; 524320; 1; 2; 3; 524321; 5; 6; 7; 2; 1] in
  let sp2 := [15; 0; 655392; 9; 10; 11; 12; 524323; 14; 15; 16; 524320; 18;
              19; 20; 2; 1] in
  partialEvents s1 0%nat = [655392; 9] /\
  forall m, (m < n_cards crate)%nat ->
    module_payload crate sp1 m ++ partialEvents s1 m =
      partialEvents s0 m ++ hardware_words crate first_fifo s0 m /\
    whole_events (List.length (module_payload crate sp1 m))
      (to_word (GetSlotNumber crate m)) (module_payload crate sp1 m) = true /\
    (MIN_FIFO_READ crate <= nth m (cycle_counts crate first_fifo s0) 0 ->
     truncated_event (to_word (GetSlotNumber crate m)) (partialEvents s1 m)) /\
    module_payload crate sp2 m ++ partialEvents s2 m =
      partialEvents s1 m ++ hardware_words crate second_fifo s1 m /\
    module_payload crate sp1 m ++ module_payload crate sp2 m
      ++ partialEvents s2 m =
      partialEvents s0 m ++ hardware_words crate first_fifo s0 m
                         ++ hardware_words crate second_fifo s1 m /\
    (nth m (cycle_counts crate second_fifo s1) 0 < MIN_FIFO_READ crate ->
       module_payload crate sp2 m = [] /\
       partialEvents s2 m = partialEvents s1 m) /\
    partial_ok s2 m.
Proof.
  intros s0 s1 s2 sp1 sp2. split; [vm_compute; reflexivity|].
  apply (partial_event_carry crate first_fifo second_fifo s0 s1 s1 s2 sp1 sp2).
  - vm_compute. discriminate.
  - intros m. vm_compute. discriminate.
  - vm_compute. reflexivity.
  - vm_compute. reflexivity.
  - reflexivity.
  - vm_compute. reflexivity.
  - vm_compute. reflexivity.
Defined.

(* ===================================================================== *)
(** ** The stop sequence *)

Lemma grows_refl (P : ctl_event -> Prop) (t : list ctl_event) : grows P t t.
Proof. exists []. split; [now rewrite app_nil_r | constructor]. Qed.

Lemma grows_trans (P : ctl_event -> Prop) (t1 t2 t3 : list ctl_event) :
  grows P t1 t2 -> grows P t2 t3 -> grows P t1 t3.
Proof.
  intros (l1 & -> & H1) (l2 & -> & H2). exists (l1 ++ l2).
  split; [now rewrite app_assoc | now apply Forall_app].
Qed.

Lemma grows_with_poll (P : ctl_event -> Prop) (s' : Poll) (c : Control) :
  (forall e, P (Inner e)) -> grows P (trace c) (trace (with_poll s' c)).
Proof.
  intros H. eexists. split; [reflexivity|].
  apply Forall_forall. intros e He. apply in_map_iff in He.
  destruct He as (x & <- & _). apply H.
Qed.

Section StopFacts.
Variable cfg : Config.

Lemma call_ReadFIFO_inv (hw : Hardware) (c c' : Control) :
  call_ReadFIFO cfg hw c = Done c' ->
  exists b s', ReadFIFO cfg hw (poll c) = Done (b, s') /\ c' = with_poll s' c.
Proof.
  unfold call_ReadFIFO.
  destruct (ReadFIFO cfg hw (poll c)) as [[b s']| |]; cbn [bind];
    try discriminate.
  intros [= <-]. exists b, s'. split; reflexivity.
Qed.

(** A call of [ReadFIFO] leaves [acq_running] alone. *)
Lemma ReadFIFO_acq_running (hw : Hardware) (s s' : Poll) (b : bool) :
  ReadFIFO cfg hw s = Done (b, s') -> acq_running s' = acq_running s.
Proof.
  intros H. apply ReadFIFO_cases in H.
  destruct H as [(_ & _ & ->) | [(H & _) | [(H & _) | (s1 & d & H & _ & Hb)]]].
  - reflexivity.
  - apply drain_cycle_flags in H. destruct H as [-> _]. reflexivity.
  - apply drain_cycle_flags in H. destruct H as (Hs & _).
    unfold setup in Hs. congruence.
  - apply drain_cycle_flags in H. destruct H as (Hs & _).
    unfold setup in Hs. injection Hs as Hs _ _ _ _ _ _ _ _.
    cbv zeta in Hb.
    set (s2 := if negb (is_quiet s1) || debug_mode s1 then _ else s1) in Hb.
    assert (H2 : acq_running s2 = acq_running s)
      by (subst s2; destruct (negb (is_quiet s1) || debug_mode s1); exact Hs).
    clearbody s2.
    set (s3 := if record_data s2 then _ else s2) in Hb.
    assert (H3 : acq_running s3 = acq_running s).
    { subst s3. destruct (record_data s2); [|exact H2].
      destruct (write_data_keeps cfg (to_word d) s2) as (Hk & _). congruence. }
    clearbody s3.
    apply broadcast_data_only_sends in Hb. destruct Hb as (l & -> & _).
    exact H3.
Qed.


Lemma same_but_poll_refl (c : Control) : same_but_poll c c.
Proof. destruct c; reflexivity. Qed.

Lemma same_but_poll_trans (c1 c2 c3 : Control) :
  same_but_poll c1 c2 -> same_but_poll c2 c3 -> same_but_poll c1 c3.
Proof.
  unfold same_but_poll. intros H12 H23. rewrite H23 at 1. rewrite H12.
  reflexivity.
Qed.

Lemma same_but_poll_log (e : ctl_event) (c : Control) :
  same_but_poll c (log e c).
Proof. destruct c; reflexivity. Qed.

Lemma same_but_poll_with (s' : Poll) (c : Control) :
  same_but_poll c (with_poll s' c).
Proof. destruct c; reflexivity. Qed.

Lemma same_but_poll_requests (c c' : Control) :
  same_but_poll c c' -> requests c' = requests c.
Proof. unfold same_but_poll. intros ->. reflexivity. Qed.

Lemma kept_refl (s : Poll) : kept s s.
Proof.
  split; [reflexivity|]. intros H. repeat split; try assumption.
  apply extends_refl.
Qed.

Lemma kept_trans (s1 s2 s3 : Poll) : kept s1 s2 -> kept s2 s3 -> kept s1 s3.
Proof.
  intros [A1 A2] [B1 B2]. split; [congruence|]. intros H.
  destruct (A2 H) as (A3 & A4 & A5). destruct (B2 A3) as (B3 & B4 & B5).
  repeat split; try congruence. eapply extends_trans; eassumption.
Qed.

Lemma kept_ReadFIFO (hw : Hardware) (s s' : Poll) (b : bool) :
  ReadFIFO cfg hw s = Done (b, s') -> kept s s'.
Proof.
  intros H. split; [eapply ReadFIFO_acq_running; exact H|].
  intros Hrec.
  destruct (ReadFIFO_unrecorded cfg hw s s' b Hrec H)
    as (H1 & H2 & _ & _ & H5).
  repeat split; assumption.
Qed.

Lemma call_ReadFIFO_spec (hw : Hardware) (c c' : Control) :
  call_ReadFIFO cfg hw c = Done c' ->
  same_but_poll c c' /\ kept (poll c) (poll c') /\
  grows (fun e => run_call e = false) (trace c) (trace c').
Proof.
  intros H. apply call_ReadFIFO_inv in H. destruct H as (b & s' & H & ->).
  split; [apply same_but_poll_with|]. split.
  - cbn. eapply kept_ReadFIFO. exact H.
  - apply grows_with_poll. reflexivity.
Qed.


Lemma kept_set (f : Poll -> Poll) (s : Poll) :
  acq_running (f s) = acq_running s -> record_data (f s) = record_data s ->
  output_file (f s) = output_file s -> out (f s) = out s ->
  kept s (f s).
Proof.
  intros H1 H2 H3 H4. split; [exact H1|]. intros H.
  repeat split; try congruence. rewrite H4. apply extends_refl.
Qed.

(** The loop of the stop sequence over the modules [a, a + n). *)
Lemma end_modules_spec (w : Pass) (n a : nat) (c c' : Control) :
  end_modules cfg w (seq a n) c = Done c' ->
  same_but_poll c c' /\ kept (poll c) (poll c') /\
  grows (fun e => run_call e = false) (trace c) (trace c') /\
  forall m, (m < a + n)%nat ->
    (forall k, (a <= k < a + n)%nat -> (m < k)%nat -> run_status w k 0 <> 1) ->
    partialEvents (poll c') m =
      if (a <=? m)%nat then [] else partialEvents (poll c) m.
Proof.
  revert a c. induction n as [|n IH]; intros a c.
  - cbn [seq end_modules]. intros [= <-].
    split; [apply same_but_poll_refl|]. split; [apply kept_refl|].
    split; [apply grows_refl|]. intros m Hlt _.
    replace (a <=? m)%nat with false; [reflexivity|].
    symmetry. apply Nat.leb_gt. lia.
  - cbn [seq end_modules].
    set (first := if run_status w a 0 =? 1 then _ else Done c).
    assert (Hfirst :
      match first with
      | Done c1 =>
          same_but_poll c c1 /\ kept (poll c) (poll c1) /\
          grows (fun e => run_call e = false) (trace c) (trace c1) /\
          (run_status w a 0 <> 1 -> c1 = c)
      | _ => True
      end).
    { subst first. destruct (run_status w a 0 =? 1) eqn:Hst.
      2:{ split; [apply same_but_poll_refl|]. split; [apply kept_refl|].
          split; [apply grows_refl | reflexivity]. }
      apply Z.eqb_eq in Hst.
      set (c0 := log Sleep _).
      assert (H0 : same_but_poll c c0 /\ kept (poll c) (poll c0) /\
                   grows (fun e => run_call e = false) (trace c) (trace c0)).
      { subst c0. destruct (negb (is_quiet (poll c))).
        - split; [destruct c; reflexivity|]. split.
          + cbn. apply (kept_set (set_force_spill true)); reflexivity.
          + cbn. exists [Say (MsgStillHasWords (Z.of_nat a) (words_left w a));
                         Sleep].
            split; [|repeat constructor].
            unfold new_events. cbn. rewrite skipn_all. cbn.
            now rewrite app_nil_r, <- app_assoc.
        - split; [destruct c; reflexivity|]. split.
          + cbn. apply (kept_set (set_force_spill true)); reflexivity.
          + cbn. exists [Sleep]. split; [|repeat constructor].
            unfold new_events. cbn. rewrite skipn_all. cbn.
            now rewrite app_nil_r. }
      clearbody c0. destruct H0 as (A1 & A2 & A3).
      destruct (negb (had_error (poll c0))).
      - destruct (call_ReadFIFO cfg (fifo w (S a)) c0) as [c1| |] eqn:E;
          try exact I.
        apply call_ReadFIFO_spec in E. destruct E as (B1 & B2 & B3).
        split; [eapply same_but_poll_trans; eassumption|].
        split; [eapply kept_trans; eassumption|].
        split; [eapply grows_trans; eassumption|]. intros; contradiction.
      - split; [exact A1|]. split; [exact A2|]. split; [exact A3|].
        intros; contradiction. }
    destruct first as [c1| |]; cbn [bind]; try discriminate.
    destruct Hfirst as (A1 & A2 & A3 & A4).
    set (c2 := if run_status w a 1 =? 0 then _ else _).
    assert (H2 : same_but_poll c1 c2 /\ kept (poll c1) (poll c2) /\
                 grows (fun e => run_call e = false) (trace c1) (trace c2) /\
                 forall m, partialEvents (poll c2) m =
                           if Nat.eqb m a then [] else partialEvents (poll c1) m).
    { subst c2.
      destruct (partialEvents (poll c1) a) as [|x l] eqn:Hpa;
        destruct (run_status w a 1 =? 0);
        (split; [destruct c1; reflexivity|]);
        (split; [cbn; first [ apply kept_refl
                            | apply (kept_set (set_had_error true)); reflexivity
                            | apply (kept_set (set_partial a [])); reflexivity
                            | apply (kept_set (fun s => set_had_error true
                                                (set_partial a [] s)));
                              reflexivity ]|]);
        (split;
         [cbn; unfold new_events; cbn; rewrite ?skipn_all; cbn;
          rewrite ?app_nil_r;
          eexists; split; [reflexivity | repeat constructor]|]);
        intros m; cbn; destruct (Nat.eqb_spec m a) as [-> | Hne];
        try reflexivity; try assumption. }
    clearbody c2. destruct H2 as (B1 & B2 & B3 & B4).
    intros Hrest. apply IH in Hrest. destruct Hrest as (C1 & C2 & C3 & C4).
    split; [eapply same_but_poll_trans; [|exact C1];
            eapply same_but_poll_trans; eassumption|].
    split; [eapply kept_trans; [|exact C2]; eapply kept_trans; eassumption|].
    split; [eapply grows_trans; [|exact C3]; eapply grows_trans; eassumption|].
    intros m Hlt Hm.
    rewrite C4 by (try lia; intros k Hk; apply Hm; lia).
    rewrite B4.
    destruct (Nat.eqb_spec m a) as [-> | Hne].
    + replace (S a <=? a)%nat with false by (symmetry; apply Nat.leb_gt; lia).
      now rewrite Nat.leb_refl.
    + destruct (Nat.leb_spec (S a) m) as [Hle | Hgt].
      * now replace (a <=? m)%nat with true by (symmetry; apply Nat.leb_le; lia).
      * replace (a <=? m)%nat with false by (symmetry; apply Nat.leb_gt; lia).
        rewrite A4; [reflexivity|]. apply Hm; lia.
Qed.


Lemma no_file_no_write (e : event) : file_event e = false -> no_write e.
Proof. intros H n ->. discriminate H. Qed.

Lemma new_events_pure (s s' : Poll) :
  out s' = out s -> new_events s s' = [].
Proof. intros H. unfold new_events. rewrite H. apply skipn_all. Qed.

Lemma new_events_app (s s' : Poll) (l : list event) :
  out s' = out s ++ l -> new_events s s' = l.
Proof.
  intros H. unfold new_events. rewrite H, skipn_app, skipn_all, Nat.sub_diag.
  reflexivity.
Qed.

(** The stop sequence. *)
Lemma RunControl_stop_spec (w : Pass) (c c' : Control) :
  RunControl_stop cfg w c = Done c' ->
  same_but_poll c c' /\
  acq_running (poll c') = false /\ do_stop_acq (poll c') = false /\
  is_open (output_file (poll c')) = false /\
  (record_data (poll c) = false ->
   record_data (poll c') = false /\
   extends no_write (out (poll c)) (out (poll c'))) /\
  (exists l1 l2,
     trace c' = trace c ++ l1 ++ PifEndRun :: l2 /\
     Forall (fun e => run_call e = false) l1 /\
     Forall (fun e => run_call e = false) l2) /\
  forall m, (m < n_cards cfg)%nat ->
    (forall k, (m < k < n_cards cfg)%nat -> run_status w k 0 <> 1) ->
    partialEvents (poll c') m = [].
Proof.
  unfold RunControl_stop.
  set (first := if negb (had_error (poll c)) then _ else Done c).
  assert (Hfirst :
    match first with
    | Done c1 =>
        same_but_poll c c1 /\ kept (poll c) (poll c1) /\
        grows (fun e => run_call e = false) (trace c) (trace c1)
    | _ => True
    end).
  { subst first. destruct (negb (had_error (poll c))).
    - destruct (call_ReadFIFO cfg (fifo w 0) c) as [c1| |] eqn:E; try exact I.
      apply call_ReadFIFO_spec in E. exact E.
    - split; [apply same_but_poll_refl|]. split; [apply kept_refl|].
      apply grows_refl. }
  destruct first as [c1| |]; cbn [bind]; try discriminate.
  destruct Hfirst as (A1 & A2 & (l1 & Ht1 & Hl1)).
  destruct (end_modules cfg w (seq 0 (n_cards cfg)) (log PifEndRun c1))
    as [c2| |] eqn:E; cbn [bind]; try discriminate.
  apply end_modules_spec in E. destruct E as (B1 & B2 & (l2 & Ht2 & Hl2) & B4).
  cbn [poll log set_trace trace] in B2, Ht2, B4.
  set (c3 := log StatsClearTotals _).
  assert (H3 : same_but_poll c2 c3 /\ kept (poll c2) (poll c3) /\
               partialEvents (poll c3) = partialEvents (poll c2) /\
               exists l3, trace c3 = trace c2 ++ l3 /\
                          Forall (fun e => run_call e = false) l3).
  { subst c3. split; [destruct c2; reflexivity|]. split; [|split].
    - cbn. split; [reflexivity|]. intros H. repeat split; try assumption.
      apply extends_snoc. reflexivity.
    - reflexivity.
    - cbn. rewrite (new_events_app _ _ [StatsDump]) by reflexivity. cbn.
      eexists. split; [rewrite <- !app_assoc; reflexivity|].
      repeat constructor. }
  clearbody c3. destruct H3 as (C1 & C2 & C3 & (l3 & Ht3 & Hl3)).
  set (c4 := if is_open (output_file (poll c3)) then _ else c3).
  assert (H4 : same_but_poll c3 c4 /\
               is_open (output_file (poll c4)) = false /\
               acq_running (poll c4) = acq_running (poll c3) /\
               record_data (poll c4) = record_data (poll c3) /\
               extends no_write (out (poll c3)) (out (poll c4)) /\
               partialEvents (poll c4) = partialEvents (poll c3) /\
               exists l4, trace c4 = trace c3 ++ l4 /\
                          Forall (fun e => run_call e = false) l4).
  { subst c4. destruct (is_open (output_file (poll c3))) eqn:Hopen.
    - split; [apply same_but_poll_with|].
      destruct (CloseOutputFile_open cfg false (poll c3) Hopen)
        as (_ & D1 & _ & _ & _ & _ & D2 & _ & _ & D3 & _).
      destruct (CloseOutputFile_frame cfg false (poll c3)) as (D4 & _).
      cbn [poll with_poll set_poll set_trace trace].
      split; [exact D1|]. split.
      { unfold CloseOutputFile. rewrite Hopen. reflexivity. }
      split; [exact D2|]. split.
      { rewrite D3. apply extends_app. repeat constructor; intros n; discriminate. }
      split; [exact D4|].
      eexists. split; [reflexivity|]. apply Forall_forall.
      intros e He. apply in_map_iff in He. destruct He as (x & <- & _).
      reflexivity.
    - split; [apply same_but_poll_refl|]. split; [exact Hopen|].
      repeat split; try apply extends_refl.
      exists []. split; [now rewrite app_nil_r | constructor]. }
  clearbody c4. destruct H4 as (D0 & D1 & D2 & D3 & D4 & D5 & (l4 & Ht4 & Hl4)).
  intros [= <-]. cbn [poll with_poll set_poll set_trace trace].
  split.
  { eapply same_but_poll_trans; [|apply same_but_poll_with].
    eapply same_but_poll_trans; [|exact D0].
    eapply same_but_poll_trans; [|exact C1].
    eapply same_but_poll_trans; [|exact B1].
    eapply same_but_poll_trans; [exact A1 | apply same_but_poll_log]. }
  split; [reflexivity|]. split; [reflexivity|]. split; [exact D1|].
  split; [|split].
  - intros Hrec.
    destruct (proj2 A2 Hrec) as (E1 & _ & E2).
    destruct (proj2 B2 E1) as (F1 & _ & F2).
    destruct (proj2 C2 F1) as (G1 & _ & G2).
    split; [cbn; congruence|]. cbn [out set_acq_running set_do_stop_acq].
    eapply extends_trans; [|exact D4].
    eapply extends_weaken; [exact no_file_no_write|].
    eapply extends_trans; [exact E2|]. eapply extends_trans; eassumption.
  - exists l1, (l2 ++ l3 ++ l4). split.
    + rewrite new_events_pure by reflexivity. cbn [map]. rewrite app_nil_r.
      rewrite Ht4, Ht3, Ht2, Ht1. cbn [trace log set_trace].
      rewrite <- !app_assoc. reflexivity.
    + split; [exact Hl1|]. apply Forall_app. split; [exact Hl2|].
      apply Forall_app. split; assumption.
  - intros m Hm Hk. cbn [partialEvents set_acq_running set_do_stop_acq].
    rewrite D5, C3. rewrite B4; [reflexivity | lia |].
    intros k Hk' Hmk. apply Hk. lia.
Qed.

End StopFacts.

Section PassFacts.
Variable cfg : Config.

(** A pass that finds the acquisition running goes straight to the part
    for a running acquisition; before that, a pending kill, reboot or MCA
    run requests the stop, and a pending start is dropped. *)
Lemma RunControl_pass_running (w : Pass) (c : Control) :
  acq_running (poll c) = true ->
  let p := if kill_all c || do_reboot c || doMcaRun_ c
           then set_do_stop_acq true (poll c) else poll c in
  let t := if do_start_acq c then trace c ++ [Say MsgAlreadyRunning]
           else trace c in
  RunControl_pass cfg w c =
    (c3 <- RunControl_acq cfg w
             (set_do_start_acq false (set_trace t (set_poll p c))) ;;
     c4 <- pass_tail c3 ;;
     Done (Again c4)).
Proof.
  intros Hrun. unfold RunControl_pass, RunControl_mca, RunControl_start.
  remember (RunControl_acq cfg w) as acq eqn:Hacq. clear Hacq.
  remember pass_tail as tail eqn:Htail. clear Htail.
  destruct c as [s ka sa rb ex dm im ml len ini rt dir pre ti fmt num ft ast tr].
  destruct s as [ar sm qu dbg th fs he ds rd fo nr pe fd ofl o].
  cbn in Hrun. subst ar.
  destruct ka, rb, dm, sa;
    cbv -[skipn List.length app map to_word]; rewrite ?skipn_all;
    cbv -[app]; rewrite ?app_nil_r; reflexivity.
Qed.


(** The end of a pass changes the trace only. *)
Lemma pass_tail_frame (c c' : Control) :
  pass_tail c = Done c' ->
  poll c' = poll c /\ requests c' = requests c /\ mca_live c' = mca_live c /\
  (doMcaRun_ c = true -> mca_live c = true).
Proof.
  unfold pass_tail, UpdateStatus.
  destruct (doMcaRun_ c) eqn:Hdo, (mca_live c) eqn:Hml; cbn [andb negb bind];
    try discriminate; intros [= <-];
    unfold requests; cbn; rewrite ?Hdo, ?Hml;
    destruct (negb (acq_running (poll c))); cbn;
    repeat split; try assumption; try reflexivity; try discriminate;
    rewrite Hdo; reflexivity.
Qed.

Lemma ReadFIFO_not_running (hw : Hardware) (s : Poll) :
  acq_running s = false -> ReadFIFO cfg hw s = Done (false, s).
Proof. intros H. unfold ReadFIFO, drain_cycle. rewrite H. reflexivity. Qed.

Lemma stop_run_running (c : Control) :
  acq_running (poll c) = true ->
  fst (stop_run c) = true /\ same_but_poll c (snd (stop_run c)) /\
  poll (snd (stop_run c)) =
    set_record_data false (set_do_stop_acq true (poll c)) /\
  grows (fun e => run_call e = false) (trace c) (trace (snd (stop_run c))).
Proof.
  intros Hrun. unfold stop_run. rewrite Hrun. cbn [negb andb fst snd].
  split; [reflexivity|]. split; [|split].
  - destruct (record_data _); destruct c; reflexivity.
  - destruct c as [s ka sa rb ex dm im ml len ini rt dir pre ti fmt num ft ast tr].
    cbn. destruct (record_data s); reflexivity.
  - destruct c as [s ka sa rb ex dm im ml len ini rt dir pre ti fmt num ft ast tr].
    cbn. destruct (record_data s); cbn; unfold new_events; cbn;
      rewrite ?skipn_all; cbn; rewrite ?app_nil_r;
      first [apply grows_refl
            | eexists; split; [reflexivity | repeat constructor]].
Qed.

(** The part of a pass for a running acquisition. *)
Lemma RunControl_acq_spec (w : Pass) (c c' : Control) :
  acq_running (poll c) = true ->
  RunControl_acq cfg w c = Done c' ->
  same_but_poll c c' /\
  acq_running (poll c') = negb (time_is_up w c || do_stop_acq (poll c)) /\
  (time_is_up w c || do_stop_acq (poll c) = true ->
   is_open (output_file (poll c')) = false /\
   do_stop_acq (poll c') = false) /\
  (time_is_up w c = true \/ record_data (poll c) = false ->
   record_data (poll c') = false /\
   extends no_write (out (poll c)) (out (poll c'))).
Proof.
  intros Hrun. unfold RunControl_acq. rewrite Hrun. cbn [negb].
  set (ca := if time_is_up w c then snd (stop_run c) else c).
  assert (Ha : same_but_poll c ca /\ acq_running (poll ca) = true /\
               out (poll ca) = out (poll c) /\
               do_stop_acq (poll ca) = (time_is_up w c || do_stop_acq (poll c)) /\
               (time_is_up w c = true \/ record_data (poll c) = false ->
                record_data (poll ca) = false)).
  { subst ca. destruct (time_is_up w c).
    - destruct (stop_run_running c Hrun) as (_ & A1 & A2 & _).
      rewrite A2. cbn. repeat split; try assumption.
    - cbn. repeat split; try assumption; try apply same_but_poll_refl.
      intros [H | H]; [discriminate | exact H]. }
  clearbody ca. destruct Ha as (A1 & A2 & A3 & A4 & A5).
  rewrite A4. destruct (time_is_up w c || do_stop_acq (poll c)) eqn:Hstop.
  - destruct (RunControl_stop cfg w ca) as [c3| |] eqn:E; cbn [bind];
      try discriminate.
    apply RunControl_stop_spec in E.
    destruct E as (B1 & B2 & B3 & B4 & B5 & _).
    unfold call_ReadFIFO. rewrite (ReadFIFO_not_running _ _ B2). cbn [bind snd].
    intros [= <-]. cbn [poll with_poll set_poll set_trace].
    split.
    { eapply same_but_poll_trans; [exact A1|].
      eapply same_but_poll_trans; [exact B1 | apply same_but_poll_with]. }
    split; [exact B2|]. split; [intros _; split; assumption|].
    intros H. destruct (B5 (A5 H)) as [C1 C2]. split; [exact C1|].
    rewrite <- A3. exact C2.
  - intros H. apply call_ReadFIFO_spec in H. destruct H as (B1 & [B2 B3] & _).
    split; [eapply same_but_poll_trans; eassumption|].
    split; [cbn; congruence|]. split; [discriminate|].
    intros H. destruct (B3 (A5 H)) as (C1 & _ & C2). split; [exact C1|].
    rewrite <- A3. eapply extends_weaken; [exact no_file_no_write | exact C2].
Qed.

End PassFacts.

(** X12. The stop sequence always ends the run: whatever the FIFOs hold
    and whatever the modules report, afterwards the acquisition is not
    running, no stop is pending and no output file is open; [EndRun] is sent
    to the modules exactly once, and nothing else starts or ends a run; the
    requests of the operator are untouched; and the fragment carried for a
    module is dropped unless a later module had not finished, in which case
    the FIFOs are read once more. *)
Theorem RunControl_stop_ends_run (cfg : Config) (w : Pass) (c c' : Control) :
  RunControl_stop cfg w c = Done c' ->
  acq_running (poll c') = false /\ do_stop_acq (poll c') = false /\
  is_open (output_file (poll c')) = false /\
  requests c' = requests c /\
  (exists l1 l2,
     trace c' = trace c ++ l1 ++ PifEndRun :: l2 /\
     Forall (fun e => run_call e = false) l1 /\
     Forall (fun e => run_call e = false) l2) /\
  forall m, (m < n_cards cfg)%nat ->
    (forall k, (m < k < n_cards cfg)%nat -> run_status w k 0 <> 1) ->
    partialEvents (poll c') m = [].
Proof.
  intros H. apply RunControl_stop_spec in H.
  destruct H as (H1 & H2 & H3 & H4 & _ & H6 & H7).
  repeat split; try assumption. now apply same_but_poll_requests.
Qed.

Lemma RunControl_stop_ends_run_witness :
  let c := controlling (set_do_stop_acq true (acquiring 0)) in
  let c' := ctl_after (RunControl_stop crate (calm_pass first_fifo 0) c) c in
  acq_running (poll c') = false /\ do_stop_acq (poll c') = false /\
  is_open (output_file (poll c')) = false /\
  requests c' = requests c /\
  (exists l1 l2,
     trace c' = trace c ++ l1 ++ PifEndRun :: l2 /\
     Forall (fun e => run_call e = false) l1 /\
     Forall (fun e => run_call e = false) l2) /\
  forall m, (m < n_cards crate)%nat ->
    (forall k, (m < k < n_cards crate)%nat ->
       run_status (calm_pass first_fifo 0) k 0 <> 1) ->
    partialEvents (poll c') m = [].
Proof.
  apply (RunControl_stop_ends_run crate (calm_pass first_fifo 0)).
  vm_compute. reflexivity.
Defined.

(** A pass that finds the acquisition running. *)
Lemma RunControl_pass_running_acq (cfg : Config) (w : Pass) (c : Control)
    (r : pass_end) :
  acq_running (poll c) = true ->
  RunControl_pass cfg w c = Done r ->
  exists c',
    r = Again c' /\
    acq_running (poll c') =
      negb (time_is_up w c || do_stop_acq (poll c) || kill_all c
            || do_reboot c || doMcaRun_ c) /\
    (acq_running (poll c') = false ->
     is_open (output_file (poll c')) = false /\
     do_stop_acq (poll c') = false) /\
    do_start_acq c' = false /\ kill_all c' = kill_all c /\
    isMcaRunning_ c' = isMcaRunning_ c /\ doMcaRun_ c' = doMcaRun_ c.
Proof.
  intros Hrun H. rewrite (RunControl_pass_running cfg w c Hrun) in H.
  cbv zeta in H.
  set (p := if kill_all c || do_reboot c || doMcaRun_ c then _ else poll c) in H.
  set (c2 := set_do_start_acq false _) in H.
  assert (Hp : acq_running p = true /\
               do_stop_acq p =
                 (kill_all c || do_reboot c || doMcaRun_ c
                  || do_stop_acq (poll c))).
  { subst p. destruct (kill_all c || do_reboot c || doMcaRun_ c); cbn;
      split; try assumption; reflexivity. }
  destruct Hp as [Hp1 Hp2].
  destruct (RunControl_acq cfg w c2) as [c3| |] eqn:E; cbn [bind] in H;
    try discriminate.
  destruct (pass_tail c3) as [c4| |] eqn:Et; cbn [bind] in H;
    try discriminate.
  injection H as <-.
  apply RunControl_acq_spec in E; [|exact Hp1].
  destruct E as (E1 & E2 & E3 & _).
  change (poll c2) with p in E2, E3. rewrite Hp2 in E2, E3.
  change (time_is_up w c2) with (time_is_up w c) in E2, E3.
  assert (Hc3 : requests c3 = requests c2) by now apply same_but_poll_requests.
  unfold requests in Hc3. cbn in Hc3.
  injection Hc3 as R1 R2 R3 R4 R5 R6.
  exists c4. split; [reflexivity|].
  destruct (pass_tail_frame c3 c4 Et) as (T1 & T2 & _). unfold requests in T2.
  injection T2 as T2 T3 T4 T5 T6 T7.
  rewrite T1. split.
  { rewrite E2. f_equal.
    destruct (time_is_up w c), (do_stop_acq (poll c)), (kill_all c),
      (do_reboot c), (doMcaRun_ c); reflexivity. }
  split.
  { intros Hoff. apply E3. rewrite E2 in Hoff.
    now apply negb_false_iff in Hoff. }
  repeat split; congruence.
Qed.

(** X13. A pass of the loop of [RunControl] that finds the acquisition
    running and returns stops it exactly when the time of a timed run is up
    or a stop, a kill, a reboot or an MCA run is pending; the stop is then
    complete at the end of the same pass, with the output file closed.  (A
    pass does not return when it goes outside [fifoData], or when
    [UpdateStatus] at its end finds [doMcaRun_] set while [mca_] points to
    no object, see [pending_mca_without_object].) *)
Theorem RunControl_pass_stops_exactly (cfg : Config) (w : Pass) (c : Control)
    (r : pass_end) :
  acq_running (poll c) = true ->
  RunControl_pass cfg w c = Done r ->
  exists c',
    r = Again c' /\
    acq_running (poll c') =
      negb (time_is_up w c || do_stop_acq (poll c) || kill_all c
            || do_reboot c || doMcaRun_ c) /\
    (acq_running (poll c') = false ->
     is_open (output_file (poll c')) = false /\
     do_stop_acq (poll c') = false) /\
    do_start_acq c' = false /\ kill_all c' = kill_all c /\
    isMcaRunning_ c' = isMcaRunning_ c /\ doMcaRun_ c' = doMcaRun_ c.
Proof.
  intros Hrun H. exact (RunControl_pass_running_acq cfg w c r Hrun H).
Qed.

(** An MCA run requested while the acquisition runs: the pass stops the
    acquisition, and [UpdateStatus] then asks [mca_], which has not been
    assigned, for the run time. *)
Example pending_mca_without_object :
  RunControl_pass crate (calm_pass first_fifo 0)
    (set_doMcaRun_ true (controlling (acquiring 0))) = Undefined.
Proof. vm_compute. reflexivity. Qed.

Lemma RunControl_pass_stops_exactly_witness :
  let c := set_runTime 5 (controlling (acquiring 0)) in
  let w := calm_pass first_fifo 7 in
  exists c',
    Again (pass_after (RunControl_pass crate w c) c) = Again c' /\
    acq_running (poll c') =
      negb (time_is_up w c || do_stop_acq (poll c) || kill_all c
            || do_reboot c || doMcaRun_ c) /\
    (acq_running (poll c') = false ->
     is_open (output_file (poll c')) = false /\
     do_stop_acq (poll c') = false) /\
    do_start_acq c' = false /\ kill_all c' = kill_all c /\
    isMcaRunning_ c' = isMcaRunning_ c /\ doMcaRun_ c' = doMcaRun_ c.
Proof.
  apply (RunControl_pass_stops_exactly crate (calm_pass first_fifo 7)
           (set_runTime 5 (controlling (acquiring 0)))).
  - reflexivity.
  - vm_compute. reflexivity.
Defined.

(** X14. Stopping a run loses the end of its data: [stop_run] clears
    [record_data] before [RunControl] reads the FIFOs for the last time, so
    in the pass that handles the stop nothing is written to the output
    file, which is then closed; this holds whether or not data were
    recorded until then. *)
Theorem stop_discards_last_spill (cfg : Config) (w : Pass) (c : Control)
    (r : pass_end) :
  acq_running (poll c) = true ->
  RunControl_pass cfg w (snd (stop_run c)) = Done r ->
  exists c',
    r = Again c' /\
    acq_running (poll c') = false /\
    is_open (output_file (poll c')) = false /\
    record_data (poll c') = false /\
    extends no_write (out (poll c)) (out (poll c')).
Proof.
  intros Hrun H.
  destruct (stop_run_running c Hrun) as (_ & S1 & S2 & _).
  set (c1 := snd (stop_run c)) in *.
  assert (Hrun1 : acq_running (poll c1) = true) by (rewrite S2; exact Hrun).
  rewrite (RunControl_pass_running cfg w c1 Hrun1) in H. cbv zeta in H.
  set (p := if kill_all c1 || do_reboot c1 || doMcaRun_ c1 then _ else poll c1)
    in H.
  set (c2 := set_do_start_acq false _) in H.
  assert (Hp : acq_running p = true /\ do_stop_acq p = true /\
               record_data p = false /\ out p = out (poll c)).
  { subst p. rewrite S2.
    destruct (kill_all c1 || do_reboot c1 || doMcaRun_ c1); cbn;
      repeat split; assumption. }
  destruct Hp as (P1 & P2 & P3 & P4).
  destruct (RunControl_acq cfg w c2) as [c3| |] eqn:E; cbn [bind] in H;
    try discriminate.
  destruct (pass_tail c3) as [c4| |] eqn:Et; cbn [bind] in H;
    try discriminate.
  injection H as <-.
  apply RunControl_acq_spec in E; [|exact P1].
  destruct E as (_ & E2 & E3 & E4).
  change (poll c2) with p in E2, E3, E4.
  rewrite P2, orb_true_r in E2, E3.
  destruct (E3 eq_refl) as [E5 _]. destruct (E4 (or_intror P3)) as [E6 E7].
  exists c4. split; [reflexivity|].
  destruct (pass_tail_frame c3 c4 Et) as (Htail & _).
  rewrite Htail. rewrite P4 in E7. repeat split; assumption.
Qed.

Lemma stop_discards_last_spill_witness :
  let c := controlling (set_acq_running true (recording 65552)) in
  let c' := pass_after
              (RunControl_pass crate (calm_pass first_fifo 0) (snd (stop_run c)))
              c in
  exists c'',
    Again c' = Again c'' /\
    acq_running (poll c'') = false /\
    is_open (output_file (poll c'')) = false /\
    record_data (poll c'') = false /\
    extends no_write (out (poll c)) (out (poll c'')).
Proof.
  apply (stop_discards_last_spill crate (calm_pass first_fifo 0)
           (controlling (set_acq_running true (recording 65552)))).
  - reflexivity.
  - vm_compute. reflexivity.
Defined.

(* ===================================================================== *)
(** ** The start of a run *)

Lemma skipn_grown {A : Type} (o l : list A) :
  skipn (List.length o) (o ++ l) = l.
Proof. induction o as [|x o IH]; [destruct l; reflexivity | exact IH]. Qed.

Lemma skipn_grown' {A : Type} (o l1 l : list A) :
  skipn (List.length (o ++ l1)) (o ++ l) = skipn (List.length l1) l.
Proof. induction o as [|x o IH]; [reflexivity | exact IH]. Qed.

Ltac ctl_compute :=
  cbv -[skipn List.length app map to_word];
  rewrite <- ?app_assoc; cbn [app];
  rewrite ?skipn_all, ?skipn_grown, ?skipn_grown';
  cbn [skipn List.length app map].

(** X15. A start that is to record data begins the run only with an output
    file: if the file cannot be opened, the modules are not started, the
    pass ends there, and the request is dropped with [had_error] set and
    [record_data] cleared; if it can, the file is open when the modules are
    asked to start, and the acquisition is running exactly when they do. *)
Theorem RunControl_start_needs_file (cfg : Config) (w : Pass) (c : Control) :
  do_start_acq c = true -> acq_running (poll c) = false ->
  record_data (poll c) = true ->
  let r := RunControl_start cfg w c in
  do_start_acq (snd r) = false /\
  acq_running (poll (snd r)) = path_writable cfg && list_mode_starts w /\
  is_open (output_file (poll (snd r))) = path_writable cfg /\
  record_data (poll (snd r)) = path_writable cfg /\
  fst r = negb (path_writable cfg) /\
  (path_writable cfg = false ->
   had_error (poll (snd r)) = true /\
   grows (fun e => run_call e = false) (trace c) (trace (snd r))) /\
  (path_writable cfg = true ->
   file_open (poll (snd r)) = true /\
   exists l, trace (snd r) = trace c ++ l /\
             In (Inner (FileOpenNew (if is_open (output_file (poll c))
                                     then to_word (next_free_run cfg
                                                     (next_run_num (poll c)))
                                     else next_run_num (poll c)) false true)) l /\
             In (PifStartListModeRun (list_mode_starts w)) l).
Proof.
  intros Hs Hr Hd.
  destruct c as [s ka sa rb ex dm im ml len ini rt dir pre ti fmt num ft ast tr].
  destruct s as [ar sm qu dbg th fs he ds rd fo nr pe fd ofl o].
  destruct ofl as [op sz sb].
  destruct cfg as [mfr efl nc slot pw ffs nfr].
  destruct w as [ms mm mrt mst lms sc ck rs wl ff].
  cbn in Hs, Hr, Hd. subst sa ar rd.
  destruct op, pw, lms; ctl_compute;
    (repeat split; try reflexivity; try discriminate;
     first
       [ solve [unfold grows; eexists; split; [reflexivity|];
                repeat constructor]
       | solve [eexists; split; [reflexivity|]; cbn; intuition] ]).
Qed.

Lemma RunControl_start_needs_file_witness :
  let c := set_do_start_acq true (controlling (recording 65552)) in
  let w := calm_pass first_fifo 0 in
  let r := RunControl_start crate w c in
  do_start_acq (snd r) = false /\
  acq_running (poll (snd r)) = path_writable crate && list_mode_starts w /\
  is_open (output_file (poll (snd r))) = path_writable crate /\
  record_data (poll (snd r)) = path_writable crate /\
  fst r = negb (path_writable crate) /\
  (path_writable crate = false ->
   had_error (poll (snd r)) = true /\
   grows (fun e => run_call e = false) (trace c) (trace (snd r))) /\
  (path_writable crate = true ->
   file_open (poll (snd r)) = true /\
   exists l, trace (snd r) = trace c ++ l /\
             In (Inner (FileOpenNew (if is_open (output_file (poll c))
                                     then to_word (next_free_run crate
                                                     (next_run_num (poll c)))
                                     else next_run_num (poll c)) false true)) l /\
             In (PifStartListModeRun (list_mode_starts w)) l).
Proof.
  apply (RunControl_start_needs_file crate (calm_pass first_fifo 0)
           (set_do_start_acq true (controlling (recording 65552))));
    reflexivity.
Defined.

(* ===================================================================== *)
(** ** Kill *)

Ltac q_cases :=
  repeat match goal with
         | |- context [Qeq_bool ?a ?b] => destruct (Qeq_bool a b)
         | |- context [Qle_bool ?a ?b] => destruct (Qle_bool a b)
         end.

Ltac ctl_compute_q :=
  cbv -[skipn List.length app map Qeq_bool Qle_bool to_word];
  rewrite <- ?app_assoc; cbn [app];
  rewrite ?skipn_all, ?skipn_grown, ?skipn_grown';
  cbn [skipn List.length app map].

Section KillFacts.

Variable cfg : Config.

(** What the start part of a pass keeps. *)
Lemma RunControl_start_frame (w : Pass) (c : Control) :
  let r := RunControl_start cfg w c in
  kill_all (snd r) = kill_all c /\
  isMcaRunning_ (snd r) = isMcaRunning_ c /\
  doMcaRun_ (snd r) = doMcaRun_ c /\
  do_start_acq (snd r) = false /\
  (fst r = true -> acq_running (poll (snd r)) = false) /\
  (do_start_acq c = false -> snd r = c /\ fst r = false).
Proof.
  destruct c as [s ka sa rb ex dm im ml len ini rt dir pre ti fmt num ft ast tr].
  destruct s as [ar sm qu dbg th fs he ds rd fo nr pe fd ofl o].
  destruct ofl as [op sz sb].
  destruct cfg as [mfr efl nc slot pw ffs nfr].
  destruct w as [ms mm mrt mst lms sc ck rs wl ff].
  destruct sa, ar, rd, op, pw, lms; ctl_compute;
    repeat split; try reflexivity; try discriminate.
Qed.

(** A pass under a kill with the MCA running and no acquisition: the MCA
    run is ended, and the pass goes on with the start part. *)
Lemma RunControl_pass_kill_mca (w : Pass) (c : Control) :
  kill_all c = true -> acq_running (poll c) = false ->
  isMcaRunning_ c = true -> doMcaRun_ c = true -> mca_live c = true ->
  exists c1,
    kill_all c1 = true /\ isMcaRunning_ c1 = false /\ doMcaRun_ c1 = false /\
    acq_running (poll c1) = false /\ do_start_acq c1 = do_start_acq c /\
    do_stop_acq (poll c1) = false /\
    RunControl_pass cfg w c =
      (let '(skip, c2) := RunControl_start cfg w c1 in
       if skip then Done (Again c2)
       else c3 <- RunControl_acq cfg w c2 ;;
            c4 <- pass_tail c3 ;; Done (Again c4)).
Proof.
  intros Hk Ha Hm Hd Hl. unfold RunControl_pass, RunControl_mca.
  remember (RunControl_acq cfg w) as acq eqn:Hacq. clear Hacq.
  remember pass_tail as tail eqn:Htail. clear Htail.
  remember (RunControl_start cfg w) as start eqn:Hstart. clear Hstart.
  destruct c as [s ka sa rb ex dm im ml len ini rt dir pre ti fmt num ft ast tr].
  destruct s as [ar sm qu dbg th fs he ds rd fo nr pe fd ofl o].
  destruct w as [ms mm mrt mst lms sc ck rs wl ff].
  cbn in Hk, Ha, Hm, Hd, Hl. subst ka ar im dm ml.
  destruct rb; ctl_compute_q; q_cases; ctl_compute_q;
    (eexists; repeat split; [..|reflexivity]; reflexivity).
Qed.

(** The same pass when [mca_] points to no object. *)
Lemma RunControl_pass_kill_no_mca (w : Pass) (c : Control) :
  kill_all c = true -> acq_running (poll c) = false ->
  isMcaRunning_ c = true -> doMcaRun_ c = true -> mca_live c = false ->
  RunControl_pass cfg w c = Undefined.
Proof.
  intros Hk Ha Hm Hd Hl. unfold RunControl_pass, RunControl_mca.
  destruct c as [s ka sa rb ex dm im ml len ini rt dir pre ti fmt num ft ast tr].
  destruct s as [ar sm qu dbg th fs he ds rd fo nr pe fd ofl o].
  cbn in Hk, Ha, Hm, Hd, Hl. subst ka ar im dm ml.
  destruct rb; reflexivity.
Qed.

(** A pass under a kill either leaves the loop, when nothing runs, or
    winds one thing down. *)
Lemma RunControl_pass_kill (w : Pass) (c : Control) (r : pass_end) :
  kill_all c = true ->
  (isMcaRunning_ c = true -> doMcaRun_ c = true) ->
  RunControl_pass cfg w c = Done r ->
  match r with
  | Exited c' =>
      run_ctrl_exit c' = true /\ acq_running (poll c') = false /\
      isMcaRunning_ c' = false
  | Again c' =>
      kill_all c' = true /\
      (isMcaRunning_ c' = true -> doMcaRun_ c' = true) /\
      (winding c' < winding c)%nat
  end.
Proof.
  intros Hk Hinv H.
  destruct (acq_running (poll c)) eqn:Ha.
  - destruct (RunControl_pass_running_acq cfg w c r Ha H)
      as (c' & -> & A1 & _ & A3 & A4 & A5 & A6).
    rewrite Hk in A1, A4. rewrite !orb_true_r in A1. cbn in A1.
    split; [exact A4|]. split; [rewrite A5, A6; exact Hinv|].
    unfold winding. rewrite A1, A5, A3, Ha.
    destruct (isMcaRunning_ c); cbn; clear; lia.
  - destruct (isMcaRunning_ c) eqn:Hm.
    + destruct (mca_live c) eqn:Hl.
      2:{ rewrite (RunControl_pass_kill_no_mca w c Hk Ha Hm (Hinv eq_refl) Hl)
            in H. discriminate. }
      destruct (RunControl_pass_kill_mca w c Hk Ha Hm (Hinv eq_refl) Hl)
        as (c1 & K1 & K2 & K3 & K4 & K5 & K6 & E).
      rewrite E in H. clear E.
      pose proof (RunControl_start_frame w c1) as F. cbv zeta in F.
      destruct (RunControl_start cfg w c1) as [skip c2]. cbn [fst snd] in F.
      destruct F as (F1 & F2 & F3 & F4 & F5 & F6).
      assert (Hw : (1 <= winding c)%nat).
      { unfold winding. rewrite Ha, Hm. cbn. clear. lia. }
      destruct skip.
      * injection H as <-. rewrite F1, F2. split; [exact K1|].
        split; [rewrite K2; discriminate|].
        unfold winding. rewrite F2, K2, (F5 eq_refl), Ha, Hm. cbn. clear. lia.
      * destruct (RunControl_acq cfg w c2) as [c3| |] eqn:E; cbn [bind] in H;
          try discriminate.
        destruct (pass_tail c3) as [c4| |] eqn:Et; cbn [bind] in H;
          try discriminate.
        injection H as <-.
        assert (Hc3 : requests c3 = requests c2 /\
                      (acq_running (poll c3) = true ->
                       do_start_acq c = true)).
        { destruct (acq_running (poll c2)) eqn:Ha2.
          - apply RunControl_acq_spec in E; [|exact Ha2].
            destruct E as (E1 & _). split.
            + now apply same_but_poll_requests.
            + intros _. destruct (do_start_acq c) eqn:Hs; [reflexivity|].
              destruct (F6 K5) as [-> _]. congruence.
          - unfold RunControl_acq in E. rewrite Ha2 in E. cbn in E.
            injection E as <-. split; [reflexivity|]. congruence. }
        destruct Hc3 as [Hreq Hacq]. unfold requests in Hreq.
        injection Hreq as R1 R2 R3 R4 R5 R6.
        destruct (pass_tail_frame c3 c4 Et) as (T1 & T2 & _).
        unfold requests in T2.
        injection T2 as T2 T3 T4 T5 T6 T7.
        split; [congruence|]. split; [intros HH; congruence|].
        unfold winding. rewrite T1, T7, R6, F2, K2, Ha, Hm.
        destruct (acq_running (poll c3)).
        -- rewrite (Hacq eq_refl). cbn. clear. lia.
        -- cbn. clear. lia.
    + unfold RunControl_pass in H. rewrite Hk, Ha, Hm in H. cbn in H.
      injection H as <-. cbn. rewrite Ha, Hm. repeat split.
Qed.

End KillFacts.

(* ===================================================================== *)
(** ** The bound on the carried fragments *)

Section PartialFacts.
Variables (cfg : Config) (hw : Hardware).
Hypothesis fifo_fits_word : EXTERNAL_FIFO_LENGTH cfg + 16384 <= 2 ^ 32.

Ltac flag_step :=
  match goal with
  | |- context [bind (store cfg ?p ?v ?st) _] =>
      let E := fresh "E" in let s' := fresh "s" in
      destruct (store cfg p v st) as [s'| |] eqn:E; cbn [bind];
      try discriminate; apply store_eq in E; subst s'
  | |- context [bind (store_block cfg ?p ?l ?st) _] =>
      let E := fresh "E" in let s' := fresh "s" in
      destruct (store_block cfg p l st) as [s'| |] eqn:E; cbn [bind];
      try discriminate; apply store_block_flags in E;
      destruct E as (? & ? & ? & ? & ?)
  end.

Lemma parse_loop_partial (fuel : nat) (mod_ : nat) (slotExpected d n : Z)
    (ps ps' : parse_state) (s s' : Poll) :
  parse_loop fuel mod_ slotExpected d n ps s = Done (ps', s') ->
  partialEvents s' = partialEvents s.
Proof.
  revert ps s. induction fuel as [|fuel IH]; intros ps s; [discriminate|].
  cbn [parse_loop]. destruct (parseWords ps <? d + n).
  2:{ intros [= <- <-]. reflexivity. }
  rewrite channel_check_dead. cbv zeta.
  set (w := fifoData s (parseWords ps)).
  set (s3 := if eventSizeRead w =? 0 then _ else _).
  assert (H3 : partialEvents s3 = partialEvents s).
  { subst s3.
    destruct (eventSizeRead w =? 0); destruct (negb (slotRead w =? slotExpected));
      reflexivity. }
  clearbody s3. destruct (had_error s3).
  - intros [= <- <-]. exact H3.
  - set (s4 := if negb (virtualChannel w) then _ else s3).
    assert (H4 : partialEvents s4 = partialEvents s3).
    { subst s4. destruct (negb (virtualChannel w)); reflexivity. }
    clearbody s4. intros Hrun. apply IH in Hrun. congruence.
Qed.

(** A pass over a module that ends the cycle leaves every carried
    fragment as it was or empty. *)
Lemma drain_module_stop_partial (nWords : list Z) (mod_ : nat) (s : Poll)
    (d : Z) (s' : Poll) :
  drain_module cfg hw nWords mod_ s d = Done (Stop s') ->
  forall m, partialEvents s' m = partialEvents s m \/ partialEvents s' m = [].
Proof.
  unfold drain_module. set (nw := nth mod_ nWords 0).
  destruct (nw <? MIN_FIFO_READ cfg).
  { unfold empty_record. repeat flag_step; try discriminate. }
  destruct (nw <? 0).
  { unfold empty_record. repeat flag_step; try discriminate. }
  destruct (EXTERNAL_FIFO_LENGTH cfg <=? nw).
  { intros [= <-] m. left. reflexivity. }
  cbv zeta. flag_step. flag_step.
  destruct (negb (ReadFIFOWords_ok hw mod_)).
  { intros [= <-] m. left. cbn in *. congruence. }
  flag_step.
  match goal with
  | |- context [set_partial mod_ [] ?st] => set (sp := set_partial mod_ [] st)
  end.
  assert (Hsp : forall m, partialEvents sp m = partialEvents s m \/
                          partialEvents sp m = []).
  { intros m. subst sp.
    match goal with
    | |- context [if ?b then _ else _] => destruct b
    end; cbn; (destruct (Nat.eqb m mod_); [right; reflexivity|left]);
      cbn in *; congruence. }
  clearbody sp.
  match goal with
  | |- context [bind (parse_loop ?f ?m ?sl ?dd ?n ?ps ?st) _] =>
      destruct (parse_loop f m sl dd n ps st) as [[ps' s3]| |] eqn:Ep;
      cbn [bind]; try discriminate
  end.
  apply parse_loop_partial in Ep.
  destruct (_ <? parseWords ps').
  - destruct (copy_partial _ _ _ _ _) as [frag| |]; cbn [bind]; try discriminate.
    flag_step; try discriminate.
  - destruct (parseWords ps' <? _).
    + match goal with
      | |- context [bind (dump_corrupted cfg ?m ?dd ?n ?ps ?st) _] =>
          destruct (dump_corrupted cfg m dd n ps st) as [s4| |] eqn:Ed;
          cbn [bind]; try discriminate
      end.
      apply dump_corrupted_flags in Ed. destruct Ed as (_ & _ & C & _).
      intros [= <-] m. rewrite C, Ep. apply Hsp.
    + flag_step; try discriminate.
Qed.

Lemma drain_modules_partial_ok (nWords : list Z) (mods : list nat) (s : Poll)
    (d : Z) (r : step) :
  (forall m, 0 <= nth m nWords 0 < 2 ^ 32) ->
  0 <= d ->
  (forall m, partial_ok s m) ->
  drain_modules cfg hw nWords mods s d = Done r ->
  forall m, partial_ok match r with Next s' _ | Stop s' => s' end m.
Proof.
  intros Hcounts. revert s d.
  induction mods as [|m0 rest IH]; intros s d Hd Hp.
  - intros [= <-]. exact Hp.
  - cbn [drain_modules].
    pose proof (drain_module_spec cfg hw nWords fifo_fits_word m0 s d Hd
                  (Hcounts m0) (Hp m0)) as Hm.
    destruct (drain_module cfg hw nWords m0 s d) as [[s1 d1|s1]| |] eqn:E;
      cbn [bind]; try discriminate.
    + destruct Hm as ((Hd1 & _ & _ & _ & _ & Hoth1 & Hok1 & _) & _).
      apply IH; [lia|].
      intros m'. destruct (Nat.eq_dec m' m0) as [->|Hne]; [exact Hok1|].
      unfold partial_ok. rewrite Hoth1 by exact Hne. apply Hp.
    + intros [= <-] m.
      destruct (drain_module_stop_partial nWords m0 s d s1 E m) as [H|H];
        unfold partial_ok; rewrite H; [apply Hp | cbn; lia].
Qed.

End PartialFacts.

(** The bound on the carried fragments is kept by [ReadFIFO]. *)
Lemma ReadFIFO_partial (cfg : Config) (hw : Hardware) (s s' : Poll)
    (b : bool) :
  EXTERNAL_FIFO_LENGTH cfg + 16384 <= 2 ^ 32 ->
  (forall m, partial_ok s m) ->
  ReadFIFO cfg hw s = Done (b, s') ->
  forall m, partial_ok s' m.
Proof.
  intros Hfit Hp H.
  destruct (ReadFIFO_cases cfg hw s s' b H)
    as [(_ & _ & ->) | [(E & _) | [(E & _) | (s1 & d & E & _ & Hb)]]].
  - exact Hp.
  - pose proof (drain_cycle_spec cfg hw Hfit s Hp) as Hs. rewrite E in Hs.
    destruct Hs as [-> _]. exact Hp.
  - revert E. unfold drain_cycle. destruct (acq_running s); cbn [negb];
      [|discriminate].
    pose proof (cycle_counts_range cfg hw s) as Hrange.
    unfold cycle_counts in Hrange.
    destruct (poll_loop cfg hw (threshWords s) POLL_TRIES 0) as [[nWords mx]| |];
      cbn [bind]; try discriminate.
    destruct ((threshWords s <? mx) || force_spill s); [|discriminate].
    destruct (drain_modules cfg hw nWords _ _ 0) as [[s2 d2|s2]| |] eqn:E2;
      cbn [bind]; try discriminate.
    intros [= <-].
    exact (drain_modules_partial_ok cfg hw Hfit nWords _
             (set_force_spill false s) 0 (Stop s2) Hrange ltac:(lia) Hp E2).
  - pose proof (drain_cycle_spec cfg hw Hfit s Hp) as Hs. rewrite E in Hs.
    destruct Hs as (_ & _ & _ & Hok & _).
    destruct (ReadFIFO_emits cfg hw s s1 d E) as (s'' & Hr & Hpe & _).
    rewrite H in Hr. injection Hr as -> ->.
    intros m. unfold partial_ok. rewrite Hpe. apply Hok.
Qed.

(** X16. The fragment that [ReadFIFO] carries for a module from one call
    to the next is always shorter than the longest event: if no carried
    fragment has more than 16382 words before a call, none has after it,
    however the call ends. *)
Theorem ReadFIFO_partial_ok (cfg : Config) (hw : Hardware) (s s' : Poll)
    (b : bool) :
  EXTERNAL_FIFO_LENGTH cfg + 16384 <= 2 ^ 32 ->
  (forall m, partial_ok s m) ->
  ReadFIFO cfg hw s = Done (b, s') ->
  forall m, partial_ok s' m.
Proof.
  intros Hfit Hp H. exact (ReadFIFO_partial cfg hw s s' b Hfit Hp H).
Qed.

Lemma ReadFIFO_partial_ok_witness :
  let s := acquiring 0 in
  (forall m, partial_ok s m) /\
  forall m, partial_ok (state_after (ReadFIFO crate first_fifo s) s) m.
Proof.
  intros s.
  assert (Hp : forall m, partial_ok s m) by (intros m; vm_compute; discriminate).
  split; [exact Hp|].
  apply (ReadFIFO_partial_ok crate first_fifo s _ true).
  - vm_compute. discriminate.
  - exact Hp.
  - vm_compute. reflexivity.
Defined.

(* ===================================================================== *)
(** ** Well-formed controllers *)

Lemma write_data_file_open (cfg : Config) (nWords : Z) (s : Poll) :
  file_open s = is_open (output_file s) ->
  let s' := snd (write_data cfg nWords s) in
  file_open s' = is_open (output_file s').
Proof.
  unfold write_data, OpenOutputFile, CloseOutputFile, OutputFile.OpenNewFile,
    OutputFile.Write, OutputFile.CloseFile.
  repeat match goal with
         | |- context [if ?b then _ else _] => destruct b eqn:?; cbn in *
         end; congruence.
Qed.

Lemma ReadFIFO_file_open (cfg : Config) (hw : Hardware) (s s' : Poll)
    (b : bool) :
  file_open s = is_open (output_file s) ->
  ReadFIFO cfg hw s = Done (b, s') ->
  file_open s' = is_open (output_file s').
Proof.
  intros Hc H.
  destruct (ReadFIFO_cases cfg hw s s' b H)
    as [(_ & _ & ->) | [(E & _) | [(E & _) | (s1 & d & E & _ & Hb)]]].
  - exact Hc.
  - apply drain_cycle_flags in E. destruct E as [-> _]. exact Hc.
  - apply drain_cycle_flags in E. destruct E as (E & _).
    unfold setup in E. injection E as _ _ _ _ _ _ E1 _ E2. congruence.
  - apply drain_cycle_flags in E. destruct E as (E & _).
    unfold setup in E. injection E as _ _ _ _ _ _ E1 _ E2.
    cbv zeta in Hb.
    set (s2 := if negb (is_quiet s1) || debug_mode s1 then _ else s1) in Hb.
    assert (H2 : file_open s2 = is_open (output_file s2)).
    { subst s2. destruct (negb (is_quiet s1) || debug_mode s1); cbn;
        congruence. }
    clearbody s2.
    set (s3 := if record_data s2 then _ else s2) in Hb.
    assert (H3 : file_open s3 = is_open (output_file s3)).
    { subst s3. destruct (record_data s2); [|exact H2].
      now apply write_data_file_open. }
    clearbody s3.
    apply broadcast_data_only_sends in Hb. destruct Hb as (l & -> & _).
    exact H3.
Qed.

Section WellFormed.
Variable cfg : Config.
Hypothesis fifo_fits_word : EXTERNAL_FIFO_LENGTH cfg + 16384 <= 2 ^ 32.

(** A predicate on [poll] that the flags do not enter. *)
Lemma consistent_eq (s s' : Poll) :
  partialEvents s' = partialEvents s -> file_open s' = file_open s ->
  output_file s' = output_file s -> consistent s -> consistent s'.
Proof.
  intros H1 H2 H3 [A B]. split.
  - intros m. unfold partial_ok. rewrite H1. apply A.
  - congruence.
Qed.

Lemma consistent_set_partial (m : nat) (s : Poll) :
  consistent s -> consistent (set_partial m [] s).
Proof.
  intros [A B]. split; [|exact B].
  intros m'. unfold partial_ok. cbn. destruct (Nat.eqb m' m); [cbn; lia|].
  apply A.
Qed.

Lemma call_ReadFIFO_wf (hw : Hardware) (c : Control) :
  consistent (poll c) ->
  match call_ReadFIFO cfg hw c with
  | Done c' => consistent (poll c') /\ same_but_poll c c'
  | Undefined => True
  | OutOfFuel => False
  end.
Proof.
  intros [A B]. unfold call_ReadFIFO.
  pose proof (ReadFIFO_fuel cfg hw (poll c) fifo_fits_word A) as Hf.
  destruct (ReadFIFO cfg hw (poll c)) as [[b s']| |] eqn:E; cbn [bind];
    [|exact I|congruence].
  split.
  - split.
    + exact (ReadFIFO_partial cfg hw (poll c) s' b fifo_fits_word A E).
    + exact (ReadFIFO_file_open cfg hw (poll c) s' b B E).
  - apply same_but_poll_with.
Qed.

Lemma end_modules_wf (w : Pass) (mods : list nat) (c : Control) :
  consistent (poll c) ->
  match end_modules cfg w mods c with
  | Done c' => consistent (poll c') /\ same_but_poll c c'
  | Undefined => True
  | OutOfFuel => False
  end.
Proof.
  revert c. induction mods as [|m rest IH]; intros c Hc.
  - cbn. split; [exact Hc | apply same_but_poll_refl].
  - cbn [end_modules].
    set (r1 := if run_status w m 0 =? 1 then _ else Done c).
    assert (H1 : match r1 with
                 | Done c' => consistent (poll c') /\ same_but_poll c c'
                 | Undefined => True
                 | OutOfFuel => False
                 end).
    { subst r1. destruct (run_status w m 0 =? 1).
      - set (c0 := log Sleep _).
        assert (H0 : consistent (poll c0) /\ same_but_poll c c0).
        { subst c0. destruct (negb (is_quiet (poll c))); cbn; split;
            try (eapply consistent_eq; [..|exact Hc]; reflexivity);
            destruct c; reflexivity. }
        clearbody c0. destruct H0 as [H0 H0'].
        destruct (negb (had_error (poll c0))); [|split; assumption].
        pose proof (call_ReadFIFO_wf (fifo w (S m)) c0 H0) as Hr.
        destruct (call_ReadFIFO cfg (fifo w (S m)) c0); try exact Hr.
        destruct Hr as [Hr Hr']. split; [exact Hr|].
        eapply same_but_poll_trans; eassumption.
      - split; [exact Hc | apply same_but_poll_refl]. }
    clearbody r1. destruct r1 as [c1| |]; cbn [bind]; try exact H1.
    destruct H1 as [H1 H1']. cbv zeta.
    match goal with
    | |- match end_modules cfg w rest ?cc with _ => _ end => set (c2 := cc)
    end.
    assert (H2 : consistent (poll c2) /\ same_but_poll c1 c2).
    { subst c2.
      destruct (partialEvents (poll c1) m), (run_status w m 1 =? 0); cbn;
        split;
        try (apply consistent_set_partial);
        try (eapply consistent_eq; [..|exact H1]; reflexivity);
        try exact H1; destruct c1; reflexivity. }
    clearbody c2. destruct H2 as [H2 H2'].
    specialize (IH c2 H2).
    destruct (end_modules cfg w rest c2); try exact IH.
    destruct IH as [IH IH']. split; [exact IH|].
    eapply same_but_poll_trans; [exact H1'|].
    eapply same_but_poll_trans; eassumption.
Qed.

Lemma CloseOutputFile_consistent (b : bool) (s : Poll) :
  consistent s -> consistent (snd (CloseOutputFile cfg b s)).
Proof.
  intros [A B]. unfold CloseOutputFile.
  destruct s as [ar sm qu dbg th fs he ds rd fo nr pe fd ofl o].
  destruct ofl as [op sz sb].
  destruct op, b; (split; [exact A | reflexivity]).
Qed.

Lemma OpenOutputFile_consistent (b : bool) (s : Poll) :
  consistent s -> consistent (snd (OpenOutputFile cfg b s)).
Proof.
  intros [A B]. unfold OpenOutputFile, CloseOutputFile, OutputFile.OpenNewFile.
  destruct s as [ar sm qu dbg th fs he ds rd fo nr pe fd ofl o].
  destruct ofl as [op sz sb]. cbn in B.
  destruct op, (path_writable cfg);
    (split; [exact A | cbn; congruence]).
Qed.

Lemma RunControl_stop_wf (w : Pass) (c : Control) :
  consistent (poll c) ->
  match RunControl_stop cfg w c with
  | Done c' => consistent (poll c') /\ same_but_poll c c'
  | Undefined => True
  | OutOfFuel => False
  end.
Proof.
  intros Hc. unfold RunControl_stop.
  set (r0 := if negb (had_error (poll c)) then _ else Done c).
  assert (H0 : match r0 with
               | Done c' => consistent (poll c') /\ same_but_poll c c'
               | Undefined => True
               | OutOfFuel => False
               end).
  { subst r0. destruct (negb (had_error (poll c))).
    - apply call_ReadFIFO_wf. exact Hc.
    - split; [exact Hc | apply same_but_poll_refl]. }
  clearbody r0. destruct r0 as [c0| |]; cbn [bind]; try exact H0.
  destruct H0 as [H0 H0']. cbv zeta.
  pose proof (end_modules_wf w (seq 0 (n_cards cfg)) (log PifEndRun c0) H0)
    as H1.
  destruct (end_modules cfg w _ (log PifEndRun c0)) as [c1| |]; cbn [bind];
    try exact H1.
  destruct H1 as [H1 H1'].
  set (c2 := log StatsClearTotals _).
  assert (H2 : consistent (poll c2) /\ same_but_poll c1 c2).
  { subst c2. split; [|destruct c1; reflexivity].
    eapply consistent_eq; [..|exact H1]; reflexivity. }
  clearbody c2. destruct H2 as [H2 H2'].
  set (c3 := if is_open (output_file (poll c2)) then _ else c2).
  assert (H3 : consistent (poll c3) /\ same_but_poll c2 c3).
  { subst c3. destruct (is_open (output_file (poll c2))).
    - split; [|apply same_but_poll_with].
      apply CloseOutputFile_consistent. exact H2.
    - split; [exact H2 | apply same_but_poll_refl]. }
  clearbody c3. destruct H3 as [H3 H3']. split.
  - eapply consistent_eq; [..|exact H3]; reflexivity.
  - eapply same_but_poll_trans; [exact H0'|].
    eapply same_but_poll_trans; [apply same_but_poll_log|].
    eapply same_but_poll_trans; [exact H1'|].
    eapply same_but_poll_trans; [exact H2'|].
    eapply same_but_poll_trans; [exact H3'|]. apply same_but_poll_with.
Qed.

Lemma RunControl_acq_wf (w : Pass) (c : Control) :
  consistent (poll c) ->
  match RunControl_acq cfg w c with
  | Done c' => consistent (poll c') /\ same_but_poll c c'
  | Undefined => True
  | OutOfFuel => False
  end.
Proof.
  intros Hc. unfold RunControl_acq.
  destruct (negb (acq_running (poll c))).
  { split; [exact Hc | apply same_but_poll_refl]. }
  set (ca := if time_is_up w c then snd (stop_run c) else c).
  assert (Ha : consistent (poll ca) /\ same_but_poll c ca).
  { subst ca. destruct (time_is_up w c).
    - unfold stop_run.
      destruct (negb (acq_running (poll c)) && negb (doMcaRun_ c)); cbn;
        [split; [exact Hc | destruct c; reflexivity]|].
      destruct (record_data (poll c)); cbn; split;
        try (eapply consistent_eq; [..|exact Hc]; reflexivity);
        destruct c; reflexivity.
    - split; [exact Hc | apply same_but_poll_refl]. }
  clearbody ca. destruct Ha as [Ha Ha'].
  set (r1 := if do_stop_acq (poll ca) then _ else Done ca).
  assert (H1 : match r1 with
               | Done c' => consistent (poll c') /\ same_but_poll ca c'
               | Undefined => True
               | OutOfFuel => False
               end).
  { subst r1. destruct (do_stop_acq (poll ca)).
    - apply RunControl_stop_wf. exact Ha.
    - split; [exact Ha | apply same_but_poll_refl]. }
  clearbody r1. destruct r1 as [c1| |]; cbn [bind]; try exact H1.
  destruct H1 as [H1 H1'].
  pose proof (call_ReadFIFO_wf (fifo w (S (n_cards cfg))) c1 H1) as H2.
  destruct (call_ReadFIFO cfg _ c1); try exact H2.
  destruct H2 as [H2 H2']. split; [exact H2|].
  eapply same_but_poll_trans; [exact Ha'|].
  eapply same_but_poll_trans; eassumption.
Qed.

(** What the start part of a pass keeps. *)
Lemma RunControl_start_wf (w : Pass) (c : Control) :
  consistent (poll c) ->
  consistent (poll (snd (RunControl_start cfg w c))).
Proof.
  intros Hc. unfold RunControl_start.
  destruct (negb (do_start_acq c)); [exact Hc|].
  destruct (acq_running (poll c)); [exact Hc|].
  set (p := if record_data (poll c) then _ else (true, c)).
  assert (Hp : consistent (poll (snd p))).
  { subst p. destruct (record_data (poll c)); [|exact Hc]. cbn [snd].
    apply OpenOutputFile_consistent.
    destruct (is_open (output_file (poll c))); [|exact Hc].
    apply CloseOutputFile_consistent. exact Hc. }
  clearbody p. destruct p as [ok c1]. cbn [snd] in Hp.
  destruct (negb ok); cbn [snd].
  - eapply consistent_eq; [..|exact Hp]; reflexivity.
  - destruct (list_mode_starts w);
      (eapply consistent_eq; [..|exact Hp]; reflexivity).
Qed.

Lemma RunControl_mca_frame (w : Pass) (c : Control) :
  match RunControl_mca w c with
  | Done r =>
      partialEvents (poll (snd r)) = partialEvents (poll c) /\
      file_open (poll (snd r)) = file_open (poll c) /\
      output_file (poll (snd r)) = output_file (poll c) /\
      kill_all (snd r) = kill_all c /\
      ((isMcaRunning_ c = true -> doMcaRun_ c = true) ->
       isMcaRunning_ (snd r) = true -> doMcaRun_ (snd r) = true)
  | Undefined => True
  | OutOfFuel => False
  end.
Proof.
  unfold RunControl_mca.
  destruct c as [s ka sa rb ex dm im ml len ini rt dir pre ti fmt num ft ast tr].
  destruct s as [ar sm qu dbg th fs he ds rd fo nr pe fd ofl o].
  destruct w as [ms mm mrt mst lms sc ck rs wl ff].
  destruct dm, ar, im, ml, ms, mm, ds, mst;
    ctl_compute_q; q_cases; ctl_compute_q;
    try exact I; repeat split; try reflexivity; try discriminate;
    intros H H2;
    first [reflexivity | discriminate | exact (H eq_refl) | exact (H H2)].
Qed.

Lemma RunControl_mca_wf (w : Pass) (c : Control) :
  well_formed c ->
  match RunControl_mca w c with
  | Done r => well_formed (snd r) /\ kill_all (snd r) = kill_all c
  | Undefined => True
  | OutOfFuel => False
  end.
Proof.
  intros [Hc Hm]. pose proof (RunControl_mca_frame w c) as F.
  destruct (RunControl_mca w c) as [r| |]; try exact F.
  destruct F as (F1 & F2 & F3 & F4 & F5).
  split; [|exact F4]. split; [|exact (F5 Hm)].
  eapply consistent_eq; eassumption.
Qed.

Lemma well_formed_eq (c c' : Control) :
  partialEvents (poll c') = partialEvents (poll c) ->
  file_open (poll c') = file_open (poll c) ->
  output_file (poll c') = output_file (poll c) ->
  isMcaRunning_ c' = isMcaRunning_ c -> doMcaRun_ c' = doMcaRun_ c ->
  well_formed c -> well_formed c'.
Proof.
  intros H1 H2 H3 H4 H5 [A B]. split.
  - eapply consistent_eq; eassumption.
  - rewrite H4, H5. exact B.
Qed.

(** A pass of the loop of [RunControl] returns, apart from undefined
    behaviour, and keeps the controller well formed. *)
Lemma RunControl_pass_wf (w : Pass) (c : Control) :
  well_formed c ->
  match RunControl_pass cfg w c with
  | Done r => well_formed (pass_ctl r) /\ kill_all (pass_ctl r) = kill_all c
  | Undefined => True
  | OutOfFuel => False
  end.
Proof.
  intros Hw. unfold RunControl_pass.
  destruct (kill_all c && negb (acq_running (poll c) || isMcaRunning_ c)).
  { cbn. split; [|reflexivity].
    eapply well_formed_eq; [..|exact Hw]; reflexivity. }
  set (c1 := if kill_all c then _ else c).
  assert (H1 : well_formed c1 /\ kill_all c1 = kill_all c).
  { subst c1. destruct (kill_all c) eqn:Hk; [|split; [exact Hw|exact Hk]].
    split; [|exact Hk]. eapply well_formed_eq; [..|exact Hw]; reflexivity. }
  clearbody c1. destruct H1 as [H1 K1].
  set (c2 := if do_reboot c1 then _ else c1).
  assert (H2 : well_formed c2 /\ kill_all c2 = kill_all c).
  { subst c2. destruct (do_reboot c1); [|split; assumption].
    destruct (acq_running (poll c1));
      (split; [eapply well_formed_eq; [..|exact H1]; reflexivity | exact K1]). }
  clearbody c2. clear H1 K1 c1. destruct H2 as [H2 K2].
  pose proof (RunControl_mca_wf w c2 H2) as H3.
  destruct (RunControl_mca w c2) as [[skip c3]| |]; cbn [bind];
    try exact H3.
  destruct H3 as [H3 K3]. cbn [snd] in H3, K3.
  destruct skip.
  { cbn. split; [exact H3 | congruence]. }
  pose proof (RunControl_start_wf w c3 (proj1 H3)) as H4.
  pose proof (RunControl_start_frame cfg w c3) as F. cbv zeta in F.
  destruct (RunControl_start cfg w c3) as [skip c4]. cbn [fst snd] in H4, F.
  destruct F as (F1 & F2 & F3 & _).
  assert (H4' : well_formed c4).
  { split; [exact H4|]. rewrite F2, F3. exact (proj2 H3). }
  destruct skip.
  { cbn. split; [exact H4' | congruence]. }
  pose proof (RunControl_acq_wf w c4 H4) as H5.
  destruct (RunControl_acq cfg w c4) as [c5| |]; cbn [bind]; try exact H5.
  destruct H5 as [H5 H5']. apply same_but_poll_requests in H5'.
  unfold requests in H5'. injection H5' as R1 R2 R3 R4 R5 R6.
  destruct (pass_tail c5) as [c6| |] eqn:Et; cbn [bind].
  2:{ exact I. }
  2:{ unfold pass_tail, UpdateStatus in Et.
      destruct (doMcaRun_ c5 && negb (mca_live c5)); discriminate Et. }
  destruct (pass_tail_frame c5 c6 Et) as (T1 & T2 & _). unfold requests in T2.
  injection T2 as T2 T3 T4 T5 T6 T7.
  cbn [pass_ctl]. split; [|congruence].
  split; [rewrite T1; exact H5|].
  rewrite T7, T6, R6, R5. exact (proj2 H4').
Qed.

End WellFormed.

(** X17. A kill always gets [RunControl] out of its loop: once [kill_all]
    is set, three passes are enough, whatever the modules do and whatever
    else was requested, and the loop is left with [run_ctrl_exit] set and
    with neither the acquisition nor the MCA running.  ([Undefined]: a pass
    went outside [fifoData], or used [mca_] while it points to no
    object.) *)
Theorem kill_ends_RunControl (cfg : Config) (ws : nat -> Pass) (n : nat)
    (c : Control) :
  EXTERNAL_FIFO_LENGTH cfg + 16384 <= 2 ^ 32 ->
  well_formed c ->
  kill_all c = true ->
  match RunControl cfg 3 ws n c with
  | Done c' =>
      run_ctrl_exit c' = true /\ acq_running (poll c') = false /\
      isMcaRunning_ c' = false
  | Undefined => True
  | OutOfFuel => False
  end.
Proof.
  intros Hfit Hwf Hk.
  assert (Hw : (winding c <= 2)%nat).
  { unfold winding.
    destruct (acq_running (poll c)), (isMcaRunning_ c), (do_start_acq c);
      cbn; clear; lia. }
  assert (step : forall w c0,
             well_formed c0 -> kill_all c0 = true ->
             match RunControl_pass cfg w c0 with
             | Done (Exited c') =>
                 run_ctrl_exit c' = true /\ acq_running (poll c') = false /\
                 isMcaRunning_ c' = false
             | Done (Again c') =>
                 well_formed c' /\ kill_all c' = true /\
                 (winding c' < winding c0)%nat
             | Undefined => True
             | OutOfFuel => False
             end).
  { intros w c0 Hwf0 Hk0.
    pose proof (RunControl_pass_wf cfg Hfit w c0 Hwf0) as P.
    pose proof (RunControl_pass_kill cfg w c0) as Q.
    destruct (RunControl_pass cfg w c0) as [r| |]; try exact P.
    specialize (Q r Hk0 (proj2 Hwf0) eq_refl).
    destruct r as [c'|c']; [|exact Q].
    destruct P as [P _]. destruct Q as (Q1 & _ & Q3).
    repeat split; try assumption; apply P. }
  cbn [RunControl].
  pose proof (step (ws n) c Hwf Hk) as S1.
  destruct (RunControl_pass cfg (ws n) c) as [[c1|c1]| |]; cbn [bind];
    try exact S1.
  destruct S1 as (Hwf1 & Hk1 & Hw1).
  pose proof (step (ws (S n)) c1 Hwf1 Hk1) as S2.
  destruct (RunControl_pass cfg (ws (S n)) c1) as [[c2|c2]| |]; cbn [bind];
    try exact S2.
  destruct S2 as (Hwf2 & Hk2 & Hw2).
  pose proof (step (ws (S (S n))) c2 Hwf2 Hk2) as S3.
  destruct (RunControl_pass cfg (ws (S (S n))) c2) as [[c3|c3]| |];
    cbn [bind]; try exact S3.
  destruct S3 as (_ & _ & Hw3). clear - Hw Hw1 Hw2 Hw3. lia.
Qed.

Lemma kill_ends_RunControl_witness :
  let c := set_kill_all true (controlling (acquiring 0)) in
  well_formed c /\
  match RunControl crate 3 (fun _ => calm_pass first_fifo 0) 0 c with
  | Done c' =>
      run_ctrl_exit c' = true /\ acq_running (poll c') = false /\
      isMcaRunning_ c' = false
  | Undefined => True
  | OutOfFuel => False
  end.
Proof.
  intros c.
  assert (Hw : well_formed c).
  { split; [split|].
    - intros m. vm_compute. discriminate.
    - reflexivity.
    - intros H. discriminate H. }
  split; [exact Hw|].
  apply (kill_ends_RunControl crate (fun _ => calm_pass first_fifo 0) 0 c).
  - vm_compute. discriminate.
  - exact Hw.
  - reflexivity.
Defined.

(* ===================================================================== *)
(** ** Commands *)

Ltac by_cases :=
  repeat match goal with
         | |- context [if ?b then _ else _] => destruct b eqn:?
         | |- context [match ?x with Args.StoiOk _ => _ | _ => _ end] =>
             destruct x
         end.

(** X18. While an output file is open, none of the commands that
    [CommandControl] carries out by itself (the ones modelled by [command])
    changes what names the output files: the directory, the prefix, the
    title, the next run number and the file counter stay as they are,
    whatever is typed, as long as the terminal does not report a
    segmentation fault. *)
Theorem file_open_locks_naming (cfg : Config) (cmd arg : string)
    (c : Control) :
  file_open (poll c) = true ->
  is_cmd cmd "_SIGSEGV_" = false ->
  naming (command_ctl (CommandControl_pass cfg cmd arg c) c) = naming c.
Proof.
  intros Hopen Hseg. unfold CommandControl_pass. rewrite Hseg.
  destruct (kill_all c); [reflexivity|].
  destruct (is_cmd cmd "CTRL_C" && negb (doMcaRun_ c)); [reflexivity|].
  destruct (is_cmd cmd "CTRL_Z"); [reflexivity|].
  set (p := if is_cmd cmd "CTRL_D" then _ else _).
  assert (Hp : naming (snd p) = naming c /\ file_open (poll (snd p)) = true).
  { subst p. destruct (is_cmd cmd "CTRL_D"); [split; [reflexivity|exact Hopen]|].
    destruct (is_cmd cmd "CTRL_C"); split; try reflexivity; exact Hopen. }
  clearbody p. destruct p as [cmd' c1]. cbn [snd] in Hp. destruct Hp as [Hn Ho].
  destruct (negb (pos_of (Args.find cmd' tab) =? npos)); [exact Hn|].
  destruct (negb (pos_of (Args.find arg tab) =? npos)).
  { destruct (_ || _); exact Hn. }
  destruct (String.eqb cmd' ""); [exact Hn|].
  set (c2 := with_poll _ c1).
  assert (H2 : naming c2 = naming c /\ file_open (poll c2) = true).
  { subst c2. split; [rewrite <- Hn; reflexivity | exact Ho]. }
  clearbody c2. destruct H2 as [H2 H2'].
  unfold command, cmd_fdir, cmd_prefix, cmd_title, cmd_runnum, start_run,
    stop_run.
  rewrite H2'.
  by_cases; cbn [command_ctl]; try exact Hn; try exact H2; reflexivity.
Qed.

Lemma file_open_locks_naming_witness :
  let c := controlling (recording 65552) in
  naming (command_ctl (CommandControl_pass crate "fdir" "/tmp" c) c) = naming c.
Proof.
  apply (file_open_locks_naming crate "fdir" "/tmp"
           (controlling (recording 65552))); reflexivity.
Defined.

(* ===================================================================== *)
(** ** The [title] command *)

Lemma take_length_le (n : nat) (s : string) :
  (String.length (Args.take n s) <= n)%nat.
Proof.
  revert s. induction n as [|n IH]; intros s; [cbn; lia|].
  destruct s as [|ch s]; cbn; [lia|]. specialize (IH s). lia.
Qed.

Lemma take_all (n : nat) (s : string) :
  (String.length s <= n)%nat -> Args.take n s = s.
Proof.
  revert s. induction n as [|n IH]; intros s H.
  - destruct s; [reflexivity | cbn in H; lia].
  - destruct s as [|ch s]; [reflexivity|]. cbn. f_equal. apply IH.
    cbn in H. lia.
Qed.

Lemma take_app_exact (a b : string) :
  Args.take (String.length a) (a ++ b) = a.
Proof. induction a as [|ch a IH]; cbn; [destruct b; reflexivity | now f_equal]. Qed.

Lemma length_append (a b : string) :
  String.length (a ++ b) = (String.length a + String.length b)%nat.
Proof. induction a as [|ch a IH]; cbn; [reflexivity | now f_equal]. Qed.

(** The title after the cut to 80 characters. *)
Lemma title_cut (t : string) :
  (if 80 <? size t then substr_sz t 0 80 else t) = Args.take 80 t.
Proof.
  unfold size, substr_sz. destruct (80 <? Z.of_nat (String.length t)) eqn:E.
  - apply Z.ltb_lt in E. change (Z.to_nat 0) with 0%nat. cbn [Args.drop].
    replace (Z.min 80 (size t - 0)) with 80 by (unfold size; lia).
    reflexivity.
  - apply Z.ltb_ge in E. symmetry. apply take_all. lia.
Qed.

Lemma find_first (s : string) (ch : ascii) :
  (pos_of (Args.find s ch) =? 0) = true <->
  exists rest, s = String ch rest.
Proof.
  destruct s as [|c0 s]; cbn.
  - split; [discriminate | intros [rest H]; discriminate].
  - destruct (Ascii.eqb_spec c0 ch) as [->|Hne]; cbn.
    + split; [eauto | reflexivity].
    + split.
      * destruct (Args.find s ch); cbn; intros H;
          first [discriminate H | apply Z.eqb_eq in H; unfold npos in H; lia].
      * intros [rest [= H _]]. contradiction.
Qed.

Lemma find_last_of_end (s : string) (ch : ascii) :
  s <> EmptyString ->
  find_last_of s ch = Some (String.length s - 1)%nat <->
  last_char s = Some ch.
Proof.
  induction s as [|c0 s IH]; intros Hne; [contradiction|].
  cbn [find_last_of last_char String.length].
  destruct s as [|c1 s].
  - cbn. destruct (Ascii.eqb_spec c0 ch) as [->|H]; split; intros E;
      try reflexivity; try discriminate. injection E as E. contradiction.
  - assert (Hs : String c1 s <> EmptyString) by discriminate.
    specialize (IH Hs). remember (String c1 s) as t eqn:Ht.
    replace (S (String.length t) - 1)%nat with (S (String.length t - 1))
      by (rewrite Ht; cbn; lia).
    destruct (find_last_of t ch) as [q|] eqn:Eq.
    + split.
      * intros [= E]. apply IH. now rewrite E.
      * intros E. apply IH in E. injection E as ->. reflexivity.
    + split.
      * destruct (Ascii.eqb c0 ch); discriminate.
      * intros E. apply IH in E. discriminate.
Qed.

Lemma last_char_append (a : string) (ch : ascii) :
  last_char (a ++ String ch "") = Some ch.
Proof.
  induction a as [|c0 a IH]; [reflexivity|].
  cbn [append last_char]. destruct (a ++ String ch "")%string eqn:E.
  - destruct a; discriminate.
  - exact IH.
Qed.

(** The test for a title within double quotes. *)
Lemma quoted_test (arg : string) :
  arg <> EmptyString -> size arg < 2 ^ 64 ->
  ((pos_of (Args.find arg quote) =? 0)
   && (pos_of (find_last_of arg quote) =? to_size (size arg - 1))) = true <->
  (exists rest, arg = String quote rest) /\ last_char arg = Some quote.
Proof.
  intros Hne Hsz. rewrite andb_true_iff, find_first.
  rewrite <- (find_last_of_end arg quote Hne).
  assert (Hlen : (0 < String.length arg)%nat).
  { destruct arg; [contradiction | cbn; lia]. }
  unfold size in *. unfold to_size.
  rewrite Z.mod_small by lia.
  split; intros [H1 H2]; (split; [exact H1|]).
  - apply Z.eqb_eq in H2.
    destruct (find_last_of arg quote) as [p|] eqn:E; cbn in H2.
    + f_equal. lia.
    + unfold npos in H2. lia.
  - rewrite H2. cbn. apply Z.eqb_eq. lia.
Qed.

(** X19. The [title] command takes a title within double quotes without
    the quotes and any other argument as it is, and cuts the result to the
    80 characters that the file header has room for; an argument that is a
    single double quote gives the empty title. *)
Theorem cmd_title_strips_quotes (arg : string) (c : Control) :
  arg <> EmptyString -> size arg < 2 ^ 64 ->
  file_open (poll c) = false -> output_format c = 0 ->
  let t := output_title (cmd_title arg c) in
  size t <= 80 /\
  (forall body, arg = String quote (body ++ String quote "") ->
     t = Args.take 80 body) /\
  (arg = String quote "" -> t = EmptyString) /\
  ((forall rest, arg <> String quote rest) \/ last_char arg <> Some quote ->
     t = Args.take 80 arg).
Proof.
  intros Hne Hsz Hopen Hfmt. unfold cmd_title.
  replace (String.eqb arg "") with false
    by (symmetry; apply String.eqb_neq; exact Hne).
  rewrite Hopen.
  pose proof (quoted_test arg Hne Hsz) as Hq.
  set (test := (pos_of (Args.find arg quote) =? 0) && _) in *.
  set (t0 := if test
             then substr_sz arg 1 (to_size (size arg - 2)) else arg).
  assert (Ht : output_title
               (let c0 := if test
                          then set_output_title
                                 (substr_sz arg 1 (to_size (size arg - 2))) c
                          else set_output_title arg c in
                let c1 := if (output_format c0 =? 0)
                             && (80 <? size (output_title c0))
                          then set_output_title
                                 (substr_sz (output_title c0) 0 80)
                                 (say (MsgTitleTooLong
                                         (size (output_title c0) - 80)) c0)
                          else c0 in
                say (MsgTitleSet (output_title c1)) c1) = Args.take 80 t0).
  { subst t0. rewrite <- title_cut.
    destruct test; cbn; rewrite Hfmt; cbn;
      match goal with
      | |- context [80 <? ?x] => destruct (80 <? x)
      end; reflexivity. }
  cbv zeta. cbv zeta in Ht. rewrite Ht. clear Ht.
  split; [|split; [|split]].
  - unfold size. pose proof (take_length_le 80 t0). lia.
  - intros body ->. subst t0.
    replace test with true.
    2:{ symmetry. apply Hq. split; [eauto|].
        change (String quote (body ++ String quote ""))
          with ((String quote body) ++ String quote "")%string.
        apply last_char_append. }
    f_equal. unfold substr_sz, size, to_size.
    cbn [String.length]. rewrite length_append. cbn [String.length].
    unfold size in Hsz. cbn [String.length] in Hsz.
    rewrite length_append in Hsz. cbn [String.length] in Hsz.
    rewrite Z.mod_small by lia.
    change (Z.to_nat 1) with 1%nat. cbn [Args.drop].
    rewrite Z.min_l by lia.
    replace (Z.to_nat _) with (String.length body) by lia.
    apply take_app_exact.
  - intros ->. subst t0 test. reflexivity.
  - intros Hnot. subst t0.
    replace test with false; [reflexivity|].
    symmetry. apply not_true_iff_false. intros Htest. apply Hq in Htest.
    destruct Htest as [[rest Hr] Hl]. destruct Hnot as [Hn|Hn].
    + exact (Hn rest Hr).
    + exact (Hn Hl).
Qed.

Lemma cmd_title_strips_quotes_witness :
  let arg := String quote ("beam on target" ++ String quote "") in
  let t := output_title (cmd_title arg (Control_init 0)) in
  size t <= 80 /\
  (forall body, arg = String quote (body ++ String quote "") ->
     t = Args.take 80 body) /\
  (arg = String quote "" -> t = EmptyString) /\
  ((forall rest, arg <> String quote rest) \/ last_char arg <> Some quote ->
     t = Args.take 80 arg).
Proof.
  apply (cmd_title_strips_quotes
           (String quote ("beam on target" ++ String quote ""))
           (Control_init 0)).
  - discriminate.
  - vm_compute. reflexivity.
  - reflexivity.
  - reflexivity.
Defined.

(* ===================================================================== *)
(** ** The [runnum] command *)

(** A command line without tabulator reaches the commands with [had_error]
    cleared. *)
Lemma CommandControl_runnum (cfg : Config) (arg : string) (c : Control) :
  kill_all c = false -> Args.find arg tab = None ->
  CommandControl_pass cfg "runnum" arg c =
    cmd_runnum cfg arg (with_poll (set_had_error false (poll c)) c).
Proof.
  intros Hk Ht. unfold CommandControl_pass. rewrite Hk, Ht. reflexivity.
Qed.

Lemma stoi_no_digit (ch : ascii) (rest : string) :
  Args.is_space ch = false -> Args.is_digit ch = false ->
  ch <> "-"%char -> ch <> "+"%char ->
  Args.stoi (String ch rest) = Args.StoiInvalidArgument.
Proof.
  intros Hs Hd Hm Hp. unfold Args.stoi. cbn [Args.skip_space]. rewrite Hs.
  assert (E : match String ch rest with
              | String "-" r0 => (true, r0)
              | String "+" r0 => (false, r0)
              | _ => (false, String ch rest)
              end = (false, String ch rest)).
  { destruct ch as [[] [] [] [] [] [] [] []]; try reflexivity;
      exfalso; first [apply Hm; reflexivity | apply Hp; reflexivity]. }
  rewrite E. cbn [Args.read_digits]. rewrite Hd. reflexivity.
Qed.

(** X20. The [runnum] command does not check its argument: one that does
    not start with a number, or whose number does not fit an [int], makes
    [std::stoi] throw, and nothing in [CommandControl] catches the
    exception; a negative number is accepted and converted to
    [unsigned int], and the run number that [GetNextFileName] then finds
    free is stored in the same [unsigned int], so it wraps around as
    well. *)
Theorem runnum_unchecked (cfg : Config) (arg : string) (c : Control) :
  kill_all c = false -> file_open (poll c) = false ->
  Args.find arg tab = None ->
  let c0 := with_poll (set_had_error false (poll c)) c in
  let r := CommandControl_pass cfg "runnum" arg c in
  (forall ch rest,
     arg = String ch rest -> Args.is_space ch = false ->
     Args.is_digit ch = false -> ch <> "-"%char -> ch <> "+"%char ->
     r = Uncaught Args.StoiInvalidArgument c0) /\
  (forall neg ds,
     arg = Args.numeral neg ds -> Args.all_digits ds = true ->
     (~ Args.in_int (Args.numeral_val neg ds) ->
      r = Uncaught Args.StoiOutOfRange c0) /\
     (Args.in_int (Args.numeral_val neg ds) ->
      exists c', r = Prompt c' /\
        next_run_num (poll c') =
          to_word (next_free_run cfg (to_word (Args.numeral_val neg ds))))).
Proof.
  intros Hk Hopen Ht c0 r. subst r.
  rewrite (CommandControl_runnum cfg arg c Hk Ht). fold c0.
  assert (Hc0 : file_open (poll c0) = false) by exact Hopen.
  clearbody c0. unfold cmd_runnum. rewrite Hc0. split.
  - intros ch rest -> Hs Hd Hm Hp. cbn [String.eqb].
    rewrite (stoi_no_digit ch rest Hs Hd Hm Hp). reflexivity.
  - intros neg ds -> Hd.
    assert (Hne : String.eqb (Args.numeral neg ds) "" = false).
    { destruct neg, ds; try reflexivity. discriminate Hd. }
    rewrite Hne.
    pose proof (stoi_numeral_any neg ds EmptyString Hd I) as Hst.
    rewrite append_nil_r in Hst. rewrite Hst. split; intros Hin.
    + rewrite (out_of_int _ Hin). reflexivity.
    + rewrite (in_int_test _ Hin). cbv zeta. eexists. split; [reflexivity|].
      match goal with
      | |- context [if ?b then _ else _] => destruct b
      end; reflexivity.
Qed.

Lemma runnum_unchecked_witness :
  let c := Control_init 0 in
  let c0 := with_poll (set_had_error false (poll c)) c in
  let r := CommandControl_pass crate "runnum" "-1" c in
  (forall ch rest,
     "-1"%string = String ch rest -> Args.is_space ch = false ->
     Args.is_digit ch = false -> ch <> "-"%char -> ch <> "+"%char ->
     r = Uncaught Args.StoiInvalidArgument c0) /\
  (forall neg ds,
     "-1"%string = Args.numeral neg ds -> Args.all_digits ds = true ->
     (~ Args.in_int (Args.numeral_val neg ds) ->
      r = Uncaught Args.StoiOutOfRange c0) /\
     (Args.in_int (Args.numeral_val neg ds) ->
      exists c', r = Prompt c' /\
        next_run_num (poll c') =
          to_word (next_free_run crate (to_word (Args.numeral_val neg ds))))).
Proof.
  apply (runnum_unchecked crate "-1" (Control_init 0)); reflexivity.
Defined.

(** [runnum -1] in [crate], where the file of every run number that is
    tried exists already: 4294967295 is tried first, and the next number,
    4294967296, is stored as 0. *)
Example runnum_minus_one :
  let r := CommandControl_pass crate "runnum" "-1" (Control_init 0) in
  next_run_num (poll (command_ctl r (Control_init 0))) = 0 /\
  In (Say (MsgRunNumberSet 0)) (trace (command_ctl r (Control_init 0))).
Proof. vm_compute. split; [reflexivity|]. tauto. Qed.

(* ===================================================================== *)
(** ** [Close] and [synch_mods] *)

(** X21. [Close] on an initialised controller returns [true], leaves no
    output file open and clears [init_], so that a second call does nothing
    and returns [false].  If a file was open, it is closed, and the client
    is told so, only after the socket of the client has been closed. *)
Theorem Close_closes_file_after_socket (cfg : Config) (c : Control) :
  init_ c = true ->
  let r := Close cfg c in
  fst r = true /\ init_ (snd r) = false /\
  is_open (output_file (poll (snd r))) = false /\
  Close cfg (snd r) = (false, snd r) /\
  (is_open (output_file (poll c)) = true ->
   exists l1 l2,
     trace (snd r) = trace c ++ l1 ++ ClientClose :: l2 /\
     In (Inner FileClose) l2 /\
     In (Inner (ClientMessage "$CLOSE_FILE" 12)) l2).
Proof.
  intros Hi.
  destruct c as [s ka sa rb ex dm im ml len ini rt dir pre ti fmt num ft ast tr].
  destruct s as [ar sm qu dbg th fs he ds rd fo nr pe fd ofl o].
  destruct ofl as [op sz sb]. cbn in Hi. subst ini.
  destruct op; ctl_compute;
    (repeat split; try reflexivity; try discriminate).
  exists [Inner (ClientMessage "$KILL_SOCKET" 13)]. eexists.
  split; [reflexivity|]. cbn. split; auto 10.
Qed.

Lemma Close_closes_file_after_socket_witness :
  let c := set_init_ true (controlling (recording 65552)) in
  let r := Close crate c in
  fst r = true /\ init_ (snd r) = false /\
  is_open (output_file (poll (snd r))) = false /\
  Close crate (snd r) = (false, snd r) /\
  (is_open (output_file (poll c)) = true ->
   exists l1 l2,
     trace (snd r) = trace c ++ l1 ++ ClientClose :: l2 /\
     In (Inner FileClose) l2 /\
     In (Inner (ClientMessage "$CLOSE_FILE" 12)) l2).
Proof.
  apply (Close_closes_file_after_socket crate
           (set_init_ true (controlling (recording 65552)))).
  reflexivity.
Defined.

Section Synch.
Variables (cfg : Config) (write_ok : string -> Z -> nat -> bool).

Lemma synch_loop_spec (mods : list nat) (h : bool) (c : Control) :
  let r := synch_loop write_ok mods h c in
  fst r = h || existsb (fun m => negb (write_ok "IN_SYNCH" 0 m)) mods /\
  firstTime (snd r) = firstTime c /\
  trace (snd r) =
    trace c ++ map (fun m => PifWriteSglModPar "IN_SYNCH" 0 m
                               (write_ok "IN_SYNCH" 0 m)) mods.
Proof.
  revert h c. induction mods as [|m rest IH]; intros h c.
  - cbn. rewrite orb_false_r, app_nil_r. repeat split.
  - cbn [synch_loop existsb map]. cbv zeta.
    specialize (IH (if negb (write_ok "IN_SYNCH" 0 m) then true else h)
                   (log (PifWriteSglModPar "IN_SYNCH" 0 m
                           (write_ok "IN_SYNCH" 0 m)) c)).
    cbv zeta in IH. destruct IH as (I1 & I2 & I3).
    rewrite I1, I2, I3. split; [|split].
    + destruct (write_ok "IN_SYNCH" 0 m), h; reflexivity.
    + reflexivity.
    + cbn. rewrite <- app_assoc. reflexivity.
Qed.

End Synch.

(** X22. [synch_mods] returns [true] exactly when every write succeeded;
    it writes [IN_SYNCH] to every module even after a write has failed; and
    it writes [SYNCH_WAIT] in its first call only, whether or not that
    write succeeded. *)
Theorem synch_mods_writes_all (cfg : Config)
    (write_ok : string -> Z -> nat -> bool) (c : Control) :
  let r := synch_mods cfg write_ok c in
  (fst r = true <->
   (firstTime c = true -> write_ok "SYNCH_WAIT"%string 1 O = true) /\
   forall m, (m < n_cards cfg)%nat -> write_ok "IN_SYNCH"%string 0 m = true) /\
  firstTime (snd r) = false /\
  trace (snd r) =
    trace c
    ++ (if firstTime c
        then [PifWriteSglModPar "SYNCH_WAIT" 1 O
                (write_ok "SYNCH_WAIT"%string 1 O)]
        else [])
    ++ map (fun m => PifWriteSglModPar "IN_SYNCH" 0 m
                       (write_ok "IN_SYNCH"%string 0 m)) (seq 0 (n_cards cfg))
    ++ [Say (MsgSynchronizing (fst r))].
Proof.
  unfold synch_mods.
  set (p := if firstTime c then _ else (false, c)).
  assert (Hp : fst p = firstTime c && negb (write_ok "SYNCH_WAIT"%string 1 O) /\
               firstTime (snd p) = false /\
               trace (snd p) =
                 trace c ++
                 (if firstTime c
                  then [PifWriteSglModPar "SYNCH_WAIT" 1 O
                          (write_ok "SYNCH_WAIT"%string 1 O)]
                  else [])).
  { subst p. destruct (firstTime c) eqn:Hf; cbn.
    - repeat split.
    - rewrite app_nil_r. repeat split. exact Hf. }
  clearbody p. destruct p as [h c1]. cbn [fst snd] in Hp.
  destruct Hp as (P1 & P2 & P3).
  pose proof (synch_loop_spec write_ok (seq 0 (n_cards cfg)) h c1) as L.
  cbv zeta in L.
  destruct (synch_loop write_ok (seq 0 (n_cards cfg)) h c1) as [h' c2].
  cbn [fst snd] in L. destruct L as (L1 & L2 & L3).
  cbn [fst snd]. split; [|split].
  - rewrite negb_true_iff, L1, P1, orb_false_iff, andb_false_iff.
    split.
    + intros [A B]. split.
      * intros Hf. destruct A as [A|A]; [congruence|].
        now apply negb_false_iff in A.
      * intros m Hm.
        destruct (write_ok "IN_SYNCH"%string 0 m) eqn:E; [reflexivity|].
        assert (X : existsb (fun m => negb (write_ok "IN_SYNCH"%string 0 m))
                      (seq 0 (n_cards cfg)) = true).
        { apply existsb_exists. exists m. split; [apply in_seq; lia|].
          rewrite E. reflexivity. }
        congruence.
    + intros [A B]. split.
      * destruct (firstTime c); [right|left; reflexivity].
        rewrite (A eq_refl). reflexivity.
      * apply not_true_iff_false. intros X. apply existsb_exists in X.
        destruct X as (m & Hm & Hw). apply in_seq in Hm.
        rewrite (B m) in Hw by lia. discriminate.
  - cbn. congruence.
  - cbn. rewrite L3, P3. rewrite <- !app_assoc. reflexivity.
Qed.

(* ===================================================================== *)
(** ** Start commands *)

Section StartFacts.
Variable cfg : Config.

(** The pass that follows a start command on an idle controller, up to
    the part for a running acquisition. *)
Lemma RunControl_pass_after_start (record_ : bool) (w : Pass) (c : Control) :
  kill_all c = false -> do_reboot c = false -> doMcaRun_ c = false ->
  acq_running (poll c) = false -> do_stop_acq (poll c) = false ->
  exists c4,
    do_start_acq c4 = false /\
    acq_running (poll c4) =
      (negb record_ || path_writable cfg) && list_mode_starts w /\
    record_data (poll c4) = record_ && path_writable cfg /\
    is_open (output_file (poll c4)) =
      (if record_ then path_writable cfg else is_open (output_file (poll c))) /\
    had_error (poll c4) =
      (record_ && negb (path_writable cfg)) || negb (list_mode_starts w) /\
    time_is_up w c4 = false /\ do_stop_acq (poll c4) = false /\
    RunControl_pass cfg w
      (command_ctl (CommandControl_pass cfg (start_command record_) "" c) c) =
      if record_ && negb (path_writable cfg) then Done (Again c4)
      else c5 <- RunControl_acq cfg w c4 ;;
           c6 <- pass_tail c5 ;; Done (Again c6).
Proof.
  intros Hk Hr Hd Ha Hs. unfold RunControl_pass.
  remember (RunControl_acq cfg w) as acq eqn:Hacq. clear Hacq.
  remember pass_tail as tail eqn:Htail. clear Htail.
  destruct c as [s ka sa rb ex dm im ml len ini rt dir pre ti fmt num ft ast tr].
  destruct s as [ar sm qu dbg th fs he ds rd fo nr pe fd ofl o].
  destruct ofl as [op sz sb].
  destruct cfg as [mfr efl nc slot pw ffs nfr].
  destruct w as [ms mm mrt mst lms sc ck rs wl ff].
  cbn in Hk, Hr, Hd, Ha, Hs. subst ka rb dm ar ds.
  destruct record_, op, pw, lms; ctl_compute;
    (eexists; repeat split; [..|reflexivity]; reflexivity).
Qed.

End StartFacts.

(** X23. A start command on an idle controller takes effect in the next
    pass of [RunControl]: after it the acquisition is running exactly when
    the modules started and, for [run], the output file could be opened.
    If the file could not be opened, the modules are not asked to start and
    the error flag is set. *)
Theorem start_command_starts_run (cfg : Config) (record_ : bool) (w : Pass)
    (c : Control) (r : pass_end) :
  kill_all c = false -> do_reboot c = false -> doMcaRun_ c = false ->
  acq_running (poll c) = false -> do_stop_acq (poll c) = false ->
  RunControl_pass cfg w
    (command_ctl (CommandControl_pass cfg (start_command record_) "" c) c)
    = Done r ->
  exists c',
    r = Again c' /\ do_start_acq c' = false /\
    acq_running (poll c') =
      (negb record_ || path_writable cfg) && list_mode_starts w /\
    (record_ = true -> path_writable cfg = false ->
     had_error (poll c') = true /\ record_data (poll c') = false /\
     is_open (output_file (poll c')) = false).
Proof.
  intros Hk Hr Hd Ha Hs H.
  destruct (RunControl_pass_after_start cfg record_ w c Hk Hr Hd Ha Hs)
    as (c4 & A1 & A2 & A3 & A4 & A5 & A6 & A7 & E).
  rewrite E in H. clear E.
  destruct (record_ && negb (path_writable cfg)) eqn:Hfail.
  - injection H as <-. exists c4.
    split; [reflexivity|]. split; [exact A1|]. split; [exact A2|].
    intros Hrec Hpw. rewrite Hrec, Hpw in *.
    split; [exact A5|]. split; [exact A3 | exact A4].
  - destruct (RunControl_acq cfg w c4) as [c5| |] eqn:E; cbn [bind] in H;
      try discriminate.
    destruct (pass_tail c5) as [c6| |] eqn:Et; cbn [bind] in H;
      try discriminate.
    injection H as <-. exists c6.
    destruct (pass_tail_frame c5 c6 Et) as (T1 & T2 & _). unfold requests in T2.
    injection T2 as T2 T3 T4 T5 T6 T7. rewrite T1, T3.
    assert (Hc5 : do_start_acq c5 = false /\
                  acq_running (poll c5) = acq_running (poll c4)).
    { destruct (acq_running (poll c4)) eqn:Ha4.
      - apply RunControl_acq_spec in E; [|exact Ha4].
        destruct E as (E1 & E2 & _). apply same_but_poll_requests in E1.
        unfold requests in E1. injection E1 as R1 R2 R3 R4 R5 R6.
        split; [congruence|]. rewrite E2, A6, A7. reflexivity.
      - unfold RunControl_acq in E. rewrite Ha4 in E. cbn in E.
        injection E as <-. split; assumption. }
    destruct Hc5 as [C1 C2]. split; [reflexivity|]. split; [exact C1|].
    split; [congruence|].
    intros Hrec Hpw. rewrite Hrec, Hpw in Hfail. discriminate Hfail.
Qed.

Lemma start_command_starts_run_witness :
  let c := Control_init 0 in
  let w := calm_pass first_fifo 0 in
  let c1 := command_ctl (CommandControl_pass crate (start_command true) "" c) c in
  exists c',
    Again (pass_after (RunControl_pass crate w c1) c1) = Again c' /\
    do_start_acq c' = false /\
    acq_running (poll c') =
      (negb true || path_writable crate) && list_mode_starts w /\
    (true = true -> path_writable crate = false ->
     had_error (poll c') = true /\ record_data (poll c') = false /\
     is_open (output_file (poll c')) = false).
Proof.
  apply (start_command_starts_run crate true (calm_pass first_fifo 0)
           (Control_init 0)).
  - reflexivity.
  - reflexivity.
  - reflexivity.
  - reflexivity.
  - reflexivity.
  - vm_compute. reflexivity.
Defined.

(* ===================================================================== *)
(** ** Invariants *)

Lemma Close_well_formed (cfg : Config) (c : Control) :
  well_formed c -> well_formed (snd (Close cfg c)).
Proof.
  intros [[A B] M]. unfold Close.
  destruct c as [s ka sa rb ex dm im ml len ini rt dir pre ti fmt num ft ast tr].
  destruct s as [ar sm qu dbg th fs he ds rd fo nr pe fd ofl o].
  destruct ofl as [op sz sb]. cbn in B, M.
  destruct ini; [|split; [split|]; assumption].
  destruct op;
    (split; [split|];
     [intros m; unfold partial_ok; cbn; clear; lia
     | first [reflexivity | exact B] | exact M]).
Qed.

Lemma cmd_fdir_wf (cfg : Config) (arg : string) (c : Control) :
  well_formed c -> well_formed (cmd_fdir cfg arg c).
Proof.
  intros Hw. unfold cmd_fdir.
  destruct (String.eqb arg "");
    [eapply well_formed_eq; [..|exact Hw]; reflexivity|].
  destruct (file_open (poll c));
    [eapply well_formed_eq; [..|exact Hw]; reflexivity|].
  cbv zeta.
  set (c1 := match last_char _ with Some _ => _ | None => _ end).
  assert (H1 : well_formed c1).
  { subst c1.
    destruct (last_char _) as [a|];
      [destruct a as [[] [] [] [] [] [] [] []]|];
      (eapply well_formed_eq; [..|exact Hw]; reflexivity). }
  clearbody c1.
  match goal with
  | |- context [if ?b then _ else _] => destruct b
  end; (eapply well_formed_eq; [..|exact H1]; reflexivity).
Qed.

Lemma CommandControl_pass_wf (cfg : Config) (cmd arg : string) (c : Control) :
  well_formed c ->
  well_formed (command_ctl (CommandControl_pass cfg cmd arg c) c).
Proof.
  intros Hw. unfold CommandControl_pass.
  destruct (kill_all c); [exact Hw|].
  destruct (is_cmd cmd "_SIGSEGV_").
  { cbn [command_ctl]. apply Close_well_formed.
    eapply well_formed_eq; [..|exact Hw]; reflexivity. }
  destruct (is_cmd cmd "CTRL_C" && negb (doMcaRun_ c)).
  { eapply well_formed_eq; [..|exact Hw]; reflexivity. }
  destruct (is_cmd cmd "CTRL_Z").
  { eapply well_formed_eq; [..|exact Hw]; reflexivity. }
  set (p := if is_cmd cmd "CTRL_D" then _ else _).
  assert (Hp : well_formed (snd p)).
  { subst p. destruct (is_cmd cmd "CTRL_D");
      [eapply well_formed_eq; [..|exact Hw]; reflexivity|].
    destruct (is_cmd cmd "CTRL_C"); [|exact Hw].
    eapply well_formed_eq; [..|exact Hw]; reflexivity. }
  clearbody p. destruct p as [cmd' c1]. cbn [snd] in Hp.
  destruct (negb (pos_of (Args.find cmd' tab) =? npos)).
  { eapply well_formed_eq; [..|exact Hp]; reflexivity. }
  destruct (negb (pos_of (Args.find arg tab) =? npos)).
  { destruct (_ || _); [|exact Hp].
    eapply well_formed_eq; [..|exact Hp]; reflexivity. }
  destruct (String.eqb cmd' ""); [exact Hp|].
  set (c2 := with_poll _ c1).
  assert (H2 : well_formed c2).
  { subst c2. eapply well_formed_eq; [..|exact Hp]; reflexivity. }
  clearbody c2.
  unfold command, cmd_prefix, cmd_title, cmd_runnum, start_run, stop_run.
  by_cases; cbn [command_ctl]; try exact H2; try exact Hw;
    try (apply cmd_fdir_wf; exact H2);
    (eapply well_formed_eq; [..|exact H2]; reflexivity).
Qed.

(** X24. The bookkeeping of the controller stays consistent.  In the
    initial state (the members as the constructor sets them, the fragments
    empty as [Initialize] allocates them) no carried fragment is longer than
    an event can be, [file_open] tells whether the output file is open, and
    the MCA runs only while an MCA run is requested; and every command that
    [CommandControl] carries out by itself (the ones modelled by [command])
    and every pass of the loop of [RunControl] keeps it so, however they
    end. *)
Theorem well_formed_invariant (cfg : Config) :
  EXTERNAL_FIFO_LENGTH cfg + 16384 <= 2 ^ 32 ->
  (forall thresh, well_formed (Control_init thresh)) /\
  (forall cmd arg c,
     well_formed c ->
     well_formed (command_ctl (CommandControl_pass cfg cmd arg c) c)) /\
  (forall w c r,
     well_formed c -> RunControl_pass cfg w c = Done r ->
     well_formed (pass_ctl r)).
Proof.
  intros Hfit. split; [|split].
  - intros thresh. split; [split|].
    + intros m. unfold partial_ok. cbn. lia.
    + reflexivity.
    + discriminate.
  - intros cmd arg c. apply CommandControl_pass_wf.
  - intros w c r Hw H.
    pose proof (RunControl_pass_wf cfg Hfit w c Hw) as P.
    rewrite H in P. apply P.
Qed.

Lemma well_formed_invariant_witness :
  (forall thresh, well_formed (Control_init thresh)) /\
  (forall cmd arg c,
     well_formed c ->
     well_formed (command_ctl (CommandControl_pass crate cmd arg c) c)) /\
  (forall w c r,
     well_formed c -> RunControl_pass crate w c = Done r ->
     well_formed (pass_ctl r)).
Proof.
  apply (well_formed_invariant crate). vm_compute. discriminate.
Defined.

(** A pass that finds the acquisition running and has no stop to handle
    calls [ReadFIFO] once, on the members as it found them, and leaves them
    as that call left them. *)
Lemma RunControl_pass_reads_once (cfg : Config) (w : Pass) (c : Control)
    (r : pass_end) :
  acq_running (poll c) = true -> kill_all c = false ->
  do_reboot c = false -> doMcaRun_ c = false ->
  do_stop_acq (poll c) = false -> time_is_up w c = false ->
  RunControl_pass cfg w c = Done r ->
  exists b,
    ReadFIFO cfg (fifo w (S (n_cards cfg))) (poll c) =
      Done (b, poll (pass_ctl r)).
Proof.
  intros Ha Hk Hr Hd Hs Ht H.
  rewrite (RunControl_pass_running cfg w c Ha) in H. cbv zeta in H.
  rewrite Hk, Hr, Hd in H. cbn [orb] in H.
  set (c2 := set_do_start_acq false _) in H.
  unfold RunControl_acq in H. cbv zeta in H.
  change (acq_running (poll c2)) with (acq_running (poll c)) in H.
  change (time_is_up w c2) with (time_is_up w c) in H.
  rewrite Ha, Ht in H. cbn [negb] in H.
  change (do_stop_acq (poll c2)) with (do_stop_acq (poll c)) in H.
  rewrite Hs in H. cbn [bind] in H.
  destruct (call_ReadFIFO cfg (fifo w (S (n_cards cfg))) c2) as [c3| |] eqn:E;
    cbn [bind] in H; try discriminate.
  destruct (pass_tail c3) as [c4| |] eqn:Et; cbn [bind] in H;
    try discriminate.
  injection H as <-. cbn [pass_ctl].
  destruct (pass_tail_frame c3 c4 Et) as (-> & _).
  apply call_ReadFIFO_inv in E. destruct E as (b & s' & E & ->).
  exists b. exact E.
Qed.

(** X25. Over any number of calls of [ReadFIFO] that return [true], each
    entered with the members as the call before left them, no word is lost
    and none is sent twice: for every module, the payloads of its sections
    in the spills, put end to end and followed by the fragment still
    carried, are the fragment carried at the start followed by the words
    that the module delivered; and the fragment carried at the end is again
    shorter than the longest event.  This is how the passes of the loop of
    [RunControl] call [ReadFIFO] as long as they have no stop to handle:
    such a pass calls it once, on the members as it found them, and leaves
    them as the call left them.  (The stop sequence, which clears
    [partialEvents] between its calls, is not covered.) *)
Theorem run_is_lossless (cfg : Config) (hws : list Hardware) (s s' : Poll) :
  EXTERNAL_FIFO_LENGTH cfg + 16384 <= 2 ^ 32 ->
  (forall m, partial_ok s m) ->
  run_cycles cfg hws s = Some s' ->
  ((forall m, partial_ok s' m) /\
   forall m, (m < n_cards cfg)%nat ->
     run_payload cfg hws s m ++ partialEvents s' m =
       partialEvents s m ++ run_words cfg hws s m) /\
  (forall w c r,
     acq_running (poll c) = true -> kill_all c = false ->
     do_reboot c = false -> doMcaRun_ c = false ->
     do_stop_acq (poll c) = false -> time_is_up w c = false ->
     RunControl_pass cfg w c = Done r ->
     exists b,
       ReadFIFO cfg (fifo w (S (n_cards cfg))) (poll c) =
         Done (b, poll (pass_ctl r))).
Proof.
  intros Hfit Hp Hrun. split; [split|].
  - revert s Hp Hrun. induction hws as [|hw rest IH]; intros s Hp Hrun.
    + cbn in Hrun. injection Hrun as <-. exact Hp.
    + cbn [run_cycles] in Hrun.
      destruct (ReadFIFO cfg hw s) as [[[|] s1]| |] eqn:Hr; try discriminate.
      apply (IH s1); [|exact Hrun].
      exact (ReadFIFO_partial cfg hw s s1 true Hfit Hp Hr).
  - intros m Hm. exact (run_stream cfg hws s s' m Hfit Hp Hrun Hm).
  - intros w c r. apply RunControl_pass_reads_once.
Qed.

Lemma run_is_lossless_witness :
  let s := acquiring 0 in
  let hws := [first_fifo; second_fifo; first_fifo] in
  let s' := state_after (ReadFIFO crate first_fifo
              (state_after (ReadFIFO crate second_fifo
                 (state_after (ReadFIFO crate first_fifo s) s)) s)) s in
  ((forall m, partial_ok s' m) /\
   forall m, (m < n_cards crate)%nat ->
     run_payload crate hws s m ++ partialEvents s' m =
       partialEvents s m ++ run_words crate hws s m) /\
  (forall w c r,
     acq_running (poll c) = true -> kill_all c = false ->
     do_reboot c = false -> doMcaRun_ c = false ->
     do_stop_acq (poll c) = false -> time_is_up w c = false ->
     RunControl_pass crate w c = Done r ->
     exists b,
       ReadFIFO crate (fifo w (S (n_cards crate))) (poll c) =
         Done (b, poll (pass_ctl r))).
Proof.
  intros s hws s'.
  apply (run_is_lossless crate hws s s').
  - vm_compute. discriminate.
  - intros m. vm_compute. discriminate.
  - vm_compute. reflexivity.
Defined.
